(* ===== verification/_CoqProject ===== *)
-Q . S2P
Prelude.v
GoStrings.v
GoTime.v
GoFloat.v
Calendar.v
GoFormat.v
ApiErr.v
StoreTypes.v
Keys.v
Json.v
Provider.v
Breaker.v
Memory.v
MemoryFacts.v
MemoryProps.v
Catalog.v
Resolve.v
Dispatch.v
DispatchFacts.v
Diagnose.v
Cache.v
Config.v
Limits.v
Quota.v
Middleware.v
Page.v
Capture.v
Telemetry.v
Events.v
Server.v
Data.v
Admin.v
AdminFacts.v
AdminProps.v
Chat.v
ChatProps.v
DataProps.v
Gateway.v
GatewayProps.v
OpenAI.v
OpenAIProps.v
Analytics.v
AnalyticsProps.v
App.v
AppProps.v
Boot.v
BootProps.v
Mock.v
MockProps.v
Metrics.v
Logging.v
System.v
SystemFacts.v
SystemProps.v
