(* ===== verification/Prelude.v ===== *)
(** * CogniGate: verification of the gateway core

    CogniGate is a multi-tenant gateway in front of model providers, written in
    Go (src/gateway). A request is authenticated on one of two planes, held to
    its tenant's limits and quota, resolved against the tenant's model catalog
    (aliases, routing rules, fallback chains) into a list of candidates, and
    dispatched to the first candidate that answers, under a circuit breaker per
    tenant, provider and model. Responses may be cached, or relayed line by line
    as a stream; tenants, keys, providers, rules, quotas and usage live in a
    store that the admin plane edits. Served requests leave usage rows, which
    reach the store through a bounded buffer, and transitions worth telling
    leave events, which reach webhooks through a worker pool. The process reads
    a file and the environment, builds these parts and drains them on a signal;
    a mock provider (src/conformance) stands in for upstreams in the tests.

    ** Conventions

    Go functions are translated to functions over explicit state. A function
    that returns an error returns [res]; a Go [error] is a value of
    [ApiErr.error]. 64-bit integers and durations are [Z] with the wrap-around
    written out where it can happen ([GoTime.wrap64]); an instant is a [Z] of
    nanoseconds since the zero time; [float64] is the Standard Library's
    executable IEEE 754 ([GoFloat]); strings are byte strings. Maps are [gmap],
    lists are lists. The clock, random bytes and the replies of upstream
    services are arguments. Methods that hold a mutex for their whole body are
    atomic, so an execution is a sequence of them ([run], [run_mem],
    [run_cache], [run_cl]). Code that blocks between critical sections, the
    telemetry worker and the webhook workers, is a step function whose events
    are the moves of the environment ([Telemetry.step], [Events.wstep]), so a
    theorem about [run] is about every interleaving. The whole gateway is such a
    machine ([System.sys_step]): a request arrives in one event, where the drain
    gate and the body ceiling let it in or not, and is served in a later one; the
    end of a stream is a third. So requests in flight, open streams, the
    goroutines that emit breaker and catalog events, the workers, the capture
    sweeper, the admin plane and a shutdown interleave, and a drain finds
    requests in flight; but two requests do not interleave between their
    authentication and their answer, and the clock readings and random draws of
    a request come with its arrival. What leaves for an upstream is kept in two
    logs: the completions sent ([Dispatch.d_calls]) and the model listings asked
    for ([Catalog.cat_polls]). A handler is a function
    from the server to an answer and the server after it ([Server.handler]); a
    chat handler threads the request's headers, outcome and rows as well
    ([Chat.chatCtx]). What is not the gateway's own code is a class with
    laws that state its documented behaviour: [Unicode] (case folding beyond
    ASCII), [Crypto] (SHA-256), [JsonCodec] and [JsonStream] (encoding/json),
    [HttpDates], [JsonNumbers] and [NetUrl], [Prometheus] with
    [PrometheusLaws], and [MockFacts.JsonLines] (a document may be followed by a
    line end); each has an instance the witnesses use. The law of [JsonCodec], that
    a document that was written reads back as it was, is stated for every
    document of the model; encoding/json keeps it for documents whose strings are
    valid UTF-8 and whose number literals are numbers, which is what the code
    writes. Other such code is a
    function argument: the exchange of a request for a reply ([exchange]), the
    YAML decoder ([unmarshal]), the file system ([read_file]), the float parser
    of the environment ([parse_float]), the key pair loader ([load_keypair]),
    the texts of library errors ([url_error], [json_error]), and whether a
    client sits out a silence ([waits]).

    ** Files

    - Prelude: results, tactics, hint databases, list lemmas, and sorting with
      the proof that a separating comparison has one sorted outcome.
    - GoStrings, GoTime, GoFloat, Calendar: the parts of Go's strings, time and
      float64 the code uses. [Calendar] is time.Date and AddDate in UTC.
    - GoFormat: the decimal rendering of numbers and instants.
    - ApiErr (internal/apierr): the error registry, [From], [Envelope].
    - StoreTypes, Keys (internal/store/types.go, keys.go): the stored records,
      credentials and ids.
    - Json, Provider (internal/provider): documents, failure classes, registry.
    - Breaker (internal/routing/breaker.go): [Allow], [Success], [Failure].
    - Memory, MemoryFacts, MemoryProps (internal/store/memory.go): the store's
      operations, its invariant [mem_ok] preserved by each, and what clients
      rely on.
    - Catalog (internal/catalog): [refresh], the snapshot cache, [diff].
    - Resolve, Dispatch, DispatchFacts, Diagnose (internal/routing): candidate
      resolution, the cascade, key pools, and the routing report. They see the
      store through the class [RoutingStore], of which the in-memory store is
      an instance, and a snapshot through [IndexedSnapshot], which a refresh
      establishes.
    - Cache (internal/cache): the response cache and its keys.
    - Config (internal/config): the configuration and its validation.
    - Limits (internal/server/limits.go and the concurrency limiter of
      middleware.go): overrides, rate and concurrency limits, [limitTenant].
    - Quota (internal/server/quota.go): positions, verdicts, announcements, over
      the class [QuotaStore].
    - Middleware (internal/server/middleware.go, internal/httpx): [auth] over the
      class [KeyStore], the body ceiling, the drain gate and [Fail].
    - Page (internal/server/page.go): the list envelope.
    - Capture (internal/capture, internal/server/capture.go, cache.go): the
      debug capture buffer, its policies and middleware.
    - Telemetry (internal/obs/telemetry.go): the buffer between requests and the
      usage sink, its retries, its drain, and the ledger it implements.
    - Events (internal/events): emission, queue, workers, signatures, hooks.
    - Server (internal/server/server.go): the state of the assembled server and
      its own handlers.
    - Data, DataProps (internal/server/data.go): models, usage, health, meta.
    - Admin, AdminFacts, AdminProps (internal/server/admin.go, audit.go): every
      admin route over the store, with scopes, validation and the audit log.
    - Chat, ChatProps (internal/server/chat.go): completions, cache policy,
      metering and the stream relay.
    - Gateway, GatewayProps (server.go's routes, middleware.go, httpx): a
      data-plane request from its arrival to its access line, and the end of a
      stream.
    - OpenAI, OpenAIProps (internal/provider/openai.go, compat.go): what the
      adapters send, and how they read replies and listings.
    - Analytics, AnalyticsProps (internal/analytics): the client of the usage
      service, the store composed with it, and its part in telemetry and quotas.
    - App, AppProps (app.go, main.go): [build], development credentials, the
      breaker's observers, [app_Shutdown], [app_Close].
    - Boot, BootProps (config.go's Load and applyEnv, obs/log.go, main.go): from
      flags, file and environment to a served process and back.
    - Mock, MockProps (src/conformance/mockprovider): models, faults,
      completions, the webhook sink and the control interface.
    - Metrics (internal/obs/metrics.go): the series, every write to one and the
      catalog's age at scrape time.
    - Logging (internal/obs/log.go, middleware.go, chat.go): the handler of log
      lines, its levels and field names, and the lines of a request.
    - System, SystemFacts, SystemProps (server.go's routes and Shutdown, app.go):
      the assembled gateway as one machine, the footprint of each request, and
      the theorems about its runs. It is the deployment without an analytics
      service.

    ** What the theorems show

    - Dispatch: a verdict ends the cascade and the caller gets it; attempts
      account for every candidate; calls carry the right credential and body;
      key rotation is fair and cooldowns are kept; the breaker stays well formed.
    - Breaker: the trip rule, agreement of the gauge with the next request,
      one probe at a time, isolation of keys, legal callback sequences.
    - Resolve, Catalog, Diagnose: soundness and completeness of resolution, the
      order of alias candidates, consistency of snapshots, stale over failing,
      and reports that agree with what requests do.
    - Store: the reachable invariant, life and death of a credential, isolation
      of tenants, breakdowns that partition usage.
    - Cache: refinement of an unbounded map, least-recently-used eviction, keys
      that never cross tenants short of a hash collision.
    - Limits and Quota: counters equal open permits, the minute ceiling over
      any interval and any interleaving, exact refusals, announcements once per
      crossing, calendar windows that tile time.
    - Middleware and Page: exactly who is authenticated; paging that enumerates.
    - Capture: what is held is recent, within budget and deleted on time.
    - Chat: the caller gets the upstream's bytes and is told whose they are, is
      metered exactly once, never gets another tenant's stored answer, reaches
      nobody once over its cap; streams are relayed line for line, the relay
      ends with its source, and no body makes the handler panic.
    - Gateway: whoever is turned away changes nothing, usage is charged to the
      credential presented, permits balance over requests and streams.
    - Admin: a tenant's key is confined to its tenant (what is compared is
      [AdminProps.same_view]: store, catalog, cache, captures and quota positions,
      not breaker, limiter, webhook queue or the common audit log), gains no
      scope, and sees other tenants as missing; what is stored is valid; mutations are audited;
      the secret shown once authenticates; deletion leaves nothing.
    - Data: unavailable means no path; reports are the tenant's own; the usage
      state shown is the one enforced.
    - Telemetry and Events: the buffer refines a ledger in which every record is
      written or counted, an outage loses nothing, shutdown ends; deliveries
      follow their schedule under any interleaving of workers, signatures bind
      bodies, and a subscriber knows where each breaker stands.
    - OpenAI: for every reply, what the cascade does about it; composed with
      Dispatch and Chat, nobody gets a cut answer; a listing never shows a key.
    - Analytics: the service's answer decides whether a record is kept, given up
      or settled; queries ask what was meant; an outage refuses nobody.
    - App and Boot: each setting has one origin; every process that serves does
      so from a sound state and stays valid under any admin requests;
      development credentials work and production mints none; the gauge shows
      the breaker; a signal drains before it stops.
    - Mock: suites on different models do not meet, counted faults run out, and
      through the adapter and the relay each fault means to the gateway what it
      is called, before the first byte and after it.
    - Metrics: all series register, no write panics but that of a negative token
      count, where [Chat.record] panics too, and a scrape ages the live catalog.
    - Logging: the access line has the published fields, each once, and when it
      is written.
    - System, from the start of a process over any interleaving: every state is
      sound; usage is conserved from the request that caused it to the store;
      completions go out only for a key that was let in, to its own tenant's
      providers, and listings only to providers of a tenant the caller may act
      on; a revoked credential is never let in again; a drain serves what was in
      flight and lets nothing else in, and a shutdown can always be finished with
      every permit back and every row written or counted.

    Some theorems state where the code departs from its comments: a client
    error strands a half-open probe, deleting a tenant keeps its quotas and
    events, ids with a slash lose their vendor, a qualified id can be taken,
    breaker keys can collide, a sweep forgets buckets that have not refilled, a
    key's crossing can go unannounced, a request's own Retry-After header
    suppresses the response's, huge lifetimes pass validation, a record offered
    after shutdown vanishes, a failed probe is announced again, an address is
    stored untrimmed, null messages are filled in, disabled providers look like
    an outage, consumption and remainder can exceed the cap, a correlation id
    can outgrow its ceiling, the largest response ceiling empties every answer,
    a record that cannot be encoded blocks the usage queue, a markup may be NaN,
    the development banner can name a key that does not work, a log level its
    parser tolerates stops the start, an upstream's negative token count panics
    the handler or, in a stream, the process, a key's quota hides its tenant's
    gauge, a refused completion leaves two lines in the log, the value of a panic
    is logged, and in the mock a model added again is listed twice and an unparsable
    delivery hides the others.

    ** Bounds and fuel

    No property rests on fuel running out. [Cache.evict] is given the number of
    entries, [GoStrings.TrimSpace] and [Gateway.drop_controls] the length of the
    string, and [Page.follow] one more than the number of items; the theorems
    show these are enough. All other recursion is structural.

    ** Not modelled

    HTTP transport, TLS and the router's path matching (Fiber, net/http), of
    which [System.addressed] is what the drain relies on;
    goroutine scheduling inside a critical section; the YAML decoder and the
    flag parser; the listener and the delivery of signals, which are what
    [Boot.serve] is told; the exposition format and the standard collectors of
    Prometheus; log lines other than telemetry's and those of a request. The
    analytics service is a separate Java program behind [Analytics], and the
    conformance tests that drive the mock are tests. What is left of the
    implementation files is imports, comments, accessors of the request's locals
    (the fields of [Server.HttpReq]) and the interface of the store, whose
    methods the classes [RoutingStore], [QuotaStore] and [KeyStore] divide. A
    panic of a handler is an answer of [Server.recovered]; it skips capture, and
    the access line, which the code does not write then, is not part of the
    answer. *)

From stdpp Require Export base tactics option list list_numbers sorting.
From stdpp Require Export strings gmap fin_maps.
From Stdlib Require Export ZArith Lia.

(** ** Results

    Go functions that return [(T, error)] are translated to [res E T]; the
    error type [E] is a value, never an exception. *)

Inductive res (E A : Type) : Type :=
  | Ok (a : A)
  | Err (e : E).
Arguments Ok {E A} a.
Arguments Err {E A} e.

Declare Scope gate_scope.
Delimit Scope gate_scope with gate.

Definition res_bind {E A B} (m : res E A) (k : A → res E B) : res E B :=
  match m with Ok a => k a | Err e => Err e end.
Definition is_ok {E A} (m : res E A) : bool :=
  match m with Ok _ => true | Err _ => false end.

Notation "'let!' x := m 'in' k" := (res_bind m (λ x, k))
  (at level 10, x pattern, m at level 100, k at level 200) : gate_scope.

(** ** Hint databases and tactics *)

Create HintDb gate.
Create Rewrite HintDb gate_rw.

(** Splits every conditional of the goal or of a hypothesis. *)
Ltac split_if :=
  repeat match goal with
  | H : context [if ?b then _ else _] |- _ => destruct b eqn:?
  | |- context [if ?b then _ else _] => destruct b eqn:?
  end.

(** Splits matches and conditionals and closes the contradictory branches. *)
Ltac cases :=
  repeat (case_match || case_decide); simplify_eq/=; try done.

(** ** Booleans *)

Lemma bool_true_not_false (b : bool) : b = true → b = false → False.
Proof. congruence. Qed.

Lemma negb_true_false (b : bool) : negb b = true ↔ b = false.
Proof. by destruct b. Qed.

(** ** Lists *)

Lemma elem_of_snoc {A} (x y : A) l : x ∈ l ++ [y] ↔ x ∈ l ∨ x = y.
Proof. by rewrite elem_of_app, list_elem_of_singleton. Qed.

Lemma elem_of_snoc_l {A} (x y : A) l : x ∈ l → x ∈ l ++ [y].
Proof. rewrite elem_of_snoc. auto. Qed.

Lemma elem_of_snoc_r {A} (y : A) l : y ∈ l ++ [y].
Proof. rewrite elem_of_snoc. auto. Qed.

Lemma filter_bool_perm {A} (f : A → bool) l l' :
  l ≡ₚ l' → List.filter f l ≡ₚ List.filter f l'.
Proof.
  induction 1 as [|x l l' Hp IH|x y l|l1 l2 l3 _ IH1 _ IH2]; simpl; [done| | |by etrans].
  - destruct (f x); [by constructor|done].
  - destruct (f x), (f y); try done. apply perm_swap.
Qed.

Lemma elem_of_filter_bool {A} (f : A → bool) l x : x ∈ List.filter f l ↔ x ∈ l ∧ f x = true.
Proof. by rewrite list_elem_of_In, List.filter_In, <-list_elem_of_In. Qed.

(** A filter asks only about the elements it sees. *)
Lemma filter_agree {X} (P Q : X → Prop) `{!∀ x, Decision (P x), !∀ x, Decision (Q x)} (l : list X) :
  (∀ x, x ∈ l → P x ↔ Q x) → filter P l = filter Q l.
Proof.
  induction l as [|y l IH]; intros Hl; [done|]. rewrite !filter_cons, IH by (intros x ?; apply Hl; by right).
  pose proof (Hl y (list_elem_of_here _ _)). repeat case_decide; tauto.
Qed.

(** Occurrences, counted by their positions. *)
Lemma filter_positions {X} `{EqDecision X} (x : X) (l : list X) :
  length (List.filter (λ q, bool_decide (q = x)) l) = length (filter (λ p, l !! p = Some x) (seq 0 (length l))).
Proof.
  induction l as [|y l IH] using rev_ind; [done|].
  rewrite List.filter_app, !length_app, seq_app, filter_app, length_app, IH. simpl. f_equal.
  - f_equal. apply filter_agree. intros p Hp%elem_of_seq. by rewrite lookup_app_l by lia.
  - rewrite filter_cons, filter_nil, list_lookup_middle by done. case_bool_decide; case_decide; naive_solver.
Qed.

#[export] Hint Resolve elem_of_snoc_l elem_of_snoc_r : gate.

(** An element of a list is told by a key no two elements share. *)
Lemma NoDup_fmap_eq {A B} (f : A → B) l x y :
  NoDup (f <$> l) → x ∈ l → y ∈ l → f x = f y → x = y.
Proof.
  intros Hnd [i Hi]%list_elem_of_lookup_1 [j Hj]%list_elem_of_lookup_1 E.
  assert (i = j) as ->; [|congruence].
  eapply (NoDup_lookup _ _ _ (f x) Hnd); rewrite list_lookup_fmap; [by rewrite Hi|].
  rewrite Hj. simpl. by rewrite E.
Qed.

(** ** Sorting

    [sort.Slice] and [sort.SliceStable] take the comparison as a boolean
    [less]. [sort_slice] is a stable insertion sort; [sort_slice_unique] shows
    that when [less] tells the elements apart the outcome is the only sorted
    permutation, so the algorithm behind [sort.Slice] does not matter. *)

Section sort.
Context {A : Type} (less : A → A → bool).

Fixpoint insert_sorted (x : A) (l : list A) : list A :=
  match l with
  | [] => [x]
  | y :: l' => if less y x then y :: insert_sorted x l' else x :: y :: l'
  end.

Definition sort_slice (l : list A) : list A := foldr insert_sorted [] l.

Lemma insert_sorted_perm x l : insert_sorted x l ≡ₚ x :: l.
Proof.
  induction l as [|y l IH]; simpl; [done|].
  destruct (less y x); [|done]. rewrite IH. constructor.
Qed.

Lemma sort_slice_perm l : sort_slice l ≡ₚ l.
Proof.
  induction l as [|x l IH]; simpl; [done|]. by rewrite insert_sorted_perm, IH.
Qed.

Lemma sort_slice_length l : length (sort_slice l) = length l.
Proof. by rewrite sort_slice_perm. Qed.

Lemma elem_of_sort_slice x l : x ∈ sort_slice l ↔ x ∈ l.
Proof. by rewrite sort_slice_perm. Qed.

(** [ordered a b]: a sorted slice may have [a] in front of [b]. *)
Definition ordered (a b : A) : Prop := less b a = false.

(** [less] is a strict weak order on the elements satisfying [P]. *)
Record weak_order (P : A → Prop) : Prop := {
  wo_asym x y : P x → P y → less x y = true → less y x = false;
  wo_negtrans x y z : P x → P y → P z →
    less x z = true → less x y = true ∨ less y z = true
}.

Context {P : A → Prop} (HP : weak_order P).

Lemma ordered_trans x y z :
  P x → P y → P z → ordered x y → ordered y z → ordered x z.
Proof.
  unfold ordered. intros Hx Hy Hz H1 H2.
  destruct (less z x) eqn:E; [|done].
  destruct (wo_negtrans P HP z y x Hz Hy Hx E); congruence.
Qed.

Lemma insert_sorted_sorted x l :
  P x → Forall P l → StronglySorted ordered l →
  StronglySorted ordered (insert_sorted x l).
Proof.
  intros Hx HF HS. induction HS as [|y l HS IH Hy]; simpl.
  { repeat constructor. }
  apply Forall_cons in HF as [HPy HF].
  destruct (less y x) eqn:E.
  - constructor; [by apply IH|].
    rewrite insert_sorted_perm. constructor; [|done].
    by apply (wo_asym P HP).
  - constructor; [by constructor|]. constructor; [done|].
    eapply Forall_impl; [apply Forall_and; split; [exact HF|exact Hy]|].
    intros z [Hz Hyz]. by apply ordered_trans with y.
Qed.

Lemma sort_slice_sorted l : Forall P l → StronglySorted ordered (sort_slice l).
Proof.
  induction l as [|x l IH]; simpl; [constructor|].
  intros [Hx HF]%Forall_cons. apply insert_sorted_sorted; [done| |auto].
  by rewrite sort_slice_perm.
Qed.

(** The elements of [l] are told apart by [less]. *)
Definition separated (l : list A) : Prop :=
  ∀ x y, x ∈ l → y ∈ l → less x y = false → less y x = false → x = y.

Lemma sort_slice_unique l l' :
  Forall P l → separated l →
  l' ≡ₚ l → StronglySorted ordered l' → l' = sort_slice l.
Proof.
  intros HF Hsep Hp HS.
  apply (StronglySorted_unique_strong ordered); [|done|by apply sort_slice_sorted|].
  - intros x y Hx Hy H1 H2. apply Hsep; [| |done..].
    + by rewrite <-Hp.
    + by rewrite elem_of_sort_slice in Hy.
  - by rewrite sort_slice_perm.
Qed.

Lemma sort_slice_perm_eq l l' :
  Forall P l → separated l → l ≡ₚ l' → sort_slice l = sort_slice l'.
Proof.
  intros HF Hsep Hp. symmetry. apply sort_slice_unique; [done..| |].
  - by rewrite sort_slice_perm.
  - apply sort_slice_sorted. by rewrite <-Hp.
Qed.
End sort.
Arguments ordered {A} less a b /.

(** Comparisons that look at a second key when the first does not tell the
    elements apart. *)
Section lex.
Context {A : Type} (eqb lt1 lt2 : A → A → bool) (P : A → Prop).
Context (H1 : weak_order lt1 P) (H2 : weak_order lt2 P).
Context (Heq : ∀ x y, P x → P y → eqb x y = negb (lt1 x y) && negb (lt1 y x)).

Definition lex (x y : A) : bool := if negb (eqb x y) then lt1 x y else lt2 x y.

Lemma lex_weak : weak_order lex P.
Proof.
  destruct H1 as [A1 N1], H2 as [A2 N2]. unfold lex. split.
  - intros x y Hx Hy. rewrite !Heq by done.
    destruct (lt1 x y) eqn:E1, (lt1 y x) eqn:E2; simpl; auto; intros _.
    by rewrite (A1 x y) in E2.
  - intros x y z Hx Hy Hz. rewrite !Heq by done.
    pose proof (N1 x y z Hx Hy Hz). pose proof (N1 y z x Hy Hz Hx).
    pose proof (N1 z x y Hz Hx Hy). pose proof (N2 x y z Hx Hy Hz).
    pose proof (N1 y x z Hy Hx Hz). pose proof (N1 x z y Hx Hz Hy).
    pose proof (N1 z y x Hz Hy Hx).
    destruct (lt1 x z), (lt1 z x), (lt1 x y), (lt1 y x), (lt1 y z), (lt1 z y); simpl in *;
      intuition (discriminate || auto).
Qed.
End lex.
