(* ===== verification/GoStrings.v ===== *)
(** * The parts of Go's [strings] package the gateway uses

    A Go string is a byte string, modelled as [string] (a list of 8-bit
    characters). Slicing, [SplitN], [Cut], [TrimSpace], the prefix and suffix
    operations and the byte-wise order [<] are defined here in full;
    [TrimSpace] knows the UTF-8 encoding of every Unicode white space rune.
    Case mapping is exact on ASCII strings. What the Unicode tables say of a
    string that holds a byte above 127 is the class [Unicode]: two operations
    and the laws of case folding as an equivalence. *)

From S2P Require Import Prelude.
From Stdlib Require Import Ascii.

#[local] Open Scope stdpp_scope.

(** ** Slicing *)

Fixpoint str_take (n : nat) (s : string) : string :=
  match n, s with
  | S n', String c s' => String c (str_take n' s')
  | _, _ => ""
  end.

Fixpoint str_drop (n : nat) (s : string) : string :=
  match n, s with
  | S n', String _ s' => str_drop n' s'
  | O, s => s
  | S _, "" => ""
  end.

Fixpoint str_has (c : ascii) (s : string) : bool :=
  match s with
  | "" => false
  | String d s' => bool_decide (c = d) || str_has c s'
  end.

Fixpoint str_rev_app (s acc : string) : string :=
  match s with
  | "" => acc
  | String c s' => str_rev_app s' (String c acc)
  end.
Definition str_rev (s : string) : string := str_rev_app s "".

(** [strings.Repeat] *)
Fixpoint Repeat (s : string) (n : nat) : string :=
  match n with O => "" | S n' => s +:+ Repeat s n' end.

(** [strings.Join] *)
Fixpoint Join (parts : list string) (sep : string) : string :=
  match parts with
  | [] => ""
  | [p] => p
  | p :: ps => p +:+ sep +:+ Join ps sep
  end.

(** ** Prefixes and suffixes *)

(** [strings.HasPrefix] *)
Definition HasPrefix (s pre : string) : bool := String.prefix pre s.
(** [strings.TrimPrefix] *)
Definition TrimPrefix (s pre : string) : string :=
  if HasPrefix s pre then str_drop (String.length pre) s else s.
(** [strings.HasSuffix] *)
Definition HasSuffix (s suf : string) : bool :=
  String.prefix (str_rev suf) (str_rev s).
(** [strings.TrimSuffix] *)
Definition TrimSuffix (s suf : string) : string :=
  if HasSuffix s suf then str_take (String.length s - String.length suf) s else s.

(** [strings.Contains] *)
Fixpoint Contains (s sub : string) : bool :=
  String.prefix sub s || match s with "" => false | String _ s' => Contains s' sub end.

(** [strings.TrimRight(s, "c")] for a single byte [c] *)
Fixpoint trim_left_byte (c : ascii) (s : string) : string :=
  match s with
  | "" => ""
  | String d s' => if bool_decide (c = d) then trim_left_byte c s' else s
  end.
Definition TrimRight (s : string) (c : ascii) : string :=
  str_rev (trim_left_byte c (str_rev s)).

(** ** Cutting at a separator byte *)

(** [strings.Cut]: what precedes and what follows the first [c]. *)
Fixpoint Cut (s : string) (c : ascii) : option (string * string) :=
  match s with
  | "" => None
  | String d s' =>
      if bool_decide (c = d) then Some ("", s')
      else match Cut s' c with
           | Some (a, b) => Some (String d a, b)
           | None => None
           end
  end.

(** [strings.SplitN(s, "c", n)] for [n >= 0] *)
Fixpoint SplitN (s : string) (c : ascii) (n : nat) : list string :=
  match n with
  | O => []
  | S O => [s]
  | S n' => match Cut s c with
            | Some (a, b) => a :: SplitN b c n'
            | None => [s]
            end
  end.

(** ** White space *)

(** The UTF-8 encodings of the runes [unicode.IsSpace] accepts. *)
Definition byte_str (l : list nat) : string :=
  foldr (λ n s, String (ascii_of_nat n) s) "" l.
Definition space_runes : list string :=
  byte_str <$> [[9]; [10]; [11]; [12]; [13]; [32]; [194; 133]; [194; 160];
    [225; 154; 128]; [226; 128; 128]; [226; 128; 129]; [226; 128; 130];
    [226; 128; 131]; [226; 128; 132]; [226; 128; 133]; [226; 128; 134];
    [226; 128; 135]; [226; 128; 136]; [226; 128; 137]; [226; 128; 138];
    [226; 128; 168]; [226; 128; 169]; [226; 128; 175]; [226; 129; 159];
    [227; 128; 128]].

Fixpoint trim_left_runes (ws : list string) (fuel : nat) (s : string) : string :=
  match fuel with
  | O => s
  | S n => match List.find (λ w, String.prefix w s) ws with
           | Some w => trim_left_runes ws n (str_drop (String.length w) s)
           | None => s
           end
  end.

(** [strings.TrimSpace]; every rune removed is at least one byte, so the length
    of the string is enough fuel. *)
Definition TrimSpace (s : string) : string :=
  let l := trim_left_runes space_runes (String.length s) s in
  str_rev (trim_left_runes (str_rev <$> space_runes) (String.length l) (str_rev l)).

(** ** Case *)

Definition is_ascii (s : string) : bool :=
  forallb (λ c, (nat_of_ascii c <? 128)%nat) (String.list_ascii_of_string s).

Definition lower_ascii (c : ascii) : ascii :=
  let n := nat_of_ascii c in
  if ((65 <=? n) && (n <=? 90))%nat then ascii_of_nat (n + 32) else c.

Fixpoint lower_string (s : string) : string :=
  match s with "" => "" | String c s' => String (lower_ascii c) (lower_string s') end.

(** The Unicode tables, for strings that are not ASCII. *)
Class Unicode := {
  uni_lower : string → string;
  uni_fold : string → string;
  uni_fold_ascii s : is_ascii s = true → uni_fold s = lower_string s;
}.

(** [strings.ToLower] *)
Definition ToLower `{Unicode} (s : string) : string :=
  if is_ascii s then lower_string s else uni_lower s.

(** [strings.EqualFold] compares the simple case foldings. [uni_fold] is the
    canonical representative of a string's fold class. *)
Definition EqualFold `{Unicode} (s t : string) : bool :=
  if is_ascii s && is_ascii t then bool_decide (lower_string s = lower_string t)
  else bool_decide (uni_fold s = uni_fold t).

(** A table that leaves every byte above 127 alone. *)
Definition ascii_only : Unicode :=
  {| uni_lower := lower_string; uni_fold := lower_string; uni_fold_ascii _ _ := eq_refl |}.

(** ** Numbers *)

Definition digit_value (c : ascii) : option Z :=
  let n := Z.of_nat (nat_of_ascii c) in
  if ((48 <=? n) && (n <=? 57))%Z then Some (n - 48)%Z else None.

Fixpoint parse_digits (acc : Z) (s : string) : option Z :=
  match s with
  | "" => Some acc
  | String c s' => match digit_value c with Some d => parse_digits (acc * 10 + d)%Z s' | None => None end
  end.

(** [strconv.Atoi] on a 64-bit platform: an optional sign and decimal digits,
    an error outside the range of int64. *)
Definition Atoi (s : string) : option Z :=
  let '(neg, digits) :=
    match s with
    | String "+" rest => (false, rest)
    | String "-" rest => (true, rest)
    | _ => (false, s)
    end in
  match digits with
  | "" => None
  | _ =>
      match parse_digits 0 digits with
      | None => None
      | Some n =>
          let n := if neg then (- n)%Z else n in
          if ((- 9223372036854775808 <=? n) && (n <=? 9223372036854775807))%Z then Some n else None
      end
  end.

(** ** Lemmas *)

Lemma str_app_nil_r (s : string) : s +:+ "" = s.
Proof. induction s as [|c s IH]; [done|]. exact (f_equal (String c) IH). Qed.

Lemma str_app_assoc (s t u : string) : (s +:+ t) +:+ u = s +:+ (t +:+ u).
Proof. induction s as [|c s IH]; [done|]. exact (f_equal (String c) IH). Qed.

Lemma str_app_cons c (s t : string) : String c s +:+ t = String c (s +:+ t).
Proof. done. Qed.

Lemma str_length_app (s t : string) :
  String.length (s +:+ t) = String.length s + String.length t.
Proof. induction s as [|c s IH]; [done|]. exact (f_equal S IH). Qed.

Lemma str_take_drop n s : str_take n s +:+ str_drop n s = s.
Proof.
  revert s; induction n as [|n IH]; intros [|c s]; [done..|].
  exact (f_equal (String c) (IH s)).
Qed.

Lemma str_take_length n s : String.length (str_take n s) = Nat.min n (String.length s).
Proof. revert s; induction n as [|n IH]; intros [|c s]; simpl; auto. Qed.

Lemma str_drop_length n s : String.length (str_drop n s) = String.length s - n.
Proof. revert s; induction n as [|n IH]; intros [|c s]; simpl; auto. Qed.

Lemma str_drop_app s t : str_drop (String.length s) (s +:+ t) = t.
Proof. induction s as [|c s IH]; [by destruct t|]. exact IH. Qed.

Lemma str_take_app s t : str_take (String.length s) (s +:+ t) = s.
Proof. induction s as [|c s IH]; [by destruct t|]. exact (f_equal (String c) IH). Qed.

Lemma prefix_app s t : String.prefix s (s +:+ t) = true.
Proof.
  induction s as [|c s IH]; [by destruct t|]. rewrite str_app_cons; simpl.
  by destruct (ascii_dec c c).
Qed.

Lemma prefix_spec s t : String.prefix s t = true ↔ ∃ u, t = s +:+ u.
Proof.
  split; [|intros [u ->]; apply prefix_app].
  revert t; induction s as [|c s IH]; intros t; [by exists t|].
  destruct t as [|d t]; simpl; [done|]. destruct (ascii_dec c d) as [->|]; [|done].
  intros [u ->]%IH. by exists u.
Qed.

Lemma HasPrefix_app s t : HasPrefix (s +:+ t) s = true.
Proof. apply prefix_app. Qed.

Lemma HasPrefix_spec s pre : HasPrefix s pre = true ↔ ∃ u, s = pre +:+ u.
Proof. apply prefix_spec. Qed.

Lemma TrimPrefix_app pre s : TrimPrefix (pre +:+ s) pre = s.
Proof. unfold TrimPrefix. by rewrite HasPrefix_app, str_drop_app. Qed.

Lemma str_app_inj_l (s t u : string) : s +:+ t = s +:+ u → t = u.
Proof.
  induction s as [|c s IH]; [done|]. rewrite !str_app_cons. intros [= ?]; auto.
Qed.

Lemma str_has_app c s t : str_has c (s +:+ t) = str_has c s || str_has c t.
Proof.
  induction s as [|d s IH]; [done|]. change (bool_decide (c = d) || str_has c (s +:+ t) =
    bool_decide (c = d) || str_has c s || str_has c t). by rewrite IH, orb_assoc.
Qed.

(** Cutting finds the first separator. *)
Lemma Cut_app c a b : str_has c a = false → Cut (a +:+ String c b) c = Some (a, b).
Proof.
  induction a as [|d a IH].
  - intros _. change (Cut (String c b) c = Some ("", b)). cbn [Cut].
    by rewrite bool_decide_true.
  - intros [Hd Ha]%orb_false_iff. rewrite str_app_cons. cbn [Cut].
    by rewrite Hd, IH.
Qed.

Lemma Cut_Some s c a b : Cut s c = Some (a, b) → s = a +:+ String c b ∧ str_has c a = false.
Proof.
  revert a b; induction s as [|d s IH]; simpl; intros a b; [done|].
  case_bool_decide as E; [by intros [= <- <-]; subst|].
  destruct (Cut s c) as [[a' b']|]; [|done]. intros [= <- <-].
  destruct (IH a' b' eq_refl) as [-> Ha]. split; [done|]. simpl.
  by rewrite bool_decide_false.
Qed.

Lemma Cut_None s c : Cut s c = None ↔ str_has c s = false.
Proof.
  induction s as [|d s IH]; simpl; [done|].
  case_bool_decide; simpl; [done|]. destruct (Cut s c) as [[a b]|]; split; intros E;
    [done|by apply IH in E|by apply IH|done].
Qed.

(** A separator-free head determines where a joined string splits. *)
Lemma cut_inj c a a' b b' :
  str_has c a = false → str_has c a' = false →
  a +:+ String c b = a' +:+ String c b' → a = a' ∧ b = b'.
Proof.
  intros Ha Ha' E. apply (f_equal (λ s, Cut s c)) in E.
  rewrite !Cut_app in E by done. by injection E.
Qed.

Section unicode.
Context `{Unicode}.

Lemma EqualFold_spec s t : EqualFold s t = true ↔ uni_fold s = uni_fold t.
Proof.
  unfold EqualFold. destruct (is_ascii s && is_ascii t) eqn:E.
  - apply andb_true_iff in E as [Es Et].
    rewrite bool_decide_eq_true, !uni_fold_ascii by done. done.
  - by rewrite bool_decide_eq_true.
Qed.

Lemma EqualFold_refl s : EqualFold s s = true.
Proof. by apply EqualFold_spec. Qed.

Lemma EqualFold_sym s t : EqualFold s t = EqualFold t s.
Proof. apply eq_true_iff_eq. rewrite !EqualFold_spec. done. Qed.
End unicode.

#[export] Hint Rewrite str_app_nil_r str_app_assoc str_length_app TrimPrefix_app
  @EqualFold_refl : gate_rw.

(** ** The byte-wise order of strings *)

Lemma str_ltb_irrefl s : String.ltb s s = false.
Proof.
  unfold String.ltb. pose proof (String.compare_antisym s s) as E.
  by destruct (String.compare s s).
Qed.

Lemma str_ltb_leb s t : String.ltb s t = negb (String.leb t s).
Proof.
  unfold String.ltb, String.leb. rewrite (String.compare_antisym s t).
  by destruct (String.compare t s).
Qed.

Lemma str_ltb_asym s t : String.ltb s t = true → String.ltb t s = false.
Proof.
  rewrite !str_ltb_leb. destruct (String.leb_total s t) as [E|E]; rewrite E; done.
Qed.

Lemma str_ltb_negtrans s t u :
  String.ltb s u = true → String.ltb s t = true ∨ String.ltb t u = true.
Proof.
  rewrite !str_ltb_leb, !negb_true_iff. intros E.
  destruct (String.leb t s) eqn:E1; [|by left].
  destruct (String.leb u t) eqn:E2; [|by right].
  assert (String.le u s) as Hle.
  { transitivity t; unfold String.le; [by rewrite E2|by rewrite E1]. }
  unfold String.le in Hle. by rewrite E in Hle.
Qed.

Lemma str_ltb_total s t : String.ltb s t = false → String.ltb t s = false → s = t.
Proof.
  rewrite !str_ltb_leb, !negb_false_iff. intros E1 E2.
  apply (anti_symm String.le); unfold String.le; by rewrite ?E1, ?E2.
Qed.

Lemma str_ltb_weak {A} (f : A → string) (P : A → Prop) :
  weak_order (λ a b, String.ltb (f a) (f b)) P.
Proof. split; intros; [by apply str_ltb_asym|by apply str_ltb_negtrans]. Qed.

Lemma str_eq_ltb (s t : string) :
  bool_decide (s = t) = negb (String.ltb s t) && negb (String.ltb t s).
Proof.
  case_bool_decide as E; [subst; by rewrite str_ltb_irrefl|].
  destruct (String.ltb s t) eqn:E1, (String.ltb t s) eqn:E2; simpl; try done.
  by destruct E; apply str_ltb_total.
Qed.

(** ** Printable ASCII *)

Definition graphic (c : ascii) : bool := ((33 <=? nat_of_ascii c) && (nat_of_ascii c <=? 126))%nat.

Fixpoint all_graphic (s : string) : bool :=
  match s with "" => true | String c s' => graphic c && all_graphic s' end.

Lemma all_graphic_app s t : all_graphic (s +:+ t) = all_graphic s && all_graphic t.
Proof. induction s as [|c s IH]; simpl; [done|]. by rewrite <-andb_assoc, <-IH. Qed.

Lemma str_rev_app_spec s acc : str_rev_app s acc = str_rev s +:+ acc.
Proof.
  unfold str_rev. revert acc. induction s as [|c s IH]; intros acc; simpl; [done|].
  rewrite IH, (IH (String c "")). by rewrite str_app_assoc.
Qed.

Lemma str_rev_cons c s : str_rev (String c s) = str_rev s +:+ String c "".
Proof. unfold str_rev. simpl. apply str_rev_app_spec. Qed.

Lemma str_rev_concat s t : str_rev (s +:+ t) = str_rev t +:+ str_rev s.
Proof.
  induction s as [|c s IH]; simpl; [by rewrite str_app_nil_r|].
  by rewrite str_app_cons, !str_rev_cons, IH, str_app_assoc.
Qed.

Lemma str_rev_involutive s : str_rev (str_rev s) = s.
Proof. induction s as [|c s IH]; [done|]. rewrite str_rev_cons, str_rev_concat, IH. done. Qed.

Lemma all_graphic_rev s : all_graphic (str_rev s) = all_graphic s.
Proof.
  induction s as [|c s IH]; [done|]. rewrite str_rev_cons, all_graphic_app, IH. simpl.
  by rewrite andb_true_r, andb_comm.
Qed.

(** Whether a word starts with a byte that is not printable. *)
Definition starts_blank (w : string) : bool := match w with String d _ => negb (graphic d) | "" => false end.

Lemma graphic_no_prefix ws s : forallb starts_blank ws = true → all_graphic s = true →
  List.find (λ w, String.prefix w s) ws = None.
Proof.
  intros Hw Hs. induction ws as [|w ws IH]; [done|]. simpl in *. apply andb_prop in Hw as [Hw Hws].
  destruct w as [|d w]; [done|]. simpl in Hw. destruct s as [|c s]; simpl; [by apply IH|].
  simpl in Hs. apply andb_prop in Hs as [Hc Hs]. destruct (ascii_dec d c) as [->|]; [by rewrite Hc in Hw|].
  by apply IH.
Qed.

Lemma TrimSpace_graphic s : all_graphic s = true → TrimSpace s = s.
Proof.
  intros Hs. unfold TrimSpace.
  assert (trim_left_runes space_runes (String.length s) s = s) as ->.
  { destruct (String.length s); [done|]. cbn [trim_left_runes]. by rewrite graphic_no_prefix by done. }
  rewrite <-all_graphic_rev in Hs.
  assert (trim_left_runes (str_rev <$> space_runes) (String.length s) (str_rev s) = str_rev s) as ->.
  { destruct (String.length s); [done|]. cbn [trim_left_runes]. by rewrite graphic_no_prefix by done. }
  apply str_rev_involutive.
Qed.
