(* ===== verification/GoTime.v ===== *)
(** * Go's integers, [time.Time] and [time.Duration]

    A 64-bit [int], [int64] or [time.Duration] is a [Z] kept in range by
    [wrap64]. A [time.Time] is the [Z] number of nanoseconds since the zero
    time (January 1 of year 1, UTC), so the zero value of a field is [0];
    [Sub] saturates the way [time.Time.Sub] does. *)

From S2P Require Import Prelude.

#[local] Open Scope Z_scope.

Definition two63 : Z := 9223372036854775808.
Definition maxInt64 : Z := two63 - 1.
Definition minInt64 : Z := - two63.

(** Two's complement reduction to 64 bits. *)
Definition wrap64 (z : Z) : Z := (z + two63) mod (2 * two63) - two63.

Definition in_int64 (z : Z) : Prop := minInt64 ≤ z ≤ maxInt64.

(** ** Durations *)

Definition Nanosecond : Z := 1.
Definition Millisecond : Z := 1000000.
Definition Second : Z := 1000000000.
Definition Minute : Z := 60 * Second.
Definition Hour : Z := 60 * Minute.

(** [time.Duration(n) * time.Second]: the product wraps. *)
Definition seconds (n : Z) : Z := wrap64 (n * Second).

(** ** Times *)

(** [t.Sub(u)]: the difference, saturated to the range of a duration. *)
Definition Sub (t u : Z) : Z := Z.max minInt64 (Z.min maxInt64 (t - u)).
(** [t.Add(d)] *)
Definition Add (t d : Z) : Z := t + d.
Definition Before (t u : Z) : bool := t <? u.
Definition After (t u : Z) : bool := u <? t.
Definition IsZero (t : Z) : bool := t =? 0.

(** ** Lemmas *)

Lemma wrap64_small z : in_int64 z → wrap64 z = z.
Proof.
  unfold in_int64, wrap64, minInt64, maxInt64, two63. intros H.
  rewrite Z.mod_small; lia.
Qed.

Lemma wrap64_range z : in_int64 (wrap64 z).
Proof.
  unfold in_int64, wrap64, minInt64, maxInt64, two63.
  pose proof (Z.mod_pos_bound (z + 9223372036854775808) (2 * 9223372036854775808)). lia.
Qed.

(** Saturation does not change how a difference compares with a duration. *)
Lemma Sub_lt t u d : in_int64 d → minInt64 < d → (Sub t u <? d) = (t - u <? d).
Proof. unfold in_int64, Sub, minInt64, maxInt64, two63. intros; lia. Qed.

Lemma Sub_ge t u d : minInt64 < d ≤ maxInt64 → (d <=? Sub t u) = (d <=? t - u).
Proof. unfold Sub, minInt64, maxInt64, two63. intros; lia. Qed.

Lemma Sub_range t u : in_int64 (Sub t u).
Proof. unfold in_int64, Sub, minInt64, maxInt64, two63. lia. Qed.

Lemma seconds_small n : 0 ≤ n ≤ 9223372036 → seconds n = n * Second.
Proof.
  intros H. unfold seconds. apply wrap64_small.
  unfold in_int64, minInt64, maxInt64, two63, Second. lia.
Qed.

Lemma wrap64_mod z : wrap64 z mod (2 * two63) = z mod (2 * two63).
Proof.
  unfold wrap64. rewrite Zminus_mod_idemp_l. f_equal. lia.
Qed.

Lemma wrap64_eq a b : a mod (2 * two63) = b mod (2 * two63) → wrap64 a = wrap64 b.
Proof.
  unfold wrap64. intros E. by rewrite <-(Zplus_mod_idemp_l a), <-(Zplus_mod_idemp_l b), E.
Qed.

(** Wrapping early or late is the same. *)
Lemma wrap64_add_l a b : wrap64 (wrap64 a + b) = wrap64 (a + b).
Proof.
  apply wrap64_eq. by rewrite <-Zplus_mod_idemp_l, wrap64_mod, Zplus_mod_idemp_l.
Qed.

Lemma wrap64_add_r a b : wrap64 (a + wrap64 b) = wrap64 (a + b).
Proof. by rewrite Z.add_comm, wrap64_add_l, Z.add_comm. Qed.

Lemma wrap64_idemp a : wrap64 (wrap64 a) = wrap64 a.
Proof. apply wrap64_small, wrap64_range. Qed.
