(* ===== verification/GoFloat.v ===== *)
(** * Go's [float64]

    IEEE 754 binary64 through the Standard Library's executable [SpecFloat]:
    rounding to nearest even, signed zeros, infinities and NaN. The order
    lemmas hold on the values that are not NaN. *)

From S2P Require Import Prelude GoTime.
From Stdlib Require Export SpecFloat.

#[local] Open Scope Z_scope.

Definition f64 : Type := spec_float.
Definition fprec : Z := 53.
Definition femax : Z := 1024.

(** [float64(n)] of an integer *)
Definition f_of_Z (n : Z) : f64 := binary_normalize fprec femax n 0 false.
Definition fzero : f64 := S754_zero false.

Definition fadd : f64 → f64 → f64 := SFadd fprec femax.
Definition fsub : f64 → f64 → f64 := SFsub fprec femax.
Definition fmul : f64 → f64 → f64 := SFmul fprec femax.
Definition fdiv : f64 → f64 → f64 := SFdiv fprec femax.
Definition fltb : f64 → f64 → bool := SFltb.
Definition fleb : f64 → f64 → bool := SFleb.
Definition feqb : f64 → f64 → bool := SFeqb.

(** Conversion to an integer truncates toward zero. (Go leaves the conversion
    of a NaN or of an infinity to the implementation; it is [0] here.) *)
Definition f_trunc (x : f64) : Z :=
  match x with
  | S754_finite s m e =>
      let a := if 0 <=? e then Z.pos m * 2 ^ e else Z.pos m / 2 ^ (- e) in
      if s then - a else a
  | _ => 0
  end.

(** [int(math.Ceil(x))] *)
Definition f_ceil (x : f64) : Z :=
  let t := f_trunc x in if fltb (f_of_Z t) x then t + 1 else t.

(** [time.Duration.Seconds] *)
Definition Seconds (d : Z) : f64 :=
  fadd (f_of_Z (Z.quot d Second)) (fdiv (f_of_Z (Z.rem d Second)) (f_of_Z Second)).

#[export] Instance f64_eq_dec : EqDecision f64.
Proof. unfold f64. solve_decision. Defined.

(** ** The order *)

Definition not_nan (x : f64) : Prop := x ≠ S754_nan.
#[export] Instance not_nan_dec x : Decision (not_nan x).
Proof. unfold not_nan. apply _. Defined.

(** Position of a value in the order: its class, then exponent and mantissa. *)
Definition frank (x : f64) : Z * Z * Z :=
  match x with
  | S754_zero _ | S754_nan => (0, 0, 0)
  | S754_infinity s => (if s then -2 else 2, 0, 0)
  | S754_finite s m e => if s then (-1, - e, - Z.pos m) else (1, e, Z.pos m)
  end.

Definition rank_lt (p q : Z * Z * Z) : Prop :=
  let '(a, b, c) := p in let '(a', b', c') := q in
  a < a' ∨ (a = a' ∧ (b < b' ∨ (b = b' ∧ c < c'))).

(** Compares two finite values by exponent, then mantissa. *)
Ltac cmp_finite e e' m m' :=
  change (Pos.compare_cont Eq m m') with (Pos.compare m m');
  destruct (Z.compare_spec e e') as [->|?|?];
  [destruct (Pos.compare_spec m m'); simpl|..]; split; intros; simplify_eq; try done; lia.

Lemma fltb_spec x y : not_nan x → not_nan y → fltb x y = true ↔ rank_lt (frank x) (frank y).
Proof.
  unfold not_nan, fltb, SFltb. intros Hx Hy.
  destruct x as [s|s| |s m e], y as [s'|s'| |s' m' e']; try done;
    try destruct s; try destruct s'; simpl; try (split; intros; (done || lia)).
  all: cmp_finite e e' m m'.
Qed.

Lemma feqb_spec x y : not_nan x → not_nan y → feqb x y = true ↔ frank x = frank y.
Proof.
  unfold not_nan, feqb, SFeqb. intros Hx Hy.
  destruct x as [s|s| |s m e], y as [s'|s'| |s' m' e']; try done;
    try destruct s; try destruct s'; simpl; try (split; intros; (done || lia)).
  all: cmp_finite e e' m m'.
Qed.

Section order.
Context (x y z : f64) (Hx : not_nan x) (Hy : not_nan y) (Hz : not_nan z).

Lemma fltb_asym : fltb x y = true → fltb y x = false.
Proof.
  rewrite <-not_true_iff_false, !fltb_spec by done. unfold rank_lt.
  destruct (frank x) as [[]], (frank y) as [[]]. lia.
Qed.

Lemma fltb_negtrans : fltb x z = true → fltb x y = true ∨ fltb y z = true.
Proof.
  rewrite !fltb_spec by done. unfold rank_lt.
  destruct (frank x) as [[]], (frank y) as [[]], (frank z) as [[]]. lia.
Qed.

Lemma fltb_tri : feqb x y = false → fltb x y = true ∨ fltb y x = true.
Proof.
  rewrite <-not_true_iff_false, feqb_spec, !fltb_spec by done. unfold rank_lt.
  destruct (frank x) as [[a b] c], (frank y) as [[a' b'] c']. intros Hne.
  destruct (decide (a = a' ∧ b = b' ∧ c = c')) as [(->&->&->)|]; [done|]. lia.
Qed.

Lemma fltb_neq : fltb x y = true → feqb x y = false.
Proof.
  rewrite <-not_true_iff_false, feqb_spec, !fltb_spec by done. unfold rank_lt.
  destruct (frank x) as [[]], (frank y) as [[]]. intros ? [= -> -> ->]. lia.
Qed.

Lemma feqb_sym : feqb x y = feqb y x.
Proof. apply eq_true_iff_eq. rewrite !feqb_spec by done. done. Qed.

Lemma fleb_not_fltb : fleb x y = negb (fltb y x).
Proof.
  unfold fleb, fltb, SFleb, SFltb. unfold not_nan in *.
  destruct x as [s|s| |s m e], y as [s'|s'| |s' m' e']; try done;
    try destruct s; try destruct s'; simpl; try done.
  all: rewrite (Z.compare_antisym e' e); destruct (e' ?= e); try done; simpl;
    change (Pos.compare_cont Eq m m') with (Pos.compare m m');
    change (Pos.compare_cont Eq m' m) with (Pos.compare m' m);
    rewrite (Pos.compare_antisym m' m); by destruct (m' ?= m)%positive.
Qed.
End order.

Lemma fltb_irrefl x : fltb x x = false.
Proof.
  destruct (decide (not_nan x)) as [Hx|Hx].
  - apply not_true_iff_false. rewrite fltb_spec by done. unfold rank_lt.
    destruct (frank x) as [[]]. lia.
  - unfold not_nan in Hx. apply dec_stable in Hx. by subst.
Qed.

Lemma feqb_fltb x y : not_nan x → not_nan y → feqb x y = negb (fltb x y) && negb (fltb y x).
Proof.
  intros Hx Hy. destruct (feqb x y) eqn:E.
  - destruct (fltb x y) eqn:E1; [by rewrite fltb_neq in E|].
    destruct (fltb y x) eqn:E2; [by rewrite feqb_sym, fltb_neq in E|done].
  - destruct (fltb_tri x y Hx Hy E) as [->| ->]; [done|by rewrite andb_false_r].
Qed.

Lemma fltb_weak {A} (f : A → f64) : weak_order (λ a b, fltb (f a) (f b)) (λ a, not_nan (f a)).
Proof. split; intros *; [apply fltb_asym|apply fltb_negtrans]. Qed.

Lemma fgtb_weak {A} (f : A → f64) : weak_order (λ a b, fltb (f b) (f a)) (λ a, not_nan (f a)).
Proof.
  split; intros x y; [intros; by apply fltb_asym|].
  intros z Hx Hy Hz E. destruct (fltb_negtrans (f z) (f y) (f x) Hz Hy Hx E); auto.
Qed.

(** *** The sign of a converted integer *)

Lemma iter_pos_nat {A} (f : A → A) p x : iter_pos f p x = Nat.iter (Pos.to_nat p) f x.
Proof.
  revert x. induction p as [p IH|p IH|]; intros x; cbn [iter_pos]; [| |done]; rewrite !IH.
  - rewrite Pos2Nat.inj_xI, Nat.iter_succ_r, <-Nat.iter_add. by f_equal; lia.
  - rewrite Pos2Nat.inj_xO, <-Nat.iter_add. f_equal. lia.
Qed.

Lemma shr_1_half mrs : 0 ≤ shr_m mrs → shr_m (shr_1 mrs) = shr_m mrs / 2.
Proof.
  destruct mrs as [[|[p|p|]|p] r s]; simpl; intros; try done; try lia.
  - by rewrite Pos2Z.inj_xI, Z.mul_comm, Z.div_add_l, Z.add_0_r by lia.
  - by rewrite Pos2Z.inj_xO, Z.mul_comm, Z.div_mul by lia.
Qed.

Lemma shr_iter n mrs : 0 ≤ shr_m mrs → shr_m (Nat.iter n shr_1 mrs) = shr_m mrs / 2 ^ Z.of_nat n.
Proof.
  intros H. induction n as [|n IH]; [by rewrite Z.div_1_r|].
  change (Nat.iter (S n) shr_1 mrs) with (shr_1 (Nat.iter n shr_1 mrs)).
  rewrite shr_1_half, IH by (rewrite IH; apply Z.div_pos; lia).
  rewrite Z.div_div, Nat2Z.inj_succ, Z.pow_succ_r by lia. f_equal. lia.
Qed.

Lemma digits_lower m : 2 ^ (Z.pos (digits2_pos m) - 1) ≤ Z.pos m.
Proof.
  induction m as [m IH|m IH|]; cbn [digits2_pos]; [| |done];
    rewrite Pos2Z.inj_succ; replace (Z.succ _ - 1) with (Z.succ (Z.pos (digits2_pos m) - 1)) by lia;
    rewrite Z.pow_succ_r by lia; lia.
Qed.

(** Rounding keeps a mantissa that is not subnormal positive. *)
Lemma shr_fexp_pos m e l : -52 ≤ e →
  0 < shr_m (shr_fexp fprec femax (Z.pos m) e l).1 ∧ -52 ≤ (shr_fexp fprec femax (Z.pos m) e l).2.
Proof.
  intros He. unfold shr_fexp, shr. cbn [Zdigits2].
  assert (shr_m (shr_record_of_loc (Z.pos m) l) = Z.pos m) as Em by by destruct l as [|[]].
  set (n := fexp fprec femax _ - e).
  assert (n ≤ Z.pos (digits2_pos m) - 1) as Hn.
  { subst n. unfold fexp, emin, fprec, femax. lia. }
  clearbody n. destruct n as [|p|p]; cbn [fst snd]; rewrite ?Em; [lia| |lia].
  rewrite iter_pos_nat, shr_iter, Em by (rewrite Em; lia). split; [|lia].
  rewrite positive_nat_Z. apply Z.div_str_pos. split; [lia|].
  etrans; [|apply digits_lower]. apply Z.pow_le_mono_r; lia.
Qed.

Lemma round_pos m l : 0 < m → 0 < round_nearest_even m l.
Proof. destruct l as [|[]]; simpl; try destruct (Z.even m); lia. Qed.

Lemma binary_round_sign s m :
  (∃ m' e, binary_round fprec femax s m 0 = S754_finite s m' e) ∨ binary_round fprec femax s m 0 = S754_infinity s.
Proof.
  unfold binary_round, binary_round_aux.
  destruct (shl_align m 0 _) as [mz ez] eqn:Es.
  assert (-52 ≤ ez) as Hez.
  { unfold shl_align in Es. pose proof (Pos2Z.is_pos (digits2_pos m)).
    unfold fexp, emin, fprec, femax in Es. destruct (_ - 0) eqn:E in Es; simplify_eq; lia. }
  destruct (shr_fexp_pos mz ez loc_Exact Hez) as [H1 H2].
  destruct (shr_fexp fprec femax (Z.pos mz) ez loc_Exact) as [mrs e'].
  cbn [fst snd] in H1, H2. apply (round_pos _ (loc_of_shr_record mrs)) in H1.
  destruct (round_nearest_even _ _) as [|m'|]; try lia.
  destruct (shr_fexp_pos m' e' loc_Exact H2) as [H3 _].
  destruct (shr_fexp fprec femax (Z.pos m') e' loc_Exact) as [mrs' e'']. cbn [fst] in H3.
  destruct (shr_m mrs') as [|m''|]; try lia. destruct (_ <=? _); eauto.
Qed.

(** [float64(n) < 0] exactly when [n < 0]. *)
Lemma f_of_Z_neg n : fltb (f_of_Z n) fzero = (n <? 0).
Proof.
  unfold f_of_Z, binary_normalize. destruct n as [|m|m]; [done|..];
    (destruct (binary_round_sign false m) as [(m' & e & E)|E], (binary_round_sign true m) as [(m2 & e2 & E2)|E2]);
    rewrite ?E, ?E2; done.
Qed.
