(* ===== verification/Calendar.v ===== *)
(** * The calendar of [time.Date] and [time.Time.AddDate]

    The proleptic Gregorian calendar in UTC, as Go's [time] package computes
    it: an instant is split into a day number (day 0 is January 1 of year 1)
    and the day number into a year, a month and a day. Only what the gateway
    uses of it: the midnight of a date, with the month normalised the way
    [time.Date] does it. *)

From S2P Require Import Prelude GoTime.

#[local] Open Scope Z_scope.

Definition Day : Z := 24 * Hour.

(** The day number of an instant. *)
Definition day_of (t : Z) : Z := t / Day.

Definition leap (y : Z) : bool :=
  (y mod 4 =? 0) && (negb (y mod 100 =? 0) || (y mod 400 =? 0)).

(** Days before January 1 of year [y]. *)
Definition days_before_year (y : Z) : Z :=
  let p := y - 1 in 365 * p + p / 4 - p / 100 + p / 400.

(** Days before the first of month [m] (1 to 13) of a year. *)
Definition days_before_month (lp : bool) (m : Z) : Z :=
  let x := if lp then 1 else 0 in
  if m <=? 1 then 0 else if m <=? 2 then 31 else if m <=? 3 then 59 + x
  else if m <=? 4 then 90 + x else if m <=? 5 then 120 + x else if m <=? 6 then 151 + x
  else if m <=? 7 then 181 + x else if m <=? 8 then 212 + x else if m <=? 9 then 243 + x
  else if m <=? 10 then 273 + x else if m <=? 11 then 304 + x else if m <=? 12 then 334 + x
  else 365 + x.

(** The year of a day number: 400-year, 100-year, 4-year and 1-year cycles,
    the last of which is cut short at the end of each longer one. *)
Definition year_of (d : Z) : Z :=
  let n400 := d / 146097 in let d := d - 146097 * n400 in
  let n100 := d / 36524 in let n100 := n100 - n100 / 4 in let d := d - 36524 * n100 in
  let n4 := d / 1461 in let d := d - 1461 * n4 in
  let n1 := d / 365 in let n1 := n1 - n1 / 4 in
  400 * n400 + 100 * n100 + 4 * n4 + n1 + 1.

(** The month of the day [yday] (from 0) of a year. *)
Definition month_of (lp : bool) (yday : Z) : Z :=
  let ends m := days_before_month lp (m + 1) in
  if yday <? ends 1 then 1 else if yday <? ends 2 then 2 else if yday <? ends 3 then 3
  else if yday <? ends 4 then 4 else if yday <? ends 5 then 5 else if yday <? ends 6 then 6
  else if yday <? ends 7 then 7 else if yday <? ends 8 then 8 else if yday <? ends 9 then 9
  else if yday <? ends 10 then 10 else if yday <? ends 11 then 11 else 12.

Definition Year (t : Z) : Z := year_of (day_of t).
Definition Month (t : Z) : Z :=
  month_of (leap (Year t)) (day_of t - days_before_year (Year t)).
Definition DayOfMonth (t : Z) : Z :=
  day_of t - days_before_year (Year t) - days_before_month (leap (Year t)) (Month t) + 1.

(** [time.Date(y, m, d, 0, 0, 0, 0, time.UTC)] *)
Definition Date (y m d : Z) : Z :=
  let y := y + (m - 1) / 12 in
  let m := (m - 1) mod 12 + 1 in
  (days_before_year y + days_before_month (leap y) m + (d - 1)) * Day.

(** [t.AddDate(0, months, days)] of a midnight *)
Definition AddDate (t months days : Z) : Z :=
  Date (Year t) (Month t + months) (DayOfMonth t + days).

(** ** Lemmas *)

Lemma Day_pos : 0 < Day.
Proof. by vm_compute. Qed.

Lemma day_of_spec t d : day_of t = d ↔ d * Day ≤ t < (d + 1) * Day.
Proof.
  unfold day_of. pose proof Day_pos. split.
  - intros <-. pose proof (Z.mul_div_le t Day). pose proof (Z.mul_succ_div_gt t Day). nia.
  - intros Hd. symmetry. apply (Z.div_unique t Day d (t - d * Day)); lia.
Qed.

Lemma year_length y : days_before_year (y + 1) = days_before_year y + (if leap y then 366 else 365).
Proof.
  unfold days_before_year, leap.
  destruct (Z.eqb_spec (y mod 4) 0), (Z.eqb_spec (y mod 100) 0), (Z.eqb_spec (y mod 400) 0);
    simpl; Z.to_euclidean_division_equations; lia.
Qed.

Lemma days_before_year_mono y y' : y ≤ y' → days_before_year y ≤ days_before_year y'.
Proof. unfold days_before_year. intros. Z.to_euclidean_division_equations; lia. Qed.

Lemma days_before_year_split n400 n100 n4 n1 :
  0 ≤ n100 < 4 → 0 ≤ n4 < 25 → 0 ≤ n1 < 4 →
  days_before_year (400 * n400 + 100 * n100 + 4 * n4 + n1 + 1)
  = 146097 * n400 + 36524 * n100 + 1461 * n4 + 365 * n1.
Proof. intros. unfold days_before_year. Z.to_euclidean_division_equations; lia. Qed.

(** The year of a day is the one whose days it lies between. *)
Lemma year_of_bounds d : days_before_year (year_of d) ≤ d < days_before_year (year_of d + 1).
Proof.
  unfold year_of. cbv zeta.
  set (n400 := d / 146097). set (d1 := d - 146097 * n400).
  assert (0 ≤ d1 < 146097) by (unfold d1, n400; Z.to_euclidean_division_equations; lia).
  set (n100 := d1 / 36524 - d1 / 36524 / 4). set (d2 := d1 - 36524 * n100).
  assert (0 ≤ n100 < 4 ∧ 0 ≤ d2 ∧ (d2 < 36524 ∨ (n100 = 3 ∧ d2 < 36525))) as (H1 & H2 & H3)
    by (unfold d2, n100; Z.to_euclidean_division_equations; lia).
  set (n4 := d2 / 1461). set (d3 := d2 - 1461 * n4).
  assert (0 ≤ n4 < 25 ∧ 0 ≤ d3 < 1461 ∧ (n4 < 24 ∨ d3 < 1460 ∨ n100 = 3)) as (H4 & H5 & H6)
    by (unfold d3, n4; Z.to_euclidean_division_equations; lia).
  set (n1 := d3 / 365 - d3 / 365 / 4).
  assert (0 ≤ n1 < 4 ∧ 365 * n1 ≤ d3 ∧ (d3 < 365 * n1 + 365 ∨ (n1 = 3 ∧ d3 < 365 * n1 + 366)))
    as (H7 & H8 & H9)
    by (unfold n1; Z.to_euclidean_division_equations; lia).
  assert (d = 146097 * n400 + 36524 * n100 + 1461 * n4 + d3) as Hd by (unfold d3, d2, d1; lia).
  clearbody n400 n100 n4 n1 d3. clear d1 d2 H H2 H3.
  pose proof (days_before_year_split n400 n100 n4 n1 H1 H4 H7) as E.
  set (y := 400 * n400 + 100 * n100 + 4 * n4 + n1 + 1) in *.
  rewrite (year_length y), E. unfold leap.
  destruct (Z.eqb_spec (y mod 4) 0), (Z.eqb_spec (y mod 100) 0), (Z.eqb_spec (y mod 400) 0);
    simpl; unfold y in *; Z.to_euclidean_division_equations; lia.
Qed.

Lemma year_of_unique d y : days_before_year y ≤ d < days_before_year (y + 1) → year_of d = y.
Proof.
  intros Hy. pose proof (year_of_bounds d).
  destruct (Z.lt_trichotomy (year_of d) y) as [Hl|[Heq|Hl]]; [|done|].
  - pose proof (days_before_year_mono (year_of d + 1) y ltac:(lia)). lia.
  - pose proof (days_before_year_mono (y + 1) (year_of d) ltac:(lia)). lia.
Qed.

Lemma month_of_bounds lp yd :
  0 ≤ yd < (if lp : bool then 366 else 365) →
  1 ≤ month_of lp yd ≤ 12 ∧
  days_before_month lp (month_of lp yd) ≤ yd < days_before_month lp (month_of lp yd + 1).
Proof.
  intros Hyd. unfold month_of.
  repeat match goal with |- context [if yd <? ?e then _ else _] =>
    destruct (Z.ltb_spec yd e); [destruct lp; vm_compute days_before_month in *; lia|] end.
  destruct lp; vm_compute days_before_month in *; lia.
Qed.

Lemma days_before_month_mono lp m m' :
  1 ≤ m ≤ m' → m' ≤ 13 → days_before_month lp m ≤ days_before_month lp m'.
Proof. intros. unfold days_before_month. destruct lp; split_if; lia. Qed.

Lemma month_of_unique lp yd m :
  1 ≤ m ≤ 12 → 0 ≤ yd < (if lp : bool then 366 else 365) →
  days_before_month lp m ≤ yd < days_before_month lp (m + 1) → month_of lp yd = m.
Proof.
  intros Hm Hyd Hb. pose proof (month_of_bounds lp yd Hyd) as [Hr Hb'].
  destruct (Z.lt_trichotomy (month_of lp yd) m) as [Hl|[Heq|Hl]]; [|done|].
  - pose proof (days_before_month_mono lp (month_of lp yd + 1) m ltac:(lia) ltac:(lia)). lia.
  - pose proof (days_before_month_mono lp (m + 1) (month_of lp yd) ltac:(lia) ltac:(lia)). lia.
Qed.

Lemma leap_length y : (if leap y then 366 else 365) = days_before_month (leap y) 13.
Proof. by destruct (leap y). Qed.

(** [Date] with a month from 1 to 13: month 13 is the next January. *)
Lemma Date_eq y m d :
  1 ≤ m ≤ 13 → Date y m d = (days_before_year y + days_before_month (leap y) m + (d - 1)) * Day.
Proof.
  intros Hm. unfold Date. destruct (decide (m = 13)) as [->|Hne].
  - change ((13 - 1) / 12) with 1. change ((13 - 1) mod 12 + 1) with 1.
    rewrite year_length, leap_length. f_equal.
    change (days_before_month (leap (y + 1)) 1) with 0. lia.
  - rewrite Z.div_small, Z.mod_small by lia. f_equal. rewrite Z.add_0_r.
    replace (m - 1 + 1) with m by lia. done.
Qed.

(** A day of month [m] of year [y] is recognised as one. *)
Lemma date_fields t y m :
  1 ≤ m ≤ 12 →
  days_before_year y + days_before_month (leap y) m ≤ day_of t
    < days_before_year y + days_before_month (leap y) (m + 1) →
  Year t = y ∧ Month t = m.
Proof.
  intros Hm Ht.
  pose proof (days_before_month_mono (leap y) 1 m ltac:(lia) ltac:(lia)) as H0.
  change (0 ≤ days_before_month (leap y) m) in H0.
  pose proof (days_before_month_mono (leap y) (m + 1) 13 ltac:(lia) ltac:(lia)) as Hle.
  rewrite <-leap_length in Hle.
  assert (Year t = y) as Hy.
  { apply year_of_unique. rewrite year_length. lia. }
  split; [done|]. unfold Month. rewrite Hy. apply month_of_unique; lia.
Qed.

Lemma month_bounds t :
  1 ≤ Month t ≤ 12 ∧
  days_before_year (Year t) + days_before_month (leap (Year t)) (Month t) ≤ day_of t
    < days_before_year (Year t) + days_before_month (leap (Year t)) (Month t + 1).
Proof.
  pose proof (year_of_bounds (day_of t)) as Hy. rewrite year_length in Hy. fold (Year t) in Hy.
  pose proof (month_of_bounds (leap (Year t)) (day_of t - days_before_year (Year t)) ltac:(lia)) as Hm.
  fold (Month t) in Hm. lia.
Qed.

Lemma day_of_midnight d : day_of (d * Day) = d.
Proof. unfold day_of. apply Z.div_mul. by vm_compute. Qed.

(** The first of a month and the next one. *)
Lemma month_start y m : 1 ≤ m ≤ 12 →
  let s := Date y m 1 in
  day_of s = days_before_year y + days_before_month (leap y) m ∧
  Year s = y ∧ Month s = m ∧ AddDate s 1 0 = Date y (m + 1) 1.
Proof.
  intros Hm. cbv zeta.
  assert (day_of (Date y m 1) = days_before_year y + days_before_month (leap y) m) as Hd.
  { rewrite Date_eq by lia. rewrite day_of_midnight. lia. }
  assert (days_before_month (leap y) m < days_before_month (leap y) (m + 1)).
  { unfold days_before_month. destruct (leap y); split_if; lia. }
  destruct (date_fields (Date y m 1) y m Hm ltac:(lia)) as [Hy Hmo].
  split_and!; [done..|]. unfold AddDate, DayOfMonth. rewrite Hy, Hmo, Hd. f_equal. lia.
Qed.

(** Midnight of a day and of the next. *)
Lemma day_start t :
  let s := Date (Year t) (Month t) (DayOfMonth t) in
  s = day_of t * Day ∧ AddDate s 0 1 = (day_of t + 1) * Day.
Proof.
  cbv zeta. destruct (month_bounds t) as [Hm Hb].
  assert (Date (Year t) (Month t) (DayOfMonth t) = day_of t * Day) as Hs.
  { rewrite Date_eq by lia. unfold DayOfMonth. f_equal. lia. }
  split; [done|]. rewrite Hs.
  assert (day_of (day_of t * Day) = day_of t) as Hd by apply day_of_midnight.
  destruct (date_fields (day_of t * Day) (Year t) (Month t) Hm ltac:(rewrite Hd; lia)) as [Hy Hmo].
  unfold AddDate, DayOfMonth. rewrite Hy, Hmo, Hd, Z.add_0_r, Date_eq by lia.
  f_equal. lia.
Qed.
