(* ===== verification/GoFormat.v ===== *)
(** * Numbers and times as text

    What the gateway uses of [strconv] and of [time.Time.Format]: decimal
    integers, RFC 3339 times, the correctly rounded decimal of a [float64] and
    the correctly rounded [float64] of a decimal. A finite [float64] is a ratio
    of integers, so both roundings are computed exactly. *)

From S2P Require Import Prelude GoStrings GoTime GoFloat Calendar.
From stdpp Require Import pretty.
From Stdlib Require Import Ascii.

#[local] Open Scope Z_scope.
#[local] Open Scope stdpp_scope.

(** [strconv.Itoa] *)
Definition Itoa (n : Z) : string := pretty n.

Lemma Itoa_inj m n : Itoa m = Itoa n → m = n.
Proof. apply (inj pretty). Qed.

Lemma digit_char x : (x < 10)%N → digit_value (pretty_N_char x) = Some (Z.of_N x).
Proof.
  intros Hx. assert (x ∈ [0; 1; 2; 3; 4; 5; 6; 7; 8; 9]%N) as Hin.
  { apply list_elem_of_In. simpl. lia. }
  clear Hx. revert x Hin. apply Forall_forall. repeat constructor.
Qed.

Lemma digits_go x s : parse_digits 0 (pretty_N_go x s) = parse_digits (Z.of_N x) s.
Proof.
  revert s. induction (N.lt_wf_0 x) as [x _ IH]. intros s. destruct (decide (x = 0%N)) as [->|Hx]; [by rewrite pretty_N_go_0|].
  rewrite pretty_N_go_step, IH by (try apply N.div_lt; lia). simpl.
  rewrite digit_char by (apply N.mod_lt; lia). f_equal. rewrite N2Z.inj_div, N2Z.inj_mod.
  pose proof (Z.div_mod (Z.of_N x) 10). lia.
Qed.

Lemma digits_pretty x : parse_digits 0 (pretty_N x) = Some (Z.of_N x) ∧
  ∃ c rest, pretty_N x = String c rest ∧ is_Some (digit_value c).
Proof.
  assert (parse_digits 0 (pretty_N x) = Some (Z.of_N x)) as E.
  { unfold pretty_N. destruct (decide (x = 0%N)) as [->|Hx]; [done|]. by rewrite digits_go. }
  split; [done|]. destruct (pretty_N x) as [|c rest] eqn:Ex.
  - exfalso. revert Ex. unfold pretty_N. destruct (decide (x = 0%N)); [done|]. intros Ex.
    assert (parse_digits 0 (pretty_N_go x "") = Some (Z.of_N x)) as E' by (by rewrite digits_go).
    rewrite Ex in E'. simpl in E'. injection E'. lia.
  - exists c, rest. split; [done|]. simpl in E. by destruct (digit_value c).
Qed.

(** Reading a written integer gives it back. *)
Lemma Atoi_Itoa z : in_int64 z → Atoi (Itoa z) = Some z.
Proof.
  intros Hz. unfold Itoa. destruct z as [|p|p]; [done| |].
  - change (pretty (Z.pos p)) with (pretty_N (N.pos p)). destruct (digits_pretty (N.pos p)) as [E (c & rest & Ex & [d Hc])].
    rewrite Ex in *. unfold Atoi.
    assert (match String c rest with String "+" r => (false, r) | String "-" r => (true, r) | _ => (false, String c rest) end
      = (false, String c rest)) as -> by (by destruct c as [[] [] [] [] [] [] [] []]).
    rewrite E. unfold in_int64, minInt64, maxInt64, two63 in Hz. 
    rewrite (proj2 (Z.leb_le _ _)), (proj2 (Z.leb_le _ _)) by lia. done.
  - change (pretty (Z.neg p)) with (String "-" (pretty_N (N.pos p))).
    destruct (digits_pretty (N.pos p)) as [E (c & rest & Ex & _)]. rewrite Ex in *. unfold Atoi. rewrite E.
    unfold in_int64, minInt64, maxInt64, two63 in Hz.
    rewrite (proj2 (Z.leb_le _ _)), (proj2 (Z.leb_le _ _)) by lia. done.
Qed.

(** ** Times *)

(** Decimal digits with leading zeros, at least [w] of them. *)
Definition pad (w : nat) (n : Z) : string :=
  let s := Itoa n in Repeat "0" (w - String.length s) +:+ s.

Definition date_text (t : Z) : string :=
  pad 4 (Year t) +:+ "-" +:+ pad 2 (Month t) +:+ "-" +:+ pad 2 (DayOfMonth t).

Definition clock_text (t : Z) : string :=
  let s := t mod Day in
  pad 2 (s / Hour) +:+ ":" +:+ pad 2 (s / Minute mod 60) +:+ ":" +:+ pad 2 (s / Second mod 60).

(** [t.UTC().Format(time.RFC3339)] *)
Definition RFC3339 (t : Z) : string := date_text t +:+ "T" +:+ clock_text t +:+ "Z".

(** [t.UTC().Format(time.RFC3339Nano)]: the fraction without trailing zeros. *)
Definition RFC3339Nano (t : Z) : string :=
  let ns := t mod Second in
  let frac := if ns =? 0 then "" else "." +:+ TrimRight (pad 9 ns) "0" in
  date_text t +:+ "T" +:+ clock_text t +:+ frac +:+ "Z".

(** ** Decimals of a float *)

(** The integer nearest to [num / den], halves to even. *)
Definition round_half_even (num den : Z) : Z :=
  let q := num / den in
  let r := 2 * (num mod den) in
  if r <? den then q else if den <? r then q + 1 else if Z.even q then q else q + 1.

(** Number of decimal digits of [n >= 0]; none for zero. *)
Fixpoint digit_count (fuel : nat) (n : Z) : Z :=
  match fuel with
  | O => 0
  | S fuel' => if n <=? 0 then 0 else 1 + digit_count fuel' (n / 10)
  end.
Definition ndigits (n : Z) : Z := digit_count (Z.to_nat (Z.log2 n + 1)) n.

(** The [x] with [10^x <= num/den < 10^(x+1)]. *)
Definition exponent10 (num den : Z) : Z :=
  if den <=? num then ndigits (num / den) - 1 else - ndigits ((den + num - 1) / num - 1).

(** [num * 10^k] over [den], for [k] of either sign. *)
Definition scale10 (num den k : Z) : Z * Z :=
  if 0 <=? k then (num * 10 ^ k, den) else (num, den * 10 ^ (- k)).

(** The digits of FormatFloat(num/den, 'e', p, 64): an integer [d] and an
    exponent, the value being [d * 10^exponent]. *)
Definition digits_e (p num den : Z) : Z * Z :=
  let x := exponent10 num den in
  let '(n, d) := scale10 num den (p - x) in
  let r := round_half_even n d in
  if r =? 10 ^ (p + 1) then (10 ^ p, x + 1 - p) else (r, x - p).

(** The float64 nearest to [num / den] for [num >= 0], [den > 0]: enough bits of
    the quotient and a sticky bit are normalised. *)
Definition nearest (neg : bool) (num den : Z) : f64 :=
  if num =? 0 then S754_zero neg
  else
    let k := Z.max 0 (70 + Z.log2 den - Z.log2 num) in
    let n := num * 2 ^ k in
    let m := 2 * (n / den) + (if n mod den =? 0 then 0 else 1) in
    binary_normalize fprec femax (if neg then - m else m) (- k - 1) neg.

Definition is_inf (x : f64) : bool := match x with S754_infinity _ => true | _ => false end.

(** [strconv.ParseFloat] of the decimal [d * 10^e]; [None] is the range error. *)
Definition parse_decimal (neg : bool) (d e : Z) : option f64 :=
  let '(num, den) := scale10 d 1 e in
  let x := nearest neg num den in if is_inf x then None else Some x.

(** The ratio of a finite float's absolute value. *)
Definition ratio_of (m : positive) (e : Z) : Z * Z :=
  if 0 <=? e then (Z.pos m * 2 ^ e, 1) else (Z.pos m, 2 ^ (- e)).

(** ParseFloat(FormatFloat(x, 'e', p, 64), 64) *)
Definition reparse_e (p : Z) (x : f64) : option f64 :=
  match x with
  | S754_finite s m e =>
      let '(num, den) := ratio_of m e in
      let '(d, k) := digits_e p num den in parse_decimal s d k
  | _ => Some x
  end.

(** ParseFloat(FormatFloat(x, 'f', p, 64), 64) *)
Definition reparse_f (p : Z) (x : f64) : option f64 :=
  match x with
  | S754_finite s m e =>
      let '(num, den) := ratio_of m e in
      let '(n, d) := scale10 num den p in parse_decimal s (round_half_even n d) (- p)
  | _ => Some x
  end.

(** ** JSON number literals *)

(** Reads decimal digits: their value, their number and the rest. *)
Fixpoint read_digits (acc n : Z) (s : string) : Z * Z * string :=
  match s with
  | "" => (acc, n, "")
  | String c s' =>
      match digit_value c with Some d => read_digits (acc * 10 + d) (n + 1) s' | None => (acc, n, s) end
  end.

(** The digits of an exponent; the accumulation stops at 10000. *)
Fixpoint exp_digits (e : Z) (s : string) : option Z :=
  match s with
  | "" => Some e
  | String c s' =>
      match digit_value c with
      | Some d => exp_digits (if e <? 10000 then e * 10 + d else e) s'
      | None => None
      end
  end.
Definition read_exp (s : string) : option Z :=
  match s with
  | "" | "+" | "-" => None
  | String "+" r => exp_digits 0 r
  | String "-" r => Z.opp <$> exp_digits 0 r
  | _ => exp_digits 0 s
  end.

(** [strconv.ParseFloat] of a JSON number literal: sign, digits, fraction and
    exponent. [None] for another text or a value out of range. *)
Definition ParseFloat (s : string) : option f64 :=
  let '(neg, s) := match s with String "-" r => (true, r) | _ => (false, s) end in
  let '(int, ni, s) := read_digits 0 0 s in
  let '(mant, nf, s) :=
    match s with String "." r => read_digits int 0 r | _ => (int, 0, s) end in
  if ni + nf =? 0 then None
  else
    match s with
    | "" => parse_decimal neg mant (- nf)
    | String c r =>
        if bool_decide (c = "e"%char) || bool_decide (c = "E"%char) then
          match read_exp r with
          | Some x => parse_decimal neg mant (x - nf)
          | None => None
          end
        else None
    end.

(** ** Examples *)

Lemma RFC3339_example : RFC3339 (Date 2026 3 7 + 5 * Hour + 4 * Minute + 9 * Second)
  = "2026-03-07T05:04:09Z".
Proof. by vm_compute. Qed.

Lemma RFC3339Nano_example : RFC3339Nano (Date 1999 12 31 + 23 * Hour + 1500 * Millisecond)
  = "1999-12-31T23:00:01.5Z".
Proof. by vm_compute. Qed.

(** 0.1 and the decimals around it *)
Lemma ParseFloat_tenth : ParseFloat "0.1" = Some (fdiv (f_of_Z 1) (f_of_Z 10)).
Proof. by vm_compute. Qed.

Lemma ParseFloat_forms :
  ParseFloat "1.0" = Some (f_of_Z 1) ∧ ParseFloat "100e-2" = Some (f_of_Z 1) ∧
  ParseFloat "-0" = Some (S754_zero true) ∧ ParseFloat "1e400" = None ∧ ParseFloat "abc" = None ∧
  ParseFloat "4.9e-324" = Some (S754_finite false 1 (-1074)) ∧ ParseFloat "1e+2" = Some (f_of_Z 100) ∧
  ParseFloat "1e-" = None.
Proof. by vm_compute. Qed.

Lemma reparse_examples :
  reparse_e 0 (fdiv (f_of_Z 123) (f_of_Z 100000)) = ParseFloat "0.001" ∧
  reparse_e 0 (fdiv (f_of_Z 25) (f_of_Z 10)) = ParseFloat "2" ∧
  reparse_e 0 (f_of_Z 97) = ParseFloat "100" ∧
  reparse_f 8 (fsub (fdiv (f_of_Z 1281) (f_of_Z 1000)) (f_of_Z 1)) = ParseFloat "0.281".
Proof. by vm_compute. Qed.
