(* ===== verification/ApiErr.v ===== *)
(** * The error contract (internal/apierr/apierr.go)

    A Go [error] is the inductive type [error]: the sentinels of the gateway,
    plain and wrapping errors, and [*apierr.Error] values. A message built by
    fmt.Sprintf is kept as its format and arguments, unrendered. *)

From S2P Require Import Prelude GoStrings GoTime GoFloat.

#[local] Open Scope Z_scope.
#[local] Open Scope stdpp_scope.

(** ** Data *)

Inductive farg := FStr (s : string) | FInt (z : Z) | FFloat (f : f64).
Record message := Msgf { msg_format : string; msg_args : list farg }.
Definition text (s : string) : message := Msgf s [].

Definition TypeInvalidRequest : string := "invalid_request_error".
Definition TypeAuthentication : string := "authentication_error".
Definition TypeRateLimit : string := "rate_limit_error".
Definition TypeAPI : string := "api_error".

Definition CodeInvalidAPIKey : string := "invalid_api_key".
Definition CodeWrongPlane : string := "wrong_plane".
Definition CodeInvalidRequest : string := "invalid_request".
Definition CodeFallbackDuplicate : string := "fallback_duplicate_model".
Definition CodeCaptureTTLTooLong : string := "capture_ttl_too_long".
Definition CodeUnsupportedParameter : string := "unsupported_parameter".
Definition CodeInsufficientScope : string := "insufficient_scope".
Definition CodeModelNotFound : string := "model_not_found".
Definition CodeAliasUnresolvable : string := "alias_unresolvable".
Definition CodeNotSupported : string := "not_supported".
Definition CodeResourceNotFound : string := "resource_not_found".
Definition CodeAliasCollides : string := "alias_collides_with_model".
Definition CodeConflict : string := "conflict".
Definition CodeRequestTooLarge : string := "request_too_large".
Definition CodeRateLimited : string := "rate_limited".
Definition CodeConcurrencyExceeded : string := "concurrency_exceeded".
Definition CodeQuotaExceeded : string := "quota_exceeded".
Definition CodeBudgetExceeded : string := "budget_exceeded".
Definition CodeUpstreamExhausted : string := "upstream_exhausted".
Definition CodeResponseTooLarge : string := "response_too_large".
Definition CodeUpstreamError : string := "upstream_error".
Definition CodeUnavailable : string := "service_unavailable".
Definition CodeGatewayTimeout : string := "gateway_timeout".
Definition CodeUpstreamStreamStalled : string := "upstream_stream_stalled".

(** One entry of a routing cascade, as the 502 body carries it. *)
Record PubAttempt := {
  pa_Provider : string;
  pa_Model : string;
  pa_Failure : string;
  pa_Status : Z
}.

Record ErrorOf (W : Type) := mkError {
  err_Status : Z;
  err_Code : string;
  err_Type : string;
  err_Msg : message;
  err_Param : string;
  err_Wrapped : option W;
  err_Attempts : list PubAttempt;
  err_RetryAfterSeconds : Z
}.
Arguments mkError {W}.
Arguments err_Status {W}.
Arguments err_Code {W}.
Arguments err_Type {W}.
Arguments err_Msg {W}.
Arguments err_Param {W}.
Arguments err_Wrapped {W}.
Arguments err_Attempts {W}.
Arguments err_RetryAfterSeconds {W}.

Inductive error :=
  | ErrNotFound
  | ErrConflict
  | ErrResponseTooLarge
  | ErrText (m : message)
  | ErrWrap (m : message) (inner : error)
  | ErrApi (e : ErrorOf error).
Abbreviation Error := (ErrorOf error).

(** [errors.Is] against the sentinels: the chain of wrapped errors is walked. *)
Fixpoint is_not_found (err : error) : bool :=
  match err with
  | ErrNotFound => true
  | ErrWrap _ inner => is_not_found inner
  | ErrApi e => match err_Wrapped e with Some inner => is_not_found inner | None => false end
  | _ => false
  end.

Fixpoint is_conflict (err : error) : bool :=
  match err with
  | ErrConflict => true
  | ErrWrap _ inner => is_conflict inner
  | ErrApi e => match err_Wrapped e with Some inner => is_conflict inner | None => false end
  | _ => false
  end.

Fixpoint is_response_too_large (err : error) : bool :=
  match err with
  | ErrResponseTooLarge => true
  | ErrWrap _ inner => is_response_too_large inner
  | ErrApi e =>
      match err_Wrapped e with Some inner => is_response_too_large inner | None => false end
  | _ => false
  end.

(** [errors.As] with a [*apierr.Error] target: the outermost one in the chain. *)
Fixpoint as_api (err : error) : option Error :=
  match err with
  | ErrApi e => Some e
  | ErrWrap _ inner => as_api inner
  | _ => None
  end.

(** ** Copies with one field changed *)

Definition WithParam (e : Error) (param : string) : Error :=
  mkError (err_Status e) (err_Code e) (err_Type e) (err_Msg e) param
    (err_Wrapped e) (err_Attempts e) (err_RetryAfterSeconds e).

Definition WithCause (e : Error) (err : error) : Error :=
  mkError (err_Status e) (err_Code e) (err_Type e) (err_Msg e) (err_Param e)
    (Some err) (err_Attempts e) (err_RetryAfterSeconds e).

Definition WithAttempts (e : Error) (attempts : list PubAttempt) : Error :=
  mkError (err_Status e) (err_Code e) (err_Type e) (err_Msg e) (err_Param e)
    (err_Wrapped e) attempts (err_RetryAfterSeconds e).

Definition WithRetryAfter (e : Error) (d : Z) : Error :=
  let s := f_ceil (Seconds d) in
  mkError (err_Status e) (err_Code e) (err_Type e) (err_Msg e) (err_Param e)
    (err_Wrapped e) (err_Attempts e) (if s <? 1 then 1 else s).

Definition newErr (status : Z) (typ code : string) (msg : message) : Error :=
  mkError status code typ msg "" None [] 0.

(** ** The registry *)

Definition InvalidAPIKey : Error :=
  newErr 401 TypeAuthentication CodeInvalidAPIKey (text "Invalid API key provided.").

Definition WrongPlane (want : string) : Error :=
  newErr 401 TypeAuthentication CodeWrongPlane
    (Msgf "This endpoint requires a %s key." [FStr want]).

Definition InvalidRequest (msg : message) : Error :=
  newErr 400 TypeInvalidRequest CodeInvalidRequest msg.

Definition FallbackDuplicate (model : string) : Error :=
  newErr 400 TypeInvalidRequest CodeFallbackDuplicate
    (Msgf "Model %q appears more than once in the fallback chain." [FStr model]).

Definition CaptureTTLTooLong (maxHours : Z) : Error :=
  newErr 400 TypeInvalidRequest CodeCaptureTTLTooLong
    (Msgf "Debug capture ttl must not exceed %d hours." [FInt maxHours]).

Definition UnsupportedParameter (param : string) : Error :=
  WithParam (newErr 400 TypeInvalidRequest CodeUnsupportedParameter
    (Msgf "Parameter %q is not supported by the resolved model." [FStr param])) param.

Definition InsufficientScope : Error :=
  newErr 403 TypeInvalidRequest CodeInsufficientScope
    (text "This admin key is not scoped to the requested tenant.").

Definition ModelNotFound (model : string) : Error :=
  WithParam (newErr 404 TypeInvalidRequest CodeModelNotFound
    (Msgf "The model %q does not exist or you do not have access to it." [FStr model])) "model".

Definition AliasUnresolvable (alias : string) : Error :=
  WithParam (newErr 404 TypeInvalidRequest CodeAliasUnresolvable
    (Msgf "The alias %q resolved to no available model." [FStr alias])) "model".

Definition NotSupported (path : string) : Error :=
  newErr 404 TypeInvalidRequest CodeNotSupported
    (Msgf "%s is not implemented by this gateway." [FStr path]).

Definition ResourceNotFound (kind id : string) : Error :=
  newErr 404 TypeInvalidRequest CodeResourceNotFound
    (Msgf "No %s with id %q." [FStr kind; FStr id]).

Definition AliasCollides (name : string) : Error :=
  WithParam (newErr 409 TypeInvalidRequest CodeAliasCollides
    (Msgf "The alias %q collides with a real model id in the catalog." [FStr name])) "name".

Definition Conflict (msg : message) : Error :=
  newErr 409 TypeInvalidRequest CodeConflict msg.

Definition RequestTooLarge (limit : Z) : Error :=
  newErr 413 TypeInvalidRequest CodeRequestTooLarge
    (Msgf "Request body exceeds the %d byte limit." [FInt limit]).

Definition RateLimited : Error :=
  newErr 429 TypeRateLimit CodeRateLimited
    (text "Rate limit exceeded. Retry after the interval in the Retry-After header.").

Definition ConcurrencyExceeded (limit : Z) : Error :=
  newErr 429 TypeRateLimit CodeConcurrencyExceeded
    (Msgf "Too many concurrent requests for this key (limit %d)." [FInt limit]).

Definition QuotaExceeded : Error :=
  newErr 429 TypeRateLimit CodeQuotaExceeded (text "Token quota exhausted for the current period.").

Definition BudgetExceeded : Error :=
  newErr 429 TypeRateLimit CodeBudgetExceeded
    (text "Spend budget exhausted for the current period.").

Definition UpstreamExhausted (attempts : Z) : Error :=
  newErr 502 TypeAPI CodeUpstreamExhausted
    (Msgf "All %d routing candidates failed." [FInt attempts]).

Definition ResponseTooLarge (limit : Z) : Error :=
  newErr 502 TypeAPI CodeResponseTooLarge
    (Msgf "Upstream response exceeds the %d byte limit." [FInt limit]).

Definition UpstreamError (msg : message) : Error := newErr 502 TypeAPI CodeUpstreamError msg.

Definition Unavailable (msg : message) : Error := newErr 503 TypeAPI CodeUnavailable msg.

Definition GatewayTimeout (secs : f64) : Error :=
  newErr 504 TypeAPI CodeGatewayTimeout
    (Msgf "The request exceeded the %.0fs gateway timeout." [FFloat secs]).

(** [From]: anything that is not a registry error becomes an opaque 500. *)
Definition From (err : error) : Error :=
  match as_api err with
  | Some e => e
  | None =>
      mkError 500 "internal_error" TypeAPI (text "The gateway encountered an internal error.")
        "" (Some err) [] 0
  end.

(** ** The envelope *)

Record Body := {
  body_Message : message;
  body_Type : string;
  body_Code : string;
  body_Param : option string;
  body_RequestID : string;
  body_Attempts : list PubAttempt
}.

(** [Error.Envelope] *)
Definition Envelope (e : Error) (requestID : string) : Body :=
  {| body_Message := err_Msg e;
     body_Type := err_Type e;
     body_Code := err_Code e;
     body_Param := if decide (err_Param e = "") then None else Some (err_Param e);
     body_RequestID := requestID;
     body_Attempts := err_Attempts e |}.

(** ** Facts *)

Lemma WithRetryAfter_pos e d : 1 ≤ err_RetryAfterSeconds (WithRetryAfter e d).
Proof. simpl. destruct (_ <? 1) eqn:E; lia. Qed.

(** GW-14: the cause attached for the log never reaches the body, so two errors
    that differ only in it answer the same. *)
Lemma Envelope_WithCause e err rid : Envelope (WithCause e err) rid = Envelope e rid.
Proof. done. Qed.

(** Nothing of an unclassified error reaches the caller. *)
Lemma Envelope_opaque err err' rid :
  as_api err = None → as_api err' = None → Envelope (From err) rid = Envelope (From err') rid.
Proof. unfold From. by intros -> ->. Qed.
