(* ===== verification/StoreTypes.v ===== *)
(** * The store's data types and credentials (internal/store/types.go, keys.go)

    One record per Go struct, fields in source order under a short prefix.
    Pointer fields that may be nil are options. Times and durations are those
    of [GoTime], money and rates those of [GoFloat]. *)

From S2P Require Import Prelude GoStrings GoTime GoFloat.
From Stdlib Require Import Ascii.

#[local] Open Scope Z_scope.
#[local] Open Scope stdpp_scope.

(** ** Planes and scopes *)

Inductive Plane := PlaneData | PlaneAdmin.
#[export] Instance Plane_eq_dec : EqDecision Plane.
Proof. solve_decision. Defined.

Definition plane_string (p : Plane) : string :=
  match p with PlaneData => "data" | PlaneAdmin => "admin" end.

Definition DataKeyPrefix : string := "cg-".
Definition AdminKeyPrefix : string := "cga-".
Definition ScopeRoot : string := "root".

(** ** Tenants *)

Record TenantDebugCapture := {
  dc_Enabled : bool;
  dc_TTLSeconds : Z;
  dc_SampleRate : f64
}.

Record TenantCache := {
  tc_Enabled : bool;
  tc_TTLSeconds : Z
}.

Record TenantLimits := {
  tl_MaxRequestBytes : Z;
  tl_RequestTimeoutSeconds : Z;
  tl_StreamIdleTimeoutSeconds : Z;
  tl_MaxConcurrentPerKey : Z;
  tl_RequestsPerSecond : Z;
  tl_BurstCapacity : Z;
  tl_RequestsPerMinute : Z
}.

Record Tenant := {
  t_ID : string;
  t_Name : string;
  t_Status : string;
  t_CreatedAt : Z;
  t_Limits : TenantLimits;
  t_Cache : TenantCache;
  t_DebugCapture : TenantDebugCapture;
  t_SystemInstruction : string
}.

Record TenantPatch := {
  tp_Name : option string;
  tp_Status : option string;
  tp_Limits : option TenantLimits;
  tp_Cache : option TenantCache;
  tp_DebugCapture : option TenantDebugCapture;
  tp_SystemInstruction : option string
}.

Definition no_limits : TenantLimits :=
  {| tl_MaxRequestBytes := 0; tl_RequestTimeoutSeconds := 0;
     tl_StreamIdleTimeoutSeconds := 0; tl_MaxConcurrentPerKey := 0;
     tl_RequestsPerSecond := 0; tl_BurstCapacity := 0; tl_RequestsPerMinute := 0 |}.
Definition no_cache : TenantCache := {| tc_Enabled := false; tc_TTLSeconds := 0 |}.
Definition no_capture : TenantDebugCapture :=
  {| dc_Enabled := false; dc_TTLSeconds := 0; dc_SampleRate := fzero |}.

(** ** API keys *)

Record APIKey := {
  k_ID : string;
  k_TenantID : string;
  k_Plane : Plane;
  k_Name : string;
  k_Prefix : string;
  k_Hash : string;
  k_Scope : string;
  k_CreatedAt : Z;
  k_ExpiresAt : option Z;
  k_RevokedAt : option Z
}.

Definition Active (k : APIKey) (now : Z) : bool :=
  match k_RevokedAt k with
  | Some _ => false
  | None => match k_ExpiresAt k with
            | Some e => negb (After now e)
            | None => true
            end
  end.

(** ** Providers *)

Record Provider := {
  p_ID : string;
  p_TenantID : string;
  p_Name : string;
  p_Kind : string;
  p_BaseURL : string;
  p_Enabled : bool;
  p_KeyStrategy : string;
  p_Keys : list string;
  p_KeyPrefixes : list string;
  p_CreatedAt : Z
}.

Definition KeyStrategyRoundRobin : string := "round_robin".
Definition KeyStrategyFailover : string := "failover".

Definition ValidKeyStrategy (s : string) : bool :=
  bool_decide (s = "") || bool_decide (s = KeyStrategyRoundRobin)
  || bool_decide (s = KeyStrategyFailover).

(** A nil [Keys] slice means "absent". *)
Record ProviderPatch := {
  pp_BaseURL : option string;
  pp_Enabled : option bool;
  pp_KeyStrategy : option string;
  pp_Keys : option (list string)
}.

(** ** Audit entries and events *)

Record AuditEntry := {
  a_ID : string;
  a_At : Z;
  a_Actor : string;
  a_ActorKeyID : string;
  a_ActorScope : string;
  a_Action : string;
  a_Resource : string;
  a_TenantID : string;
  a_Status : Z;
  a_RequestID : string
}.

(** An event payload value: the gateway puts strings, numbers and integers in it. *)
Inductive datum := DStr (s : string) | DInt (z : Z) | DFloat (f : f64).
#[export] Instance datum_eq_dec : EqDecision datum.
Proof. solve_decision. Defined.

Record Event := {
  e_ID : string;
  e_Type : string;
  e_Created : Z;
  e_TenantID : string;
  e_Data : gmap string datum
}.

(** ** Models, aliases and routes *)

Record Model := {
  m_ID : string;
  m_Provider : string;
  m_ContextWindow : Z;
  m_MaxOutputTokens : Z;
  m_Capabilities : list string;
  m_InputCostPerMTok : f64;
  m_OutputCostPerMTok : f64;
  m_Deprecated : bool
}.

Record Alias := {
  al_ID : string;
  al_TenantID : string;
  al_Name : string;
  al_Pin : string;
  al_Capabilities : list string;
  al_MinContextWindow : Z;
  al_ProviderPreference : list string;
  al_CostTier : string;
  al_CreatedAt : Z
}.

Record Route := {
  r_ID : string;
  r_TenantID : string;
  r_Match : string;
  r_Chain : list string;
  r_CreatedAt : Z
}.

(** ** Quotas *)

Record QuotaLimit := {
  ql_Cap : f64;
  ql_SoftThresholdPct : Z
}.

Record QuotaWindow := {
  qw_Tokens : option QuotaLimit;
  qw_Cost : option QuotaLimit;
  qw_Requests : option QuotaLimit
}.

Record Quota := {
  q_TenantID : string;
  q_KeyID : string;
  q_Day : QuotaWindow;
  q_Month : QuotaWindow;
  q_UpdatedAt : Z
}.

Definition no_window : QuotaWindow :=
  {| qw_Tokens := None; qw_Cost := None; qw_Requests := None |}.

Definition is_None_b {A} (o : option A) : bool := match o with None => true | _ => false end.

(** [Quota.Empty] *)
Definition Empty (q : Quota) : bool :=
  is_None_b (qw_Tokens (q_Day q)) && is_None_b (qw_Cost (q_Day q)) &&
  is_None_b (qw_Requests (q_Day q)) && is_None_b (qw_Tokens (q_Month q)) &&
  is_None_b (qw_Cost (q_Month q)) && is_None_b (qw_Requests (q_Month q)).

(** ** Webhooks and usage *)

Record Webhook := {
  w_ID : string;
  w_TenantID : string;
  w_URL : string;
  w_Secret : string;
  w_Events : list string;
  w_Enabled : bool;
  w_CreatedAt : Z
}.

Record UsageRecord := {
  u_RequestID : string;
  u_ClientRequestID : string;
  u_TenantID : string;
  u_KeyPrefix : string;
  u_Provider : string;
  u_Model : string;
  u_RequestedModel : string;
  u_FallbackDepth : Z;
  u_PromptTokens : Z;
  u_CompletionToken : Z;
  u_TotalTokens : Z;
  u_CostUSD : f64;
  u_ChargeUSD : f64;
  u_BillingMode : string;
  u_Cached : bool;
  u_Streamed : bool;
  u_StatusCode : Z;
  u_DurationMS : Z;
  u_RecordedAt : Z
}.

Record UsageTotals := {
  ut_Requests : Z;
  ut_CachedRequests : Z;
  ut_PromptTokens : Z;
  ut_CompletionTokens : Z;
  ut_TotalTokens : Z;
  ut_CostUSD : f64;
  ut_ChargeUSD : f64
}.

Definition no_usage : UsageTotals :=
  {| ut_Requests := 0; ut_CachedRequests := 0; ut_PromptTokens := 0;
     ut_CompletionTokens := 0; ut_TotalTokens := 0; ut_CostUSD := fzero;
     ut_ChargeUSD := fzero |}.

Record UsageBucket := {
  ub_Key : string;
  ub_Totals : UsageTotals
}.
