(* ===== verification/Keys.v ===== *)
(** * Credentials and identifiers (internal/store/keys.go)

    Random bytes come from crypto/rand: every function that draws them takes
    them as an argument. SHA-256 is the class [Crypto]. Encodings, prefixes and
    the constant-time comparison are defined as the code has them. *)

From S2P Require Import Prelude GoStrings StoreTypes.
From Stdlib Require Import Ascii.

#[local] Open Scope stdpp_scope.

(** [sha256.Sum256]: the 32-byte digest of a byte string. *)
Class Crypto := { Sum256 : string → string }.

(** ** Encodings *)

Definition hex_digits : string := "0123456789abcdef".
Definition base64_digits : string :=
  "ABCDEFGHIJKLMNOPQRSTUVWXYZabcdefghijklmnopqrstuvwxyz0123456789-_".

Definition digit (alphabet : string) (n : nat) : ascii :=
  default zero (String.get n alphabet).

(** [hex.EncodeToString] *)
Fixpoint hex_encode (b : string) : string :=
  match b with
  | "" => ""
  | String c b' =>
      let n := nat_of_ascii c in
      String (digit hex_digits (n / 16)) (String (digit hex_digits (n mod 16)) (hex_encode b'))
  end.

(** [base64.RawURLEncoding.EncodeToString] *)
Fixpoint base64_encode (b : string) : string :=
  let d n := digit base64_digits (N.to_nat n) in
  match b with
  | "" => ""
  | String c1 "" =>
      let n := N_of_ascii c1 in
      String (d (n / 4)%N) (String (d (n mod 4 * 16)%N) "")
  | String c1 (String c2 "") =>
      let n := (N_of_ascii c1 * 256 + N_of_ascii c2)%N in
      String (d (n / 1024)%N) (String (d (n / 16 mod 64)%N) (String (d (n mod 16 * 4)%N) ""))
  | String c1 (String c2 (String c3 b')) =>
      let n := (N_of_ascii c1 * 65536 + N_of_ascii c2 * 256 + N_of_ascii c3)%N in
      String (d (n / 262144)%N) (String (d (n / 4096 mod 64)%N)
        (String (d (n / 64 mod 64)%N) (String (d (n mod 64)%N) (base64_encode b'))))
  end.

(** ** Identifiers *)

(** [randomToken(n)], given the [n] random bytes *)
Definition randomToken (rnd : string) : string := base64_encode rnd.

(** [NewID(kind)], given the 12 random bytes *)
Definition NewID (kind rnd : string) : string := kind +:+ "_" +:+ hex_encode rnd.

Definition IDTenant : string := "ten".
Definition IDKey : string := "key".
Definition IDProvider : string := "prv".
Definition IDAlias : string := "als".
Definition IDRoute : string := "rte".
Definition IDWebhook : string := "whk".
Definition IDRequest : string := "req".
Definition IDEvent : string := "evt".
Definition IDAudit : string := "aud".
Definition IDCapture : string := "cap".

(** ** API keys *)

Definition HashAPIKey `{Crypto} (plaintext : string) : string :=
  hex_encode (Sum256 plaintext).

(** [s[n:]]: a runtime panic, [None], when [n] is past the end. *)
Definition slice_from (s : string) (n : nat) : option string :=
  if (n <=? String.length s)%nat then Some (str_drop n s) else None.

(** [KeyPrefix]; [None] is the slice-bounds panic of a credential shorter than
    its scheme. *)
Definition KeyPrefix (plaintext : string) : option string :=
  let shown := 8 in
  let scheme := if HasPrefix plaintext AdminKeyPrefix then AdminKeyPrefix else DataKeyPrefix in
  after ← slice_from plaintext (String.length scheme);
  let scheme := if HasPrefix after "dev-" then scheme +:+ "dev-" else scheme in
  rest ← slice_from plaintext (String.length scheme);
  let rest := if (shown <? String.length rest)%nat then str_take shown rest else rest in
  Some (scheme +:+ rest).

(** [GenerateAPIKey(plane, dev)], given the 24 random bytes of the token:
    the plaintext, the display prefix and the stored hash. *)
Definition GenerateAPIKey `{Crypto} (plane : Plane) (dev : bool) (rnd : string) :
    option (string * string * string) :=
  let scheme := match plane with PlaneAdmin => AdminKeyPrefix | PlaneData => DataKeyPrefix end in
  let scheme := if dev then scheme +:+ "dev-" else scheme in
  let plaintext := scheme +:+ randomToken rnd in
  prefix ← KeyPrefix plaintext;
  Some (plaintext, prefix, HashAPIKey plaintext).

Definition PlaneOf (plaintext : string) : option Plane :=
  if HasPrefix plaintext AdminKeyPrefix then Some PlaneAdmin
  else if HasPrefix plaintext DataKeyPrefix then Some PlaneData
  else None.

(** [subtle.ConstantTimeCompare(a, b) == 1]: different lengths never match;
    equal lengths are compared by or-ing the exclusive ors of all bytes. *)
Fixpoint xor_all (a b : string) (v : N) : N :=
  match a, b with
  | String c a', String d b' => xor_all a' b' (N.lor v (N.lxor (N_of_ascii c) (N_of_ascii d)))
  | _, _ => v
  end.
Definition ConstantTimeEqual (a b : string) : bool :=
  (String.length a =? String.length b)%nat && (xor_all a b 0 =? 0)%N.

(** ** Lemmas *)

Lemma slice_from_app s t : slice_from (s +:+ t) (String.length s) = Some t.
Proof.
  unfold slice_from. rewrite str_length_app, str_drop_app.
  by rewrite (proj2 (Nat.leb_le _ _)) by lia.
Qed.

Lemma slice_from_Some s n r : slice_from s n = Some r → s = str_take n s +:+ r.
Proof.
  unfold slice_from. destruct (n <=? String.length s)%nat; [|done].
  intros [= <-]. by rewrite str_take_drop.
Qed.

(** The characters of an encoded string are those of the alphabet. *)
Lemma hex_encode_has c b : str_has c hex_digits = false → str_has c (hex_encode b) = false.
Proof.
  intros Hc. assert (∀ n, (n < 16)%nat → bool_decide (c = digit hex_digits n) = false) as Hd.
  { intros n Hn. apply bool_decide_eq_false. intros ->.
    do 16 (destruct n as [|n]; [by vm_compute in Hc|]). lia. }
  induction b as [|d b IH]; [done|]. cbn [hex_encode str_has].
  pose proof (nat_ascii_bounded d).
  rewrite !Hd, IH; [done| |]; [apply Nat.mod_upper_bound; lia|].
  apply Nat.Div0.div_lt_upper_bound; lia.
Qed.

Lemma NewID_has c kind rnd :
  str_has c hex_digits = false → str_has c (kind +:+ "_") = false →
  str_has c (NewID kind rnd) = false.
Proof.
  intros Hc Hk. unfold NewID. rewrite <-str_app_assoc, str_has_app, Hk.
  by rewrite hex_encode_has.
Qed.

Lemma xor_all_lor a b v : xor_all a b v = N.lor v (xor_all a b 0).
Proof.
  revert b v; induction a as [|c a IH]; intros [|d b] v; cbn [xor_all];
    rewrite ?N.lor_0_r; [done..|].
  rewrite IH, (IH b (N.lor 0 _)), N.lor_0_l. by rewrite N.lor_assoc.
Qed.

Lemma hex_digit_inj (a b : nat) :
  (a < 16)%nat → (b < 16)%nat → digit hex_digits a = digit hex_digits b → a = b.
Proof.
  intros Ha Hb. do 16 (destruct a as [|a]; [do 16 (destruct b as [|b]; [done|]); lia|]). lia.
Qed.

Lemma String_inj c d (s t : string) : String c s = String d t → c = d ∧ s = t.
Proof. by intros [= -> ->]. Qed.

Lemma hex_encode_inj a b : hex_encode a = hex_encode b → a = b.
Proof.
  revert b; induction a as [|c a IH]; intros [|d b]; cbn [hex_encode]; try done.
  intros [H1 [H2 H3]%String_inj]%String_inj.
  pose proof (nat_ascii_bounded c). pose proof (nat_ascii_bounded d).
  apply hex_digit_inj in H1, H2; try (apply Nat.mod_upper_bound; lia);
    try (apply Nat.Div0.div_lt_upper_bound; lia).
  pose proof (Nat.div_mod_eq (nat_of_ascii c) 16) as Ec.
  pose proof (Nat.div_mod_eq (nat_of_ascii d) 16) as Ed.
  assert (nat_of_ascii c = nat_of_ascii d) as E by congruence.
  f_equal; [|by apply IH]. by rewrite <-(ascii_nat_embedding c), E, ascii_nat_embedding.
Qed.

(** ** Properties *)

(** The constant-time comparison is equality. *)
Lemma ConstantTimeEqual_eq a b : ConstantTimeEqual a b = true ↔ a = b.
Proof.
  unfold ConstantTimeEqual. rewrite andb_true_iff, Nat.eqb_eq, N.eqb_eq.
  revert b; induction a as [|c a IH]; intros [|d b]; cbn [xor_all String.length];
    [split; [intros [? ?]|intros ?]; done..|].
  rewrite xor_all_lor, N.lor_0_l, N.lor_eq_0_iff, N.lxor_eq_0_iff.
  split.
  - intros [[= Hl] [Hc Hx]]. f_equal; [|by apply IH].
    by rewrite <-(ascii_N_embedding c), Hc, ascii_N_embedding.
  - intros [= -> ->]. split; [done|]. split; [done|]. by apply IH.
Qed.

(** Cutting the token down to eight characters leaves a prefix. *)
Lemma shown_prefix scheme rest :
  let r := if (8 <? String.length rest)%nat then str_take 8 rest else rest in
  HasPrefix (scheme +:+ rest) (scheme +:+ r) = true ∧ String.length r ≤ 8.
Proof.
  cbv zeta. destruct (8 <? String.length rest)%nat eqn:E.
  - split; [|rewrite str_take_length; lia].
    rewrite <-(str_take_drop 8 rest) at 1. rewrite <-str_app_assoc. apply HasPrefix_app.
  - apply Nat.ltb_ge in E. split; [|lia].
    rewrite <-(str_app_nil_r (scheme +:+ rest)) at 1. apply HasPrefix_app.
Qed.

(** A credential with a scheme has a display prefix: a prefix of it that shows
    at most eight characters past the scheme and the dev marker. *)
Lemma KeyPrefix_scheme scheme rest :
  scheme = (if HasPrefix (scheme +:+ rest) AdminKeyPrefix then AdminKeyPrefix else DataKeyPrefix) →
  ∃ p, KeyPrefix (scheme +:+ rest) = Some p ∧
    HasPrefix (scheme +:+ rest) p = true ∧ String.length p ≤ String.length scheme + 12.
Proof.
  intros Hs. unfold KeyPrefix. rewrite <-Hs, slice_from_app; simpl.
  destruct (HasPrefix rest "dev-") eqn:Ed.
  - apply HasPrefix_spec in Ed as [u ->].
    rewrite <-str_app_assoc, slice_from_app; simpl.
    destruct (shown_prefix (scheme +:+ "dev-") u) as [H1 H2].
    eexists; split_and!; [done..|]. rewrite !str_length_app; simpl in *; lia.
  - rewrite slice_from_app; simpl. destruct (shown_prefix scheme rest) as [H1 H2].
    eexists; split_and!; [done..|]. rewrite str_length_app; simpl in *; lia.
Qed.

Definition scheme_of (plane : Plane) : string :=
  match plane with PlaneAdmin => AdminKeyPrefix | PlaneData => DataKeyPrefix end.

Lemma scheme_of_plane plane s : PlaneOf (scheme_of plane +:+ s) = Some plane.
Proof.
  destruct plane; unfold PlaneOf, scheme_of; [|by rewrite HasPrefix_app].
  rewrite (HasPrefix_app DataKeyPrefix). reflexivity.
Qed.

Lemma scheme_of_chosen plane s :
  scheme_of plane = (if HasPrefix (scheme_of plane +:+ s) AdminKeyPrefix
                     then AdminKeyPrefix else DataKeyPrefix).
Proof. destruct plane; unfold scheme_of; [reflexivity|by rewrite HasPrefix_app]. Qed.

Lemma GenerateAPIKey_spec `{Crypto} plane dev rnd :
  ∃ plaintext prefix,
    GenerateAPIKey plane dev rnd = Some (plaintext, prefix, HashAPIKey plaintext) ∧
    PlaneOf plaintext = Some plane ∧ HasPrefix plaintext prefix = true ∧
    (String.length prefix ≤ 16)%nat.
Proof.
  unfold GenerateAPIKey. fold (scheme_of plane).
  set (tail := (if dev then "dev-" else "") +:+ randomToken rnd).
  assert ((if dev then scheme_of plane +:+ "dev-" else scheme_of plane) +:+ randomToken rnd
          = scheme_of plane +:+ tail) as ->.
  { unfold tail. destruct dev; [by rewrite str_app_assoc|done]. }
  destruct (KeyPrefix_scheme (scheme_of plane) tail) as (p & -> & H1 & H2);
    [apply scheme_of_chosen|].
  exists (scheme_of plane +:+ tail), p. simpl. split_and!; [done|apply scheme_of_plane|done|].
  destruct plane; simpl in *; lia.
Qed.

(** A minted credential is printable ASCII throughout. *)
Lemma base64_digit_graphic n : (n < 64)%N → graphic (digit base64_digits (N.to_nat n)) = true.
Proof.
  intros Hn. assert (forallb (λ i, graphic (digit base64_digits i)) (seq 0 64) = true) as Hf by by vm_compute.
  rewrite forallb_forall in Hf. apply Hf. apply in_seq. lia.
Qed.

Lemma base64_graphic b : all_graphic (base64_encode b) = true.
Proof.
  remember (String.length b) as n eqn:En. revert b En. induction (lt_wf n) as [n _ IH]. intros b ->.
  destruct b as [|c1 [|c2 [|c3 b]]]; [done|..]; cbn [base64_encode all_graphic].
  all: pose proof (N_ascii_bounded c1); try pose proof (N_ascii_bounded c2); try pose proof (N_ascii_bounded c3).
  all: rewrite ?base64_digit_graphic by (zify; Z.to_euclidean_division_equations; lia); try done.
  by apply (IH (String.length b)); [simpl; lia|].
Qed.

Lemma GenerateAPIKey_graphic `{Crypto} plane dev rnd plaintext prefix hash :
  GenerateAPIKey plane dev rnd = Some (plaintext, prefix, hash) → all_graphic plaintext = true.
Proof.
  unfold GenerateAPIKey, randomToken. destruct (KeyPrefix _) as [p|]; [|done]. simpl. intros [= <- _ _].
  rewrite !all_graphic_app, base64_graphic. by destruct plane, dev.
Qed.
