(* ===== verification/Json.v ===== *)
(** * JSON documents, as encoding/json presents them

    The gateway handles bodies as bytes and reads them through encoding/json.
    [json] is the decoded document (numbers keep their literal, objects their
    key order); the class [JsonCodec] is the codec between bytes and documents
    with the round trip encoding/json documents. *)

From S2P Require Import Prelude GoStrings.
From Stdlib Require Import Ascii.

#[local] Open Scope stdpp_scope.

Inductive json :=
  | JNull
  | JBool (b : bool)
  | JNum (lit : string)
  | JStr (s : string)
  | JArr (l : list json)
  | JObj (fields : list (string * json)).

(** The fields of an object as a Go map: the last occurrence of a key wins. *)
Definition fields_map (fields : list (string * json)) : gmap string json :=
  foldl (λ m f, <[f.1 := f.2]> m) ∅ fields.

(** [json.Marshal] of a map writes the keys in increasing order. *)
Definition map_fields (m : gmap string json) : list (string * json) :=
  sort_slice (λ a b, String.ltb a.1 b.1) (map_to_list m).

Class JsonCodec := {
  Unmarshal : string → option json;
  Marshal : json → string;
  Unmarshal_Marshal_map m : Unmarshal (Marshal (JObj (map_fields m))) = Some (JObj (map_fields m))
}.

(** ** Lemmas *)

Lemma fields_map_app l1 l2 : fields_map (l1 ++ l2) = foldl (λ m f, <[f.1 := f.2]> m) (fields_map l1) l2.
Proof. apply foldl_app. Qed.

Lemma fields_map_elem l k v : NoDup l.*1 → (k, v) ∈ l → fields_map l !! k = Some v.
Proof.
  induction l as [|[k' v'] l IH] using rev_ind; [set_solver|].
  rewrite fmap_app, NoDup_app, fields_map_app; simpl. intros (Hnd & Hdis & _) Hin.
  apply elem_of_app in Hin as [Hin|Hin%list_elem_of_singleton].
  - rewrite lookup_insert_ne; [by apply IH|]. intros ->.
    apply (Hdis k); [|set_solver]. apply list_elem_of_fmap. by exists (k, v).
  - injection Hin as -> ->. by rewrite lookup_insert_eq.
Qed.

Lemma fields_map_not_elem l k : k ∉ l.*1 → fields_map l !! k = None.
Proof.
  induction l as [|[k' v'] l IH] using rev_ind; [done|].
  rewrite fmap_app, not_elem_of_app, fields_map_app; simpl. intros [Hk Hk'].
  rewrite lookup_insert_ne by set_solver. auto.
Qed.

(** Encoding a map and reading the object back gives the map. *)
Lemma fields_map_map_fields m : fields_map (map_fields m) = m.
Proof.
  assert (NoDup (map_fields m).*1) as Hnd.
  { unfold map_fields. rewrite sort_slice_perm. apply NoDup_fst_map_to_list. }
  apply map_eq. intros k. destruct (m !! k) as [v|] eqn:E.
  - apply fields_map_elem; [done|]. unfold map_fields.
    by rewrite elem_of_sort_slice, elem_of_map_to_list.
  - apply fields_map_not_elem. intros [[k' v] [-> Hin]]%list_elem_of_fmap.
    unfold map_fields in Hin. rewrite elem_of_sort_slice, elem_of_map_to_list in Hin.
    simpl in E. congruence.
Qed.

(** ** A codec

    Any injective encoding satisfies the class; this one goes through binary
    numerals. *)

#[export] Instance json_eq_dec : EqDecision json.
Proof.
  refine (fix go (a b : json) : Decision (a = b) :=
    match a, b with
    | JNull, JNull => left eq_refl
    | JBool x, JBool y => cast_if (decide (x = y))
    | JNum x, JNum y => cast_if (decide (x = y))
    | JStr x, JStr y => cast_if (decide (x = y))
    | JArr x, JArr y =>
        cast_if ((fix gol (x y : list json) : Decision (x = y) :=
          match x, y with
          | [], [] => left eq_refl
          | j :: x', k :: y' => cast_if_and (go j k) (gol x' y')
          | _, _ => right _
          end) x y)
    | JObj x, JObj y =>
        cast_if ((fix gol (x y : list (string * json)) : Decision (x = y) :=
          match x, y with
          | [], [] => left eq_refl
          | (s, j) :: x', (t, k) :: y' => cast_if_and3 (decide (s = t)) (go j k) (gol x' y')
          | _, _ => right _
          end) x y)
    | _, _ => right _
    end); congruence.
Defined.

Fixpoint to_tree (j : json) : gen_tree (string + bool) :=
  match j with
  | JNull => GenNode 0 []
  | JBool b => GenLeaf (inr b)
  | JStr s => GenLeaf (inl s)
  | JNum s => GenNode 1 [GenLeaf (inl s)]
  | JArr l => GenNode 2 (to_tree <$> l)
  | JObj fs => GenNode 3 ((λ f, GenNode 4 [GenLeaf (inl f.1); to_tree f.2]) <$> fs)
  end.

Fixpoint of_tree (t : gen_tree (string + bool)) : json :=
  match t with
  | GenNode 0 _ => JNull
  | GenLeaf (inr b) => JBool b
  | GenLeaf (inl s) => JStr s
  | GenNode 1 [GenLeaf (inl s)] => JNum s
  | GenNode 2 l => JArr (of_tree <$> l)
  | GenNode 3 l =>
      JObj ((λ t, match t with
                  | GenNode _ [GenLeaf (inl k); v] => (k, of_tree v)
                  | _ => ("", JNull)
                  end) <$> l)
  | _ => JNull
  end.

Lemma of_to_tree j : of_tree (to_tree j) = j.
Proof.
  revert j. fix IH 1. intros [|b|s|s|l|fs]; simpl; try done.
  - f_equal. induction l as [|x l IHl]; [done|]. rewrite !fmap_cons, IH. by f_equal.
  - f_equal. induction fs as [|[k v] fs IHl]; [done|]. rewrite !fmap_cons. simpl. rewrite IH. by f_equal.
Qed.

#[export] Instance json_countable : Countable json := inj_countable' to_tree of_tree of_to_tree.

Fixpoint bits (p : positive) : string :=
  match p with xH => "" | xO p => String "0" (bits p) | xI p => String "1" (bits p) end.
Fixpoint of_bits (s : string) : positive :=
  match s with
  | "" => xH
  | String c s => if decide (c = "0"%char) then xO (of_bits s) else xI (of_bits s)
  end.
Lemma of_bits_bits p : of_bits (bits p) = p.
Proof. induction p as [p IH|p IH|]; simpl; [by rewrite IH..|done]. Qed.

Definition binary_codec : JsonCodec.
Proof.
  refine {| Unmarshal s := decode (of_bits s); Marshal j := bits (encode j) |}.
  intros m. by rewrite of_bits_bits, decode_encode.
Defined.
