(* ===== verification/Provider.v ===== *)
(** * The provider boundary (internal/provider/provider.go, compat.go, openai.go)

    The classification of upstream outcomes, the adapter registry and the pure
    helpers of the OpenAI adapter. What an adapter answers is decided by an
    upstream service: routing is parametric in it. *)

From S2P Require Import Prelude GoStrings GoTime GoFloat ApiErr StoreTypes.
From Stdlib Require Import Ascii.

#[local] Open Scope Z_scope.
#[local] Open Scope stdpp_scope.

(** ** Data *)

Record Credential := { cr_BaseURL : string; cr_APIKey : string }.

Inductive FailureKind := FailNone | FailTransport | FailServer | FailRateLimit | FailClient.
#[export] Instance FailureKind_eq_dec : EqDecision FailureKind.
Proof. solve_decision. Defined.

(** [FailureKind.String] *)
Definition Failure_String (f : FailureKind) : string :=
  match f with
  | FailNone => "none"
  | FailTransport => "transport"
  | FailServer => "server"
  | FailRateLimit => "rate_limit"
  | FailClient => "client"
  end.

Definition Retryable (f : FailureKind) : bool :=
  bool_decide (f = FailTransport) || bool_decide (f = FailServer) || bool_decide (f = FailRateLimit).

Record Usage := {
  us_PromptTokens : Z;
  us_CompletionTokens : Z;
  us_TotalTokens : Z
}.

Record Request := {
  rq_Model : string;
  rq_Body : string;
  rq_Stream : bool;
  rq_Path : string
}.

(** [rs_Header] is [None] for a nil header map. *)
Record Response := {
  rs_StatusCode : Z;
  rs_Header : option (gmap string string);
  rs_Body : string;
  rs_Usage : option Usage;
  rs_Failure : FailureKind;
  rs_Latency : Z
}.

(** What [Adapter.Do] returns: a response or nil, and an error or nil. *)
Definition DoResult : Type := option Response * option error.

Definition KindOpenAI : string := "openai".
Definition KindGemini : string := "gemini".
Definition KindAnthropic : string := "anthropic".

(** ** The registry *)

(** [Registry.Get] over adapters of any type [A] *)
Definition Registry_Get {A} (adapters : gmap string A) (kind : string) : option A :=
  match adapters !! kind with
  | Some a => Some a
  | None => adapters !! KindOpenAI
  end.

Definition NewRegistry {A} (Kind : A → string) (adapters : list A) : gmap string A :=
  foldl (λ m a, <[Kind a := a]> m) ∅ adapters.

(** ** Pure helpers *)

Definition Classify (status : Z) : FailureKind :=
  if (200 <=? status) && (status <? 300) then FailNone
  else if status =? 429 then FailRateLimit
  else if 500 <=? status then FailServer
  else if 400 <=? status then FailClient
  else FailServer.

Definition joinURL (base path : string) : string :=
  TrimSuffix base "/" +:+ "/" +:+ TrimPrefix path "/".

Definition DefaultBaseURL `{Unicode} (kind : string) : option string :=
  let k := ToLower (TrimSpace kind) in
  if decide (k = KindGemini) then Some "https://generativelanguage.googleapis.com/v1beta/openai/"
  else if decide (k = KindAnthropic) then Some "https://api.anthropic.com/v1/"
  else None.

Definition inferCapabilities `{Unicode} (id : string) : list string :=
  let lower := ToLower id in
  let caps :=
    if Contains lower "embed" then ["embeddings"]
    else if Contains lower "whisper" || Contains lower "transcribe" then ["transcription"]
    else ["chat"] in
  let chat := bool_decide (head caps = Some "chat") in
  let caps :=
    if existsb (λ marker, Contains lower marker && chat)
         ["vision"; "-4o"; "sonnet"; "opus"; "gemini"]
    then caps ++ ["vision"] else caps in
  if Contains lower "tool" || chat then caps ++ ["tools"] else caps.

(** [Compat.ListModels] after the OpenAI listing: the "models/" resource path
    some ids carry is stripped. *)
Definition set_model_id (m : Model) (id : string) : Model :=
  {| m_ID := id; m_Provider := m_Provider m; m_ContextWindow := m_ContextWindow m;
     m_MaxOutputTokens := m_MaxOutputTokens m; m_Capabilities := m_Capabilities m;
     m_InputCostPerMTok := m_InputCostPerMTok m; m_OutputCostPerMTok := m_OutputCostPerMTok m;
     m_Deprecated := m_Deprecated m |}.

Definition Compat_ListModels (listing : res error (list Model)) : res error (list Model) :=
  match listing with
  | Err e => Err e
  | Ok models => Ok ((λ m, set_model_id m (TrimPrefix (m_ID m) "models/")) <$> models)
  end.
