(* ===== verification/Breaker.v ===== *)
(** * The circuit breaker (internal/routing/breaker.go)

    One entry per tenant, provider and model. Every method takes the lock for
    its whole body, so an execution is a sequence of operations; [run] is that
    sequence and [b_changes] records the calls of the [onChange] callback in
    order. The clock reading an operation makes is its [now] argument. *)

From S2P Require Import Prelude GoStrings GoTime.
From Stdlib Require Import Ascii.

#[local] Open Scope Z_scope.
#[local] Open Scope stdpp_scope.

(** ** Data *)

Inductive State := StateClosed | StateOpen | StateHalfOpen.
#[export] Instance State_eq_dec : EqDecision State.
Proof. solve_decision. Defined.

(** [State.String] *)
Definition State_String (s : State) : string :=
  match s with
  | StateClosed => "closed"
  | StateOpen => "open"
  | StateHalfOpen => "half_open"
  end.

(** [State.Health] *)
Definition Health (s : State) : string :=
  match s with StateHalfOpen => "half-open" | _ => State_String s end.

(** [State.Gauge] *)
Definition Gauge (s : State) : Z :=
  match s with StateHalfOpen => 1 | StateOpen => 2 | StateClosed => 0 end.

Definition BlockRank (s : State) : Z :=
  match s with StateOpen => 2 | StateHalfOpen => 1 | StateClosed => 0 end.

Record breakerEntry := mkEntry {
  be_failures : list Z;
  be_state : State;
  be_openedAt : Z;
  be_probing : bool
}.

(** One call of [onChange]. *)
Abbreviation change := (string * State * State)%type.

Record Breaker := mkBreaker {
  b_entries : gmap string breakerEntry;
  b_threshold : Z;
  b_window : Z;
  b_openFor : Z;
  b_changes : list change
}.

Definition set_entry (b : Breaker) (key : string) (e : breakerEntry) (log : list change) : Breaker :=
  mkBreaker (<[key := e]> (b_entries b)) (b_threshold b) (b_window b) (b_openFor b) log.

Definition NewBreaker (threshold window openFor : Z) : Breaker :=
  let threshold := if threshold <? 1 then 5 else threshold in
  let window := if window <=? 0 then 30 * Second else window in
  let openFor := if openFor <=? 0 then 60 * Second else openFor in
  mkBreaker ∅ threshold window openFor [].

(** ** Keys *)

Definition slash : ascii := "/".

Definition Key (tenantID providerName model : string) : string :=
  tenantID +:+ "/" +:+ providerName +:+ "/" +:+ model.

Definition SplitKey (key : string) : string * string * string :=
  match SplitN key slash 3 with
  | [a; b; c] => (a, b, c)
  | _ => ("", "", key)
  end.

(** ** Operations *)

(** [transition]: the entry's new value and the callbacks made. *)
Definition transition (log : list change) (key : string) (e : breakerEntry) (to : State) :
    breakerEntry * list change :=
  let from := be_state e in
  if decide (from = to) then (e, log)
  else (mkEntry (be_failures e) to (be_openedAt e)
          (match to with StateClosed => false | _ => be_probing e end),
        log ++ [(key, from, to)]).

Definition Allow (b : Breaker) (now : Z) (key : string) : bool * Breaker :=
  match b_entries b !! key with
  | None => (true, b)
  | Some e =>
      match be_state e with
      | StateClosed => (true, b)
      | StateOpen =>
          if Sub now (be_openedAt e) <? b_openFor b then (false, b)
          else
            let '(e, log) := transition (b_changes b) key e StateHalfOpen in
            (true, set_entry b key (mkEntry (be_failures e) (be_state e) (be_openedAt e) true) log)
      | StateHalfOpen =>
          if be_probing e then (false, b)
          else (true, set_entry b key
                  (mkEntry (be_failures e) (be_state e) (be_openedAt e) true) (b_changes b))
      end
  end.

(** [Breaker.State] *)
Definition StateOf (b : Breaker) (now : Z) (key : string) : State :=
  match b_entries b !! key with
  | None => StateClosed
  | Some e =>
      if bool_decide (be_state e = StateOpen) && (b_openFor b <=? Sub now (be_openedAt e))
      then StateHalfOpen
      else be_state e
  end.

Record Status := { st_State : State; st_Until : Z }.

Definition Snapshot (b : Breaker) (now : Z) : gmap string Status :=
  omap (λ e,
    let state := if bool_decide (be_state e = StateOpen) && (b_openFor b <=? Sub now (be_openedAt e))
                 then StateHalfOpen else be_state e in
    match state with
    | StateClosed => None
    | StateOpen => Some {| st_State := StateOpen; st_Until := Add (be_openedAt e) (b_openFor b) |}
    | StateHalfOpen => Some {| st_State := StateHalfOpen; st_Until := 0 |}
    end) (b_entries b).

Definition Success (b : Breaker) (key : string) : Breaker :=
  match b_entries b !! key with
  | None => b
  | Some e =>
      let e := mkEntry [] (be_state e) (be_openedAt e) false in
      let '(e, log) := if decide (be_state e ≠ StateClosed)
                       then transition (b_changes b) key e StateClosed
                       else (e, b_changes b) in
      set_entry b key e log
  end.

Definition Failure (b : Breaker) (now : Z) (key : string) : Breaker :=
  let e := default (mkEntry [] StateClosed 0 false) (b_entries b !! key) in
  match be_state e with
  | StateHalfOpen =>
      let e := mkEntry (be_failures e) (be_state e) now false in
      let '(e, log) := transition (b_changes b) key e StateOpen in
      set_entry b key e log
  | _ =>
      let cutoff := Add now (- b_window b) in
      let kept := List.filter (λ t, After t cutoff) (be_failures e) in
      let e := mkEntry (kept ++ [now]) (be_state e) (be_openedAt e) (be_probing e) in
      if bool_decide (b_threshold b ≤ Z.of_nat (length (be_failures e)))
         && bool_decide (be_state e = StateClosed)
      then
        let e := mkEntry (be_failures e) (be_state e) now (be_probing e) in
        let '(e, log) := transition (b_changes b) key e StateOpen in
        set_entry b key e log
      else set_entry b key e (b_changes b)
  end.

(** ** Executions *)

Inductive op :=
  | OpAllow (key : string) (now : Z)
  | OpSuccess (key : string)
  | OpFailure (key : string) (now : Z).

Definition op_key (o : op) : string :=
  match o with OpAllow k _ | OpSuccess k | OpFailure k _ => k end.

Definition apply_op (b : Breaker) (o : op) : Breaker :=
  match o with
  | OpAllow k t => snd (Allow b t k)
  | OpSuccess k => Success b k
  | OpFailure k t => Failure b t k
  end.

Definition run (b : Breaker) (ops : list op) : Breaker := foldl apply_op b ops.

(** The state an entry is in, a missing entry being closed. *)
Definition position (b : Breaker) (key : string) : State :=
  from_option be_state StateClosed (b_entries b !! key).

(** ** Well-formedness *)

(** A probe is in flight only half-open; a closed entry is below the threshold. *)
Record entry_ok (threshold : Z) (e : breakerEntry) : Prop := {
  eo_probing : be_probing e = true → be_state e = StateHalfOpen;
  eo_closed : be_state e = StateClosed → Z.of_nat (length (be_failures e)) < threshold
}.

(** The position a log of callbacks says a key has reached. *)
Definition last_to (log : list change) (key : string) : State :=
  foldl (λ s c, let '(k, _, to) := c in if decide (k = key) then to else s) StateClosed log.

(** Closed entries open, open ones start probing, a probe closes or re-opens;
    a late success may close an open entry. Nothing probes from closed. *)
Definition legal (from to : State) : bool :=
  match from, to with
  | StateClosed, StateOpen | StateOpen, StateHalfOpen
  | StateHalfOpen, StateOpen | StateHalfOpen, StateClosed | StateOpen, StateClosed => true
  | _, _ => false
  end.

Definition path_ok (log : list change) : Prop :=
  ∀ i k from to, log !! i = Some (k, from, to) →
    from = last_to (take i log) k ∧ legal from to = true.

Record wf (b : Breaker) : Prop := {
  wf_threshold : 1 ≤ b_threshold b;
  wf_window : 0 < b_window b;
  wf_openFor : 0 < b_openFor b;
  wf_entries : map_Forall (λ _ e, entry_ok (b_threshold b) e) (b_entries b);
  wf_path : path_ok (b_changes b);
  wf_last k : last_to (b_changes b) k = position b k
}.

(** ** Lemmas *)

Lemma last_to_snoc log k from to k' :
  last_to (log ++ [(k, from, to)]) k' = if decide (k = k') then to else last_to log k'.
Proof. unfold last_to. by rewrite foldl_snoc. Qed.

Lemma path_ok_snoc log k to :
  path_ok log → legal (last_to log k) to = true → path_ok (log ++ [(k, last_to log k, to)]).
Proof.
  intros Hp Hl i k' from' to' Hi. destruct (decide (i < length log)%nat) as [Hlt|Hge].
  - rewrite lookup_app_l in Hi by done. rewrite take_app_le by lia. by apply Hp.
  - rewrite lookup_app_r in Hi by lia.
    destruct (i - length log)%nat as [|n] eqn:E; [|by destruct n].
    injection Hi as <- <- <-. rewrite take_app_ge by lia.
    replace (i - length log)%nat with 0%nat by lia. by rewrite app_nil_r.
Qed.

Lemma transition_spec log key e to :
  transition log key e to =
    (mkEntry (be_failures e) to (be_openedAt e)
       (if decide (be_state e = to) then be_probing e
        else match to with StateClosed => false | _ => be_probing e end),
     if decide (be_state e = to) then log else log ++ [(key, be_state e, to)]).
Proof. unfold transition. case_decide as E; [|done]. subst. by destruct e. Qed.

Lemma set_entry_position b key e log k :
  position (set_entry b key e log) k = if decide (key = k) then be_state e else position b k.
Proof.
  unfold position, set_entry; simpl. case_decide; [subst; by rewrite lookup_insert_eq|].
  by rewrite lookup_insert_ne.
Qed.

(** Replacing one entry keeps the invariant when the log follows the entry. *)
Lemma set_entry_wf b key e :
  wf b → entry_ok (b_threshold b) e →
  (be_state e = position b key ∨ legal (position b key) (be_state e) = true) →
  wf (set_entry b key e
        (if decide (position b key = be_state e) then b_changes b
         else b_changes b ++ [(key, position b key, be_state e)])).
Proof.
  intros Hwf He Hl. destruct Hwf as [H1 H2 H3 H4 H5 H6]. constructor; simpl; [done..| | |].
  - by apply map_Forall_insert_2.
  - case_decide as E; [done|]. rewrite <-H6. apply path_ok_snoc; [done|].
    rewrite H6. destruct Hl as [?|?]; [congruence|done].
  - intros k. rewrite set_entry_position. case_decide as E.
    + rewrite H6. case_decide; [by subst|done].
    + rewrite last_to_snoc, H6. by case_decide.
Qed.

Lemma wf_entry b key e : wf b → b_entries b !! key = Some e → entry_ok (b_threshold b) e.
Proof. intros Hwf He. exact (wf_entries b Hwf key e He). Qed.

Lemma position_Some b key e : b_entries b !! key = Some e → position b key = be_state e.
Proof. unfold position. by intros ->. Qed.

(** Uses [set_entry_wf] when the log in the goal is the one it produces. *)
Ltac by_set_entry :=
  match goal with |- wf (set_entry ?b ?key ?e ?log) =>
    let H := fresh in
    assert (log = if decide (position b key = be_state e) then b_changes b
                  else b_changes b ++ [(key, position b key, be_state e)]) as H;
    [|rewrite H; apply set_entry_wf; [done| |]]
  end.

Lemma Allow_wf b now key : wf b → wf (snd (Allow b now key)).
Proof.
  intros Hwf. unfold Allow. destruct (b_entries b !! key) as [e|] eqn:He; [|done].
  pose proof (wf_entry _ _ _ Hwf He) as [Hp Hc]. pose proof (position_Some _ _ _ He) as Hpos.
  destruct (be_state e) eqn:Es; [done| |].
  - destruct (_ <? _); [done|]. rewrite transition_spec; simpl. rewrite Es; simpl.
    by_set_entry; rewrite ?Hpos; simpl; [done|split; done|by right].
  - destruct (be_probing e); [done|]; simpl.
    by_set_entry; rewrite ?Hpos; simpl; [done|split; done|by left].
Qed.

Lemma Success_wf b key : wf b → wf (Success b key).
Proof.
  intros Hwf. unfold Success. destruct (b_entries b !! key) as [e|] eqn:He; [|done].
  pose proof (position_Some _ _ _ He) as Hpos. pose proof (wf_threshold _ Hwf).
  destruct (be_state e) eqn:Es; simpl.
  all: rewrite ?transition_spec; simpl; by_set_entry; rewrite ?Hpos; simpl;
    [done|split; simpl; (done || lia)|auto].
Qed.

Lemma kept_length (f : Z → bool) l : (length (List.filter f l) ≤ length l)%nat.
Proof. induction l as [|x l IH]; simpl; [done|]. destruct (f x); simpl; lia. Qed.

Lemma Failure_wf b now key : wf b → wf (Failure b now key).
Proof.
  intros Hwf. unfold Failure.
  set (e := default (mkEntry [] StateClosed 0 false) (b_entries b !! key)).
  assert (entry_ok (b_threshold b) e ∧ position b key = be_state e) as [[Hp Hc] Hpos].
  { unfold e, position. destruct (b_entries b !! key) as [e'|] eqn:He; simpl.
    - split; [exact (wf_entry _ _ _ Hwf He)|done].
    - pose proof (wf_threshold _ Hwf). split; [|done]. split; simpl; [done|lia]. }
  clearbody e. destruct (be_state e) eqn:Es; simpl.
  - destruct (bool_decide _) eqn:Et; simpl.
    + by_set_entry; rewrite ?Hpos; simpl; [done| |by right].
      split; simpl; [|done]. intros Hpr. specialize (Hp Hpr). congruence.
    + apply bool_decide_eq_false in Et. by_set_entry; rewrite ?Hpos; simpl; [done| |by left].
      split; simpl; [intros Hpr; specialize (Hp Hpr); congruence|lia].
  - rewrite andb_false_r. by_set_entry; rewrite ?Hpos; simpl; [done| |by left].
    split; simpl; [|done]. intros Hpr. specialize (Hp Hpr). congruence.
  - by_set_entry; rewrite ?Hpos; simpl; [done| |by right]. split; done.
Qed.

#[export] Hint Resolve Allow_wf Success_wf Failure_wf : gate.

Lemma apply_op_wf b o : wf b → wf (apply_op b o).
Proof. destruct o; simpl; auto with gate. Qed.

Lemma NewBreaker_wf threshold window openFor : wf (NewBreaker threshold window openFor).
Proof.
  unfold NewBreaker. constructor; simpl; [split_if; unfold Second; lia..| | |].
  - apply map_Forall_empty.
  - intros i k from to. by rewrite lookup_nil.
  - intros k. unfold position; simpl. by rewrite lookup_empty.
Qed.

Lemma run_wf b ops : wf b → wf (run b ops).
Proof. revert b; induction ops as [|o ops IH]; simpl; auto using apply_op_wf. Qed.

(** ** Isolation *)

Lemma apply_op_other b o key :
  op_key o ≠ key → b_entries (apply_op b o) !! key = b_entries b !! key.
Proof.
  destruct o as [k t|k|k t]; simpl; intros Hne.
  - unfold Allow. cases; by rewrite lookup_insert_ne.
  - unfold Success. cases; by rewrite lookup_insert_ne.
  - unfold Failure. cases; by rewrite lookup_insert_ne.
Qed.

Lemma apply_op_config b o :
  b_threshold (apply_op b o) = b_threshold b ∧ b_window (apply_op b o) = b_window b ∧
  b_openFor (apply_op b o) = b_openFor b.
Proof. destruct o; simpl; unfold Allow, Success, Failure; cases. Qed.

Lemma Allow_other b now key k' : k' ≠ key →
  b_entries (snd (Allow b now key)) !! k' = b_entries b !! k'.
Proof. intros H. by apply (apply_op_other b (OpAllow key now)). Qed.

(** The decision depends only on the key's own entry and the configuration. *)
Lemma Allow_cong b b' now key :
  b_entries b !! key = b_entries b' !! key → b_openFor b = b_openFor b' →
  fst (Allow b now key) = fst (Allow b' now key).
Proof. unfold Allow. intros -> ->. cases. Qed.

(** ** Probes *)

Definition probing_entry (e : breakerEntry) : Prop :=
  be_state e = StateHalfOpen ∧ be_probing e = true.

Lemma Allow_probing b now key e :
  b_entries b !! key = Some e → probing_entry e → Allow b now key = (false, b).
Proof. unfold Allow. intros -> [-> ->]. done. Qed.

(** While a probe is in flight and nobody reports its outcome, the entry does
    not move. *)
Lemma run_probing b key e ops :
  b_entries b !! key = Some e → probing_entry e →
  Forall (λ o, op_key o = key → ∃ t, o = OpAllow key t) ops →
  b_entries (run b ops) !! key = Some e.
Proof.
  intros He Hp HF. revert b He; induction HF as [|o ops Ho HF IH]; intros b He; [done|].
  simpl. apply IH. destruct (decide (op_key o = key)) as [E|E].
  - destruct (Ho E) as [t ->]. simpl. by rewrite (Allow_probing b t key e).
  - by rewrite apply_op_other.
Qed.

(** An admission from a half-open position leaves a probe in flight. *)
Lemma Allow_admits_probe b now key :
  fst (Allow b now key) = true → position (snd (Allow b now key)) key = StateHalfOpen →
  ∃ e, b_entries (snd (Allow b now key)) !! key = Some e ∧ probing_entry e.
Proof.
  unfold Allow, position, probing_entry.
  destruct (b_entries b !! key) as [e|] eqn:He; simpl; [|by rewrite He].
  destruct (be_state e) eqn:Es; simpl; [rewrite He; simpl; congruence| |].
  - destruct (_ <? _); [done|]. rewrite transition_spec; simpl. rewrite lookup_insert_eq. eauto.
  - destruct (be_probing e); [done|]; simpl. rewrite lookup_insert_eq. eauto.
Qed.

(** ** Trips *)

(** The failures among [ts] that are younger than the window at time [t]. *)
Definition recent (window : Z) (ts : list Z) (t : Z) : list Z :=
  List.filter (λ s, After s (t - window)) ts.

Definition fails (b : Breaker) (key : string) (ts : list Z) : Breaker :=
  foldl (λ b t, Failure b t key) b ts.

(** Some failure found [threshold] failures, itself included, inside the window. *)
Definition tripped (threshold window : Z) (ts : list Z) : Prop :=
  ∃ i t, ts !! i = Some t ∧
    threshold ≤ Z.of_nat (length (recent window (take (S i) ts) t)).

Lemma recent_snoc window ts t :
  0 < window → recent window (ts ++ [t]) t = recent window ts t ++ [t].
Proof.
  intros Hw. unfold recent. rewrite List.filter_app; simpl. unfold After.
  by rewrite (proj2 (Z.ltb_lt _ _)) by lia.
Qed.

Lemma recent_recent window ts t t' :
  t ≤ t' → recent window (recent window ts t) t' = recent window ts t'.
Proof.
  intros Ht. unfold recent, After. induction ts as [|s ts IH]; simpl; [done|].
  destruct (t - window <? s) eqn:E; simpl; rewrite IH.
  - done.
  - by rewrite (proj2 (Z.ltb_ge (t' - window) s)) by lia.
Qed.

Lemma tripped_snoc threshold window ts t :
  0 < window →
  tripped threshold window (ts ++ [t]) ↔
    tripped threshold window ts ∨
    threshold ≤ Z.of_nat (length (recent window ts t ++ [t])).
Proof.
  intros Hw. unfold tripped. split.
  - intros (i & s & Hi & Hlen). destruct (decide (i < length ts)%nat) as [Hlt|Hge].
    + left. exists i, s. rewrite lookup_app_l in Hi by done.
      by rewrite take_app_le in Hlen by lia.
    + rewrite lookup_app_r in Hi by lia.
      destruct (i - length ts)%nat as [|n] eqn:E; [|by destruct n]. injection Hi as <-.
      right. rewrite take_ge in Hlen by (rewrite length_app; simpl; lia).
      by rewrite recent_snoc in Hlen.
  - intros [(i & s & Hi & Hlen)|Hlen].
    + exists i, s. pose proof (lookup_lt_Some _ _ _ Hi).
      rewrite lookup_app_l by done. by rewrite take_app_le by lia.
    + exists (length ts), t. split; [apply list_lookup_middle; done|].
      rewrite take_ge by (rewrite length_app; simpl; lia). by rewrite recent_snoc.
Qed.

Lemma sorted_snoc ts t :
  StronglySorted Z.le (ts ++ [t]) →
  StronglySorted Z.le ts ∧ (∀ s, last ts = Some s → s ≤ t).
Proof.
  rewrite StronglySorted_app. intros (H & HS & _). split; [done|].
  intros s Hs. apply H; [|set_solver]. apply last_Some in Hs as [l ->]. set_solver.
Qed.

Definition fresh_entry : breakerEntry := mkEntry [] StateClosed 0 false.

(** A run of failures on a fresh key: either no trip happened and the entry is
    closed and remembers exactly the recent failures, or it is open. *)
Lemma fails_spec b key ts :
  0 < b_window b → b_entries b !! key = None → StronglySorted Z.le ts →
  let b' := fails b key ts in
  let e := default fresh_entry (b_entries b' !! key) in
  b_threshold b' = b_threshold b ∧ b_window b' = b_window b ∧
  ((¬ tripped (b_threshold b) (b_window b) ts ∧ be_state e = StateClosed ∧
    be_failures e = recent (b_window b) ts (default 0 (last ts)))
   ∨ (tripped (b_threshold b) (b_window b) ts ∧ be_state e = StateOpen)).
Proof.
  intros Hw He. induction ts as [|t ts IH] using rev_ind; intros HS; simpl.
  { rewrite He; simpl. split_and!; [done..|]. left. split; [|done].
    by intros (i & t & Hi & _). }
  apply sorted_snoc in HS as (HS & Hlast). destruct (IH HS) as (HT & HW & Hpre).
  unfold fails. rewrite foldl_snoc. fold (fails b key ts). clear IH.
  set (b1 := fails b key ts) in *. set (e1 := default fresh_entry (b_entries b1 !! key)) in *.
  unfold Failure. fold fresh_entry e1. rewrite tripped_snoc, last_snoc by done.
  destruct Hpre as [(Hnt & -> & Hf)|(Htr & ->)]; simpl; rewrite ?HT, ?HW, ?andb_false_r, ?andb_true_r.
  - assert (List.filter (λ s, After s (Add t (- b_window b))) (be_failures e1)
            = recent (b_window b) ts t) as Hk.
    { rewrite Hf. destruct (last ts) as [s|] eqn:El; simpl.
      - rewrite <-(recent_recent _ ts s t) by auto. done.
      - apply last_None in El as ->. done. }
    rewrite Hk. case_bool_decide as Hth; simpl; rewrite lookup_insert_eq; simpl.
    + split_and!; [done..|]. right. auto.
    + split_and!; [done..|]. left. rewrite recent_snoc by done. split_and!; [|done..].
      intros [?|?]; done.
  - simpl. rewrite lookup_insert_eq; simpl. split_and!; [done..|]. right. auto.
Qed.

Lemma Key_cons t p m : Key t p m = t +:+ String slash (p +:+ String slash m).
Proof. reflexivity. Qed.

(** [SplitKey] reverses [Key] when tenant and provider hold no slash, whatever
    the model id holds. *)
Lemma SplitKey_Key tenantID providerName model :
  str_has slash tenantID = false → str_has slash providerName = false →
  SplitKey (Key tenantID providerName model) = (tenantID, providerName, model).
Proof.
  intros Ht Hp. unfold SplitKey. rewrite Key_cons. cbn [SplitN].
  by rewrite (Cut_app slash tenantID), (Cut_app slash providerName).
Qed.

(** ** Component theorems *)

Module BreakerFacts.

(** Every reachable breaker is well formed: a probe is in flight only in the
    half-open position, a closed entry holds fewer failures than the threshold,
    and the [onChange] callbacks of each key form a legal path of transitions
    that ends in the key's current position. *)
Theorem reachable_wf threshold window openFor ops :
  wf (run (NewBreaker threshold window openFor) ops).
Proof. apply run_wf, NewBreaker_wf. Qed.

(** C21: The trip rule. Failures at the non-decreasing times [ts] on a key the
    breaker has not seen open it exactly when some failure finds [threshold]
    failures, itself included, younger than the window; otherwise it stays
    closed. A slow trickle never accumulates into a trip. *)
Theorem trips_iff_threshold_in_window b key ts :
  wf b → b_entries b !! key = None → StronglySorted Z.le ts →
  (position (fails b key ts) key = StateOpen
     ↔ tripped (b_threshold b) (b_window b) ts) ∧
  (position (fails b key ts) key = StateClosed
     ↔ ¬ tripped (b_threshold b) (b_window b) ts).
Proof.
  intros Hwf He HS. destruct (fails_spec b key ts) as (_ & _ & Hs); [apply Hwf|done..|].
  assert (position (fails b key ts) key =
    be_state (default fresh_entry (b_entries (fails b key ts) !! key))) as ->.
  { unfold position. by destruct (b_entries (fails b key ts) !! key). }
  destruct Hs as [(? & -> & _)|(? & ->)]; split; split; intros; by (discriminate || contradiction || auto).
Qed.

(** An open breaker whose cool-off has not elapsed refuses the candidate and
    changes nothing, and the gauge agrees with what the next request will find:
    reported open, it is refused; reported closed, it is admitted; reported
    half-open, it is admitted exactly when no probe is in flight. *)
Theorem allow_agrees_with_state b now key :
  wf b →
  match StateOf b now key with
  | StateOpen => Allow b now key = (false, b)
  | StateClosed => Allow b now key = (true, b)
  | StateHalfOpen =>
      fst (Allow b now key) =
        negb (from_option be_probing false (b_entries b !! key)) ∧
      position (snd (Allow b now key)) key = StateHalfOpen
  end.
Proof.
  intros Hwf. unfold StateOf, Allow, position.
  destruct (b_entries b !! key) as [e|] eqn:He; [|done].
  pose proof (wf_entry _ _ _ Hwf He) as [Hp _].
  destruct (be_state e) eqn:Es; simpl; [done| |].
  - rewrite Z.leb_antisym. destruct (Sub now (be_openedAt e) <? b_openFor b) eqn:Et; simpl; [done|].
    rewrite transition_spec; simpl. rewrite lookup_insert_eq. split; [|done].
    destruct (be_probing e) eqn:Ep; [|done]. by specialize (Hp eq_refl).
  - destruct (be_probing e) eqn:Ep; simpl; [by rewrite He; simpl|]. by rewrite lookup_insert_eq.
Qed.

(** C22: Exactly one probe: once a caller has been admitted in the half-open
    position, every other caller is refused, at any time, until somebody
    reports the probe's success or failure; operations on other keys do not
    matter. *)
Theorem one_probe_at_a_time b now key ops now' :
  let b' := snd (Allow b now key) in
  fst (Allow b now key) = true → position b' key = StateHalfOpen →
  Forall (λ o, op_key o = key → ∃ t, o = OpAllow key t) ops →
  fst (Allow (run b' ops) now' key) = false.
Proof.
  simpl. intros H1 H2 HF. destruct (Allow_admits_probe _ _ _ H1 H2) as (e & He & Hp).
  by rewrite (Allow_probing _ _ _ e) by eauto using run_probing.
Qed.

(** A failed probe re-opens at once and a successful one closes and forgets the
    failures, so that the next request is admitted. *)
Theorem probe_outcome b now key e :
  b_entries b !! key = Some e → be_state e = StateHalfOpen →
  b_entries (Failure b now key) !! key = Some (mkEntry (be_failures e) StateOpen now false) ∧
  b_entries (Success b key) !! key = Some (mkEntry [] StateClosed (be_openedAt e) false) ∧
  ∀ t, fst (Allow (Success b key) t key) = true.
Proof.
  intros He Es. assert (b_entries (Success b key) !! key =
    Some (mkEntry [] StateClosed (be_openedAt e) false)) as HS.
  { unfold Success. rewrite He, Es; simpl. by rewrite lookup_insert_eq. }
  split_and!; [|done|].
  - unfold Failure. rewrite He; simpl. rewrite Es; simpl. by rewrite lookup_insert_eq.
  - intros t. unfold Allow. by rewrite HS.
Qed.

(** One key's operations never change what another key's callers are told. *)
Theorem keys_are_isolated b o key now :
  op_key o ≠ key →
  fst (Allow (apply_op b o) now key) = fst (Allow b now key) ∧
  StateOf (apply_op b o) now key = StateOf b now key.
Proof.
  intros Hne. pose proof (apply_op_other b o key Hne) as He.
  destruct (apply_op_config b o) as (_ & _ & Ho). split; [by apply Allow_cong|].
  unfold StateOf. by rewrite He, Ho.
Qed.

(** The health snapshot lists a key exactly when the gauge does not report it
    closed, with the same state, and the deadline only while it is open. *)
Theorem snapshot_agrees_with_state b now key :
  Snapshot b now !! key =
    match StateOf b now key with
    | StateClosed => None
    | s => Some {| st_State := s;
                   st_Until := match s, b_entries b !! key with
                               | StateOpen, Some e => Add (be_openedAt e) (b_openFor b)
                               | _, _ => 0
                               end |}
    end.
Proof.
  unfold Snapshot, StateOf. rewrite lookup_omap.
  destruct (b_entries b !! key) as [e|]; simpl; [|done].
  destruct (be_state e); simpl; [done| |done]. by destruct (_ <=? _).
Qed.

(** When one of them does hold a slash, keys collide: a provider named "a/b" serving "m" and a
    provider named "a" serving "b/m" share one breaker. *)
Theorem Key_collision tenantID a b m :
  Key tenantID (a +:+ "/" +:+ b) m = Key tenantID a (b +:+ "/" +:+ m).
Proof. unfold Key. by rewrite !str_app_assoc. Qed.

(** *** Witnesses *)

(** Two failures within a minute open the breaker for ten seconds. *)
Definition small : Breaker := NewBreaker 2 Minute (10 * Second).
Definition opened : Breaker := fails small "k" [Second; 2 * Second].

Lemma trips_iff_threshold_in_window_witness :
  position (fails small "k" [Second; 2 * Second]) "k" = StateOpen ∧
  ¬ tripped 2 Minute [Second; 120 * Second].
Proof.
  split; [by vm_compute|].
  apply (trips_iff_threshold_in_window small "k" [Second; 120 * Second]);
    [apply NewBreaker_wf|done|repeat constructor; by vm_compute|by vm_compute].
Defined.

Lemma allow_agrees_with_state_witness : Allow opened (5 * Second) "k" = (false, opened).
Proof.
  apply (allow_agrees_with_state opened (5 * Second) "k").
  apply (run_wf _ [OpFailure "k" Second; OpFailure "k" (2 * Second)]), NewBreaker_wf.
Defined.

Lemma one_probe_at_a_time_witness :
  let b := snd (Allow opened (12 * Second) "k") in
  fst (Allow opened (12 * Second) "k") = true ∧
  fst (Allow (run b [OpAllow "k" (13 * Second); OpSuccess "other"]) (99 * Second) "k") = false.
Proof.
  split; [by vm_compute|]. apply one_probe_at_a_time; [by vm_compute|by vm_compute|].
  constructor; [by eexists|]. constructor; [done|constructor].
Defined.

Lemma keys_are_isolated_witness :
  fst (Allow (apply_op opened (OpSuccess "other")) (5 * Second) "k") = false.
Proof.
  rewrite (proj1 (keys_are_isolated opened (OpSuccess "other") "k" (5 * Second) ltac:(done))).
  by vm_compute.
Defined.

End BreakerFacts.
