(* ===== verification/Memory.v ===== *)
(** * The in-memory store (internal/store/memory.go)

    Every method takes the store's lock for its whole body, so each is a
    function from the store to a result and a new store. API keys are shared:
    [keys] and [keysByHash] hold pointers to the same records, so the model has
    a heap of key records ([mem_heap], a pointer is an index) and the two maps
    hold pointers. The other collections are reached through one map only and
    are held by value; every accessor of the code hands out a copy.

    Random bytes ([rnd], for [NewID] and [GenerateAPIKey]) and the clock reading
    ([now]) are arguments. *)

From S2P Require Import Prelude GoStrings GoTime GoFloat ApiErr StoreTypes Keys.
From Stdlib Require Import Ascii.

#[local] Open Scope Z_scope.
#[local] Open Scope stdpp_scope.

Definition maxMemoryUsageRecords : nat := Z.to_nat 50000.
Definition maxMemoryAuditEntries : nat := Z.to_nat 5000.
Definition MaxTenantEvents : nat := Z.to_nat 1000.

Record Memory := mkMemory {
  mem_tenants : gmap string Tenant;
  mem_heap : list APIKey;
  mem_keys : gmap string nat;
  mem_keysByHash : gmap string nat;
  mem_providers : gmap string (list Provider);
  mem_aliases : gmap string (list Alias);
  mem_routes : gmap string (list Route);
  mem_quotas : gmap string Quota;
  mem_webhooks : gmap string (list Webhook);
  mem_events : gmap string (list Event);
  mem_usage : gmap string (list UsageRecord);
  mem_audit : list AuditEntry;
  mem_dev : bool
}.

Definition NewMemory (dev : bool) : Memory := mkMemory ∅ [] ∅ ∅ ∅ ∅ ∅ ∅ ∅ ∅ ∅ [] dev.

(** ** Field updates *)

Definition set_tenants (m : Memory) x : Memory :=
  mkMemory x (mem_heap m) (mem_keys m) (mem_keysByHash m) (mem_providers m) (mem_aliases m)
    (mem_routes m) (mem_quotas m) (mem_webhooks m) (mem_events m) (mem_usage m) (mem_audit m) (mem_dev m).
Definition set_keys (m : Memory) heap keys byHash : Memory :=
  mkMemory (mem_tenants m) heap keys byHash (mem_providers m) (mem_aliases m)
    (mem_routes m) (mem_quotas m) (mem_webhooks m) (mem_events m) (mem_usage m) (mem_audit m) (mem_dev m).
Definition set_providers (m : Memory) x : Memory :=
  mkMemory (mem_tenants m) (mem_heap m) (mem_keys m) (mem_keysByHash m) x (mem_aliases m)
    (mem_routes m) (mem_quotas m) (mem_webhooks m) (mem_events m) (mem_usage m) (mem_audit m) (mem_dev m).
Definition set_aliases (m : Memory) x : Memory :=
  mkMemory (mem_tenants m) (mem_heap m) (mem_keys m) (mem_keysByHash m) (mem_providers m) x
    (mem_routes m) (mem_quotas m) (mem_webhooks m) (mem_events m) (mem_usage m) (mem_audit m) (mem_dev m).
Definition set_routes (m : Memory) x : Memory :=
  mkMemory (mem_tenants m) (mem_heap m) (mem_keys m) (mem_keysByHash m) (mem_providers m) (mem_aliases m)
    x (mem_quotas m) (mem_webhooks m) (mem_events m) (mem_usage m) (mem_audit m) (mem_dev m).
Definition set_quotas (m : Memory) x : Memory :=
  mkMemory (mem_tenants m) (mem_heap m) (mem_keys m) (mem_keysByHash m) (mem_providers m) (mem_aliases m)
    (mem_routes m) x (mem_webhooks m) (mem_events m) (mem_usage m) (mem_audit m) (mem_dev m).
Definition set_webhooks (m : Memory) x : Memory :=
  mkMemory (mem_tenants m) (mem_heap m) (mem_keys m) (mem_keysByHash m) (mem_providers m) (mem_aliases m)
    (mem_routes m) (mem_quotas m) x (mem_events m) (mem_usage m) (mem_audit m) (mem_dev m).
Definition set_events (m : Memory) x : Memory :=
  mkMemory (mem_tenants m) (mem_heap m) (mem_keys m) (mem_keysByHash m) (mem_providers m) (mem_aliases m)
    (mem_routes m) (mem_quotas m) (mem_webhooks m) x (mem_usage m) (mem_audit m) (mem_dev m).
Definition set_usage (m : Memory) x : Memory :=
  mkMemory (mem_tenants m) (mem_heap m) (mem_keys m) (mem_keysByHash m) (mem_providers m) (mem_aliases m)
    (mem_routes m) (mem_quotas m) (mem_webhooks m) (mem_events m) x (mem_audit m) (mem_dev m).
Definition set_audit (m : Memory) x : Memory :=
  mkMemory (mem_tenants m) (mem_heap m) (mem_keys m) (mem_keysByHash m) (mem_providers m) (mem_aliases m)
    (mem_routes m) (mem_quotas m) (mem_webhooks m) (mem_events m) (mem_usage m) x (mem_dev m).

(** Reading a Go map of slices: a missing key is the nil slice. *)
Definition at_key {A} (m : gmap string (list A)) (k : string) : list A := default [] (m !! k).

Definition has_tenant (m : Memory) (id : string) : bool := negb (is_None_b (mem_tenants m !! id)).

(** The first element a range loop stops at, with its index. *)
Fixpoint find_idx {A} (f : A → bool) (l : list A) : option (nat * A) :=
  match l with
  | [] => None
  | x :: l' => if f x then Some (O, x)
               else match find_idx f l' with Some (i, y) => Some (S i, y) | None => None end
  end.

(** [append(list[:i:i], list[i+1:]...)] *)
Definition remove_at {A} (i : nat) (l : list A) : list A := take i l ++ drop (S i) l.

(** A bounded log: append, then keep the newest [n]. *)
Definition push_bounded {A} (n : nat) (l : list A) (x : A) : list A :=
  let l := l ++ [x] in if (n <? length l)%nat then drop (length l - n) l else l.

(** ** Helpers *)

Definition ellipsis : string := byte_str [226; 128; 166]%nat.

Definition maskProviderKey (raw : string) : string :=
  let head := 6%nat in
  let tail := 4%nat in
  if (String.length raw <=? head + tail)%nat then Repeat "*" (String.length raw)
  else str_take head raw +:+ ellipsis +:+ str_drop (String.length raw - tail) raw.

Definition Kind (m : Memory) : string := if mem_dev m then "memory-dev" else "memory".

(** The key record a pointer reaches. *)
Definition deref (m : Memory) (ptr : nat) : option APIKey := mem_heap m !! ptr.

(** ** Authentication *)

Section operations.
Context `{Unicode} `{Crypto}.

Definition ResolveKey (m : Memory) (now : Z) (plaintext : string) :
    res error (APIKey * option Tenant) :=
  let hash := HashAPIKey plaintext in
  match mem_keysByHash m !! hash ≫= deref m with
  | None => Err ErrNotFound
  | Some key =>
      if negb (Active key now) then Err ErrNotFound
      else if bool_decide (k_TenantID key = "") then Ok (key, None)
      else match mem_tenants m !! k_TenantID key with
           | None => Err ErrNotFound
           | Some tenant => Ok (key, Some tenant)
           end
  end.

(** ** Tenants *)

Definition named_like (name : string) (t : Tenant) : bool := EqualFold (t_Name t) name.

Definition tenant_name_required : error :=
  ErrWrap (text "%w: tenant name is required") ErrConflict.
Definition tenant_exists (name : string) : error :=
  ErrWrap (Msgf "%w: a tenant named %q already exists" [FStr name]) ErrConflict.

Definition CreateTenant (m : Memory) (rnd : string) (now : Z) (name : string) :
    res error Tenant * Memory :=
  let name := TrimSpace name in
  if bool_decide (name = "") then (Err tenant_name_required, m)
  else if existsb (named_like name) (map_to_list (mem_tenants m)).*2
  then (Err (tenant_exists name), m)
  else
    let t := {| t_ID := NewID IDTenant rnd; t_Name := name; t_Status := "active";
                t_CreatedAt := now; t_Limits := no_limits; t_Cache := no_cache;
                t_DebugCapture := no_capture; t_SystemInstruction := "" |} in
    (Ok t, set_tenants m (<[t_ID t := t]> (mem_tenants m))).

Definition GetTenant (m : Memory) (id : string) : res error Tenant :=
  match mem_tenants m !! id with None => Err ErrNotFound | Some t => Ok t end.

(** Creation time, then id. *)
Definition created_less (at1 : Z) (id1 : string) (at2 : Z) (id2 : string) : bool :=
  if negb (at1 =? at2) then Before at1 at2 else String.ltb id1 id2.

Definition tenant_less (a b : Tenant) : bool :=
  created_less (t_CreatedAt a) (t_ID a) (t_CreatedAt b) (t_ID b).

Definition ListTenants (m : Memory) : list Tenant :=
  sort_slice tenant_less (map_to_list (mem_tenants m)).*2.

Definition UpdateTenant (m : Memory) (id : string) (patch : TenantPatch) :
    res error Tenant * Memory :=
  match mem_tenants m !! id with
  | None => (Err ErrNotFound, m)
  | Some t =>
      let renamed : res error string :=
        match tp_Name patch with
        | None => Ok (t_Name t)
        | Some raw =>
            let name := TrimSpace raw in
            if bool_decide (name = "") then Err tenant_name_required
            else if existsb (λ kv, negb (bool_decide (kv.1 = id)) && named_like name kv.2)
                      (map_to_list (mem_tenants m))
            then Err (tenant_exists name)
            else Ok name
        end in
      match renamed with
      | Err e => (Err e, m)
      | Ok name =>
          let t := {| t_ID := t_ID t; t_Name := name;
                      t_Status := default (t_Status t) (tp_Status patch);
                      t_CreatedAt := t_CreatedAt t;
                      t_Limits := default (t_Limits t) (tp_Limits patch);
                      t_Cache := default (t_Cache t) (tp_Cache patch);
                      t_DebugCapture := default (t_DebugCapture t) (tp_DebugCapture patch);
                      t_SystemInstruction :=
                        default (t_SystemInstruction t) (tp_SystemInstruction patch) |} in
          (Ok t, set_tenants m (<[id := t]> (mem_tenants m)))
      end
  end.

(** One round of the key loop of [DeleteTenant]. *)
Definition drop_key (heap : list APIKey) (id : string)
    (maps : gmap string nat * gmap string nat) (entry : string * nat) :
    gmap string nat * gmap string nat :=
  let '(keys, byHash) := maps in
  let '(keyID, ptr) := entry in
  match heap !! ptr with
  | Some k => if bool_decide (k_TenantID k = id)
              then (delete keyID keys, delete (k_Hash k) byHash) else (keys, byHash)
  | None => (keys, byHash)
  end.

Definition DeleteTenant (m : Memory) (id : string) : res error () * Memory :=
  if negb (has_tenant m id) then (Err ErrNotFound, m)
  else
    let '(keys, byHash) :=
      foldl (drop_key (mem_heap m) id) (mem_keys m, mem_keysByHash m) (map_to_list (mem_keys m)) in
    (Ok (),
     mkMemory (delete id (mem_tenants m)) (mem_heap m) keys byHash
       (delete id (mem_providers m)) (delete id (mem_aliases m)) (delete id (mem_routes m))
       (delete id (mem_quotas m)) (delete id (mem_webhooks m)) (mem_events m)
       (delete id (mem_usage m)) (mem_audit m) (mem_dev m)).

(** ** API keys *)

(** The outer [option] is the panic of [GenerateAPIKey]; [GenerateAPIKey_spec]
    shows it does not happen. *)
Definition CreateAPIKey (m : Memory) (rndKey rndID : string) (now : Z)
    (tenantID : string) (plane : Plane) (name scope : string) (expiresAt : option Z) :
    option (res error (APIKey * string) * Memory) :=
  let refusal : option error :=
    if negb (bool_decide (tenantID = "")) then
      if has_tenant m tenantID then None else Some ErrNotFound
    else if negb (bool_decide (plane = PlaneAdmin)) || negb (bool_decide (scope = ScopeRoot))
    then Some (ErrWrap (text "%w: only root admin keys may omit a tenant") ErrConflict)
    else None in
  match refusal with
  | Some e => Some (Err e, m)
  | None =>
      '(plaintext, prefix, hash) ← GenerateAPIKey plane (mem_dev m) rndKey;
      let k := {| k_ID := NewID IDKey rndID; k_TenantID := tenantID; k_Plane := plane;
                  k_Name := name; k_Prefix := prefix; k_Hash := hash; k_Scope := scope;
                  k_CreatedAt := now; k_ExpiresAt := expiresAt; k_RevokedAt := None |} in
      let ptr := length (mem_heap m) in
      Some (Ok (k, plaintext),
            set_keys m (mem_heap m ++ [k]) (<[k_ID k := ptr]> (mem_keys m))
              (<[hash := ptr]> (mem_keysByHash m)))
  end.

Definition key_less (a b : APIKey) : bool :=
  created_less (k_CreatedAt a) (k_ID a) (k_CreatedAt b) (k_ID b).

Definition ListAPIKeys (m : Memory) (tenantID : string) : list APIKey :=
  sort_slice key_less
    (List.filter (λ k, bool_decide (k_TenantID k = tenantID))
       (omap (deref m) (map_to_list (mem_keys m)).*2)).

Definition revoke (k : APIKey) (at_ : Z) : APIKey :=
  {| k_ID := k_ID k; k_TenantID := k_TenantID k; k_Plane := k_Plane k; k_Name := k_Name k;
     k_Prefix := k_Prefix k; k_Hash := k_Hash k; k_Scope := k_Scope k;
     k_CreatedAt := k_CreatedAt k; k_ExpiresAt := k_ExpiresAt k; k_RevokedAt := Some at_ |}.

(** The revocation is written through the pointer, so both maps see it. *)
Definition RevokeAPIKey (m : Memory) (now : Z) (tenantID keyID : string) : res error () * Memory :=
  match mem_keys m !! keyID with
  | None => (Err ErrNotFound, m)
  | Some ptr =>
      match deref m ptr with
      | None => (Err ErrNotFound, m)
      | Some k =>
          if negb (bool_decide (k_TenantID k = tenantID)) then (Err ErrNotFound, m)
          else match k_RevokedAt k with
               | Some _ => (Ok (), m)
               | None => (Ok (), set_keys m (<[ptr := revoke k now]> (mem_heap m))
                                   (mem_keys m) (mem_keysByHash m))
               end
      end
  end.

(** ** Providers *)

Definition CreateProvider (m : Memory) (rnd : string) (now : Z) (p : Provider) :
    res error Provider * Memory :=
  let tenantID := p_TenantID p in
  if negb (has_tenant m tenantID) then (Err ErrNotFound, m)
  else if existsb (λ existing, EqualFold (p_Name existing) (p_Name p))
            (at_key (mem_providers m) tenantID)
  then (Err (ErrWrap (Msgf "%w: provider %q already registered" [FStr (p_Name p)]) ErrConflict), m)
  else
    let saved := {| p_ID := NewID IDProvider rnd; p_TenantID := tenantID; p_Name := p_Name p;
                    p_Kind := p_Kind p; p_BaseURL := p_BaseURL p; p_Enabled := p_Enabled p;
                    p_KeyStrategy := p_KeyStrategy p; p_Keys := p_Keys p;
                    p_KeyPrefixes := map maskProviderKey (p_Keys p); p_CreatedAt := now |} in
    (Ok saved, set_providers m
       (<[tenantID := at_key (mem_providers m) tenantID ++ [saved]]> (mem_providers m))).

Definition ListProviders (m : Memory) (tenantID : string) : list Provider :=
  at_key (mem_providers m) tenantID.

Definition provider_matches (id : string) (p : Provider) : bool :=
  bool_decide (p_ID p = id) || EqualFold (p_Name p) id.

Definition GetProvider (m : Memory) (tenantID id : string) : res error Provider :=
  match find_idx (provider_matches id) (at_key (mem_providers m) tenantID) with
  | Some (_, p) => Ok p
  | None => Err ErrNotFound
  end.

Definition patch_provider (p : Provider) (patch : ProviderPatch) : Provider :=
  {| p_ID := p_ID p; p_TenantID := p_TenantID p; p_Name := p_Name p; p_Kind := p_Kind p;
     p_BaseURL := match pp_BaseURL patch with Some u => TrimRight u "/" | None => p_BaseURL p end;
     p_Enabled := default (p_Enabled p) (pp_Enabled patch);
     p_KeyStrategy := default (p_KeyStrategy p) (pp_KeyStrategy patch);
     p_Keys := default (p_Keys p) (pp_Keys patch);
     p_KeyPrefixes := match pp_Keys patch with
                      | Some keys => map maskProviderKey keys | None => p_KeyPrefixes p end;
     p_CreatedAt := p_CreatedAt p |}.

Definition UpdateProvider (m : Memory) (tenantID id : string) (patch : ProviderPatch) :
    res error Provider * Memory :=
  let list := at_key (mem_providers m) tenantID in
  match find_idx (provider_matches id) list with
  | None => (Err ErrNotFound, m)
  | Some (i, p) =>
      let p := patch_provider p patch in
      (Ok p, set_providers m (<[tenantID := <[i := p]> list]> (mem_providers m)))
  end.

Definition DeleteProvider (m : Memory) (tenantID id : string) : res error () * Memory :=
  let list := at_key (mem_providers m) tenantID in
  match find_idx (provider_matches id) list with
  | None => (Err ErrNotFound, m)
  | Some (i, _) => (Ok (), set_providers m (<[tenantID := remove_at i list]> (mem_providers m)))
  end.

(** ** Aliases *)

Definition UpsertAlias (m : Memory) (rnd : string) (now : Z) (a : Alias) :
    res error Alias * Memory :=
  let tenantID := al_TenantID a in
  let save (id : string) (createdAt : Z) : Alias :=
    {| al_ID := id; al_TenantID := tenantID; al_Name := al_Name a; al_Pin := al_Pin a;
       al_Capabilities := al_Capabilities a; al_MinContextWindow := al_MinContextWindow a;
       al_ProviderPreference := al_ProviderPreference a; al_CostTier := al_CostTier a;
       al_CreatedAt := createdAt |} in
  let list := at_key (mem_aliases m) tenantID in
  if negb (has_tenant m tenantID) then (Err ErrNotFound, m)
  else match find_idx (λ existing, bool_decide (al_Name existing = al_Name a)) list with
       | Some (i, existing) =>
           let saved := save (al_ID existing) (al_CreatedAt existing) in
           (Ok saved, set_aliases m (<[tenantID := <[i := saved]> list]> (mem_aliases m)))
       | None =>
           let saved := save (NewID IDAlias rnd) now in
           (Ok saved, set_aliases m (<[tenantID := list ++ [saved]]> (mem_aliases m)))
       end.

Definition ListAliases (m : Memory) (tenantID : string) : list Alias :=
  sort_slice (λ a b, String.ltb (al_Name a) (al_Name b)) (at_key (mem_aliases m) tenantID).

Definition DeleteAlias (m : Memory) (tenantID name : string) : res error () * Memory :=
  let list := at_key (mem_aliases m) tenantID in
  match find_idx (λ a, bool_decide (al_Name a = name) || bool_decide (al_ID a = name)) list with
  | None => (Err ErrNotFound, m)
  | Some (i, _) => (Ok (), set_aliases m (<[tenantID := remove_at i list]> (mem_aliases m)))
  end.

(** ** Routes *)

Definition UpsertRoute (m : Memory) (rnd : string) (now : Z) (r : Route) :
    res error Route * Memory :=
  let tenantID := r_TenantID r in
  let save (id : string) (createdAt : Z) : Route :=
    {| r_ID := id; r_TenantID := tenantID; r_Match := r_Match r; r_Chain := r_Chain r;
       r_CreatedAt := createdAt |} in
  let list := at_key (mem_routes m) tenantID in
  if negb (has_tenant m tenantID) then (Err ErrNotFound, m)
  else match find_idx (λ existing, bool_decide (r_Match existing = r_Match r)) list with
       | Some (i, existing) =>
           let saved := save (r_ID existing) (r_CreatedAt existing) in
           (Ok saved, set_routes m (<[tenantID := <[i := saved]> list]> (mem_routes m)))
       | None =>
           let saved := save (NewID IDRoute rnd) now in
           (Ok saved, set_routes m (<[tenantID := list ++ [saved]]> (mem_routes m)))
       end.

Definition ListRoutes (m : Memory) (tenantID : string) : list Route :=
  sort_slice (λ a b, String.ltb (r_Match a) (r_Match b)) (at_key (mem_routes m) tenantID).

Definition DeleteRoute (m : Memory) (tenantID id : string) : res error () * Memory :=
  let list := at_key (mem_routes m) tenantID in
  match find_idx (λ r, bool_decide (r_ID r = id) || bool_decide (r_Match r = id)) list with
  | None => (Err ErrNotFound, m)
  | Some (i, _) => (Ok (), set_routes m (<[tenantID := remove_at i list]> (mem_routes m)))
  end.

(** ** Quotas *)

Definition quotaKey (tenantID keyID : string) : string := tenantID +:+ String zero keyID.

Definition SetQuota (m : Memory) (now : Z) (q : Quota) : res error Quota * Memory :=
  if negb (has_tenant m (q_TenantID q)) then (Err ErrNotFound, m)
  else
    let saved := {| q_TenantID := q_TenantID q; q_KeyID := q_KeyID q; q_Day := q_Day q;
                    q_Month := q_Month q; q_UpdatedAt := now |} in
    (Ok saved, set_quotas m (<[quotaKey (q_TenantID q) (q_KeyID q) := saved]> (mem_quotas m))).

Definition GetQuota (m : Memory) (tenantID keyID : string) : res error Quota :=
  match mem_quotas m !! quotaKey tenantID keyID with None => Err ErrNotFound | Some q => Ok q end.

Definition DeleteQuota (m : Memory) (tenantID keyID : string) : res error () * Memory :=
  let k := quotaKey tenantID keyID in
  if is_None_b (mem_quotas m !! k) then (Err ErrNotFound, m)
  else (Ok (), set_quotas m (delete k (mem_quotas m))).

(** ** Webhooks *)

Definition CreateWebhook (m : Memory) (rnd : string) (now : Z) (w : Webhook) :
    res error Webhook * Memory :=
  let tenantID := w_TenantID w in
  if negb (has_tenant m tenantID) then (Err ErrNotFound, m)
  else
    let saved := {| w_ID := NewID IDWebhook rnd; w_TenantID := tenantID; w_URL := w_URL w;
                    w_Secret := w_Secret w; w_Events := w_Events w; w_Enabled := w_Enabled w;
                    w_CreatedAt := now |} in
    (Ok saved, set_webhooks m
       (<[tenantID := at_key (mem_webhooks m) tenantID ++ [saved]]> (mem_webhooks m))).

Definition ListWebhooks (m : Memory) (tenantID : string) : list Webhook :=
  at_key (mem_webhooks m) tenantID.

Definition DeleteWebhook (m : Memory) (tenantID id : string) : res error () * Memory :=
  let list := at_key (mem_webhooks m) tenantID in
  match find_idx (λ w, bool_decide (w_ID w = id)) list with
  | None => (Err ErrNotFound, m)
  | Some (i, _) => (Ok (), set_webhooks m (<[tenantID := remove_at i list]> (mem_webhooks m)))
  end.

(** ** Events and audit *)

Definition RecordEvent (m : Memory) (e : Event) : Memory :=
  set_events m (<[e_TenantID e := push_bounded MaxTenantEvents
                                    (at_key (mem_events m) (e_TenantID e)) e]> (mem_events m)).

Definition ListEvents (m : Memory) (tenantID : string) : list Event :=
  reverse (at_key (mem_events m) tenantID).

Definition RecordAudit (m : Memory) (rnd : string) (now : Z) (e : AuditEntry) : Memory :=
  let saved := {| a_ID := NewID IDAudit rnd; a_At := now; a_Actor := a_Actor e;
                  a_ActorKeyID := a_ActorKeyID e; a_ActorScope := a_ActorScope e;
                  a_Action := a_Action e; a_Resource := a_Resource e; a_TenantID := a_TenantID e;
                  a_Status := a_Status e; a_RequestID := a_RequestID e |} in
  set_audit m (push_bounded maxMemoryAuditEntries (mem_audit m) saved).

Definition ListAudit (m : Memory) : list AuditEntry := reverse (mem_audit m).

(** ** Usage *)

Definition RecordUsage (m : Memory) (rec : UsageRecord) : Memory :=
  set_usage m (<[u_TenantID rec := push_bounded maxMemoryUsageRecords
                                     (at_key (mem_usage m) (u_TenantID rec)) rec]> (mem_usage m)).

Definition inWindow (t since until : Z) : bool := negb (Before t since) && Before t until.

Definition addUsage (dst : UsageTotals) (r : UsageRecord) : UsageTotals :=
  {| ut_Requests := wrap64 (ut_Requests dst + 1);
     ut_CachedRequests :=
       if u_Cached r then wrap64 (ut_CachedRequests dst + 1) else ut_CachedRequests dst;
     ut_PromptTokens := wrap64 (ut_PromptTokens dst + u_PromptTokens r);
     ut_CompletionTokens := wrap64 (ut_CompletionTokens dst + u_CompletionToken r);
     ut_TotalTokens := wrap64 (ut_TotalTokens dst + u_TotalTokens r);
     ut_CostUSD := fadd (ut_CostUSD dst) (u_CostUSD r);
     ut_ChargeUSD := fadd (ut_ChargeUSD dst) (u_ChargeUSD r) |}.

Definition Usage (m : Memory) (tenantID : string) (since until : Z) : UsageTotals :=
  foldl (λ out r, if negb (inWindow (u_RecordedAt r) since until) then out else addUsage out r)
    no_usage (at_key (mem_usage m) tenantID).

Definition KeyUsage (m : Memory) (tenantID keyPrefix : string) (since until : Z) : UsageTotals :=
  foldl (λ out r,
      if negb (bool_decide (u_KeyPrefix r = keyPrefix))
         || negb (inWindow (u_RecordedAt r) since until)
      then out else addUsage out r)
    no_usage (at_key (mem_usage m) tenantID).

(** The switch of [UsageBreakdown]: [None] is [continue]. *)
Definition group_key (groupBy : string) (r : UsageRecord) : res error (option string) :=
  if bool_decide (groupBy = "model") then Ok (Some (u_Model r))
  else if bool_decide (groupBy = "provider") then Ok (Some (u_Provider r))
  else if bool_decide (groupBy = "key") then Ok (Some (u_KeyPrefix r))
  else if bool_decide (groupBy = "client_request_id") then
    if bool_decide (u_ClientRequestID r = "") then Ok None else Ok (Some (u_ClientRequestID r))
  else Err (ErrText (Msgf "unsupported group_by %q" [FStr groupBy])).

Fixpoint fill_buckets (since until : Z) (groupBy : string) (records : list UsageRecord)
    (buckets : gmap string UsageTotals) : res error (gmap string UsageTotals) :=
  match records with
  | [] => Ok buckets
  | r :: records' =>
      if negb (inWindow (u_RecordedAt r) since until)
      then fill_buckets since until groupBy records' buckets
      else match group_key groupBy r with
           | Err e => Err e
           | Ok None => fill_buckets since until groupBy records' buckets
           | Ok (Some key) =>
               let totals := default no_usage (buckets !! key) in
               fill_buckets since until groupBy records' (<[key := addUsage totals r]> buckets)
           end
  end.

Definition bucket_less (a b : UsageBucket) : bool :=
  let ca := ut_CostUSD (ub_Totals a) in
  let cb := ut_CostUSD (ub_Totals b) in
  if negb (feqb ca cb) then fltb cb ca else String.ltb (ub_Key a) (ub_Key b).

Definition UsageBreakdown (m : Memory) (tenantID : string) (since until : Z) (groupBy : string) :
    res error (list UsageBucket) :=
  match fill_buckets since until groupBy (at_key (mem_usage m) tenantID) ∅ with
  | Err e => Err e
  | Ok buckets =>
      Ok (sort_slice bucket_less
            ((λ kv, {| ub_Key := kv.1; ub_Totals := kv.2 |}) <$> map_to_list buckets))
  end.

End operations.
