(* ===== verification/MemoryFacts.v ===== *)
(** * The in-memory store: invariant, authentication, isolation, logs

    [mop] is one call of a mutating method of the store; [run_mem] is a
    sequence of them. [mem_ok] is the invariant every reachable store satisfies
    when the random draws of the key generator do not repeat ([fresh_op]). *)

From S2P Require Import Prelude GoStrings GoTime GoFloat ApiErr StoreTypes Keys Memory.
From Stdlib Require Import Ascii.

#[local] Open Scope Z_scope.
#[local] Open Scope stdpp_scope.

(** ** Executions *)

Inductive mop :=
  | OpCreateTenant (rnd : string) (now : Z) (name : string)
  | OpUpdateTenant (id : string) (patch : TenantPatch)
  | OpDeleteTenant (id : string)
  | OpCreateAPIKey (rndKey rndID : string) (now : Z) (tenantID : string) (plane : Plane)
      (name scope : string) (expiresAt : option Z)
  | OpRevokeAPIKey (now : Z) (tenantID keyID : string)
  | OpCreateProvider (rnd : string) (now : Z) (p : Provider)
  | OpUpdateProvider (tenantID id : string) (patch : ProviderPatch)
  | OpDeleteProvider (tenantID id : string)
  | OpUpsertAlias (rnd : string) (now : Z) (a : Alias)
  | OpDeleteAlias (tenantID name : string)
  | OpUpsertRoute (rnd : string) (now : Z) (r : Route)
  | OpDeleteRoute (tenantID id : string)
  | OpSetQuota (now : Z) (q : Quota)
  | OpDeleteQuota (tenantID keyID : string)
  | OpCreateWebhook (rnd : string) (now : Z) (w : Webhook)
  | OpDeleteWebhook (tenantID id : string)
  | OpRecordEvent (e : Event)
  | OpRecordAudit (rnd : string) (now : Z) (e : AuditEntry)
  | OpRecordUsage (r : UsageRecord).

Section facts.
Context `{Unicode} `{Crypto}.

Definition apply_mop (m : Memory) (o : mop) : Memory :=
  match o with
  | OpCreateTenant rnd now name => (CreateTenant m rnd now name).2
  | OpUpdateTenant id patch => (UpdateTenant m id patch).2
  | OpDeleteTenant id => (DeleteTenant m id).2
  | OpCreateAPIKey rk ri now t p n s e => from_option snd m (CreateAPIKey m rk ri now t p n s e)
  | OpRevokeAPIKey now t k => (RevokeAPIKey m now t k).2
  | OpCreateProvider rnd now p => (CreateProvider m rnd now p).2
  | OpUpdateProvider t id patch => (UpdateProvider m t id patch).2
  | OpDeleteProvider t id => (DeleteProvider m t id).2
  | OpUpsertAlias rnd now a => (UpsertAlias m rnd now a).2
  | OpDeleteAlias t n => (DeleteAlias m t n).2
  | OpUpsertRoute rnd now r => (UpsertRoute m rnd now r).2
  | OpDeleteRoute t id => (DeleteRoute m t id).2
  | OpSetQuota now q => (SetQuota m now q).2
  | OpDeleteQuota t k => (DeleteQuota m t k).2
  | OpCreateWebhook rnd now w => (CreateWebhook m rnd now w).2
  | OpDeleteWebhook t id => (DeleteWebhook m t id).2
  | OpRecordEvent e => RecordEvent m e
  | OpRecordAudit rnd now e => RecordAudit m rnd now e
  | OpRecordUsage r => RecordUsage m r
  end.

Definition run_mem (m : Memory) (ops : list mop) : Memory := foldl apply_mop m ops.

(** The hash a key creation stores. *)
Definition minted_hash (m : Memory) (o : mop) : option string :=
  match o with
  | OpCreateAPIKey rk _ _ _ p _ _ _ => (λ x, x.2) <$> GenerateAPIKey p (mem_dev m) rk
  | _ => None
  end.

(** The draws of a key creation repeat neither a key id nor a credential. *)
Definition fresh_op (m : Memory) (o : mop) : Prop :=
  match o with
  | OpCreateAPIKey _ ri _ _ _ _ _ _ =>
      mem_keys m !! NewID IDKey ri = None ∧
      ∀ h, minted_hash m o = Some h → mem_keysByHash m !! h = None
  | _ => True
  end.

Fixpoint fresh_ops (m : Memory) (ops : list mop) : Prop :=
  match ops with
  | [] => True
  | o :: ops' => fresh_op m o ∧ fresh_ops (apply_mop m o) ops'
  end.

(** ** The invariant *)

(** A key belongs to an existing tenant or is a root admin key. *)
Definition owner_ok (m : Memory) (k : APIKey) : Prop :=
  (k_TenantID k = "" ∧ k_Plane k = PlaneAdmin ∧ k_Scope k = ScopeRoot) ∨
  is_Some (mem_tenants m !! k_TenantID k).

(** [live m ptr k]: the pointer reaches the record and both maps hold it. *)
Definition live (m : Memory) (ptr : nat) (k : APIKey) : Prop :=
  mem_heap m !! ptr = Some k ∧ mem_keys m !! k_ID k = Some ptr ∧
  mem_keysByHash m !! k_Hash k = Some ptr ∧ owner_ok m k.

Record keys_ok (m : Memory) : Prop := {
  ko_keys id ptr : mem_keys m !! id = Some ptr → ∃ k, live m ptr k ∧ k_ID k = id;
  ko_hash h ptr : mem_keysByHash m !! h = Some ptr → ∃ k, live m ptr k ∧ k_Hash k = h
}.

Record tenants_ok (ts : gmap string Tenant) : Prop := {
  to_id id t : ts !! id = Some t → t_ID t = id ∧ t_Name t ≠ "";
  to_name id1 id2 t1 t2 : ts !! id1 = Some t1 → ts !! id2 = Some t2 →
    EqualFold (t_Name t1) (t_Name t2) = true → id1 = id2
}.

(** A collection kept per tenant: only existing tenants have one, and it
    satisfies [P]. *)
Definition coll_ok {A} (ts : gmap string Tenant) (P : string → list A → Prop)
    (c : gmap string (list A)) : Prop :=
  ∀ t l, c !! t = Some l → is_Some (ts !! t) ∧ P t l.

(** No two elements clash, in either order of comparison. *)
Fixpoint pairwise {A} (clash : A → A → bool) (l : list A) : Prop :=
  match l with
  | [] => True
  | x :: l' => Forall (λ y, clash x y = false ∧ clash y x = false) l' ∧ pairwise clash l'
  end.

Definition same_provider_name (p q : Provider) : bool := EqualFold (p_Name p) (p_Name q).
Definition same_alias_name (a b : Alias) : bool := bool_decide (al_Name a = al_Name b).
Definition same_match (a b : Route) : bool := bool_decide (r_Match a = r_Match b).

Definition providers_ok (t : string) (l : list Provider) : Prop :=
  pairwise same_provider_name l ∧
  Forall (λ p, p_TenantID p = t ∧ p_KeyPrefixes p = map maskProviderKey (p_Keys p)) l.
Definition aliases_ok (t : string) (l : list Alias) : Prop :=
  pairwise same_alias_name l ∧ Forall (λ a, al_TenantID a = t) l.
Definition routes_ok (t : string) (l : list Route) : Prop :=
  pairwise same_match l ∧ Forall (λ r, r_TenantID r = t) l.
Definition webhooks_ok (t : string) (l : list Webhook) : Prop := Forall (λ w, w_TenantID w = t) l.

Definition log_ok {A} (n : nat) (tenant : A → string) (c : gmap string (list A)) : Prop :=
  ∀ t l, c !! t = Some l → (length l ≤ n)%nat ∧ Forall (λ x, tenant x = t) l.

Record mem_ok (m : Memory) : Prop := {
  mo_keys : keys_ok m;
  mo_tenants : tenants_ok (mem_tenants m);
  mo_providers : coll_ok (mem_tenants m) providers_ok (mem_providers m);
  mo_aliases : coll_ok (mem_tenants m) aliases_ok (mem_aliases m);
  mo_routes : coll_ok (mem_tenants m) routes_ok (mem_routes m);
  mo_webhooks : coll_ok (mem_tenants m) webhooks_ok (mem_webhooks m);
  mo_quotas k q : mem_quotas m !! k = Some q → k = quotaKey (q_TenantID q) (q_KeyID q);
  mo_events : log_ok MaxTenantEvents e_TenantID (mem_events m);
  mo_usage : log_ok maxMemoryUsageRecords u_TenantID (mem_usage m);
  mo_audit : (length (mem_audit m) ≤ maxMemoryAuditEntries)%nat
}.

(** ** Lists *)

Lemma find_idx_Some {A} (f : A → bool) l i x :
  find_idx f l = Some (i, x) → l !! i = Some x ∧ f x = true.
Proof.
  revert i; induction l as [|y l IH]; intros i; simpl; [done|].
  destruct (f y) eqn:E; [by intros [= <- <-]|].
  destruct (find_idx f l) as [[j z]|]; [|done]. intros [= <- <-]. by apply IH.
Qed.

Lemma find_idx_None {A} (f : A → bool) l :
  find_idx f l = None ↔ Forall (λ x, f x = false) l.
Proof.
  induction l as [|y l IH]; simpl; [by split|]. rewrite Forall_cons, <-IH.
  destruct (f y), (find_idx f l) as [[]|]; split; try done; try (by intros [? ?]).
Qed.

Lemma existsb_false {A} (f : A → bool) l : existsb f l = false ↔ Forall (λ x, f x = false) l.
Proof.
  induction l as [|y l IH]; simpl; [by split|].
  by rewrite Forall_cons, orb_false_iff, IH.
Qed.

Lemma elem_of_remove_at {A} i (l : list A) x : x ∈ remove_at i l → x ∈ l.
Proof.
  unfold remove_at. rewrite elem_of_app. intros [Hx|Hx].
  - apply list_elem_of_lookup_1 in Hx as [j Hj].
    apply lookup_take_Some in Hj as [Hj _]. by eapply list_elem_of_lookup_2.
  - apply list_elem_of_lookup_1 in Hx as [j Hj]. rewrite lookup_drop in Hj.
    by eapply list_elem_of_lookup_2.
Qed.

Lemma Forall_remove_at {A} (P : A → Prop) i l : Forall P l → Forall P (remove_at i l).
Proof. rewrite !Forall_forall. intros HF x ?%elem_of_remove_at. auto. Qed.

Section pairwise.
Context {A : Type} (clash : A → A → bool).

Lemma pairwise_snoc l x :
  pairwise clash l → Forall (λ y, clash x y = false ∧ clash y x = false) l →
  pairwise clash (l ++ [x]).
Proof.
  induction l as [|y l IH]; simpl; [done|]. intros [H1 H2] [[Ha Hb] HF]%Forall_cons.
  split; [|by apply IH]. rewrite Forall_app, Forall_singleton. done.
Qed.

Lemma pairwise_remove_at l i : pairwise clash l → pairwise clash (remove_at i l).
Proof.
  revert i; induction l as [|y l IH]; intros i; simpl; [by destruct i|].
  intros [H1 H2]. destruct i as [|i]; [done|]. simpl. split; [|by apply (IH i)].
  by apply Forall_remove_at.
Qed.

(** Replacing an element by one that clashes with the same elements. *)
Lemma pairwise_replace l i x y :
  l !! i = Some x → (∀ z, clash y z = clash x z ∧ clash z y = clash z x) →
  pairwise clash l → pairwise clash (<[i:=y]> l).
Proof.
  intros Hi Hxy. revert i Hi; induction l as [|z l IH]; intros [|i]; simpl; [done..| |].
  - intros [= ->] [H1 H2]. split; [|done]. eapply Forall_impl; [exact H1|].
    intros w. simpl. destruct (Hxy w) as [-> ->]. done.
  - intros Hi [H1 H2]. split; [|by apply IH]. apply Forall_insert; [done|].
    destruct (Hxy z) as [-> ->]. exact (proj1 (Forall_lookup _ _) H1 _ _ Hi).
Qed.
End pairwise.

Lemma push_bounded_le {A} n (l : list A) x : (0 < n)%nat → (length (push_bounded n l x) ≤ n)%nat.
Proof.
  intros Hn. unfold push_bounded. destruct (n <? length (l ++ [x]))%nat eqn:E.
  - rewrite length_drop. apply Nat.ltb_lt in E. lia.
  - by apply Nat.ltb_ge in E.
Qed.

(** What a bounded log keeps, read newest first. *)
Lemma reverse_push_bounded {A} n (l : list A) x :
  reverse (push_bounded n l x) = take n (x :: reverse l).
Proof.
  unfold push_bounded. rewrite <-reverse_snoc. set (l' := l ++ [x]).
  destruct (n <? length l')%nat eqn:E.
  - apply Nat.ltb_lt in E.
    assert (reverse l' = reverse (drop (length l' - n) l') ++ reverse (take (length l' - n) l'))
      as -> by (by rewrite <-reverse_app, take_drop).
    rewrite take_app_length'; [done|]. rewrite length_reverse, length_drop. lia.
  - apply Nat.ltb_ge in E. rewrite take_ge; [done|]. by rewrite length_reverse.
Qed.

Lemma Forall_push_bounded {A} (P : A → Prop) n l x :
  Forall P l → P x → Forall P (push_bounded n l x).
Proof.
  intros HF Hx. unfold push_bounded. destruct (_ <? _)%nat; [apply Forall_drop|].
  all: by apply Forall_app; split; [|apply Forall_singleton].
Qed.

(** ** Collections *)

Lemma at_key_insert {A} (c : gmap string (list A)) t l t' :
  at_key (<[t := l]> c) t' = if decide (t = t') then l else at_key c t'.
Proof.
  unfold at_key. case_decide; [subst; by rewrite lookup_insert_eq|by rewrite lookup_insert_ne].
Qed.

Lemma at_key_delete {A} (c : gmap string (list A)) t t' :
  at_key (delete t c) t' = if decide (t = t') then [] else at_key c t'.
Proof.
  unfold at_key. case_decide; [subst; by rewrite lookup_delete_eq|by rewrite lookup_delete_ne].
Qed.

Lemma coll_ok_insert {A} ts (P : string → list A → Prop) c t l :
  coll_ok ts P c → is_Some (ts !! t) → P t l → coll_ok ts P (<[t := l]> c).
Proof. intros Hc Ht HP t' l' [[<- <-]|[? ?]]%lookup_insert_Some; auto. Qed.

Lemma coll_ok_tenants {A} ts ts' (P : string → list A → Prop) c :
  (∀ t, is_Some (ts !! t) → is_Some (ts' !! t)) → coll_ok ts P c → coll_ok ts' P c.
Proof. intros Hs Hc t l [? ?]%Hc. auto. Qed.

Lemma coll_ok_delete {A} ts (P : string → list A → Prop) c id :
  coll_ok ts P c → coll_ok (delete id ts) P (delete id c).
Proof. intros Hc t l [Hne [? ?]%Hc]%lookup_delete_Some. by rewrite lookup_delete_ne. Qed.

(** What the invariant gives about the list a method works on. *)
Lemma coll_ok_at {A} ts (P : string → list A → Prop) c t :
  coll_ok ts P c → P t [] → P t (at_key c t).
Proof.
  intros Hc Hn. unfold at_key. destruct (c !! t) as [l|] eqn:E; [|done]. by apply Hc.
Qed.

Lemma coll_ok_hit {A} ts (P : string → list A → Prop) c t i x :
  coll_ok ts P c → at_key c t !! i = Some x → is_Some (ts !! t).
Proof.
  intros Hc. unfold at_key. destruct (c !! t) as [l|] eqn:E; [|done]. intros _. by apply (Hc t l).
Qed.

Lemma log_ok_push {A} n (tenant : A → string) c x :
  (0 < n)%nat → log_ok n tenant c →
  log_ok n tenant (<[tenant x := push_bounded n (at_key c (tenant x)) x]> c).
Proof.
  intros Hn Hc t l [[<- <-]|[? Hl]]%lookup_insert_Some; [|by apply Hc].
  split; [by apply push_bounded_le|]. apply Forall_push_bounded; [|done].
  unfold at_key. destruct (c !! tenant x) as [l|] eqn:E; [by apply Hc|by constructor].
Qed.

Lemma has_tenant_spec m id : has_tenant m id = true ↔ is_Some (mem_tenants m !! id).
Proof.
  unfold has_tenant. destruct (mem_tenants m !! id); simpl; by split.
Qed.

Lemma has_tenant_negb m id : negb (has_tenant m id) = false → is_Some (mem_tenants m !! id).
Proof. rewrite negb_false_iff. apply has_tenant_spec. Qed.

#[local] Hint Resolve has_tenant_negb coll_ok_insert coll_ok_delete : gate.

(** ** The invariant is preserved *)

(** A change that touches neither tenants nor keys keeps the key invariant. *)
Lemma keys_ok_frame m m' :
  (∀ t, is_Some (mem_tenants m !! t) → is_Some (mem_tenants m' !! t)) →
  mem_heap m' = mem_heap m → mem_keys m' = mem_keys m →
  mem_keysByHash m' = mem_keysByHash m → keys_ok m → keys_ok m'.
Proof.
  intros Ht Hh Hk Hb [H1 H2].
  assert (∀ ptr k, live m ptr k → live m' ptr k) as Hl.
  { unfold live, owner_ok. rewrite Hh, Hk, Hb. intros ptr k (? & ? & ? & [?|?]); auto 10. }
  split; rewrite ?Hk, ?Hb.
  - intros id ptr [k [? ?]]%H1. eauto.
  - intros h ptr [k [? ?]]%H2. eauto.
Qed.

(** Closes the parts of [mem_ok] an operation does not touch. *)
Ltac untouched Hok :=
  destruct Hok; constructor; simpl; try assumption;
  try (eapply keys_ok_frame; [..|eassumption]; simpl; by auto).

Lemma CreateTenant_ok m rnd now name : mem_ok m → mem_ok (CreateTenant m rnd now name).2.
Proof.
  intros Hok. unfold CreateTenant. case_bool_decide as Hn; [done|].
  destruct (existsb _ _) eqn:Ex; [done|]. apply existsb_false in Ex.
  assert (∀ id t, mem_tenants m !! id = Some t → EqualFold (t_Name t) (TrimSpace name) = false) as Hf.
  { intros id t Hi. refine (proj1 (Forall_forall _ _) Ex t _).
    apply (list_elem_of_fmap_2' _ _ (id, t)); [by apply elem_of_map_to_list|done]. }
  simpl. set (t := Build_Tenant _ _ _ _ _ _ _ _).
  assert (∀ i, is_Some (mem_tenants m !! i) →
    is_Some (<[NewID IDTenant rnd := t]> (mem_tenants m) !! i)) as Hs.
  { intros i Hi. rewrite lookup_insert. by case_decide. }
  destruct Hok; constructor; simpl; try assumption;
    try (by eapply coll_ok_tenants); [by eapply keys_ok_frame; [..|eassumption]|].
  destruct mo_tenants0 as [T1 T2]. split.
  - intros id t' [[<- <-]|[_ Hi]]%lookup_insert_Some; [done|by apply T1].
  - intros i1 i2 t1 t2 [[<- <-]|[? Hi1]]%lookup_insert_Some [[<- <-]|[? Hi2]]%lookup_insert_Some;
      simpl; [done| | |by eauto].
    + rewrite EqualFold_sym. by rewrite (Hf _ _ Hi2).
    + by rewrite (Hf _ _ Hi1).
Qed.

Lemma UpdateTenant_ok m id patch : mem_ok m → mem_ok (UpdateTenant m id patch).2.
Proof.
  intros Hok. unfold UpdateTenant. destruct (mem_tenants m !! id) as [t|] eqn:Et; [|done].
  match goal with |- mem_ok (match ?r with Ok _ => _ | Err _ => _ end).2 =>
    assert (∀ name, r = Ok name → name ≠ "" ∧
      ∀ i t', i ≠ id → mem_tenants m !! i = Some t' → EqualFold (t_Name t') name = false) as Hr;
    [|destruct r as [name|]; [|done]] end.
  { intros name. destruct (mo_tenants m Hok) as [T1 T2].
    destruct (tp_Name patch) as [raw|].
    - case_bool_decide as Hn; [done|]. destruct (existsb _ _) eqn:Ex; [done|].
      intros [= <-]. split; [done|]. intros i t' Hne Hi. apply existsb_false in Ex.
      apply elem_of_map_to_list in Hi. pose proof (proj1 (Forall_forall _ _) Ex _ Hi) as E.
      simpl in E. by rewrite bool_decide_eq_false_2 in E.
    - intros [= <-]. split; [by apply (T1 id)|]. intros i t' Hne Hi.
      apply not_true_is_false. intros E. by apply Hne, (T2 _ _ _ _ Hi Et). }
  destruct (Hr name eq_refl) as [Hn Hf]. simpl. set (t' := Build_Tenant _ _ _ _ _ _ _ _).
  assert (∀ i, is_Some (mem_tenants m !! i) → is_Some (<[id := t']> (mem_tenants m) !! i)) as Hs.
  { intros i Hi. rewrite lookup_insert. by case_decide. }
  destruct Hok; constructor; simpl; try assumption;
    try (by eapply coll_ok_tenants); [by eapply keys_ok_frame; [..|eassumption]|].
  destruct mo_tenants0 as [T1 T2]. split.
  - intros i u [[<- <-]|[_ Hi]]%lookup_insert_Some; [|by apply T1].
    split; [by apply (T1 _ _ Et)|done].
  - intros i1 i2 t1 t2 [[<- <-]|[? Hi1]]%lookup_insert_Some [[<- <-]|[? Hi2]]%lookup_insert_Some;
      simpl; [done| | |by eauto].
    + rewrite EqualFold_sym. by rewrite (Hf _ _ ltac:(done) Hi2).
    + by rewrite (Hf _ _ ltac:(done) Hi1).
Qed.

(** The ids and hashes of the listed keys that belong to tenant [id]. *)
Definition owned (heap : list APIKey) (id : string) (L : list (string * nat)) :
    list (string * string) :=
  omap (λ e, k ← heap !! e.2;
             if bool_decide (k_TenantID k = id) then Some (e.1, k_Hash k) else None) L.

Lemma drop_key_fold heap id L keys byHash :
  foldl (drop_key heap id) (keys, byHash) L =
    (foldl (flip delete) keys (owned heap id L).*1, foldl (flip delete) byHash (owned heap id L).*2).
Proof.
  revert keys byHash. induction L as [|[j q] L IH]; intros keys byHash; [done|].
  unfold owned. simpl. destruct (heap !! q) as [k|]; simpl; [case_bool_decide|]; apply IH.
Qed.

Lemma lookup_foldl_delete {A} (m : gmap string A) l i x :
  foldl (flip delete) m l !! i = Some x ↔ m !! i = Some x ∧ i ∉ l.
Proof.
  revert m; induction l as [|j l IH]; intros m; simpl.
  { split; [intros ?; split; [done|apply not_elem_of_nil]|by intros [? _]]. }
  rewrite IH, lookup_delete_Some, not_elem_of_cons. unfold flip.
  split; [intros [[? ?] ?]|intros (? & ? & ?)]; auto.
Qed.

Lemma elem_of_owned heap id (keys : gmap string nat) i h :
  (i, h) ∈ owned heap id (map_to_list keys) ↔
    ∃ ptr k, keys !! i = Some ptr ∧ heap !! ptr = Some k ∧ k_TenantID k = id ∧ k_Hash k = h.
Proof.
  unfold owned. rewrite list_elem_of_omap. split.
  - intros ([j q] & Hin%elem_of_map_to_list & He). simpl in *.
    destruct (heap !! q) as [k|] eqn:Eq; simpl in He; [|done].
    case_bool_decide; [|done]. injection He as <- <-. eauto 10.
  - intros (ptr & k & Hk%elem_of_map_to_list & Hh & Ht & <-). exists (i, ptr). split; [done|].
    simpl. rewrite Hh; simpl. by rewrite bool_decide_eq_true_2.
Qed.

(** The keys that remain after [DeleteTenant] are those of other tenants. *)
Lemma DeleteTenant_keys m id keys' byHash' :
  keys_ok m →
  foldl (drop_key (mem_heap m) id) (mem_keys m, mem_keysByHash m) (map_to_list (mem_keys m))
    = (keys', byHash') →
  (∀ i ptr, keys' !! i = Some ptr ↔ mem_keys m !! i = Some ptr ∧
     ∃ k, live m ptr k ∧ k_TenantID k ≠ id) ∧
  (∀ h ptr, byHash' !! h = Some ptr ↔ mem_keysByHash m !! h = Some ptr ∧
     ∃ k, live m ptr k ∧ k_TenantID k ≠ id).
Proof.
  intros [K1 K2]. rewrite drop_key_fold. intros [= <- <-].
  split; intros x ptr; rewrite lookup_foldl_delete, list_elem_of_fmap;
    split; intros [Hi Hn]; (split; [done|]).
  - destruct (K1 _ _ Hi) as (k & Hl & <-). exists k. split; [done|]. intros Ht. apply Hn.
    exists (k_ID k, k_Hash k). split; [done|]. apply elem_of_owned. destruct Hl as [? _]. eauto 10.
  - intros ([i h] & -> & (p & k' & Hp & Hh & Ht & _)%elem_of_owned).
    destruct Hn as (k & (Hl & _) & Hne). simpl in Hi. congruence.
  - destruct (K2 _ _ Hi) as (k & Hl & <-). exists k. split; [done|]. intros Ht. apply Hn.
    exists (k_ID k, k_Hash k). split; [done|]. apply elem_of_owned.
    destruct Hl as (? & ? & _). eauto 10.
  - intros ([i h] & -> & (p & k' & Hp & Hh & Ht & <-)%elem_of_owned). simpl in Hi.
    destruct (K1 _ _ Hp) as (k2 & (Hh2 & _ & Hb2 & _) & _).
    destruct Hn as (k & (Hh3 & _) & Hne). congruence.
Qed.

Lemma DeleteTenant_ok m id : mem_ok m → mem_ok (DeleteTenant m id).2.
Proof.
  intros Hok. unfold DeleteTenant. destruct (negb (has_tenant m id)) eqn:Eh; [done|].
  destruct (foldl _ _ _) as [keys' byHash'] eqn:Ef. simpl.
  destruct (DeleteTenant_keys m id keys' byHash' (mo_keys m Hok) Ef) as [I1 I2].
  destruct Hok; constructor; simpl; try (by apply coll_ok_delete); try assumption.
  - assert (∀ ptr k, live m ptr k → k_TenantID k ≠ id →
      live (mkMemory (delete id (mem_tenants m)) (mem_heap m) keys' byHash'
       (delete id (mem_providers m)) (delete id (mem_aliases m)) (delete id (mem_routes m))
       (delete id (mem_quotas m)) (delete id (mem_webhooks m)) (mem_events m)
       (delete id (mem_usage m)) (mem_audit m) (mem_dev m)) ptr k) as Hl.
    { intros ptr k Hl Hne. pose proof Hl as (? & ? & ? & [?|?]);
        (split_and!; simpl; [done|apply I1; eauto|apply I2; eauto|]); [by left|].
      right. simpl. by rewrite lookup_delete_ne. }
    split; simpl.
    + intros i ptr (Hi & k & Hk & Hne)%I1. exists k. split; [auto|].
      destruct (ko_keys m mo_keys0 _ _ Hi) as (k' & Hk' & <-). destruct Hk as [? _], Hk' as [? _].
      congruence.
    + intros h ptr (Hi & k & Hk & Hne)%I2. exists k. split; [auto|].
      destruct (ko_hash m mo_keys0 _ _ Hi) as (k' & Hk' & <-). destruct Hk as [? _], Hk' as [? _].
      congruence.
  - destruct mo_tenants0 as [T1 T2]. split.
    + intros i t [_ Hi]%lookup_delete_Some. auto.
    + intros i1 i2 t1 t2 [_ Hi1]%lookup_delete_Some [_ Hi2]%lookup_delete_Some. eauto.
  - intros k q [_ Hq]%lookup_delete_Some. auto.
  - intros t l [_ Hl]%lookup_delete_Some. by apply mo_usage0.
Qed.

Lemma CreateAPIKey_spec m rk ri now t p n sc ex :
  CreateAPIKey m rk ri now t p n sc ex ≠ None ∧
  ∀ r m', CreateAPIKey m rk ri now t p n sc ex = Some (r, m') →
    match r with
    | Err _ => m' = m
    | Ok (k, plaintext) =>
        k_ID k = NewID IDKey ri ∧ k_TenantID k = t ∧ k_Plane k = p ∧ k_Scope k = sc ∧
        k_ExpiresAt k = ex ∧ k_RevokedAt k = None ∧
        k_Hash k = HashAPIKey plaintext ∧ HasPrefix plaintext (k_Prefix k) = true ∧
        PlaneOf plaintext = Some p ∧
        (t = "" → p = PlaneAdmin ∧ sc = ScopeRoot) ∧ (t ≠ "" → is_Some (mem_tenants m !! t)) ∧
        minted_hash m (OpCreateAPIKey rk ri now t p n sc ex) = Some (k_Hash k) ∧
        m' = set_keys m (mem_heap m ++ [k]) (<[k_ID k := length (mem_heap m)]> (mem_keys m))
               (<[k_Hash k := length (mem_heap m)]> (mem_keysByHash m))
    end.
Proof.
  unfold CreateAPIKey. simpl.
  destruct (GenerateAPIKey_spec p (mem_dev m) rk) as (pt & pre & Hg & Hp & Hpre & _).
  rewrite Hg. simpl.
  destruct (bool_decide (t = "")) eqn:Et; simpl.
  - apply bool_decide_eq_true in Et.
    destruct (bool_decide (p = PlaneAdmin)) eqn:Ep, (bool_decide (sc = ScopeRoot)) eqn:Es; simpl;
      (split; [done|]); intros r m' [= <- <-]; [|done..].
    apply bool_decide_eq_true in Ep, Es. by split_and!.
  - apply bool_decide_eq_false in Et. destruct (has_tenant m t) eqn:Eh;
      (split; [done|]); intros r m' [= <- <-]; [|done].
    apply has_tenant_spec in Eh. by split_and!.
Qed.

Lemma CreateAPIKey_ok m o : mem_ok m →
  fresh_op m o → match o with OpCreateAPIKey _ _ _ _ _ _ _ _ => True | _ => False end →
  mem_ok (apply_mop m o).
Proof.
  destruct o as [| | |rk ri now t p n sc ex| | | | | | | | | | | | | | |]; try done.
  intros Hok [Hid Hhash] _. simpl.
  destruct (CreateAPIKey_spec m rk ri now t p n sc ex) as [_ Hs].
  destruct (CreateAPIKey m rk ri now t p n sc ex) as [[r m']|]; [|done]. simpl.
  specialize (Hs r m' eq_refl). destruct r as [[k pt]|e]; [|by subst].
  destruct Hs as (Ek & Et & Epl & Esc & _ & _ & _ & _ & _ & Hroot & Hten & Hm & ->).
  specialize (Hhash _ Hm). rewrite <-Ek in Hid.
  set (m' := set_keys _ _ _ _).
  assert (∀ ptr k', live m ptr k' → live m' ptr k') as Hl.
  { intros ptr k' (Hh & Hk & Hb & Ho). split_and!; simpl; [by apply lookup_app_l_Some| | |done].
    - rewrite lookup_insert_ne by congruence. done.
    - rewrite lookup_insert_ne by congruence. done. }
  assert (live m' (length (mem_heap m)) k) as Hnew.
  { split_and!; simpl; [by apply list_lookup_middle|apply lookup_insert_eq..|].
    unfold owner_ok. rewrite Et, Epl, Esc. destruct (decide (t = "")) as [E|E]; [left|right; by apply Hten].
    destruct (Hroot E) as [-> ->]. done. }
  destruct Hok as [[K1 K2]]; constructor; simpl; try assumption. split; simpl.
  - intros id ptr [[<- <-]|[? [k' [? ?]]%K1]]%lookup_insert_Some; eauto.
  - intros h ptr [[<- <-]|[? [k' [? ?]]%K2]]%lookup_insert_Some; eauto.
Qed.

Lemma live_unique m ptr ptr' k k' :
  live m ptr k → live m ptr' k' → k_ID k = k_ID k' → ptr = ptr' ∧ k = k'.
Proof. intros (? & ? & _) (? & ? & _) ?. assert (ptr = ptr') by congruence. split; congruence. Qed.

(** Revocation changes the one record and nothing that identifies it. *)
Lemma revoke_live m ptr k now ptr' k' :
  live m ptr k →
  live m ptr' k' → live (set_keys m (<[ptr := revoke k now]> (mem_heap m)) (mem_keys m) (mem_keysByHash m))
                     ptr' (if decide (ptr = ptr') then revoke k now else k').
Proof.
  intros (Hh & Hk & Hb & Ho) (Hh' & Hk' & Hb' & Ho'). case_decide as E; [subst ptr'|];
    split_and!; simpl; try done.
  - apply list_lookup_insert_eq. by eapply lookup_lt_Some.
  - by rewrite list_lookup_insert_ne.
Qed.

Lemma RevokeAPIKey_ok m now t id : mem_ok m → mem_ok (RevokeAPIKey m now t id).2.
Proof.
  intros Hok. unfold RevokeAPIKey. destruct (mem_keys m !! id) as [ptr|] eqn:Ep; [|done].
  unfold deref. destruct (mem_heap m !! ptr) as [k|] eqn:Eh; [|done].
  case_bool_decide; simpl; [|done]. destruct (k_RevokedAt k) eqn:Er; [done|]. simpl.
  destruct Hok as [[K1 K2]]; constructor; simpl; try assumption.
  assert (live m ptr k) as Hk.
  { destruct (K1 _ _ Ep) as (k' & Hk' & _). pose proof Hk' as [? _]. by simplify_eq. }
  split; simpl; intros x ptr'.
  - intros (k' & Hk' & <-)%K1. eexists. split; [by apply revoke_live|].
    case_decide; [|done]. subst. destruct Hk as [? _], Hk' as [? _]. by simplify_eq.
  - intros (k' & Hk' & <-)%K2. eexists. split; [by apply revoke_live|].
    case_decide; [|done]. subst. destruct Hk as [? _], Hk' as [? _]. by simplify_eq.
Qed.

Lemma CreateProvider_ok m rnd now p : mem_ok m → mem_ok (CreateProvider m rnd now p).2.
Proof.
  intros Hok. unfold CreateProvider. destruct (negb _) eqn:Eh; [done|].
  destruct (existsb _ _) eqn:Ex; [done|]. apply existsb_false in Ex. untouched Hok.
  apply coll_ok_insert; [done|auto with gate|].
  destruct (coll_ok_at _ _ _ (p_TenantID p) mo_providers0) as [H1 H2]; [by split; constructor|].
  split; [|by apply Forall_app; split; [|apply Forall_singleton]].
  apply pairwise_snoc; [done|]. eapply Forall_impl; [exact Ex|]. intros q E.
  unfold same_provider_name. simpl. rewrite EqualFold_sym, E. done.
Qed.

Lemma UpdateProvider_ok m t id patch : mem_ok m → mem_ok (UpdateProvider m t id patch).2.
Proof.
  intros Hok. unfold UpdateProvider.
  destruct (find_idx _ _) as [[i p]|] eqn:Ef; [|done]. apply find_idx_Some in Ef as [Hi _].
  untouched Hok. apply coll_ok_insert; [done|eauto using coll_ok_hit|].
  destruct (coll_ok_at _ _ _ t mo_providers0) as [H1 H2]; [by split; constructor|].
  split; [by eapply pairwise_replace|]. apply Forall_insert; [done|].
  destruct (proj1 (Forall_lookup _ _) H2 _ _ Hi) as [? ?]. simpl.
  by destruct (pp_Keys patch).
Qed.

Lemma DeleteProvider_ok m t id : mem_ok m → mem_ok (DeleteProvider m t id).2.
Proof.
  intros Hok. unfold DeleteProvider.
  destruct (find_idx _ _) as [[i p]|] eqn:Ef; [|done]. apply find_idx_Some in Ef as [Hi _].
  untouched Hok. apply coll_ok_insert; [done|eauto using coll_ok_hit|].
  destruct (coll_ok_at _ _ _ t mo_providers0) as [H1 H2]; [by split; constructor|].
  split; [by apply pairwise_remove_at|by apply Forall_remove_at].
Qed.

(** An upsert replaces the element with the same name or appends. *)
Lemma upsert_pairwise {A} (name : A → string) (l : list A) (x : A) :
  let clash a b := bool_decide (name a = name b) in
  pairwise clash l →
  match find_idx (λ y, bool_decide (name y = name x)) l with
  | Some (i, y) => ∀ x', name x' = name x → pairwise clash (<[i := x']> l)
  | None => ∀ x', name x' = name x → pairwise clash (l ++ [x'])
  end.
Proof.
  intros clash Hp. destruct (find_idx _ _) as [[i y]|] eqn:Ef; intros x' Hx'.
  - apply find_idx_Some in Ef as [Hi Hn%bool_decide_eq_true].
    eapply pairwise_replace; [done| |done]. intros z. unfold clash.
    by rewrite Hx', Hn.
  - apply find_idx_None in Ef. apply pairwise_snoc; [done|].
    eapply Forall_impl; [exact Ef|]. intros y Hy. simpl in Hy. unfold clash.
    rewrite Hx'. split; [|done]. apply bool_decide_eq_false in Hy. by apply bool_decide_eq_false_2.
Qed.

Lemma UpsertAlias_ok m rnd now a : mem_ok m → mem_ok (UpsertAlias m rnd now a).2.
Proof.
  intros Hok. unfold UpsertAlias. destruct (negb _) eqn:Eh; [done|].
  destruct (coll_ok_at _ _ _ (al_TenantID a) (mo_aliases m Hok)) as [H1 H2]; [by split; constructor|].
  pose proof (upsert_pairwise al_Name _ a H1) as Hu.
  destruct (find_idx _ _) as [[i y]|]; untouched Hok; apply coll_ok_insert; auto with gate;
    (split; [by apply Hu|]); [by apply Forall_insert|].
  by apply Forall_app; split; [|apply Forall_singleton].
Qed.

Lemma DeleteAlias_ok m t n : mem_ok m → mem_ok (DeleteAlias m t n).2.
Proof.
  intros Hok. unfold DeleteAlias.
  destruct (find_idx _ _) as [[i p]|] eqn:Ef; [|done]. apply find_idx_Some in Ef as [Hi _].
  untouched Hok. apply coll_ok_insert; [done|eauto using coll_ok_hit|].
  destruct (coll_ok_at _ _ _ t mo_aliases0) as [H1 H2]; [by split; constructor|].
  split; [by apply pairwise_remove_at|by apply Forall_remove_at].
Qed.

Lemma UpsertRoute_ok m rnd now r : mem_ok m → mem_ok (UpsertRoute m rnd now r).2.
Proof.
  intros Hok. unfold UpsertRoute. destruct (negb _) eqn:Eh; [done|].
  destruct (coll_ok_at _ _ _ (r_TenantID r) (mo_routes m Hok)) as [H1 H2]; [by split; constructor|].
  pose proof (upsert_pairwise r_Match _ r H1) as Hu.
  destruct (find_idx _ _) as [[i y]|]; untouched Hok; apply coll_ok_insert; auto with gate;
    (split; [by apply Hu|]); [by apply Forall_insert|].
  by apply Forall_app; split; [|apply Forall_singleton].
Qed.

Lemma DeleteRoute_ok m t id : mem_ok m → mem_ok (DeleteRoute m t id).2.
Proof.
  intros Hok. unfold DeleteRoute.
  destruct (find_idx _ _) as [[i p]|] eqn:Ef; [|done]. apply find_idx_Some in Ef as [Hi _].
  untouched Hok. apply coll_ok_insert; [done|eauto using coll_ok_hit|].
  destruct (coll_ok_at _ _ _ t mo_routes0) as [H1 H2]; [by split; constructor|].
  split; [by apply pairwise_remove_at|by apply Forall_remove_at].
Qed.

Lemma quotas_ok m o : mem_ok m →
  match o with OpSetQuota _ _ | OpDeleteQuota _ _ => True | _ => False end → mem_ok (apply_mop m o).
Proof.
  destruct o as [| | | | | | | | | | | |now q|t k| | | | |]; try done; intros Hok _; simpl.
  - unfold SetQuota. destruct (negb _); [done|]. untouched Hok.
    by intros k q' [[<- <-]|[? ?]]%lookup_insert_Some; [|auto].
  - unfold DeleteQuota. destruct (is_None_b _); [done|]. untouched Hok.
    intros k' q [_ Hq]%lookup_delete_Some. auto.
Qed.

Lemma webhooks_op_ok m o : mem_ok m →
  match o with OpCreateWebhook _ _ _ | OpDeleteWebhook _ _ => True | _ => False end →
  mem_ok (apply_mop m o).
Proof.
  destruct o as [| | | | | | | | | | | | | |rnd now w|t id| | |]; try done; intros Hok _; simpl.
  - unfold CreateWebhook. destruct (negb _) eqn:Eh; [done|]. untouched Hok.
    apply coll_ok_insert; auto with gate.
    apply Forall_app; split; [|by apply Forall_singleton].
    apply (coll_ok_at (mem_tenants m) webhooks_ok); [done|constructor].
  - unfold DeleteWebhook. destruct (find_idx _ _) as [[i p]|] eqn:Ef; [|done].
    apply find_idx_Some in Ef as [Hi _]. untouched Hok.
    apply coll_ok_insert; [done|eauto using coll_ok_hit|]. apply Forall_remove_at.
    apply (coll_ok_at (mem_tenants m) webhooks_ok); [done|constructor].
Qed.

Lemma bound_pos n : 0 < n → (0 < Z.to_nat n)%nat.
Proof. lia. Qed.

Lemma apply_mop_ok m o : mem_ok m → fresh_op m o → mem_ok (apply_mop m o).
Proof.
  intros Hok Hf. destruct o; try (by apply CreateAPIKey_ok); try (by apply quotas_ok);
    try (by apply webhooks_op_ok); simpl;
    auto using CreateTenant_ok, UpdateTenant_ok, DeleteTenant_ok, RevokeAPIKey_ok,
      CreateProvider_ok, UpdateProvider_ok, DeleteProvider_ok, UpsertAlias_ok, DeleteAlias_ok,
      UpsertRoute_ok, DeleteRoute_ok.
  - untouched Hok. apply log_ok_push; [by apply bound_pos|done].
  - untouched Hok. apply push_bounded_le. by apply bound_pos.
  - untouched Hok. apply log_ok_push; [by apply bound_pos|done].
Qed.

Lemma NewMemory_ok dev : mem_ok (NewMemory dev).
Proof.
  constructor; simpl; try (intros ? ?; by rewrite lookup_empty); [split; simpl..|apply Nat.le_0_l];
    intros *; by rewrite lookup_empty.
Qed.

Lemma run_mem_ok m ops : mem_ok m → fresh_ops m ops → mem_ok (run_mem m ops).
Proof.
  revert m; induction ops as [|o ops IH]; intros m Hok; simpl; [done|]. intros [? ?].
  apply IH; [|done]. by apply apply_mop_ok.
Qed.

(** ** Which operations touch credentials *)

Definition touches_keys (o : mop) : bool :=
  match o with
  | OpDeleteTenant _ | OpCreateAPIKey _ _ _ _ _ _ _ _ | OpRevokeAPIKey _ _ _ => true
  | _ => false
  end.

Lemma keys_frame m o : touches_keys o = false →
  mem_heap (apply_mop m o) = mem_heap m ∧ mem_keys (apply_mop m o) = mem_keys m ∧
  mem_keysByHash (apply_mop m o) = mem_keysByHash m ∧
  (∀ t, is_Some (mem_tenants m !! t) → is_Some (mem_tenants (apply_mop m o) !! t)).
Proof.
  destruct o; simpl; try done; intros _;
    unfold CreateTenant, UpdateTenant, CreateProvider, UpdateProvider, DeleteProvider, UpsertAlias,
      DeleteAlias, UpsertRoute, DeleteRoute, SetQuota, DeleteQuota, CreateWebhook, DeleteWebhook;
    repeat case_match; simpl; try done; split_and!; try done;
    intros ? Ht; rewrite lookup_insert; by destruct (decide _).
Qed.

Lemma live_frame m m' ptr k :
  mem_heap m' = mem_heap m → mem_keys m' = mem_keys m → mem_keysByHash m' = mem_keysByHash m →
  (∀ t, is_Some (mem_tenants m !! t) → is_Some (mem_tenants m' !! t)) →
  live m ptr k → live m' ptr k.
Proof.
  intros Hh Hk Hb Ht. unfold live, owner_ok. rewrite Hh, Hk, Hb.
  intros (? & ? & ? & [?|?]); auto 10.
Qed.

(** A key stays as it is under every operation that neither revokes it nor
    deletes its tenant. *)
Definition spares (k : APIKey) (o : mop) : Prop :=
  match o with
  | OpRevokeAPIKey _ t id => ¬ (t = k_TenantID k ∧ id = k_ID k)
  | OpDeleteTenant t => t ≠ k_TenantID k
  | _ => True
  end.

Lemma live_step m o ptr k :
  mem_ok m → fresh_op m o → spares k o → live m ptr k → live (apply_mop m o) ptr k.
Proof.
  intros Hok Hf Hs Hl. destruct (touches_keys o) eqn:Et.
  2: { destruct (keys_frame m o Et) as (? & ? & ? & ?). by eapply live_frame. }
  destruct o as [| |id|rk ri now t p n sc ex|now t id| | | | | | | | | | | | | |]; try done; simpl.
  - unfold DeleteTenant. destruct (negb _); [done|].
    destruct (foldl _ _ _) as [keys' byHash'] eqn:Ef.
    destruct (DeleteTenant_keys m id keys' byHash' (mo_keys m Hok) Ef) as [I1 I2].
    pose proof Hl as (? & ? & ? & Ho). simpl in Hs.
    split_and!; simpl; [done|apply I1; eauto|apply I2; eauto|].
    destruct Ho as [?|?]; [by left|right; simpl]. by rewrite lookup_delete_ne.
  - destruct (CreateAPIKey_spec m rk ri now t p n sc ex) as [_ Hc].
    destruct (CreateAPIKey m rk ri now t p n sc ex) as [[r m']|]; [|done]. simpl.
    specialize (Hc r m' eq_refl). destruct r as [[k' pt]|e]; [|by subst].
    destruct Hc as (Ek & _ & _ & _ & _ & _ & _ & _ & _ & _ & _ & Hm & ->).
    destruct Hf as [Hid Hhash]. specialize (Hhash _ Hm). rewrite <-Ek in Hid.
    destruct Hl as (Hh & Hk & Hb & Ho).
    split_and!; simpl; [by apply lookup_app_l_Some| | |done]; rewrite lookup_insert_ne; congruence.
  - unfold RevokeAPIKey. destruct (mem_keys m !! id) as [ptr'|] eqn:Ep; [|done].
    unfold deref. destruct (mem_heap m !! ptr') as [k'|] eqn:Eh; [|done].
    case_bool_decide as Ek; simpl; [|done]. destruct (k_RevokedAt k'); [done|]. simpl.
    destruct Hl as (Hh & Hk & Hb & Ho). split_and!; simpl; try done.
    rewrite list_lookup_insert_ne; [done|]. intros ->. simplify_eq. apply Hs.
    destruct (ko_keys m (mo_keys m Hok) _ _ Ep) as (k2 & (? & ?) & <-). by simplify_eq.
Qed.

Lemma live_run m ops ptr k :
  mem_ok m → fresh_ops m ops → Forall (spares k) ops → live m ptr k →
  live (run_mem m ops) ptr k.
Proof.
  intros Hok Hf HF. revert m Hok Hf. induction HF as [|o ops Ho HF IH]; intros m Hok Hf Hl; [done|].
  destruct Hf as [Hf1 Hf2]. simpl. apply IH; [by apply apply_mop_ok|done|by apply live_step].
Qed.

Lemma live_resolves m ptr k now plaintext :
  live m ptr k → k_Hash k = HashAPIKey plaintext →
  ResolveKey m now plaintext =
    if Active k now
    then Ok (k, if decide (k_TenantID k = "") then None else mem_tenants m !! k_TenantID k)
    else Err ErrNotFound.
Proof.
  intros (Hh & _ & Hb & Ho) Hp. unfold ResolveKey. rewrite <-Hp, Hb. simpl.
  unfold deref. rewrite Hh. destruct (Active k now); simpl; [|done].
  case_bool_decide as Et; [by rewrite decide_True|]. rewrite decide_False by done.
  destruct Ho as [[? _]|[t Ht]]; [done|]. by rewrite Ht.
Qed.

(** ** Revoked credentials *)

(** Whatever the hash reaches is revoked. *)
Definition dead (m : Memory) (h : string) : Prop :=
  ∀ ptr k, mem_keysByHash m !! h = Some ptr → mem_heap m !! ptr = Some k → k_RevokedAt k ≠ None.

Lemma dead_step m o h :
  mem_ok m → minted_hash m o ≠ Some h → dead m h → dead (apply_mop m o) h.
Proof.
  intros Hok Hne Hd. destruct (touches_keys o) eqn:Et.
  2: { destruct (keys_frame m o Et) as (Hh & _ & Hb & _). unfold dead. by rewrite Hh, Hb. }
  destruct o as [| |id|rk ri now t p n sc ex|now t id| | | | | | | | | | | | | |]; try done; simpl.
  - unfold DeleteTenant. destruct (negb _); [done|].
    destruct (foldl _ _ _) as [keys' byHash'] eqn:Ef.
    destruct (DeleteTenant_keys m id keys' byHash' (mo_keys m Hok) Ef) as [_ I2].
    intros ptr k (Hb & _)%I2. by apply Hd.
  - destruct (CreateAPIKey_spec m rk ri now t p n sc ex) as [_ Hc].
    destruct (CreateAPIKey m rk ri now t p n sc ex) as [[r m']|]; [|done]. simpl.
    specialize (Hc r m' eq_refl). destruct r as [[k' pt]|e]; [|by subst].
    destruct Hc as (_ & _ & _ & _ & _ & _ & _ & _ & _ & _ & _ & Hm & ->).
    intros ptr k. simpl. rewrite lookup_insert_ne by congruence. intros Hb Hk.
    destruct (ko_hash m (mo_keys m Hok) _ _ Hb) as (k2 & (Hh2 & _) & _).
    rewrite lookup_app_l in Hk by (by eapply lookup_lt_Some). by apply (Hd ptr).
  - unfold RevokeAPIKey. destruct (mem_keys m !! id) as [ptr'|] eqn:Ep; [|done].
    unfold deref. destruct (mem_heap m !! ptr') as [k'|] eqn:Eh; [|done].
    case_bool_decide; simpl; [|done]. destruct (k_RevokedAt k') eqn:Er; [done|]. simpl.
    intros ptr k Hb. simpl in Hb. simpl. rewrite list_lookup_insert. case_decide; [|by apply Hd].
    intros [= <-]. done.
Qed.

(** No operation of the sequence mints the hash. *)
Fixpoint never_minted (h : string) (m : Memory) (ops : list mop) : Prop :=
  match ops with
  | [] => True
  | o :: ops' => minted_hash m o ≠ Some h ∧ never_minted h (apply_mop m o) ops'
  end.

Lemma dead_run m ops h :
  mem_ok m → fresh_ops m ops → never_minted h m ops → dead m h → dead (run_mem m ops) h.
Proof.
  revert m; induction ops as [|o ops IH]; intros m Hok; simpl; [done|].
  intros [? ?] [? ?] ?. apply IH; [by apply apply_mop_ok|done..|by apply dead_step].
Qed.

Lemma dead_refused m h now plaintext :
  dead m h → HashAPIKey plaintext = h → ResolveKey m now plaintext = Err ErrNotFound.
Proof.
  intros Hd Hh. unfold ResolveKey. rewrite Hh.
  destruct (mem_keysByHash m !! h) as [ptr|] eqn:Eb; simpl; [|done].
  unfold deref. destruct (mem_heap m !! ptr) as [k|] eqn:Ek; [|done].
  specialize (Hd ptr k Eb Ek). unfold Active. by destruct (k_RevokedAt k).
Qed.

Lemma RevokeAPIKey_dead m now t id m' k :
  mem_ok m → RevokeAPIKey m now t id = (Ok (), m') →
  mem_keys m !! id ≫= deref m = Some k → dead m' (k_Hash k).
Proof.
  intros Hok. unfold RevokeAPIKey. destruct (mem_keys m !! id) as [ptr|] eqn:Ep; [|done]. simpl.
  destruct (deref m ptr) as [k'|] eqn:Ek; [|done]. intros Hr [= ->].
  destruct (ko_keys m (mo_keys m Hok) _ _ Ep) as (k2 & (Hh2 & _ & Hb2 & _) & _).
  unfold deref in Ek. assert (k2 = k) as -> by congruence.
  case_bool_decide; [|done]. simpl in Hr.
  destruct (k_RevokedAt k) eqn:Er; injection Hr as <-; intros p k3; simpl; rewrite Hb2; intros [= <-].
  - intros E. assert (k3 = k) as -> by congruence. congruence.
  - rewrite list_lookup_insert_eq by (by eapply lookup_lt_Some). by intros [= <-].
Qed.

End facts.
#[export] Hint Resolve has_tenant_negb coll_ok_insert coll_ok_delete : gate.
