(* ===== verification/MemoryProps.v ===== *)
(** * The in-memory store: component theorems

    Isolation of tenants, the bounded logs and the usage reports, and the
    theorems about the store that the rest of the gateway relies on. *)

From S2P Require Import Prelude GoStrings GoTime GoFloat ApiErr StoreTypes Keys Memory MemoryFacts.
From Stdlib Require Import Ascii.

#[local] Open Scope Z_scope.
#[local] Open Scope stdpp_scope.

(** ** The orders of the listings *)

Lemma created_less_weak {A} (at_ : A → Z) (id : A → string) :
  weak_order (λ a b, created_less (at_ a) (id a) (at_ b) (id b)) (λ _, True).
Proof.
  apply (lex_weak (λ a b, at_ a =? at_ b) (λ a b, at_ a <? at_ b)).
  - split; intros *; rewrite !Z.ltb_lt, ?Z.ltb_ge; lia.
  - apply str_ltb_weak.
  - intros x y _ _. destruct (Z.eqb_spec (at_ x) (at_ y)), (Z.ltb_spec (at_ x) (at_ y)),
      (Z.ltb_spec (at_ y) (at_ x)); simpl; lia.
Qed.

Lemma created_less_sep a1 i1 a2 i2 :
  created_less a1 i1 a2 i2 = false → created_less a2 i2 a1 i1 = false → i1 = i2.
Proof.
  unfold created_less, Before. rewrite (Z.eqb_sym a2). destruct (a1 =? a2) eqn:E; simpl.
  - apply str_ltb_total.
  - rewrite !Z.ltb_ge. apply Z.eqb_neq in E. lia.
Qed.

Section props.
Context `{Unicode} `{Crypto}.

(** ** Listing keys *)

(** The records [ListAPIKeys] collects before it sorts them. *)
Definition listed (m : Memory) (t : string) : list APIKey :=
  List.filter (λ k, bool_decide (k_TenantID k = t)) (omap (deref m) (map_to_list (mem_keys m)).*2).

Lemma key_ids m l :
  Forall (λ e, ∃ k, mem_heap m !! e.2 = Some k ∧ k_ID k = e.1) l →
  k_ID <$> omap (deref m) l.*2 = l.*1.
Proof.
  induction 1 as [|[i p] l (k & Hh & Hi) HF IH]; simpl in *; [done|].
  unfold deref at 1. rewrite Hh. simpl. rewrite Hi. f_equal. exact IH.
Qed.

Lemma all_listed m : keys_ok m → NoDup (k_ID <$> omap (deref m) (map_to_list (mem_keys m)).*2).
Proof.
  intros [K1 _]. rewrite key_ids; [apply NoDup_fst_map_to_list|].
  apply Forall_forall. intros [i p] Hin%elem_of_map_to_list. simpl.
  destruct (K1 _ _ Hin) as (k & [? _] & ?). eauto.
Qed.

Lemma NoDup_listed m t : keys_ok m → NoDup (listed m t).
Proof.
  intros Hk. unfold listed. apply NoDup_ListNoDup, List.NoDup_filter, NoDup_ListNoDup.
  by apply (NoDup_fmap_1 k_ID), all_listed.
Qed.

Lemma elem_of_listed m t k :
  keys_ok m → k ∈ listed m t ↔ k_TenantID k = t ∧ ∃ ptr, live m ptr k.
Proof.
  intros [K1 _]. unfold listed. rewrite elem_of_filter_bool.
  rewrite list_elem_of_omap, bool_decide_eq_true. split.
  - intros [(p & (e & -> & He)%list_elem_of_fmap & Hd) Ht]. split; [done|].
    destruct e as [i p]. apply elem_of_map_to_list in He.
    destruct (K1 _ _ He) as (k' & Hl & _). simpl in Hd. unfold deref in Hd.
    pose proof Hl as [? _]. assert (k' = k) as -> by congruence. eauto.
  - intros (Ht & ptr & Hh & Hk & _). split; [|done]. exists ptr. split; [|done].
    apply list_elem_of_fmap. exists (k_ID k, ptr). split; [done|]. by apply elem_of_map_to_list.
Qed.

(** The listing depends only on which records of the tenant are live. *)
Lemma ListAPIKeys_ext m m' t :
  keys_ok m → keys_ok m' →
  (∀ k, k_TenantID k = t → (∃ ptr, live m ptr k) ↔ (∃ ptr, live m' ptr k)) →
  ListAPIKeys m t = ListAPIKeys m' t.
Proof.
  intros Hk Hk' Hl. apply (sort_slice_perm_eq key_less (created_less_weak k_CreatedAt k_ID)).
  - by apply Forall_forall.
  - intros x y Hx Hy H1 H2. pose proof (created_less_sep _ _ _ _ H1 H2) as Hid.
    apply (elem_of_listed m t x Hk) in Hx as (_ & p & Hp).
    apply (elem_of_listed m t y Hk) in Hy as (_ & q & Hq). by eapply live_unique.
  - apply NoDup_Permutation; [by apply NoDup_listed..|]. intros k.
    fold (listed m t) (listed m' t). rewrite !elem_of_listed by done. split.
    all: intros [Ht Hp]; (split; [done|]); by apply (Hl k Ht).
Qed.

(** ** Isolation *)

(** The tenant an operation is about. *)
Definition op_tenant (o : mop) : option string :=
  match o with
  | OpCreateTenant rnd _ _ => Some (NewID IDTenant rnd)
  | OpUpdateTenant t _ | OpDeleteTenant t | OpCreateAPIKey _ _ _ t _ _ _ _
  | OpRevokeAPIKey _ t _ | OpUpdateProvider t _ _ | OpDeleteProvider t _ | OpDeleteAlias t _
  | OpDeleteRoute t _ | OpDeleteQuota t _ | OpDeleteWebhook t _ => Some t
  | OpCreateProvider _ _ p => Some (p_TenantID p)
  | OpUpsertAlias _ _ a => Some (al_TenantID a)
  | OpUpsertRoute _ _ r => Some (r_TenantID r)
  | OpSetQuota _ q => Some (q_TenantID q)
  | OpCreateWebhook _ _ w => Some (w_TenantID w)
  | OpRecordEvent e => Some (e_TenantID e)
  | OpRecordUsage r => Some (u_TenantID r)
  | OpRecordAudit _ _ _ => None
  end.

Lemma fields_frame m o t : op_tenant o ≠ Some t →
  let m' := apply_mop m o in
  mem_tenants m' !! t = mem_tenants m !! t ∧
  mem_providers m' !! t = mem_providers m !! t ∧ mem_aliases m' !! t = mem_aliases m !! t ∧
  mem_routes m' !! t = mem_routes m !! t ∧ mem_webhooks m' !! t = mem_webhooks m !! t ∧
  mem_events m' !! t = mem_events m !! t ∧ mem_usage m' !! t = mem_usage m !! t.
Proof.
  destruct o as [| | |rk ri now t' p n sc ex| | | | | | | | | | | | | | |]; simpl; intros Hne.
  4: { destruct (CreateAPIKey_spec m rk ri now t' p n sc ex) as [_ Hc].
    destruct (CreateAPIKey m rk ri now t' p n sc ex) as [[r m']|]; [|done].
    specialize (Hc r m' eq_refl). destruct r as [[k pt]|e]; [|by subst].
    by destruct Hc as (_ & _ & _ & _ & _ & _ & _ & _ & _ & _ & _ & _ & ->). }
  all: unfold CreateTenant, UpdateTenant, DeleteTenant, RevokeAPIKey, CreateProvider,
      UpdateProvider, DeleteProvider, UpsertAlias, DeleteAlias, UpsertRoute, DeleteRoute, SetQuota,
      DeleteQuota, CreateWebhook, DeleteWebhook;
    repeat (case_match; simpl; try done); split_and!; try done;
    rewrite ?lookup_insert_ne, ?lookup_delete_ne by congruence; done.
Qed.

(** A key of another tenant is live afterwards only if it was before. *)
Lemma live_back m o ptr k :
  mem_ok m → op_tenant o ≠ Some (k_TenantID k) → live (apply_mop m o) ptr k → live m ptr k.
Proof.
  intros Hok Hne Hl. destruct (fields_frame m o _ Hne) as (Ht & _).
  destruct (touches_keys o) eqn:Et.
  2: { destruct (keys_frame m o Et) as (Hh & Hk & Hb & _). unfold live, owner_ok in *.
       by rewrite <-Hh, <-Hk, <-Hb, <-Ht. }
  destruct Hl as (Hh & Hk & Hb & Ho). unfold owner_ok in Ho. rewrite Ht in Ho. clear Ht.
  destruct o as [| |id|rk ri now t p n sc ex|now t id| | | | | | | | | | | | | |]; try done; simpl in *.
  - unfold DeleteTenant in *. destruct (negb _); [done|].
    destruct (foldl _ _ _) as [keys' byHash'] eqn:Ef. simpl in *.
    destruct (DeleteTenant_keys m id keys' byHash' (mo_keys m Hok) Ef) as [I1 I2].
    apply I1 in Hk as [Hk _]. apply I2 in Hb as [Hb _]. done.
  - destruct (CreateAPIKey_spec m rk ri now t p n sc ex) as [_ Hc].
    destruct (CreateAPIKey m rk ri now t p n sc ex) as [[r m']|]; [|done]. simpl in *.
    specialize (Hc r m' eq_refl). destruct r as [[k' pt]|e]; [|by subst].
    destruct Hc as (_ & Ekt & _ & _ & _ & _ & _ & _ & _ & _ & _ & _ & ->). simpl in *.
    apply lookup_app_Some in Hh as [Hh|[Hge Hh]].
    + pose proof (lookup_lt_Some _ _ _ Hh). split_and!; [done| | |done].
      * apply lookup_insert_Some in Hk as [[? ?]|[? ?]]; [lia|done].
      * apply lookup_insert_Some in Hb as [[? ?]|[? ?]]; [lia|done].
    + apply list_lookup_singleton_Some in Hh as [_ ->]. congruence.
  - unfold RevokeAPIKey in *. destruct (mem_keys m !! id) as [ptr'|] eqn:Ep; [|done].
    destruct (deref m ptr') as [k'|] eqn:Ek; [|done]. unfold deref in Ek.
    case_bool_decide; simpl in *; [|done]. destruct (k_RevokedAt k'); [done|]. simpl in *.
    rewrite list_lookup_insert in Hh. case_decide; [|done].
    injection Hh as <-. simpl in Hne. congruence.
Qed.

Lemma live_iff m o k :
  mem_ok m → fresh_op m o → op_tenant o ≠ Some (k_TenantID k) →
  (∃ ptr, live m ptr k) ↔ (∃ ptr, live (apply_mop m o) ptr k).
Proof.
  intros Hok Hf Hne. split; intros [ptr Hp]; exists ptr; [|by eapply live_back].
  apply live_step; [done..| |done]. destruct o; simpl in *; try done; [congruence|].
  intros [-> _]. done.
Qed.

(** Quotas of different tenants have different addresses. *)
Lemma quotaKey_inj t k t' k' :
  str_has zero t = false → str_has zero t' = false →
  quotaKey t k = quotaKey t' k' → t = t' ∧ k = k'.
Proof. unfold quotaKey. intros. by eapply cut_inj. Qed.

Lemma quotas_frame m o t k :
  str_has zero t = false → op_tenant o ≠ Some t →
  (∀ t', op_tenant o = Some t' → str_has zero t' = false) →
  mem_quotas (apply_mop m o) !! quotaKey t k = mem_quotas m !! quotaKey t k.
Proof.
  intros Ht Hne Hz. destruct o as [| |id|rk ri now t' p n sc ex| | | | | | | | |now q|t' k'| | | | |];
    simpl in *.
  all: try (unfold CreateTenant, UpdateTenant, RevokeAPIKey, CreateProvider,
      UpdateProvider, DeleteProvider, UpsertAlias, DeleteAlias, UpsertRoute, DeleteRoute,
      CreateWebhook, DeleteWebhook; by repeat case_match).
  - unfold DeleteTenant. destruct (negb _); [done|].
    destruct (foldl _ _ _). simpl. rewrite lookup_delete_ne; [done|]. intros E.
    specialize (Hz _ eq_refl). rewrite E in Hz. unfold quotaKey in Hz.
    rewrite str_has_app in Hz. simpl in Hz. by rewrite orb_true_r in Hz.
  - destruct (CreateAPIKey_spec m rk ri now t' p n sc ex) as [_ Hc].
    destruct (CreateAPIKey m rk ri now t' p n sc ex) as [[r m']|]; [|done].
    specialize (Hc r m' eq_refl). destruct r as [[? pt]|e]; [|by subst].
    by destruct Hc as (_ & _ & _ & _ & _ & _ & _ & _ & _ & _ & _ & _ & ->).
  - unfold SetQuota. destruct (negb _); [done|]. simpl. rewrite lookup_insert_ne; [done|].
    intros [? _]%quotaKey_inj; [congruence|by apply Hz|done].
  - unfold DeleteQuota. destruct (is_None_b _); [done|]. simpl. rewrite lookup_delete_ne; [done|].
    intros [? _]%quotaKey_inj; [congruence|by apply Hz|done].
Qed.

(** ** Logs *)

Lemma take_take_app {A} n (l1 l2 : list A) : take n (l1 ++ take n l2) = take n (l1 ++ l2).
Proof.
  rewrite !take_app, take_take. f_equal. f_equal. lia.
Qed.

Lemma ListEvents_record m es t :
  (length (at_key (mem_events m) t) ≤ MaxTenantEvents)%nat →
  ListEvents (foldl RecordEvent m es) t =
    take MaxTenantEvents
      (reverse (List.filter (λ e, bool_decide (e_TenantID e = t)) es) ++ ListEvents m t).
Proof.
  intros Hl. induction es as [|e es IH] using rev_ind; simpl.
  - rewrite take_ge; [done|]. unfold ListEvents. by rewrite length_reverse.
  - rewrite foldl_snoc, List.filter_app. simpl. unfold ListEvents at 1, RecordEvent at 1. simpl.
    rewrite at_key_insert. case_decide as E.
    + rewrite reverse_push_bounded, bool_decide_eq_true_2 by done. rewrite E.
      fold (ListEvents (foldl RecordEvent m es) t). rewrite IH, reverse_snoc.
      apply (take_take_app MaxTenantEvents [e]).
    + rewrite bool_decide_eq_false_2, app_nil_r by done. exact IH.
Qed.

(** ** Usage reports *)

Definition windowed (m : Memory) (t : string) (since until : Z) : list UsageRecord :=
  List.filter (λ r, inWindow (u_RecordedAt r) since until) (at_key (mem_usage m) t).

Lemma foldl_filter {A B} (f : A → B → A) (p : B → bool) a l :
  foldl (λ a x, if negb (p x) then a else f a x) a l = foldl f a (List.filter p l).
Proof. revert a; induction l as [|x l IH]; intros a; simpl; [done|]. by destruct (p x); simpl. Qed.

Lemma Usage_windowed m t since until :
  Usage m t since until = foldl addUsage no_usage (windowed m t since until).
Proof. apply foldl_filter. Qed.

Lemma filter_andb {A} (p q : A → bool) l :
  List.filter p (List.filter q l) = List.filter (λ x, p x && q x) l.
Proof.
  induction l as [|x l IH]; simpl; [done|].
  destruct (q x); simpl; destruct (p x); simpl; by rewrite ?IH.
Qed.

Lemma KeyUsage_windowed m t k since until :
  KeyUsage m t k since until =
    foldl addUsage no_usage
      (List.filter (λ r, bool_decide (u_KeyPrefix r = k)) (windowed m t since until)).
Proof.
  unfold KeyUsage, windowed. rewrite filter_andb, <-foldl_filter.
  generalize no_usage. induction (at_key (mem_usage m) t) as [|r l IH]; intros out; simpl; [done|].
  by rewrite negb_andb.
Qed.

(** The grouping of [UsageBreakdown] over the records of the window. *)
Definition grouped (key : UsageRecord → string) (b : gmap string UsageTotals)
    (rs : list UsageRecord) : gmap string UsageTotals :=
  foldl (λ b r, <[key r := addUsage (default no_usage (b !! key r)) r]> b) b rs.

(** The groupings that put every record in a bucket. *)
Definition total_grouping (groupBy : string) : option (UsageRecord → string) :=
  if bool_decide (groupBy = "model") then Some u_Model
  else if bool_decide (groupBy = "provider") then Some u_Provider
  else if bool_decide (groupBy = "key") then Some u_KeyPrefix else None.

Lemma fill_buckets_grouped since until groupBy key rs b :
  total_grouping groupBy = Some key →
  fill_buckets since until groupBy rs b =
    Ok (grouped key b (List.filter (λ r, inWindow (u_RecordedAt r) since until) rs)).
Proof.
  intros Hg. assert (∀ r, group_key groupBy r = Ok (Some (key r))) as Hk.
  { intros r. unfold group_key, total_grouping in *.
    repeat (case_bool_decide; [by simplify_eq|]). done. }
  revert b; induction rs as [|r rs IH]; intros b; simpl; [done|].
  destruct (inWindow _ _ _); simpl; [|done]. by rewrite Hk, IH.
Qed.

Lemma grouped_cons key b r rs :
  grouped key b (r :: rs) =
    grouped key (<[key r := addUsage (default no_usage (b !! key r)) r]> b) rs.
Proof. done. Qed.

Lemma grouped_lookup key b rs k :
  grouped key b rs !! k =
    match List.filter (λ r, bool_decide (key r = k)) rs with
    | [] => b !! k
    | l => Some (foldl addUsage (default no_usage (b !! k)) l)
    end.
Proof.
  revert b; induction rs as [|r rs IH]; intros b; [done|].
  rewrite grouped_cons, IH. simpl.
  case_bool_decide as E; simpl.
  - subst k. rewrite lookup_insert_eq. by destruct (List.filter _ _).
  - by rewrite lookup_insert_ne.
Qed.

(** An integer column of the totals adds up, modulo 2^64. *)
Definition column (f : UsageTotals → Z) (d : UsageRecord → Z) : Prop :=
  f no_usage = 0 ∧ ∀ t r, wrap64 (f (addUsage t r)) = wrap64 (f t + d r).

Definition sum_Z (l : list Z) : Z := foldr Z.add 0 l.

Definition bsum (f : UsageTotals → Z) (b : gmap string UsageTotals) : Z :=
  sum_Z (f <$> (map_to_list b).*2).

Lemma sum_Z_cons x l : sum_Z (x :: l) = x + sum_Z l.
Proof. done. Qed.

Lemma sum_Z_perm l l' : l ≡ₚ l' → sum_Z l = sum_Z l'.
Proof. induction 1; rewrite ?sum_Z_cons; lia. Qed.

Lemma bsum_insert f b k v : b !! k = None → bsum f (<[k := v]> b) = f v + bsum f b.
Proof.
  intros Hk. unfold bsum.
  rewrite (sum_Z_perm _ (f <$> ((k, v) :: map_to_list b).*2)); [done|].
  by rewrite map_to_list_insert.
Qed.

Lemma bsum_update f b k v :
  f no_usage = 0 → bsum f (<[k := v]> b) = f v + (bsum f b - f (default no_usage (b !! k))).
Proof.
  intros H0'. destruct (b !! k) as [w|] eqn:E; simpl.
  - rewrite <-(insert_delete_id b k w) at 2 by done.
    rewrite <-(insert_delete_eq b k v), !bsum_insert by apply lookup_delete_eq. lia.
  - rewrite bsum_insert by done. lia.
Qed.

Lemma foldl_column f d t rs : column f d →
  wrap64 (f (foldl addUsage t rs)) = wrap64 (f t + sum_Z (d <$> rs)).
Proof.
  intros [_ Hs]. revert t; induction rs as [|r rs IH]; intros t; [by rewrite Z.add_0_r|].
  cbn [foldl]. rewrite IH, <-wrap64_add_l, Hs, wrap64_add_l, fmap_cons, sum_Z_cons. f_equal. lia.
Qed.

Lemma grouped_column f d key b rs : column f d →
  wrap64 (bsum f (grouped key b rs)) = wrap64 (bsum f b + sum_Z (d <$> rs)).
Proof.
  intros [H0' Hs]. revert b; induction rs as [|r rs IH]; intros b; [by rewrite Z.add_0_r|].
  rewrite grouped_cons, IH, bsum_update by done.
  set (x := default no_usage (b !! key r)).
  rewrite <-Z.add_assoc, <-wrap64_add_l, Hs, wrap64_add_l, fmap_cons, sum_Z_cons. f_equal. lia.
Qed.

Lemma requests_column : column ut_Requests (λ _, 1).
Proof. split; [done|]. intros; simpl. apply wrap64_idemp. Qed.
Lemma cached_column : column ut_CachedRequests (λ r, if u_Cached r then 1 else 0).
Proof.
  split; [done|]. intros t r; simpl. destruct (u_Cached r); [apply wrap64_idemp|].
  by rewrite Z.add_0_r.
Qed.
Lemma prompt_column : column ut_PromptTokens u_PromptTokens.
Proof. split; [done|]. intros; simpl. apply wrap64_idemp. Qed.
Lemma completion_column : column ut_CompletionTokens u_CompletionToken.
Proof. split; [done|]. intros; simpl. apply wrap64_idemp. Qed.
Lemma tokens_column : column ut_TotalTokens u_TotalTokens.
Proof. split; [done|]. intros; simpl. apply wrap64_idemp. Qed.

Lemma Breakdown_perm m t since until groupBy key :
  total_grouping groupBy = Some key →
  ∃ bs, UsageBreakdown m t since until groupBy = Ok bs ∧
    bs ≡ₚ (λ kv, {| ub_Key := kv.1; ub_Totals := kv.2 |}) <$>
            map_to_list (grouped key ∅ (windowed m t since until)).
Proof.
  intros Hg. unfold UsageBreakdown. rewrite (fill_buckets_grouped _ _ _ _ _ _ Hg).
  eexists. split; [done|]. apply sort_slice_perm.
Qed.

Lemma Breakdown_column m t since until groupBy key bs f d :
  total_grouping groupBy = Some key → UsageBreakdown m t since until groupBy = Ok bs → column f d →
  wrap64 (sum_Z (f ∘ ub_Totals <$> bs)) = wrap64 (f (Usage m t since until)).
Proof.
  intros Hg Hb Hc. destruct (Breakdown_perm m t since until groupBy key Hg) as (bs' & Hb' & Hp).
  assert (bs' = bs) as -> by congruence.
  rewrite Usage_windowed, (foldl_column f d _ _ Hc).
  rewrite (proj1 Hc).
  rewrite (sum_Z_perm _ (f <$> (map_to_list (grouped key ∅ (windowed m t since until))).*2)).
  - fold (bsum f (grouped key ∅ (windowed m t since until))).
    rewrite (grouped_column f d _ _ _ Hc). unfold bsum. by rewrite map_to_list_empty.
  - rewrite Hp. by rewrite <-!list_fmap_compose.
Qed.

End props.

Lemma DeleteTenant_fields m id m' : DeleteTenant m id = (Ok (), m') →
  mem_tenants m' !! id = None ∧ at_key (mem_providers m') id = [] ∧
  at_key (mem_aliases m') id = [] ∧ at_key (mem_routes m') id = [] ∧
  at_key (mem_webhooks m') id = [] ∧ at_key (mem_usage m') id = [].
Proof.
  unfold DeleteTenant. destruct (negb _); [done|]. destruct (foldl _ _ _). intros [= <-]. simpl.
  by rewrite !at_key_delete, !decide_True, lookup_delete_eq by done.
Qed.

(** ** Component theorems *)

Module Store.
Section store.
Context `{Unicode} `{Crypto}.

(** C24: Every reachable store satisfies the invariant [mem_ok]: the id map and the
    hash map point at the same live key records and every key belongs to an
    existing tenant or is a root admin key; tenant names, provider names within a
    tenant, alias names and route matches are unique; every collection belongs
    to an existing tenant; display prefixes are the masks of the stored keys; and the
    logs stay within their bounds. *)
Theorem reachable_store_ok dev ops :
  fresh_ops (NewMemory dev) ops → mem_ok (run_mem (NewMemory dev) ops).
Proof. apply run_mem_ok, NewMemory_ok. Qed.

(** A minted credential authenticates. Whatever operations follow, as long as
    none revokes the key or deletes its tenant, the plaintext resolves to the
    same key record and to its tenant as it then is; once the expiry has passed
    it does not resolve. *)
Theorem minted_key_resolves m rk ri now t p n sc ex k plaintext m' ops now' :
  mem_ok m → fresh_op m (OpCreateAPIKey rk ri now t p n sc ex) →
  CreateAPIKey m rk ri now t p n sc ex = Some (Ok (k, plaintext), m') →
  fresh_ops m' ops → Forall (spares k) ops →
  let m2 := run_mem m' ops in
  ResolveKey m2 now' plaintext =
    if match ex with Some e => now' <=? e | None => true end
    then Ok (k, if decide (t = "") then None else mem_tenants m2 !! t)
    else Err ErrNotFound.
Proof.
  intros Hok Hf Hc Hfs HF m2.
  pose proof (apply_mop_ok m _ Hok Hf) as Hok'. simpl in Hok'. rewrite Hc in Hok'. simpl in Hok'.
  destruct (CreateAPIKey_spec m rk ri now t p n sc ex) as [_ Hs]. specialize (Hs _ _ Hc).
  destruct Hs as (Ek & Et & _ & _ & Ex & Er & Eh & _ & _ & _ & _ & _ & Em).
  assert (mem_keys m' !! k_ID k = Some (length (mem_heap m))) as Hp
    by (subst m'; apply lookup_insert_eq).
  destruct (ko_keys m' (mo_keys m' Hok') _ _ Hp) as (k' & Hl & _).
  assert (k' = k) as ->.
  { destruct Hl as [Hl _]. subst m'. simpl in Hl. rewrite list_lookup_middle in Hl; congruence. }
  rewrite (live_resolves m2 (length (mem_heap m)) k) by (by try apply live_run).
  unfold Active. rewrite Er, Ex, Et. destruct ex as [e|]; [|done].
  unfold After. by rewrite Z.leb_antisym.
Qed.

(** Revocation is final: once [RevokeAPIKey] has returned without an error, no
    later sequence of operations makes the credential authenticate again,
    unless the generator draws the very same credential anew. *)
Theorem revoked_key_never_resolves m now t id m' k ops plaintext now' :
  mem_ok m → RevokeAPIKey m now t id = (Ok (), m') →
  mem_keys m !! id ≫= deref m = Some k → HashAPIKey plaintext = k_Hash k →
  fresh_ops m' ops → never_minted (k_Hash k) m' ops →
  ResolveKey (run_mem m' ops) now' plaintext = Err ErrNotFound.
Proof.
  intros Hok Hr Hk Hp Hf Hn. eapply dead_refused; [|exact Hp]. apply dead_run; [|done..|].
  - pose proof (RevokeAPIKey_ok m now t id Hok) as Hok'. by rewrite Hr in Hok'.
  - by eapply RevokeAPIKey_dead.
Qed.

(** Deleting a tenant leaves no working credential behind and empties its
    keys, providers, aliases, routes, webhooks and usage. *)
Theorem deleted_tenant_is_gone m id m' :
  mem_ok m → DeleteTenant m id = (Ok (), m') →
  GetTenant m' id = Err ErrNotFound ∧ ListAPIKeys m' id = [] ∧ ListProviders m' id = [] ∧
  ListAliases m' id = [] ∧ ListRoutes m' id = [] ∧ ListWebhooks m' id = [] ∧
  (∀ s u, Usage m' id s u = no_usage) ∧
  ∀ now plaintext k tn, ResolveKey m' now plaintext = Ok (k, tn) → k_TenantID k ≠ id.
Proof.
  intros Hok Hd. pose proof (DeleteTenant_ok m id Hok) as Hok'. rewrite Hd in Hok'. simpl in Hok'.
  assert (∀ ptr k, live m' ptr k → k_TenantID k ≠ id) as Hno.
  { revert Hd. unfold DeleteTenant. destruct (negb _); [done|].
    destruct (foldl _ _ _) as [keys' byHash'] eqn:Ef. intros [= <-] ptr k (Hh & Hk & _). simpl in *.
    destruct (DeleteTenant_keys m id keys' byHash' (mo_keys m Hok) Ef) as [I1 _].
    apply I1 in Hk as (_ & k' & [? _] & ?). congruence. }
  assert (listed m' id = []) as Hl.
  { destruct (listed m' id) as [|k l] eqn:E; [done|]. exfalso.
    assert (k ∈ listed m' id) as Hk by (rewrite E; set_solver).
    apply elem_of_listed in Hk as (Ht & ptr & Hp); [|apply Hok']. by apply (Hno ptr k). }
  destruct (DeleteTenant_fields m id m' Hd) as (E1 & E2 & E3 & E4 & E5 & E6).
  unfold ListAPIKeys, GetTenant, ListProviders, ListAliases, ListRoutes, ListWebhooks, Usage.
  fold (listed m' id). rewrite Hl, E1, E2, E3, E4, E5, E6.
  split_and!; try done.
  - intros now plaintext k tn. unfold ResolveKey.
    destruct (mem_keysByHash m' !! _) as [ptr|] eqn:Eb; simpl; [|done].
    destruct (ko_hash m' (mo_keys m' Hok') _ _ Eb) as (k' & Hk' & _).
    unfold deref. pose proof (proj1 Hk') as ->. intros Hr.
    assert (k' = k) as ->; [|by eapply Hno]. repeat case_match; simplify_eq; done.
Qed.

(** [DeleteTenant] deletes the quota stored under the bare tenant id, where no
    quota is ever stored: every quota of the tenant outlives it. So does its
    event history. *)
Theorem deleted_tenant_keeps_quotas_and_events m id keyID :
  let m' := (DeleteTenant m id).2 in
  GetQuota m' id keyID = GetQuota m id keyID ∧ ListEvents m' id = ListEvents m id.
Proof.
  simpl. unfold DeleteTenant. destruct (negb _); [done|]. destruct (foldl _ _ _). simpl.
  split; [|done]. unfold GetQuota. simpl. rewrite lookup_delete_ne; [done|].
  unfold quotaKey. intros E. apply (f_equal String.length) in E.
  rewrite str_length_app in E. simpl in E. lia.
Qed.


(** The event history is the tenant's last thousand events, newest first,
    whatever is recorded for other tenants in between. *)
Theorem event_history_is_last_thousand m es t :
  mem_ok m →
  ListEvents (foldl RecordEvent m es) t =
    take MaxTenantEvents
      (reverse (List.filter (λ e, bool_decide (e_TenantID e = t)) es) ++ ListEvents m t).
Proof.
  intros Hok. apply ListEvents_record. unfold at_key.
  destruct (mem_events m !! t) as [l|] eqn:E; simpl; [by apply (mo_events m Hok t l)|lia].
Qed.

(** A breakdown by model, provider or key partitions the window: it succeeds,
    every bucket appears once and holds exactly the records of its key, summed
    in the order they were recorded (a "key" bucket is what [KeyUsage] reports for
    that key), and the buckets' integer columns add up to the tenant's totals. *)
Theorem breakdown_partitions_usage m t since until groupBy key :
  total_grouping groupBy = Some key →
  ∃ bs, UsageBreakdown m t since until groupBy = Ok bs ∧ NoDup (ub_Key <$> bs) ∧
    (∀ b, b ∈ bs → ub_Totals b = foldl addUsage no_usage
       (List.filter (λ r, bool_decide (key r = ub_Key b)) (windowed m t since until))) ∧
    (∀ r, r ∈ windowed m t since until → key r ∈ ub_Key <$> bs) ∧
    (groupBy = "key" → ∀ b, b ∈ bs → ub_Totals b = KeyUsage m t (ub_Key b) since until) ∧
    let total f := wrap64 (sum_Z (f ∘ ub_Totals <$> bs)) = wrap64 (f (Usage m t since until)) in
    total ut_Requests ∧ total ut_CachedRequests ∧ total ut_PromptTokens ∧
    total ut_CompletionTokens ∧ total ut_TotalTokens.
Proof.
  intros Hg. destruct (Breakdown_perm m t since until groupBy key Hg) as (bs & Hb & Hp).
  set (g := grouped key ∅ (windowed m t since until)) in *.
  assert (ub_Key <$> bs ≡ₚ (map_to_list g).*1) as Hkeys.
  { rewrite Hp. by rewrite <-list_fmap_compose. }
  assert (∀ b, b ∈ bs → ub_Totals b = foldl addUsage no_usage
    (List.filter (λ r, bool_decide (key r = ub_Key b)) (windowed m t since until))) as Hbs.
  { intros b. rewrite Hp. intros ([k v] & -> & Hin%elem_of_map_to_list)%list_elem_of_fmap.
    simpl. unfold g in Hin. rewrite grouped_lookup, lookup_empty in Hin.
    destruct (List.filter _ _); [done|]. by injection Hin as <-. }
  pose proof (Breakdown_column m t since until groupBy key bs) as Hcol.
  exists bs. cbv zeta. split_and!; eauto 3 using requests_column, cached_column,
    prompt_column, completion_column, tokens_column.
  - rewrite Hkeys. apply NoDup_fst_map_to_list.
  - intros r Hr. rewrite Hkeys. apply list_elem_of_fmap.
    assert (is_Some (g !! key r)) as [v Hv].
    { unfold g. rewrite grouped_lookup. destruct (List.filter _ _) eqn:E; [|done].
      exfalso. apply list_elem_of_In in Hr.
      assert (In r []) as []. rewrite <-E. apply List.filter_In.
      by rewrite bool_decide_eq_true_2. }
    exists (key r, v). split; [done|]. by apply elem_of_map_to_list.
  - intros -> b Hbin. rewrite (Hbs b Hbin), KeyUsage_windowed. f_equal.
    by injection Hg as <-.
Qed.

End store.

(** ** Worked examples

    A tenant with one key, evaluated with ASCII case folding and the identity
    in place of SHA-256. *)

#[local] Existing Instance ascii_only.
Definition toy_hash : Crypto := {| Sum256 := λ s, s |}.
#[local] Existing Instance toy_hash.

Definition acme : string := Eval vm_compute in NewID IDTenant "a".
Definition globex : string := Eval vm_compute in NewID IDTenant "b".
Definition demo_create : mop := OpCreateAPIKey "abc" "k1" 5 acme PlaneData "ci" "" (Some 100).
Definition demo_tenants : list mop := [OpCreateTenant "a" 1 "Acme"; OpCreateTenant "b" 2 "Globex"].
Definition demo_ops : list mop := demo_tenants ++ [demo_create].
Definition demo0 : Memory := run_mem (NewMemory false) demo_tenants.
Definition demo : Memory := run_mem (NewMemory false) demo_ops.
Definition demo_key : APIKey :=
  {| k_ID := NewID IDKey "k1"; k_TenantID := acme; k_Plane := PlaneData; k_Name := "ci";
     k_Prefix := "cg-YWJj"; k_Hash := HashAPIKey "cg-YWJj"; k_Scope := "";
     k_CreatedAt := 5; k_ExpiresAt := Some 100; k_RevokedAt := None |}.

Lemma demo_fresh : fresh_ops (NewMemory false) demo_ops.
Proof. by split_and!. Qed.

Lemma demo_ok : mem_ok demo.
Proof. apply run_mem_ok; [apply NewMemory_ok|apply demo_fresh]. Qed.

Lemma demo0_ok : mem_ok demo0.
Proof. apply run_mem_ok; [apply NewMemory_ok|done]. Qed.

Lemma reachable_store_ok_witness : mem_ok (run_mem (NewMemory false) demo_ops).
Proof. apply (reachable_store_ok false demo_ops). apply demo_fresh. Defined.

Lemma minted_key_resolves_witness :
  ResolveKey (run_mem demo [OpRevokeAPIKey 7 acme "other"; OpDeleteTenant globex]) 100 "cg-YWJj" =
    Ok (demo_key, mem_tenants demo !! acme) ∧
  ResolveKey demo 101 "cg-YWJj" = Err ErrNotFound.
Proof.
  assert (CreateAPIKey demo0 "abc" "k1" 5 acme PlaneData "ci" "" (Some 100) =
    Some (Ok (demo_key, "cg-YWJj"), demo)) as Hc by (vm_compute; reflexivity).
  assert (fresh_op demo0 demo_create) as Hf by apply demo_fresh.
  split.
  - apply (minted_key_resolves demo0 "abc" "k1" 5 acme PlaneData "ci" "" (Some 100) demo_key
      "cg-YWJj" demo [OpRevokeAPIKey 7 acme "other"; OpDeleteTenant globex] 100 demo0_ok Hf Hc).
    + exact (conj I (conj I I)).
    + repeat constructor; [|by vm_compute]. intros [_ E]. by vm_compute in E.
  - apply (minted_key_resolves demo0 "abc" "k1" 5 acme PlaneData "ci" "" (Some 100) demo_key
      "cg-YWJj" demo [] 101 demo0_ok Hf Hc); [exact I|constructor].
Defined.

Lemma revoked_key_never_resolves_witness :
  ResolveKey (run_mem (RevokeAPIKey demo 9 acme (k_ID demo_key)).2 [OpDeleteTenant globex]) 10
    "cg-YWJj" = Err ErrNotFound.
Proof.
  apply (revoked_key_never_resolves demo 9 acme (k_ID demo_key)
    (RevokeAPIKey demo 9 acme (k_ID demo_key)).2 demo_key [OpDeleteTenant globex] "cg-YWJj" 10).
  - apply demo_ok.
  - by vm_compute.
  - by vm_compute.
  - by vm_compute.
  - exact (conj I I).
  - exact (conj (λ E : None = Some _, match E with end) I).
Defined.

Lemma deleted_tenant_is_gone_witness :
  ListAPIKeys demo acme = [demo_key] ∧
  ListAPIKeys (DeleteTenant demo acme).2 acme = [] ∧
  GetTenant (DeleteTenant demo acme).2 acme = Err ErrNotFound.
Proof.
  split; [by vm_compute|].
  destruct (deleted_tenant_is_gone demo acme (DeleteTenant demo acme).2) as (Hg & Hk & _);
    [apply demo_ok|by vm_compute|by split].
Defined.


Definition demo_event (id t : string) : Event :=
  {| e_ID := id; e_Type := "quota.warning"; e_Created := 3; e_TenantID := t; e_Data := ∅ |}.

Lemma event_history_is_last_thousand_witness :
  ListEvents (foldl RecordEvent demo [demo_event "1" acme; demo_event "2" globex; demo_event "3" acme])
    acme = [demo_event "3" acme; demo_event "1" acme].
Proof. rewrite (event_history_is_last_thousand demo _ acme demo_ok). by vm_compute. Defined.

Definition demo_usage (model : string) (at_ tokens : Z) : UsageRecord :=
  {| u_RequestID := "r"; u_ClientRequestID := ""; u_TenantID := acme; u_KeyPrefix := "cg-YWJj";
     u_Provider := "p"; u_Model := model; u_RequestedModel := model; u_FallbackDepth := 0;
     u_PromptTokens := tokens; u_CompletionToken := 1; u_TotalTokens := tokens + 1;
     u_CostUSD := fzero; u_ChargeUSD := fzero; u_BillingMode := ""; u_Cached := false;
     u_Streamed := false; u_StatusCode := 200; u_DurationMS := 5; u_RecordedAt := at_ |}.

Lemma breakdown_partitions_usage_witness :
  let m := foldl RecordUsage demo [demo_usage "m1" 6 10; demo_usage "m2" 7 20; demo_usage "m1" 8 30;
                                   demo_usage "m1" 99 40] in
  ut_Requests (Usage m acme 0 10) = 3 ∧
  ∃ bs, UsageBreakdown m acme 0 10 "model" = Ok bs ∧ length bs = 2%nat ∧
    wrap64 (sum_Z (ut_TotalTokens ∘ ub_Totals <$> bs)) = 63.
Proof.
  set (m := foldl RecordUsage demo _). intros m'. split; [by vm_compute|].
  destruct (breakdown_partitions_usage m acme 0 10 "model" u_Model)
    as (bs & H1 & _ & _ & _ & _ & _ & _ & _ & _ & H2); [done|].
  exists bs. split; [done|]. rewrite H2. split; [|by vm_compute].
  vm_compute in H1. by injection H1 as <-.
Defined.

End Store.
