(* ===== verification/Catalog.v ===== *)
(** * The model catalog (internal/catalog/catalog.go)

    A snapshot per tenant, refreshed from the tenant's providers. The tenant's
    state lock is held across a whole [Get], [Refresh] or [Invalidate], so each
    is a function from the tenant's state; [cat_changes] records the calls of
    the [OnChange] callback and [cat_polls] the listing calls made to providers.
    What a provider's listing endpoint answers is the
    argument [answer]: it is given the provider's position in the polling order,
    the adapter and the credential. *)

From S2P Require Import Prelude GoStrings GoTime GoFloat ApiErr StoreTypes Provider.
From Stdlib Require Import Ascii.

#[local] Open Scope Z_scope.
#[local] Open Scope stdpp_scope.
#[local] Open Scope gate_scope.

(** ** Data *)

Record Entry := mkCatEntry { en_Model : Model; en_ProviderID : string }.

Definition en_ID (e : Entry) : string := m_ID (en_Model e).
Definition en_Provider (e : Entry) : string := m_Provider (en_Model e).

Record Snapshot := mkSnapshot {
  sn_Models : list Entry;
  sn_byID : gmap string Entry;
  sn_FetchedAt : Z;
  sn_Stale : bool;
  sn_Errors : gmap string message
}.

(** [Snapshot.Lookup]; a nil snapshot finds nothing. *)
Definition Lookup (s : option Snapshot) (id : string) : option Entry :=
  match s with None => None | Some s => sn_byID s !! id end.

Definition Age (s : option Snapshot) (now : Z) : Z :=
  match s with
  | None => 0
  | Some s => if IsZero (sn_FetchedAt s) then 0 else Sub now (sn_FetchedAt s)
  end.

Record Price := { pr_Input : f64; pr_Output : f64 }.

Abbreviation price_table := (gmap string (gmap string Price)).

Record Options := {
  op_TTL : Z;
  op_StaleWarnAfter : Z;
  op_ProviderTimeout : Z;
  op_Prices : price_table;
  op_OnChange : bool
}.

(** A refresh that added or removed models: tenant, added, removed. *)
Abbreviation catalog_change := (string * list string * list string)%type.

(** A call of [ListModels]: the tenant it is made for, the kind of its adapter,
    and where and with which key it goes. *)
Record listing_call := mkListing { lc_Tenant : string; lc_Kind : string; lc_Cred : Credential }.

Record Catalog := mkCatalog {
  cat_opts : Options;
  cat_perTenant : gmap string (option Snapshot);
  cat_changes : list catalog_change;
  cat_polls : list listing_call
}.

Section catalog.
Context `{Unicode}.

(** ** Prices *)

Definition foldKey (s : string) : string := ToLower (TrimSpace s).

Definition normalizePrices (inp : price_table) : price_table :=
  foldl (λ out kv,
      <[foldKey kv.1 := foldl (λ byModel iv, <[foldKey iv.1 := iv.2]> byModel) ∅ (map_to_list kv.2)]> out)
    ∅ (map_to_list inp).

Definition priceFor (prices : price_table) (kind modelID : string) : option Price :=
  byModel ← prices !! foldKey kind; byModel !! foldKey modelID.

Definition New (opts : Options) : Catalog :=
  mkCatalog
    {| op_TTL := if op_TTL opts <=? 0 then Hour else op_TTL opts;
       op_StaleWarnAfter := op_StaleWarnAfter opts;
       op_ProviderTimeout :=
         if op_ProviderTimeout opts <=? 0 then 10 * Second else op_ProviderTimeout opts;
       op_Prices := normalizePrices (op_Prices opts);
       op_OnChange := op_OnChange opts |}
    ∅ [] [].

(** ** Refreshing *)

(** The snapshot under construction: its models, its index, its errors. *)
Record build := mkBuild {
  bd_Models : list Entry;
  bd_byID : gmap string Entry;
  bd_Errors : gmap string message
}.

Definition priced (prices : price_table) (p : Provider) (m : Model) : Model :=
  let price := priceFor prices (p_Kind p) (m_ID m) in
  {| m_ID := m_ID m; m_Provider := p_Name p; m_ContextWindow := m_ContextWindow m;
     m_MaxOutputTokens := m_MaxOutputTokens m; m_Capabilities := m_Capabilities m;
     m_InputCostPerMTok := from_option pr_Input (m_InputCostPerMTok m) price;
     m_OutputCostPerMTok := from_option pr_Output (m_OutputCostPerMTok m) price;
     m_Deprecated := m_Deprecated m |}.

Definition qualified (p : Provider) (m : Model) : string := p_Name p +:+ "/" +:+ m_ID m.

(** [if _, taken := m[k]; !taken { m[k] = v }] *)
Definition put_new {B} (k : string) (v : B) (m : gmap string B) : gmap string B :=
  match m !! k with Some _ => m | None => <[k := v]> m end.

(** The body of the loop over a provider's models. *)
Definition add_model (prices : price_table) (p : Provider) (b : build) (m : Model) : build :=
  let m := priced prices p m in
  let entry := mkCatEntry m (p_ID p) in
  let models := match bd_byID b !! m_ID m with
                | Some _ => bd_Models b
                | None => bd_Models b ++ [entry]
                end in
  let byID := put_new (m_ID m) entry (bd_byID b) in
  let byID := put_new (qualified p m) (mkCatEntry (set_model_id m (qualified p m)) (p_ID p)) byID in
  mkBuild models byID (bd_Errors b).

Definition add_error (b : build) (name : string) (m : message) : build :=
  mkBuild (bd_Models b) (bd_byID b) (<[name := m]> (bd_Errors b)).

Section refresh.
Context {A : Type} (adapters : gmap string A).
Context (answer : nat → A → Credential → res message (list Model)).

(** The body of the loop over the tenant's providers. *)
Definition poll (prices : price_table) (b : build) (ip : nat * Provider) : build :=
  let '(i, p) := ip in
  match p_Enabled p, p_Keys p with
  | true, key :: _ =>
      match Registry_Get adapters (p_Kind p) with
      | None => add_error b (p_Name p) (Msgf "no adapter for kind %q" [FStr (p_Kind p)])
      | Some adapter =>
          match answer i adapter {| cr_BaseURL := p_BaseURL p; cr_APIKey := key |} with
          | Err e => add_error b (p_Name p) e
          | Ok models => foldl (add_model prices p) b models
          end
      end
  | _, _ => b
  end.

(** The listing call [poll] makes of a provider. *)
Definition listing_of (tenantID : string) (p : Provider) : option listing_call :=
  match p_Enabled p, p_Keys p with
  | true, key :: _ =>
      match Registry_Get adapters (p_Kind p) with
      | None => None
      | Some _ => Some (mkListing tenantID (p_Kind p) {| cr_BaseURL := p_BaseURL p; cr_APIKey := key |})
      end
  | _, _ => None
  end.

Definition poll_all (prices : price_table) (providers : list Provider) : build :=
  foldl (poll prices) (mkBuild [] ∅ ∅) (imap pair providers).

Definition entry_less (a b : Entry) : bool :=
  if negb (bool_decide (en_Provider a = en_Provider b))
  then String.ltb (en_Provider a) (en_Provider b)
  else String.ltb (en_ID a) (en_ID b).

(** [joinErrors], before it is rendered: the failures in name order. *)
Definition joinErrors (errs : gmap string message) : list (string * message) :=
  sort_slice (λ a b, String.ltb a.1 b.1) (map_to_list errs).

Definition refresh_failed (errs : gmap string message) : error :=
  ErrText (Msgf "catalog: every provider failed to refresh: %s"
    (concat ((λ nm, FStr nm.1 :: FStr (msg_format nm.2) :: msg_args nm.2) <$> joinErrors errs))).

Definition refresh (prices : price_table) (listing : res error (list Provider)) (now : Z) :
    res error Snapshot :=
  match listing with
  | Err e => Err (ErrWrap (text "catalog: listing providers: %w") e)
  | Ok providers =>
      let b := poll_all prices providers in
      if bool_decide (bd_Models b = []) && negb (bool_decide (bd_Errors b = ∅))
      then Err (refresh_failed (bd_Errors b))
      else Ok (mkSnapshot (sort_slice entry_less (bd_Models b)) (bd_byID b) now false (bd_Errors b))
  end.

(** ** The cache *)

Definition ids (s : Snapshot) : list string := en_ID <$> sn_Models s.

(** [diff]: a Go map of the ids, so each removed id is reported once. *)
Definition diff (old fresh : Snapshot) : list string * list string :=
  let oldIDs : gset string := list_to_set (ids old) in
  let freshIDs : gset string := list_to_set (ids fresh) in
  let added := List.filter (λ id, negb (bool_decide (id ∈ oldIDs))) (ids fresh) in
  let removed := List.filter (λ id, negb (bool_decide (id ∈ freshIDs))) (elements oldIDs) in
  (sort_slice String.ltb added, sort_slice String.ltb removed).

(** [Catalog.state]: a tenant seen for the first time gets an empty state. *)
Definition state (c : Catalog) (tenantID : string) : option Snapshot :=
  default None (cat_perTenant c !! tenantID).

Definition set_state (c : Catalog) (tenantID : string) (s : option Snapshot)
    (log : list catalog_change) : Catalog :=
  mkCatalog (cat_opts c) (<[tenantID := s]> (cat_perTenant c)) log (cat_polls c).

(** The listing calls of a refresh, on the log. *)
Definition polled (c : Catalog) (tenantID : string) (listing : res error (list Provider)) : Catalog :=
  mkCatalog (cat_opts c) (cat_perTenant c) (cat_changes c)
    (cat_polls c ++ match listing with Ok ps => omap (listing_of tenantID) ps | Err _ => [] end).

Definition mark_stale (s : Snapshot) : Snapshot :=
  mkSnapshot (sn_Models s) (sn_byID s) (sn_FetchedAt s) true (sn_Errors s).

Definition reload (c : Catalog) (tenantID : string) (listing : res error (list Provider)) (now : Z) :
    res error Snapshot * Catalog :=
  let st := state c tenantID in
  let c := polled c tenantID listing in
  match refresh (op_Prices (cat_opts c)) listing now with
  | Err e =>
      match st with
      | Some s => (Ok (mark_stale s), set_state c tenantID (Some (mark_stale s)) (cat_changes c))
      | None => (Err e, set_state c tenantID None (cat_changes c))
      end
  | Ok fresh =>
      let log :=
        match st with
        | Some old =>
            if op_OnChange (cat_opts c) then
              let '(added, removed) := diff old fresh in
              if negb (bool_decide (added = [])) || negb (bool_decide (removed = []))
              then cat_changes c ++ [(tenantID, added, removed)] else cat_changes c
            else cat_changes c
        | None => cat_changes c
        end in
      (Ok fresh, set_state c tenantID (Some fresh) log)
  end.

(** [Get]; [now] is the reading that judges the age, [now'] the refresh's. *)
Definition Get (c : Catalog) (tenantID : string) (listing : res error (list Provider))
    (now now' : Z) : res error Snapshot * Catalog :=
  match state c tenantID with
  | Some s =>
      if (Age (Some s) now <? op_TTL (cat_opts c)) && negb (sn_Stale s)
      then (Ok s, set_state c tenantID (Some s) (cat_changes c))
      else reload c tenantID listing now'
  | None => reload c tenantID listing now'
  end.

Definition Refresh (c : Catalog) (tenantID : string) (listing : res error (list Provider)) (now : Z) :
    res error Snapshot * Catalog :=
  reload c tenantID listing now.

Definition Invalidate (c : Catalog) (tenantID : string) : Catalog :=
  set_state c tenantID None (cat_changes c).
End refresh.

Record CatalogAge := { ca_TenantID : string; ca_Provider : string; ca_Age : Z }.

(** The inner loop of [Ages]: one row per distinct non-empty provider name. *)
Fixpoint provider_ages (tenantID : string) (age : Z) (seen : gset string) (es : list Entry) :
    list CatalogAge :=
  match es with
  | [] => []
  | e :: es' =>
      if bool_decide (en_Provider e = "") || bool_decide (en_Provider e ∈ seen)
      then provider_ages tenantID age seen es'
      else {| ca_TenantID := tenantID; ca_Provider := en_Provider e; ca_Age := age |}
             :: provider_ages tenantID age ({[en_Provider e]} ∪ seen) es'
  end.

Definition Ages (c : Catalog) (now : Z) : list CatalogAge :=
  concat ((λ ts, match ts.2 with
                 | None => []
                 | Some s => provider_ages ts.1 (Age (Some s) now) ∅ (sn_Models s)
                 end) <$> map_to_list (cat_perTenant c)).

(** [strings.Index(ref, "/") > 0]: a leading slash does not qualify. *)
Definition ProviderOf (ref : string) : string * string :=
  match Cut ref "/" with
  | Some (p, m) => if bool_decide (p = "") then ("", ref) else (p, m)
  | None => ("", ref)
  end.

(** ** What a refresh collects *)

Definition has_slash (s : string) : bool := str_has "/" s.

Definition entry_of (prices : price_table) (o : Provider * Model) : Entry :=
  mkCatEntry (priced prices o.1 o.2) (p_ID o.1).
Definition qualified_entry (prices : price_table) (o : Provider * Model) : Entry :=
  mkCatEntry (set_model_id (priced prices o.1 o.2) (qualified o.1 o.2)) (p_ID o.1).

(** The first offer of a model id; the first offer of it by a provider name. *)
Definition offers_id (id : string) (o : Provider * Model) : bool := bool_decide (m_ID o.2 = id).
Definition offers_as (name id : string) (o : Provider * Model) : bool :=
  bool_decide (p_Name o.1 = name) && bool_decide (m_ID o.2 = id).

Section offers.
Context {A : Type} (adapters : gmap string A).
Context (answer : nat → A → Credential → res message (list Model)).

(** The models one provider offers to a refresh: its listing when it is
    enabled, has a key and an adapter, and answers. *)
Definition offer (ip : nat * Provider) : list (Provider * Model) :=
  let '(i, p) := ip in
  match p_Enabled p, p_Keys p with
  | true, key :: _ =>
      match Registry_Get adapters (p_Kind p) with
      | None => []
      | Some adapter =>
          match answer i adapter {| cr_BaseURL := p_BaseURL p; cr_APIKey := key |} with
          | Err _ => []
          | Ok models => (λ m, (p, m)) <$> models
          end
      end
  | _, _ => []
  end.

Definition offers (providers : list Provider) : list (Provider * Model) :=
  concat (offer <$> imap pair providers).
End offers.

Definition add_offer (prices : price_table) (b : build) (o : Provider * Model) : build :=
  add_model prices o.1 b o.2.

(** ** Lemmas *)

Lemma lookup_put_new {B} k (v : B) m i :
  put_new k v m !! i = if decide (k = i) then Some (default v (m !! k)) else m !! i.
Proof.
  unfold put_new. destruct (m !! k) eqn:E; case_decide; subst; simpl; try done.
  - by rewrite lookup_insert_eq.
  - by rewrite lookup_insert_ne.
Qed.

(** An entry is the new one under its own key, or an old one. *)
Lemma lookup_put_new_Some {B} k (v : B) m i x :
  put_new k v m !! i = Some x → (k = i ∧ x = v ∧ m !! k = None) ∨ m !! i = Some x.
Proof.
  rewrite lookup_put_new. case_decide; [subst|by right].
  destruct (m !! i); simpl; intros [= <-]; auto.
Qed.

Lemma put_new_mono {B} k (v : B) m i x : m !! i = Some x → put_new k v m !! i = Some x.
Proof. rewrite lookup_put_new. case_decide; [subst|done]. by intros ->. Qed.

Lemma put_new_is_Some {B} k (v : B) m : is_Some (put_new k v m !! k).
Proof. rewrite lookup_put_new, decide_True by done. done. Qed.

Lemma priced_ID prices p m : m_ID (priced prices p m) = m_ID m.
Proof. done. Qed.

Lemma qualified_priced prices p m : qualified p (priced prices p m) = qualified p m.
Proof. done. Qed.

Lemma qualified_has_slash p m : has_slash (qualified p m) = true.
Proof.
  unfold has_slash, qualified. rewrite !str_has_app. simpl.
  by rewrite orb_true_r.
Qed.

(** The loops over providers and models visit the offers in order; errors are
    recorded on the side. *)
Lemma poll_offers {A} (adapters : gmap string A) answer prices l b :
  let b' := foldl (poll adapters answer prices) b l in
  let b'' := foldl (add_offer prices) b (concat (offer adapters answer <$> l)) in
  bd_Models b' = bd_Models b'' ∧ bd_byID b' = bd_byID b''.
Proof.
  assert (∀ os b1 b2, bd_Models b1 = bd_Models b2 → bd_byID b1 = bd_byID b2 →
    bd_Models (foldl (add_offer prices) b1 os) = bd_Models (foldl (add_offer prices) b2 os) ∧
    bd_byID (foldl (add_offer prices) b1 os) = bd_byID (foldl (add_offer prices) b2 os)) as Hc.
  { induction os as [|o os IH]; intros b1 b2 E1 E2; simpl; [done|].
    apply IH; unfold add_offer, add_model; rewrite E1, E2; by repeat case_match. }
  revert b. induction l as [|[i p] l IH]; intros b; [done|].
  rewrite fmap_cons. cbn [concat foldl]. rewrite foldl_app. destruct (IH (poll adapters answer prices b (i, p))) as [-> ->]. clear IH.
  apply Hc; simpl; destruct (p_Enabled p); try done; destruct (p_Keys p) as [|key keys]; try done;
    destruct (Registry_Get adapters (p_Kind p)) as [a|]; try done;
    destruct (answer i a _) as [models|]; try done;
    revert b; induction models as [|m models IH]; intros b; simpl; auto.
Qed.

(** What every state of the loop satisfies, given the offers it has seen. *)
Record build_ok (prices : price_table) (os : list (Provider * Model)) (b : build) : Prop := {
  bo_id id e : bd_byID b !! id = Some e → en_ID e = id;
  bo_models e : e ∈ bd_Models b → bd_byID b !! en_ID e = Some e;
  bo_nodup : NoDup (en_ID <$> bd_Models b);
  bo_origin id e : bd_byID b !! id = Some e →
    ∃ o, o ∈ os ∧ (e = entry_of prices o ∨ e = qualified_entry prices o);
  bo_complete o : o ∈ os → is_Some (bd_byID b !! m_ID o.2);
  bo_plain e : e ∈ bd_Models b → ∃ o, o ∈ os ∧ e = entry_of prices o
}.

Lemma add_offer_ok prices os b o :
  build_ok prices os b → build_ok prices (os ++ [o]) (add_offer prices b o).
Proof.
  intros [B1 B2 B3 B4 B5 B6]. unfold add_offer, add_model. rewrite priced_ID, qualified_priced.
  split; simpl.
  - intros id x [(<- & -> & _)|[(<- & -> & _)|Hx]%lookup_put_new_Some]%lookup_put_new_Some; auto.
  - intros x Hx. destruct (bd_byID b !! m_ID o.2) eqn:E.
    + by apply put_new_mono, put_new_mono, B2.
    + apply elem_of_snoc in Hx as [Hx| ->]; [by apply put_new_mono, put_new_mono, B2|].
      apply put_new_mono. rewrite lookup_put_new, decide_True by done. by rewrite E.
  - destruct (bd_byID b !! m_ID o.2) eqn:E; [done|].
    rewrite fmap_app. apply NoDup_app. split_and!; [done| |apply NoDup_singleton].
    intros x (y & -> & Hy%B2)%list_elem_of_fmap Hx%list_elem_of_singleton.
    rewrite Hx in Hy. unfold en_ID in Hy. simpl in Hy. congruence.
  - intros id x [(<- & -> & _)|[(<- & -> & _)|Hx]%lookup_put_new_Some]%lookup_put_new_Some.
    1,2: exists o; auto with gate.
    destruct (B4 id x Hx) as (o' & ? & ?). eauto with gate.
  - intros o' [Hin| ->]%elem_of_snoc.
    + destruct (B5 o' Hin) as [x Hx]. eauto using put_new_mono.
    + destruct (put_new_is_Some (m_ID o.2) (entry_of prices o) (bd_byID b)) as [x Hx].
      eauto using put_new_mono.
  - intros x Hx. destruct (bd_byID b !! m_ID o.2).
    + destruct (B6 x Hx) as (o' & ? & ?). eauto with gate.
    + apply elem_of_snoc in Hx as [Hx| ->]; [|eauto with gate].
      destruct (B6 x Hx) as (o' & ? & ?). eauto with gate.
Qed.

Lemma offers_ok prices os :
  build_ok prices os (foldl (add_offer prices) (mkBuild [] ∅ ∅) os).
Proof.
  induction os as [|o os IH] using rev_ind; simpl.
  - split; simpl; try (intros ? ?; by rewrite lookup_empty); try (by intros ? ?%not_elem_of_nil).
    constructor.
  - rewrite foldl_snoc. by apply add_offer_ok.
Qed.

(** A plain id holds no slash, so only plain claims reach it. *)
Lemma first_plain prices os b id :
  has_slash id = false →
  bd_byID (foldl (add_offer prices) b os) !! id =
    match bd_byID b !! id with
    | Some e => Some e
    | None => entry_of prices <$> List.find (offers_id id) os
    end.
Proof.
  intros Hs. revert b. induction os as [|o os IH]; intros b; simpl; [by destruct (bd_byID b !! id)|].
  rewrite IH. unfold add_offer, add_model. rewrite priced_ID, qualified_priced.
  assert (qualified o.1 o.2 ≠ id) as Hq.
  { intros <-. by rewrite qualified_has_slash in Hs. }
  cbn [bd_byID]. rewrite lookup_put_new, decide_False, lookup_put_new by done.
  unfold offers_id at 2. case_bool_decide as E; [|by rewrite decide_False].
  rewrite decide_True by done. subst id. by destruct (bd_byID b !! m_ID o.2).
Qed.

(** When neither names nor ids hold a slash, a qualified id is reached by the
    qualified claims of that name and id only. *)
Definition slash_free (o : Provider * Model) : Prop :=
  has_slash (p_Name o.1) = false ∧ has_slash (m_ID o.2) = false.

Lemma qualified_inj p m name id :
  has_slash (p_Name p) = false → has_slash name = false →
  qualified p m = name +:+ "/" +:+ id → p_Name p = name ∧ m_ID m = id.
Proof. unfold has_slash, qualified. intros Hp Hn E. by eapply cut_inj. Qed.

Lemma first_qualified prices os b name id :
  Forall slash_free os → has_slash name = false →
  bd_byID (foldl (add_offer prices) b os) !! (name +:+ "/" +:+ id) =
    match bd_byID b !! (name +:+ "/" +:+ id) with
    | Some e => Some e
    | None => qualified_entry prices <$> List.find (offers_as name id) os
    end.
Proof.
  intros HF Hn. revert b. induction HF as [|o os [Hp Hm] HF IH]; intros b; simpl.
  { by destruct (bd_byID b !! _). }
  rewrite IH. unfold add_offer, add_model. rewrite priced_ID, qualified_priced.
  assert (m_ID o.2 ≠ name +:+ "/" +:+ id) as Hq.
  { intros E. rewrite E in Hm. unfold has_slash in Hm. rewrite !str_has_app in Hm. simpl in Hm.
    by rewrite orb_true_r in Hm. }
  cbn [bd_byID]. rewrite lookup_put_new. unfold offers_as at 2. case_decide as E.
  - rewrite E, lookup_put_new, decide_False by done.
    destruct (qualified_inj _ _ _ _ Hp Hn E) as [-> ->]. rewrite !bool_decide_eq_true_2 by done.
    unfold qualified_entry. simpl. rewrite E. by destruct (bd_byID b !! _).
  - rewrite lookup_put_new, decide_False by done. assert (bool_decide (p_Name o.1 = name) && bool_decide (m_ID o.2 = id) = false) as ->; [|done].
    apply not_true_is_false. rewrite andb_true_iff, !bool_decide_eq_true. by intros [<- <-].
Qed.

Lemma entry_less_weak : weak_order entry_less (λ _, True).
Proof.
  apply (lex_weak (λ a b, bool_decide (en_Provider a = en_Provider b))
    (λ a b, String.ltb (en_Provider a) (en_Provider b))); [apply str_ltb_weak..|].
  intros x y _ _. apply str_eq_ltb.
Qed.

(** ** Snapshots *)

(** A snapshot indexes its models, serves each id once, lists them in order,
    and every entry of it was offered by a provider. *)
Record snap_ok (prices : price_table) (os : list (Provider * Model)) (s : Snapshot) : Prop := {
  so_id id e : sn_byID s !! id = Some e → en_ID e = id;
  so_models e : e ∈ sn_Models s → sn_byID s !! en_ID e = Some e;
  so_nodup : NoDup (ids s);
  so_sorted : StronglySorted (ordered entry_less) (sn_Models s);
  so_origin id e : sn_byID s !! id = Some e →
    ∃ o, o ∈ os ∧ (e = entry_of prices o ∨ e = qualified_entry prices o);
  so_complete o : o ∈ os → is_Some (sn_byID s !! m_ID o.2)
}.

Section refresh_lemmas.
Context {A : Type} (adapters : gmap string A).
Context (answer : nat → A → Credential → res message (list Model)).

Lemma refresh_inv prices listing now s :
  refresh adapters answer prices listing now = Ok s →
  ∃ providers, listing = Ok providers ∧
    let b := foldl (add_offer prices) (mkBuild [] ∅ ∅) (offers adapters answer providers) in
    sn_Models s = sort_slice entry_less (bd_Models b) ∧ sn_byID s = bd_byID b ∧
    sn_FetchedAt s = now ∧ sn_Stale s = false.
Proof.
  unfold refresh. destruct listing as [providers|]; [|done].
  destruct (_ && _); [done|]. intros [= <-]. exists providers. split; [done|]. simpl.
  destruct (poll_offers adapters answer prices (imap pair providers) (mkBuild [] ∅ ∅)) as [E1 E2].
  unfold poll_all, offers. by rewrite E1, E2.
Qed.

Lemma refresh_ok prices providers now s :
  refresh adapters answer prices (Ok providers) now = Ok s →
  snap_ok prices (offers adapters answer providers) s.
Proof.
  intros (ps & [= <-] & E1 & E2 & _)%refresh_inv.
  pose proof (offers_ok prices (offers adapters answer providers)) as [B1 B2 B3 B4 B5 B6].
  split; unfold ids; rewrite ?E2, ?E1; auto.
  - intros e. rewrite elem_of_sort_slice. auto.
  - by rewrite sort_slice_perm.
  - apply (sort_slice_sorted _ entry_less_weak). by apply Forall_forall.
Qed.

(** A provider the refresh polls without getting a listing. *)
Definition poll_fails (ip : nat * Provider) : bool :=
  let '(i, p) := ip in
  match p_Enabled p, p_Keys p with
  | true, key :: _ =>
      match Registry_Get adapters (p_Kind p) with
      | None => true
      | Some adapter =>
          negb (is_ok (answer i adapter {| cr_BaseURL := p_BaseURL p; cr_APIKey := key |}))
      end
  | _, _ => false
  end.

Lemma add_offers_errors prices b os : bd_Errors (foldl (add_offer prices) b os) = bd_Errors b.
Proof. revert b; induction os as [|o os IH]; intros b; simpl; [done|]. by rewrite IH. Qed.

Lemma poll_errors prices b ip :
  bd_Errors (poll adapters answer prices b ip) = ∅ ↔ bd_Errors b = ∅ ∧ poll_fails ip = false.
Proof.
  destruct ip as [i p]. unfold poll, poll_fails.
  destruct (p_Enabled p); [|tauto]. destruct (p_Keys p) as [|key keys]; [tauto|].
  destruct (Registry_Get _ _) as [a|]; simpl.
  2: { split; [by intros ?%insert_non_empty|by intros [? ?]]. }
  destruct (answer i a _) as [models|e]; simpl.
  - assert (bd_Errors (foldl (add_model prices p) b models) = bd_Errors b) as ->; [|tauto].
    revert b; induction models as [|m models IH]; intros b; simpl; [done|]. by rewrite IH.
  - split; [by intros ?%insert_non_empty|by intros [? ?]].
Qed.

Lemma poll_all_errors prices l b :
  bd_Errors (foldl (poll adapters answer prices) b l) = ∅ ↔
    bd_Errors b = ∅ ∧ Forall (λ ip, poll_fails ip = false) l.
Proof.
  revert b; induction l as [|ip l IH]; intros b.
  - split; [by split|by intros [? _]].
  - cbn [foldl]. rewrite IH, poll_errors, Forall_cons. tauto.
Qed.

Lemma models_grow prices os b : bd_Models b ≠ [] → bd_Models (foldl (add_offer prices) b os) ≠ [].
Proof.
  revert b; induction os as [|o os IH]; intros b Hb; simpl; [done|]. apply IH.
  unfold add_offer, add_model. simpl. destruct (bd_byID b !! _); [done|].
  by destruct (bd_Models b).
Qed.

Lemma models_nil prices os : bd_Models (foldl (add_offer prices) (mkBuild [] ∅ ∅) os) = [] ↔ os = [].
Proof.
  destruct os as [|o os]; [done|]. split; [|done]. intros E. exfalso. revert E. simpl.
  apply models_grow. unfold add_offer, add_model. simpl. by rewrite lookup_empty.
Qed.

(** A refresh fails hard exactly when nothing was offered and something failed. *)
Lemma refresh_fails prices providers now :
  is_ok (refresh adapters answer prices (Ok providers) now) = false ↔
    offers adapters answer providers = [] ∧ Exists (λ ip, poll_fails ip = true) (imap pair providers).
Proof.
  unfold refresh, poll_all.
  destruct (poll_offers adapters answer prices (imap pair providers) (mkBuild [] ∅ ∅)) as [E1 _].
  rewrite E1. fold (offers adapters answer providers).
  pose proof (models_nil prices (offers adapters answer providers)) as Hm.
  pose proof (poll_all_errors prices (imap pair providers) (mkBuild [] ∅ ∅)) as He. simpl in He.
  destruct (bool_decide (bd_Models _ = [])) eqn:Eb; simpl.
  2: { apply bool_decide_eq_false in Eb. split; [done|]. intros [Eo _]. by rewrite Hm in Eb. }
  apply bool_decide_eq_true, Hm in Eb. case_bool_decide as Ee; simpl.
  - split; [done|]. intros [_ Hx]. apply He in Ee as [_ HF].
    apply Exists_exists in Hx as (ip & Hin & Hx). rewrite Forall_forall in HF.
    rewrite (HF ip Hin) in Hx. done.
  - split; [|done]. intros _. split; [done|].
    destruct (decide (Exists (λ ip, poll_fails ip = true) (imap pair providers))) as [|Hn]; [done|].
    destruct Ee. apply He. split; [done|]. apply Forall_forall. intros ip Hin.
    apply not_true_is_false. intros E. apply Hn, Exists_exists. eauto.
Qed.
End refresh_lemmas.

(** [diff] reports exactly the difference, each id once, in order. *)
Lemma diff_spec old fresh :
  NoDup (ids fresh) →
  let '(added, removed) := diff old fresh in
  (∀ id, id ∈ added ↔ id ∈ ids fresh ∧ id ∉ ids old) ∧
  (∀ id, id ∈ removed ↔ id ∈ ids old ∧ id ∉ ids fresh) ∧
  NoDup added ∧ NoDup removed ∧
  StronglySorted (ordered String.ltb) added ∧ StronglySorted (ordered String.ltb) removed.
Proof.
  intros Hnd. unfold diff. split_and!.
  - intros id. rewrite elem_of_sort_slice, elem_of_filter_bool.
    rewrite negb_true_iff, bool_decide_eq_false, elem_of_list_to_set. done.
  - intros id. rewrite elem_of_sort_slice, elem_of_filter_bool.
    rewrite negb_true_iff, bool_decide_eq_false, elem_of_elements, !elem_of_list_to_set. done.
  - rewrite sort_slice_perm. by apply NoDup_ListNoDup, List.NoDup_filter, NoDup_ListNoDup.
  - rewrite sort_slice_perm.
    apply NoDup_ListNoDup, List.NoDup_filter, NoDup_ListNoDup, NoDup_elements.
  - apply (sort_slice_sorted (P := λ _, True) String.ltb (str_ltb_weak id _)). by apply Forall_forall.
  - apply (sort_slice_sorted (P := λ _, True) String.ltb (str_ltb_weak id _)). by apply Forall_forall.
Qed.

Lemma state_set_state c t s log : state (set_state c t s log) t = s.
Proof. unfold state, set_state. simpl. by rewrite lookup_insert_eq. Qed.

(** The listing calls of a tenant's providers. *)
Definition own_listing {A} (adapters : gmap string A) (providers : list Provider) (c : listing_call) : Prop :=
  ∃ p key keys, p ∈ providers ∧ p_Enabled p = true ∧ p_Keys p = key :: keys ∧
    is_Some (Registry_Get adapters (p_Kind p)) ∧
    lc_Kind c = p_Kind p ∧ lc_Cred c = {| cr_BaseURL := p_BaseURL p; cr_APIKey := key |}.

Lemma polled_own {A} (adapters : gmap string A) c t providers :
  ∃ ps, cat_polls (polled adapters c t (Ok providers)) = cat_polls c ++ ps ∧
    Forall (λ l, lc_Tenant l = t ∧ own_listing adapters providers l) ps.
Proof.
  eexists. split; [done|]. apply Forall_forall. intros l (p & Hp & Hl)%list_elem_of_omap. unfold listing_of in Hl.
  destruct (p_Enabled p) eqn:Ee; [|done]. destruct (p_Keys p) as [|key keys] eqn:Ek; [done|].
  destruct (Registry_Get _ _) eqn:Er; [|done]. injection Hl as <-. split; [done|].
  exists p, key, keys. rewrite Er. by split_and!.
Qed.

Lemma reload_polls {A} (adapters : gmap string A) answer c t listing now :
  cat_polls (reload adapters answer c t listing now).2 = cat_polls (polled adapters c t listing).
Proof. unfold reload. by repeat case_match. Qed.

(** What a read or a refresh of the catalog asks of providers. *)
Lemma reload_own {A} (adapters : gmap string A) answer c t providers now :
  ∃ ps, cat_polls (reload adapters answer c t (Ok providers) now).2 = cat_polls c ++ ps ∧
    Forall (λ l, lc_Tenant l = t ∧ own_listing adapters providers l) ps.
Proof. rewrite reload_polls. apply polled_own. Qed.

Lemma Get_own {A} (adapters : gmap string A) answer c t providers now now' :
  ∃ ps, cat_polls (Get adapters answer c t (Ok providers) now now').2 = cat_polls c ++ ps ∧
    Forall (λ l, lc_Tenant l = t ∧ own_listing adapters providers l) ps.
Proof.
  unfold Get. repeat case_match; try apply reload_own. exists []. by rewrite app_nil_r.
Qed.

End catalog.

(** ** Component theorems *)

Module CatalogFacts.
Section facts.
Context `{Unicode} {A : Type} (adapters : gmap string A).
Context (answer : nat → A → Credential → res message (list Model)).

(** A refresh that succeeds yields a consistent snapshot: every id of the index
    is its entry's own id, the listed models are indexed under their ids, no id
    is listed twice, the listing is ordered by provider and id, every entry comes from
    a model some polled provider offered, and every offered id is addressable.
    It fails exactly when nothing was offered although a provider was polled. *)
Theorem refresh_is_consistent prices providers now :
  match refresh adapters answer prices (Ok providers) now with
  | Ok s => snap_ok prices (offers adapters answer providers) s ∧
            sn_FetchedAt s = now ∧ sn_Stale s = false
  | Err _ => offers adapters answer providers = [] ∧
             Exists (λ ip, poll_fails adapters answer ip = true) (imap pair providers)
  end.
Proof.
  destruct (refresh adapters answer prices (Ok providers) now) as [s|e] eqn:E.
  - split; [by eapply refresh_ok|].
    by apply refresh_inv in E as (? & _ & _ & _ & ? & ?).
  - apply (refresh_fails _ _ prices providers now). by rewrite E.
Qed.

(** Registration order is preference: a plain id (one without a slash) is
    served by the first provider that offers it, at the operator's price where
    one is configured; and when no name and no id holds a slash, "name/id"
    addresses that provider's own copy. *)
Theorem first_offer_wins prices providers now s :
  refresh adapters answer prices (Ok providers) now = Ok s →
  let os := offers adapters answer providers in
  (∀ id, has_slash id = false →
     Lookup (Some s) id = entry_of prices <$> List.find (offers_id id) os) ∧
  (Forall slash_free os → ∀ name id, has_slash name = false →
     Lookup (Some s) (name +:+ "/" +:+ id) =
       qualified_entry prices <$> List.find (offers_as name id) os).
Proof.
  intros (ps & [= <-] & _ & E & _)%refresh_inv os. unfold Lookup. rewrite E. split.
  - intros id Hid. rewrite first_plain by done. simpl. by rewrite lookup_empty.
  - intros HF name id Hn. rewrite first_qualified by done. simpl. by rewrite lookup_empty.
Qed.

(** Serving stale beats failing: when the poll fails, a tenant with a snapshot
    keeps its models, marked stale, and only a cold tenant sees the error; a
    successful poll installs the fresh snapshot and reports to the callback
    exactly the difference. *)
Theorem stale_over_failing c t listing now :
  let r := reload adapters answer c t listing now in
  match refresh adapters answer (op_Prices (cat_opts c)) listing now, state c t with
  | Err e, Some s => r.1 = Ok (mark_stale s) ∧ state r.2 t = Some (mark_stale s) ∧
                     (∀ id, Lookup (state r.2 t) id = Lookup (Some s) id) ∧
                     cat_changes r.2 = cat_changes c
  | Err e, None => r.1 = Err e ∧ state r.2 t = None ∧ cat_changes r.2 = cat_changes c
  | Ok fresh, None => r.1 = Ok fresh ∧ state r.2 t = Some fresh ∧ cat_changes r.2 = cat_changes c
  | Ok fresh, Some old =>
      r.1 = Ok fresh ∧ state r.2 t = Some fresh ∧
      cat_changes r.2 = cat_changes c ++
        (if op_OnChange (cat_opts c) && negb (bool_decide (diff old fresh = ([], [])))
         then [(t, (diff old fresh).1, (diff old fresh).2)] else [])
  end.
Proof.
  unfold reload. destruct (refresh _ _ _ _ _) as [fresh|e], (state c t) as [s|]; cbv zeta;
    cbn [fst snd]; rewrite ?state_set_state; try done.
  split_and!; [done..|]. destruct (diff s fresh) as [added removed]. cbn [fst snd set_state].
  destruct (op_OnChange _); simpl; [|by rewrite app_nil_r].
  destruct (decide (added = [])) as [->|Ha], (decide (removed = [])) as [->|Hr]; simpl;
    rewrite ?(bool_decide_eq_false_2 (_ = [])), ?(bool_decide_eq_false_2 (_ = ([], []))) by congruence;
    simpl; by rewrite ?app_nil_r.
Qed.

(** Within its TTL a snapshot is served as it is, without asking the store or
    any provider; [Invalidate] makes the next read poll. *)
Theorem fresh_snapshot_is_served c t listing now s c' listing' now1 now2 answer' :
  Refresh adapters answer c t listing now = (Ok s, c') → sn_Stale s = false → now ≠ 0 →
  sn_FetchedAt s = now → 0 ≤ now1 - now < op_TTL (cat_opts c) →
  in_int64 (op_TTL (cat_opts c)) →
  (Get adapters answer' c' t listing' now1 now2).1 = Ok s ∧
  Get adapters answer' (Invalidate c' t) t listing' now1 now2 =
    reload adapters answer' (Invalidate c' t) t listing' now2.
Proof.
  intros Hr Hs Hn0 Hf Ht Hi.
  assert (state c' t = Some s ∧ cat_opts c' = cat_opts c) as [Est Eop].
  { revert Hr. unfold Refresh, reload. destruct (refresh _ _ _ _ _) as [fresh|e], (state c t);
      intros [= <- <-]; by rewrite ?state_set_state. }
  unfold Get. rewrite Est, Hs, Eop. unfold Invalidate. rewrite state_set_state.
  split; [|done]. unfold Age, IsZero. rewrite Hf. destruct (Z.eqb_spec now 0); [done|].
  unfold in_int64, minInt64 in Hi. unfold two63 in *.
  rewrite Sub_lt; [|done|unfold minInt64, two63; lia].
  by destruct (Z.ltb_spec (now1 - now) (op_TTL (cat_opts c))); [|lia].
Qed.

(** The change report: added are the ids only the fresh snapshot has, removed
    those only the old one had, each once and in increasing order. *)
Theorem diff_is_the_difference prices os old fresh :
  snap_ok prices os fresh →
  let '(added, removed) := diff old fresh in
  (∀ id, id ∈ added ↔ id ∈ ids fresh ∧ id ∉ ids old) ∧
  (∀ id, id ∈ removed ↔ id ∈ ids old ∧ id ∉ ids fresh) ∧
  NoDup added ∧ NoDup removed ∧
  StronglySorted (ordered String.ltb) added ∧ StronglySorted (ordered String.ltb) removed.
Proof. intros Hs. apply diff_spec, (so_nodup _ _ _ Hs). Qed.

End facts.

(** ** Worked examples *)

#[local] Existing Instance ascii_only.

Definition demo_model (id : string) (cost : Z) : Model :=
  {| m_ID := id; m_Provider := ""; m_ContextWindow := 0; m_MaxOutputTokens := 0;
     m_Capabilities := ["chat"]; m_InputCostPerMTok := f_of_Z cost; m_OutputCostPerMTok := f_of_Z cost;
     m_Deprecated := false |}.
Definition demo_provider (id name : string) : Provider :=
  {| p_ID := id; p_TenantID := "t"; p_Name := name; p_Kind := "openai"; p_BaseURL := "";
     p_Enabled := true; p_KeyStrategy := ""; p_Keys := ["k"]; p_KeyPrefixes := []; p_CreatedAt := 0 |}.
Definition demo_registry : gmap string () := {["openai" := ()]}.

(** Two providers that share a model id. *)
Definition demo_answer (i : nat) (_ : ()) (_ : Credential) : res message (list Model) :=
  match i with
  | O => Ok [demo_model "gpt" 1; demo_model "small" 2]
  | _ => Ok [demo_model "gpt" 3]
  end.
Definition demo_providers : list Provider := [demo_provider "p1" "zeta"; demo_provider "p2" "alpha"].
Definition demo_snapshot : Snapshot := Eval vm_compute in
  match refresh demo_registry demo_answer ∅ (Ok demo_providers) 7 with
  | Ok s => s | Err _ => mkSnapshot [] ∅ 0 false ∅ end.

Lemma demo_refresh : refresh demo_registry demo_answer ∅ (Ok demo_providers) 7 = Ok demo_snapshot.
Proof. vm_compute. reflexivity. Qed.

Lemma first_offer_wins_witness :
  en_ProviderID <$> Lookup (Some demo_snapshot) "gpt" = Some "p1" ∧
  en_ProviderID <$> Lookup (Some demo_snapshot) "alpha/gpt" = Some "p2".
Proof.
  destruct (first_offer_wins demo_registry demo_answer ∅ demo_providers 7 demo_snapshot demo_refresh)
    as [H1 H2].
  split.
  - rewrite (H1 "gpt") by done. by vm_compute.
  - change "alpha/gpt" with ("alpha" +:+ "/" +:+ "gpt").
    rewrite (H2 ltac:(repeat constructor) "alpha" "gpt") by done. by vm_compute.
Defined.

Definition demo_catalog : Catalog :=
  New {| op_TTL := 0; op_StaleWarnAfter := 0; op_ProviderTimeout := 0; op_Prices := ∅; op_OnChange := true |}.

Lemma fresh_snapshot_is_served_witness :
  (Get demo_registry (λ _ _ _, Err (text "down"))
     (Refresh demo_registry demo_answer demo_catalog "t" (Ok demo_providers) 7).2 "t"
     (Err ErrNotFound) (7 + Hour - 1) 99).1 = Ok demo_snapshot.
Proof.
  apply (fresh_snapshot_is_served demo_registry demo_answer demo_catalog "t" (Ok demo_providers) 7
    demo_snapshot _ (Err ErrNotFound) (7 + Hour - 1) 99 (λ _ _ _, Err (text "down"))).
  - vm_compute. reflexivity.
  - done.
  - lia.
  - done.
  - by vm_compute.
  - by vm_compute.
Defined.

Lemma diff_is_the_difference_witness :
  ∀ id, id ∈ (diff (mkSnapshot [] ∅ 0 false ∅) demo_snapshot).1 ↔ id ∈ ids demo_snapshot ∧ id ∉ [].
Proof.
  apply (diff_is_the_difference ∅ (offers demo_registry demo_answer demo_providers)
    (mkSnapshot [] ∅ 0 false ∅) demo_snapshot).
  apply (refresh_ok demo_registry demo_answer ∅ demo_providers 7), demo_refresh.
Defined.

(** The qualified form is not always addressable: a first provider "x" that
    lists an id "y/m" of its own takes the name under which provider "y" should
    offer "m", and "y/m" then reaches provider "x". *)
Theorem qualified_form_can_be_taken :
  let answer (i : nat) (_ : ()) (_ : Credential) : res message (list Model) :=
    match i with O => Ok [demo_model "y/m" 1] | _ => Ok [demo_model "m" 1] end in
  match refresh demo_registry answer ∅ (Ok [demo_provider "px" "x"; demo_provider "py" "y"]) 7 with
  | Ok s => en_ProviderID <$> Lookup (Some s) "y/m" = Some "px" ∧
            en_ProviderID <$> Lookup (Some s) "m" = Some "py"
  | Err _ => False
  end.
Proof. by vm_compute. Qed.

End CatalogFacts.
