(* ===== verification/Resolve.v ===== *)
(** * Resolution (internal/routing/resolve.go)

    From the model a caller asked for to the ordered list of places to try:
    aliases, then the tenant's fallback chain. The resolver reads the store
    through [RoutingStore], the part of the Store interface it uses with what it
    relies on; the in-memory store is the instance. The catalog read is the
    composition with [Catalog.Get]. *)

From S2P Require Import Prelude GoStrings GoTime GoFloat ApiErr StoreTypes Keys Memory MemoryFacts MemoryProps Provider Breaker Catalog.
From Stdlib Require Import Ascii.

#[local] Open Scope Z_scope.
#[local] Open Scope stdpp_scope.

(** ** The store, as the resolver sees it *)

Class RoutingStore (S : Type) := {
  rst_ListAliases : S → string → res error (list Alias);
  rst_ListRoutes : S → string → res error (list Route);
  rst_ListProviders : S → string → res error (list Provider);
  rst_ok : S → Prop;
  rst_alias_names s t l : rst_ok s → rst_ListAliases s t = Ok l → NoDup (al_Name <$> l);
  rst_route_matches s t l : rst_ok s → rst_ListRoutes s t = Ok l → NoDup (r_Match <$> l)
}.

Lemma pairwise_NoDup {A} (name : A → string) l :
  pairwise (λ a b, bool_decide (name a = name b)) l → NoDup (name <$> l).
Proof.
  induction l as [|x l IH]; simpl; [constructor|]. intros [HF Hp]. constructor; [|auto].
  intros (y & E & Hy)%list_elem_of_fmap. rewrite Forall_forall in HF.
  destruct (HF y Hy) as [H1 _]. by apply bool_decide_eq_false in H1.
Qed.

#[export] Program Instance memory_routing_store `{Unicode} `{Crypto} : RoutingStore Memory := {|
  rst_ListAliases m t := Ok (ListAliases m t);
  rst_ListRoutes m t := Ok (ListRoutes m t);
  rst_ListProviders m t := Ok (ListProviders m t);
  rst_ok := mem_ok
|}.
Next Obligation.
  intros ? ? m t l Hok [= <-]. unfold ListAliases. rewrite sort_slice_perm.
  apply pairwise_NoDup. apply (coll_ok_at _ aliases_ok _ t (mo_aliases m Hok)). by split; constructor.
Qed.
Next Obligation.
  intros ? ? m t l Hok [= <-]. unfold ListRoutes. rewrite sort_slice_perm.
  apply pairwise_NoDup. apply (coll_ok_at _ routes_ok _ t (mo_routes m Hok)). by split; constructor.
Qed.

(** ** Data *)

(** [AliasNamePattern], the regular expression ^[a-z][a-z0-9_-]{1,63}$ *)
Definition in_range (lo hi c : ascii) : bool :=
  (nat_of_ascii lo <=? nat_of_ascii c)%nat && (nat_of_ascii c <=? nat_of_ascii hi)%nat.
Definition alias_first (c : ascii) : bool := in_range "a" "z" c.
Definition alias_rest (c : ascii) : bool :=
  in_range "a" "z" c || in_range "0" "9" c || bool_decide (c = "_"%char) || bool_decide (c = "-"%char).
Definition AliasNamePattern (s : string) : bool :=
  match s with
  | "" => false
  | String c rest =>
      alias_first c && forallb alias_rest (String.list_ascii_of_string rest)
      && (1 <=? String.length rest)%nat && (String.length rest <=? 63)%nat
  end.

Definition seeded (name tier : string) (caps : list string) : Alias :=
  {| al_ID := ""; al_TenantID := ""; al_Name := name; al_Pin := ""; al_Capabilities := caps;
     al_MinContextWindow := 0; al_ProviderPreference := []; al_CostTier := tier; al_CreatedAt := 0 |}.

Definition SeededAliases : list Alias :=
  [seeded "fast" "cheapest" ["chat"]; seeded "balanced" "balanced" ["chat"];
   seeded "best" "best" ["chat"]; seeded "transcribe" "" ["transcription"]].

Record Candidate := {
  cd_TenantID : string;
  cd_Provider : string;
  cd_ProviderID : string;
  cd_Model : string;
  cd_Entry : Entry
}.

(** [Candidate.Key] *)
Definition cand_Key (c : Candidate) : string := Key (cd_TenantID c) (cd_Provider c) (cd_Model c).

Definition ServedBy (c : Candidate) : string := cd_Provider c +:+ "/" +:+ cd_Model c.

Record Resolver := { rv_maxDepth : Z }.

Definition NewResolver (maxDepth : Z) : Resolver :=
  {| rv_maxDepth := if maxDepth <? 1 then 5 else maxDepth |}.

(** ** Aliases *)

Section resolve.
Context `{Unicode}.

Definition entryCandidate (e : Entry) : Candidate :=
  {| cd_TenantID := ""; cd_Provider := en_Provider e; cd_ProviderID := en_ProviderID e;
     cd_Model := (ProviderOf (en_ID e)).2; cd_Entry := e |}.

Definition hasAll (have required : list string) : bool :=
  if bool_decide (required = []) then true
  else
    let set : gset string := list_to_set (ToLower <$> have) in
    forallb (λ r, bool_decide (ToLower r ∈ set)) required.

Definition alias_matches (a : Alias) (e : Entry) : bool :=
  hasAll (m_Capabilities (en_Model e)) (al_Capabilities a)
  && negb ((0 <? al_MinContextWindow a) && (0 <? m_ContextWindow (en_Model e))
           && (m_ContextWindow (en_Model e) <? al_MinContextWindow a)).

(** The preference list as a map to positions; a repeated name keeps the last. *)
Definition prefRank (prefs : list string) : gmap string nat :=
  foldl (λ m ip, <[ip.2 := ip.1]> m) ∅ (imap pair prefs).

Definition rankOf (a : Alias) (e : Entry) : nat :=
  default (length (al_ProviderPreference a)) (prefRank (al_ProviderPreference a) !! en_Provider e).

Definition cost (e : Entry) : f64 := m_InputCostPerMTok (en_Model e).

Definition cost_less (tier : string) (x y : Entry) : bool :=
  if bool_decide (tier = "best") then
    if negb (feqb (cost x) (cost y)) then fltb (cost y) (cost x) else String.ltb (en_ID x) (en_ID y)
  else if bool_decide (tier = "cheapest") || bool_decide (tier = "balanced") || bool_decide (tier = "")
  then if negb (feqb (cost x) (cost y)) then fltb (cost x) (cost y) else String.ltb (en_ID x) (en_ID y)
  else String.ltb (en_ID x) (en_ID y).

Definition alias_less (a : Alias) (x y : Entry) : bool :=
  if negb (rankOf a x =? rankOf a y)%nat then (rankOf a x <? rankOf a y)%nat
  else cost_less (al_CostTier a) x y.

Definition resolveAlias (a : Alias) (snap : Snapshot) : list Candidate :=
  let constrained :=
    entryCandidate <$> sort_slice (alias_less a) (List.filter (alias_matches a) (sn_Models snap)) in
  if negb (bool_decide (al_Pin a = "")) then
    match Lookup (Some snap) (al_Pin a) with
    | Some e => [entryCandidate e]
    | None => constrained
    end
  else constrained.

Definition resolveRef (ref : string) (aliases : gmap string Alias) (snap : Snapshot) :
    list Candidate :=
  match aliases !! ref with
  | Some a => resolveAlias a snap
  | None =>
      match Lookup (Some snap) ref with
      | Some e => [entryCandidate e]
      | None => []
      end
  end.

(** ** Chains *)

Definition chainFor (routes : res error (list Route)) (requested : string) :
    res error (list string) :=
  match routes with
  | Err e => Err e
  | Ok routes =>
      match List.find (λ rt, bool_decide (r_Match rt = requested)
                             && negb (bool_decide (r_Chain rt = []))) routes with
      | Some rt => Ok (r_Chain rt)
      | None => Ok [requested]
      end
  end.

Definition stamp (tenantID : string) (c : Candidate) : Candidate :=
  {| cd_TenantID := tenantID; cd_Provider := cd_Provider c; cd_ProviderID := cd_ProviderID c;
     cd_Model := cd_Model c; cd_Entry := cd_Entry c |}.

(** The loop over the chain: the first candidate of each reference that has not
    been taken yet, until the depth is reached. *)
Fixpoint walk (maxDepth : Z) (tenantID : string) (aliases : gmap string Alias) (snap : Snapshot)
    (chain : list string) (seen : gset string) (out : list Candidate) : list Candidate :=
  match chain with
  | [] => out
  | ref :: chain' =>
      if maxDepth <=? Z.of_nat (length out) then out
      else match List.find (λ c, negb (bool_decide (ServedBy c ∈ seen))) (resolveRef ref aliases snap) with
           | Some c => walk maxDepth tenantID aliases snap chain' ({[ServedBy c]} ∪ seen)
                         (out ++ [stamp tenantID c])
           | None => walk maxDepth tenantID aliases snap chain' seen out
           end
  end.

Definition aliasByName (aliases : list Alias) : gmap string Alias :=
  foldl (λ m a, <[al_Name a := a]> m) ∅ aliases.

(** [Resolve] after the catalog read: the candidates or the error. *)
Definition resolve_in {S} `{RoutingStore S} (r : Resolver) (s : S) (tenantID requested : string)
    (snap : Snapshot) : res error (list Candidate) :=
  match rst_ListAliases s tenantID with
  | Err e => Err e
  | Ok aliases =>
      let byName := aliasByName aliases in
      match chainFor (rst_ListRoutes s tenantID) requested with
      | Err e => Err e
      | Ok chain =>
          match walk (rv_maxDepth r) tenantID byName snap chain ∅ [] with
          | [] => if is_None_b (byName !! requested) then Err (ErrApi (ModelNotFound requested))
                  else Err (ErrApi (AliasUnresolvable requested))
          | out => Ok out
          end
      end
  end.

Definition Resolve {S} `{RoutingStore S} {A} (adapters : gmap string A)
    (answer : nat → A → Credential → res message (list Model)) (r : Resolver) (s : S) (c : Catalog)
    (now now' : Z) (tenantID requested : string) :
    res error (list Candidate) * option Snapshot * Catalog :=
  let '(got, c) := Get adapters answer c tenantID (rst_ListProviders s tenantID) now now' in
  match got with
  | Err e =>
      (Err (ErrApi (WithCause
        (Unavailable (text "The model catalog is unavailable; no provider could be reached.")) e)),
       None, c)
  | Ok snap => (resolve_in r s tenantID requested snap, Some snap, c)
  end.

(** [ValidateChain]: the first repeated reference is the error. *)
Fixpoint validate_chain (seen : gset string) (chain : list string) : res error () :=
  match chain with
  | [] => Ok ()
  | m :: chain' =>
      if bool_decide (m ∈ seen) then Err (ErrApi (FallbackDuplicate m))
      else validate_chain ({[m]} ∪ seen) chain'
  end.
Definition ValidateChain (chain : list string) : res error () := validate_chain ∅ chain.

(** ** Lemmas *)

(** What the resolver relies on about a snapshot. *)
Class IndexedSnapshot (s : Snapshot) : Prop := {
  is_id id e : sn_byID s !! id = Some e → en_ID e = id;
  is_models e : e ∈ sn_Models s → sn_byID s !! en_ID e = Some e;
  is_nodup : NoDup (ids s)
}.

Lemma snap_ok_indexed prices os s : snap_ok prices os s → IndexedSnapshot s.
Proof. by intros [? ? ? _ _ _]. Qed.

Lemma cost_less_weak tier : weak_order (cost_less tier) (λ e, not_nan (cost e)).
Proof.
  unfold cost_less. destruct (bool_decide (tier = "best")); [|destruct (_ || _)].
  - apply (lex_weak (λ x y, feqb (cost x) (cost y)) (λ x y, fltb (cost y) (cost x)));
      [apply fgtb_weak|apply str_ltb_weak|].
    intros x y Hx Hy. by rewrite feqb_fltb, andb_comm.
  - apply (lex_weak (λ x y, feqb (cost x) (cost y)) (λ x y, fltb (cost x) (cost y)));
      [apply fltb_weak|apply str_ltb_weak|].
    intros x y Hx Hy. by apply feqb_fltb.
  - apply str_ltb_weak.
Qed.

Lemma alias_less_weak a : weak_order (alias_less a) (λ e, not_nan (cost e)).
Proof.
  apply (lex_weak (λ x y, rankOf a x =? rankOf a y)%nat (λ x y, rankOf a x <? rankOf a y)%nat);
    [|apply cost_less_weak|].
  - split; intros *; rewrite !Nat.ltb_lt, ?Nat.ltb_ge; lia.
  - intros x y _ _. destruct (Nat.eqb_spec (rankOf a x) (rankOf a y)),
      (Nat.ltb_spec (rankOf a x) (rankOf a y)), (Nat.ltb_spec (rankOf a y) (rankOf a x)); simpl; lia.
Qed.

(** Entries with different ids are told apart. *)
Lemma alias_less_sep a x y :
  not_nan (cost x) → not_nan (cost y) →
  alias_less a x y = false → alias_less a y x = false → en_ID x = en_ID y.
Proof.
  intros Hx Hy. unfold alias_less. rewrite (Nat.eqb_sym (rankOf a y)).
  destruct (Nat.eqb_spec (rankOf a x) (rankOf a y)); simpl.
  2: { rewrite !Nat.ltb_ge. lia. }
  unfold cost_less. rewrite (feqb_sym (cost y) (cost x)), !feqb_fltb by done.
  destruct (fltb (cost x) (cost y)) eqn:E1, (fltb (cost y) (cost x)) eqn:E2; simpl;
    repeat case_bool_decide; simpl; try done; apply str_ltb_total.
Qed.

Lemma resolveRef_indexed ref aliases snap c :
  IndexedSnapshot snap → c ∈ resolveRef ref aliases snap →
  c = entryCandidate (cd_Entry c) ∧ sn_byID snap !! en_ID (cd_Entry c) = Some (cd_Entry c).
Proof.
  intros [Hid Hm _].
  assert (∀ id e, sn_byID snap !! id = Some e → c ∈ [entryCandidate e] →
    c = entryCandidate (cd_Entry c) ∧ sn_byID snap !! en_ID (cd_Entry c) = Some (cd_Entry c)) as H1.
  { intros id e He ->%list_elem_of_singleton. simpl. by rewrite (Hid _ _ He). }
  assert (∀ a, c ∈ entryCandidate <$> sort_slice (alias_less a) (List.filter (alias_matches a) (sn_Models snap)) →
    c = entryCandidate (cd_Entry c) ∧ sn_byID snap !! en_ID (cd_Entry c) = Some (cd_Entry c)) as H2.
  { intros a (e & -> & He)%list_elem_of_fmap. simpl. split; [done|]. apply Hm.
    by apply elem_of_sort_slice, elem_of_filter_bool, proj1 in He. }
  unfold resolveRef, resolveAlias, Lookup.
  destruct (aliases !! ref) as [a|]; [destruct (negb _);
    [destruct (sn_byID snap !! al_Pin a) eqn:E|]|destruct (sn_byID snap !! ref) eqn:E]; eauto.
  by intros ?%not_elem_of_nil.
Qed.

(** What a reference's candidates look like in the outcome. *)
Definition from_ref (tenantID : string) (aliases : gmap string Alias) (snap : Snapshot)
    (ref : string) (c : Candidate) : Prop :=
  ∃ c0, c0 ∈ resolveRef ref aliases snap ∧ c = stamp tenantID c0.

Lemma walk_spec maxDepth t aliases snap chain seen out :
  (∀ c, c ∈ out → ServedBy c ∈ seen) → (∀ x, x ∈ seen → x ∈ ServedBy <$> out) →
  ∃ new refs, walk maxDepth t aliases snap chain seen out = out ++ new ∧
    (Z.of_nat (length out) ≤ maxDepth → Z.of_nat (length (out ++ new)) ≤ maxDepth) ∧
    NoDup (ServedBy <$> new) ∧ (∀ c, c ∈ new → ServedBy c ∉ seen) ∧
    refs `sublist_of` chain ∧ Forall2 (from_ref t aliases snap) refs new ∧
    (Z.of_nat (length (out ++ new)) < maxDepth → ∀ ref, ref ∈ chain →
       resolveRef ref aliases snap ≠ [] →
       ∃ c, c ∈ resolveRef ref aliases snap ∧ ServedBy c ∈ ServedBy <$> (out ++ new)).
Proof.
  revert seen out; induction chain as [|ref chain IH]; intros seen out Hso Hos; simpl.
  { exists [], []. rewrite app_nil_r. split_and!; try done; try constructor.
    - by intros c ?%not_elem_of_nil.
    - by intros _ ref ?%not_elem_of_nil. }
  destruct (Z.leb_spec maxDepth (Z.of_nat (length out))) as [Hd|Hd].
  { exists [], []. rewrite app_nil_r. split_and!; try done; try constructor; try lia.
    - by intros c ?%not_elem_of_nil.
    - apply sublist_nil_l. }
  destruct (List.find _ (resolveRef ref aliases snap)) as [c|] eqn:Ef.
  - apply List.find_some in Ef as [Hc Hf]. apply list_elem_of_In in Hc.
    apply negb_true_iff, bool_decide_eq_false in Hf.
    assert (ServedBy (stamp t c) = ServedBy c) as Hst by done.
    destruct (IH ({[ServedBy c]} ∪ seen) (out ++ [stamp t c]))
      as (new & refs & E & Hlen & Hnd & Hseen & Hsub & HF & Hcomp).
    { intros x [Hx| ->]%elem_of_snoc; [apply elem_of_union_r; auto|].
      rewrite Hst. by apply elem_of_union_l, elem_of_singleton. }
    { intros x [->%elem_of_singleton|Hx]%elem_of_union; rewrite fmap_app; apply elem_of_app; [right|left; auto].
      rewrite fmap_cons, Hst. left. }
    exists (stamp t c :: new), (ref :: refs). rewrite E, <-app_assoc. split_and!; try done.
    + intros _. rewrite <-app_assoc in Hlen. apply Hlen. rewrite length_app. simpl. lia.
    + rewrite fmap_cons. constructor; [|done]. intros (y & Ey & Hy)%list_elem_of_fmap.
      apply (Hseen y Hy). rewrite <-Ey, Hst. by apply elem_of_union_l, elem_of_singleton.
    + intros y [->|Hy]%elem_of_cons; [by rewrite Hst|]. intros Hy'. apply (Hseen y Hy).
      by apply elem_of_union_r.
    + by apply sublist_skip.
    + constructor; [|done]. by exists c.
    + intros Hl r' [->|Hr]%elem_of_cons Hne.
      * exists c. split; [done|]. rewrite fmap_app, fmap_cons, Hst. apply elem_of_app. right. left.
      * rewrite <-app_assoc in Hcomp. by apply Hcomp.
  - destruct (IH seen out Hso Hos) as (new & refs & E & Hlen & Hnd & Hseen & Hsub & HF & Hcomp).
    exists new, refs. rewrite E. split_and!; try done; [by apply sublist_cons|].
    intros Hl r' [->|Hr]%elem_of_cons Hne; [|by apply Hcomp].
    destruct (resolveRef ref aliases snap) as [|c l]; [done|]. simpl in Ef.
    destruct (bool_decide (ServedBy c ∈ seen)) eqn:Eb; [|done]. apply bool_decide_eq_true in Eb.
    exists c. split; [left|]. rewrite fmap_app. apply elem_of_app. left. auto.
Qed.

Lemma aliasByName_None aliases name : aliasByName aliases !! name = None ↔ name ∉ al_Name <$> aliases.
Proof.
  unfold aliasByName. induction aliases as [|a l IH] using rev_ind.
  { simpl. rewrite lookup_empty. split; [intros _; apply not_elem_of_nil|done]. }
  rewrite foldl_snoc, lookup_insert_None, IH, fmap_app. simpl.
  rewrite elem_of_snoc. split; [intros [? ?] [?|?]; congruence|]. intros Hn. split; auto.
Qed.

Lemma aliasByName_Some aliases a :
  NoDup (al_Name <$> aliases) → a ∈ aliases → aliasByName aliases !! al_Name a = Some a.
Proof.
  unfold aliasByName. induction aliases as [|b l IH] using rev_ind; [by intros _ ?%not_elem_of_nil|].
  rewrite fmap_app, foldl_snoc. intros (Hnd & Hdis & _)%NoDup_app [Ha| ->]%elem_of_snoc.
  - rewrite lookup_insert_ne; [auto|]. intros E. apply (Hdis (al_Name a)).
    + apply list_elem_of_fmap. eauto.
    + rewrite <-E. left.
  - by rewrite lookup_insert_eq.
Qed.

Lemma ProviderOf_plain id : has_slash id = false → ProviderOf id = ("", id).
Proof. unfold ProviderOf, has_slash. intros E%Cut_None. by rewrite E. Qed.

Lemma ProviderOf_qualified p m : p ≠ "" → has_slash p = false → ProviderOf (p +:+ "/" +:+ m) = (p, m).
Proof.
  unfold ProviderOf, has_slash. intros Hp Hs. change ("/" +:+ m) with (String "/" m).
  rewrite Cut_app by done. by rewrite bool_decide_eq_false_2.
Qed.

Lemma validate_chain_spec seen chain :
  match validate_chain seen chain with
  | Ok _ => NoDup chain ∧ (∀ x, x ∈ chain → x ∉ seen)
  | Err e => ∃ pre m post, chain = pre ++ m :: post ∧ e = ErrApi (FallbackDuplicate m) ∧
      (m ∈ seen ∨ m ∈ pre) ∧ NoDup pre ∧ (∀ x, x ∈ pre → x ∉ seen)
  end.
Proof.
  revert seen; induction chain as [|m chain IH]; intros seen; simpl.
  { split; [constructor|]. by intros x ?%not_elem_of_nil. }
  case_bool_decide as Em.
  { exists [], m, chain. split_and!; auto; [constructor|]. by intros x ?%not_elem_of_nil. }
  specialize (IH ({[m]} ∪ seen)). destruct (validate_chain _ chain).
  - destruct IH as [Hnd Hs]. split.
    + constructor; [|done]. intros Hin. apply (Hs m Hin). by apply elem_of_union_l, elem_of_singleton.
    + intros x [->|Hx]%elem_of_cons; [done|]. intros Hx'. apply (Hs x Hx). by apply elem_of_union_r.
  - destruct IH as (pre & m' & post & -> & -> & Hin & Hnd & Hs).
    exists (m :: pre), m', post. split_and!; try done.
    + destruct Hin as [[->%elem_of_singleton|?]%elem_of_union|?]; [right; left|by left|right; by right].
    + constructor; [|done]. intros Hin'. apply (Hs m Hin'). by apply elem_of_union_l, elem_of_singleton.
    + intros x [->|Hx]%elem_of_cons; [done|]. intros Hx'. apply (Hs x Hx). by apply elem_of_union_r.
Qed.

End resolve.

(** ** Component theorems *)

Module ResolveFacts.
Section facts.
Context `{Unicode} {S : Type} `{RoutingStore S}.

(** C23: Resolution is sound: the candidate list is never empty, never longer than
    the configured depth, names each destination once, is stamped with the tenant,
    follows the order of the chain with at most one candidate per position, and
    every candidate is an entry of the snapshot. Unless the depth cut it off, no
    position was passed over: each reference that means anything has a
    destination in the list. *)
Theorem resolve_is_sound maxDepth s t requested snap aliases chain out :
  IndexedSnapshot snap →
  rst_ListAliases s t = Ok aliases → chainFor (rst_ListRoutes s t) requested = Ok chain →
  let r := NewResolver maxDepth in
  resolve_in r s t requested snap = Ok out →
  out ≠ [] ∧ Z.of_nat (length out) ≤ rv_maxDepth r ∧ NoDup (ServedBy <$> out) ∧
  Forall (λ c, cd_TenantID c = t ∧ c = stamp t (entryCandidate (cd_Entry c)) ∧
               sn_byID snap !! en_ID (cd_Entry c) = Some (cd_Entry c)) out ∧
  (∃ refs, refs `sublist_of` chain ∧ Forall2 (from_ref t (aliasByName aliases) snap) refs out) ∧
  (Z.of_nat (length out) < rv_maxDepth r → ∀ ref, ref ∈ chain →
     resolveRef ref (aliasByName aliases) snap ≠ [] →
     ∃ c, c ∈ resolveRef ref (aliasByName aliases) snap ∧ ServedBy c ∈ ServedBy <$> out).
Proof.
  intros Hix Ha Hc r. unfold resolve_in. rewrite Ha, Hc.
  destruct (walk_spec (rv_maxDepth r) t (aliasByName aliases) snap chain ∅ [])
    as (new & refs & E & Hlen & Hnd & _ & Hsub & HF & Hcomp).
  { by intros c ?%not_elem_of_nil. }
  { by intros x ?%not_elem_of_empty. }
  rewrite E. simpl in *. intros Hr.
  assert (new = out) as -> by (destruct new; [by destruct (is_None_b _)|by injection Hr as <-]).
  split_and!; auto.
  - intros ->. by destruct (is_None_b _).
  - apply Hlen. unfold r, NewResolver. simpl. destruct (Z.ltb_spec maxDepth 1); simpl; lia.
  - apply Forall_forall. intros c Hin. apply list_elem_of_lookup_1 in Hin as [i Hi].
    destruct (Forall2_lookup_r _ _ _ _ _ HF Hi) as (ref & _ & c0 & Hc0 & ->).
    destruct (resolveRef_indexed _ _ _ _ Hix Hc0) as [-> ?]. done.
  - eauto.
Qed.

(** Resolution fails only when nothing in the chain means anything, and the
    code tells the two cases apart: the caller named one of the tenant's aliases,
    or it named no model. *)
Theorem resolve_error_codes maxDepth s t requested snap aliases chain e :
  rst_ListAliases s t = Ok aliases → chainFor (rst_ListRoutes s t) requested = Ok chain →
  resolve_in (NewResolver maxDepth) s t requested snap = Err e →
  (∀ ref, ref ∈ chain → resolveRef ref (aliasByName aliases) snap = []) ∧
  e = ErrApi (if bool_decide (requested ∈ al_Name <$> aliases)
              then AliasUnresolvable requested else ModelNotFound requested).
Proof.
  intros Ha Hc. unfold resolve_in. rewrite Ha, Hc.
  destruct (walk_spec (rv_maxDepth (NewResolver maxDepth)) t (aliasByName aliases) snap chain ∅ [])
    as (new & refs & E & _ & _ & _ & _ & _ & Hcomp).
  { by intros c ?%not_elem_of_nil. }
  { by intros x ?%not_elem_of_empty. }
  rewrite E. simpl in *. destruct new as [|c new]; [|done]. intros He. split.
  - intros ref Hr. destruct (resolveRef ref (aliasByName aliases) snap) as [|c l] eqn:Er; [done|].
    exfalso. destruct (Hcomp) with (ref := ref) as (c' & _ & Hc'); [|done|by rewrite Er|].
    + unfold NewResolver. simpl. destruct (Z.ltb_spec maxDepth 1); lia.
    + by apply not_elem_of_nil in Hc'.
  - destruct (aliasByName aliases !! requested) as [a|] eqn:En; simpl in He.
    + rewrite bool_decide_eq_true_2; [by injection He|]. apply dec_stable.
      intros Hn%aliasByName_None. congruence.
    + rewrite bool_decide_eq_false_2; [by injection He|]. by apply aliasByName_None.
Qed.

(** A direct request: with no alias of that name and no route for it, a plain
    model id resolves to its catalog entry and nothing else, asked for under the
    very id the caller used; otherwise the answer is model_not_found. *)
Theorem direct_request maxDepth s t requested snap aliases routes :
  IndexedSnapshot snap → has_slash requested = false →
  rst_ListAliases s t = Ok aliases → requested ∉ al_Name <$> aliases →
  rst_ListRoutes s t = Ok routes → requested ∉ r_Match <$> routes →
  resolve_in (NewResolver maxDepth) s t requested snap =
    match Lookup (Some snap) requested with
    | Some e => Ok [{| cd_TenantID := t; cd_Provider := en_Provider e;
                       cd_ProviderID := en_ProviderID e; cd_Model := requested; cd_Entry := e |}]
    | None => Err (ErrApi (ModelNotFound requested))
    end.
Proof.
  intros [Hid _ _] Hs Ha Hna Hr Hnr. unfold resolve_in. rewrite Ha, Hr.
  assert (chainFor (Ok routes) requested = Ok [requested]) as ->.
  { unfold chainFor. destruct (List.find _ routes) as [rt|] eqn:Ef; [|done].
    apply List.find_some in Ef as [Hin Hm]. apply andb_true_iff in Hm as [Hm%bool_decide_eq_true _].
    destruct Hnr. apply list_elem_of_fmap. exists rt. by rewrite list_elem_of_In. }
  apply aliasByName_None in Hna. simpl. unfold resolveRef, Lookup. rewrite Hna.
  rewrite (proj2 (Z.leb_gt _ 0)) by (destruct (Z.ltb_spec maxDepth 1); lia).
  destruct (sn_byID snap !! requested) as [e|] eqn:E; simpl; [|done].
  rewrite bool_decide_eq_false_2 by apply not_elem_of_empty. simpl.
  do 2 f_equal. unfold stamp, entryCandidate. simpl. by rewrite (Hid _ _ E), ProviderOf_plain.
Qed.

(** Alias selection. A pin the catalog has wins outright. Otherwise the
    candidates are exactly the listed models that meet the capability and context
    constraints, best first: no later one is preferred to an earlier one by provider
    rank, then cost tier, then id. The order the catalog lists its models in
    does not matter, so the same request resolves the same way twice. *)
Theorem alias_selection a snap :
  IndexedSnapshot snap → Forall (λ e, not_nan (cost e)) (sn_Models snap) →
  match Lookup (Some snap) (al_Pin a) with
  | Some e => al_Pin a ≠ "" → resolveAlias a snap = [entryCandidate e]
  | None =>
      ∃ l, resolveAlias a snap = entryCandidate <$> l ∧
        (∀ e, e ∈ l ↔ e ∈ sn_Models snap ∧ alias_matches a e = true) ∧ NoDup (en_ID <$> l) ∧
        StronglySorted (ordered (alias_less a)) l ∧
        ∀ snap', sn_Models snap' ≡ₚ sn_Models snap → sn_byID snap' = sn_byID snap →
          resolveAlias a snap' = resolveAlias a snap
  end.
Proof.
  intros Hix HF. unfold resolveAlias, Lookup.
  destruct (sn_byID snap !! al_Pin a) as [e|] eqn:Ep.
  { intros Hp. by rewrite bool_decide_eq_false_2. }
  set (l := sort_slice (alias_less a) (List.filter (alias_matches a) (sn_Models snap))).
  assert (∀ s', sn_byID s' = sn_byID snap →
    (if negb (bool_decide (al_Pin a = ""))
     then match sn_byID s' !! al_Pin a with
          | Some e => [entryCandidate e]
          | None => entryCandidate <$> sort_slice (alias_less a) (List.filter (alias_matches a) (sn_Models s'))
          end
     else entryCandidate <$> sort_slice (alias_less a) (List.filter (alias_matches a) (sn_Models s')))
    = entryCandidate <$> sort_slice (alias_less a) (List.filter (alias_matches a) (sn_Models s'))) as Hu.
  { intros s' ->. rewrite Ep. by destruct (negb _). }
  assert (Forall (λ e, not_nan (cost e)) (List.filter (alias_matches a) (sn_Models snap))) as HF'.
  { apply Forall_forall. intros e. rewrite elem_of_filter_bool.
    intros [He _]. by apply (proj1 (Forall_forall _ _) HF). }
  assert (∀ x y, x ∈ sn_Models snap → y ∈ sn_Models snap → en_ID x = en_ID y → x = y) as Hinj.
  { intros x y Hx Hy E. pose proof (is_models x Hx). pose proof (is_models y Hy). congruence. }
  exists l. split_and!.
  - destruct (negb _); done.
  - intros e. unfold l. by rewrite elem_of_sort_slice, elem_of_filter_bool.
  - unfold l. rewrite sort_slice_perm. pose proof (is_nodup (s := snap)) as Hnd. unfold ids in Hnd.
    eapply sublist_NoDup; [exact Hnd|]. apply fmap_sublist. clear.
    induction (sn_Models snap) as [|e es IH]; simpl; [constructor|].
    destruct (alias_matches a e); by constructor.
  - by apply (sort_slice_sorted _ (alias_less_weak a)).
  - intros snap' Hp Hb. rewrite (Hu snap' Hb). trans (entryCandidate <$> l); [|by destruct (negb _)].
    f_equal. symmetry. apply (sort_slice_perm_eq _ (alias_less_weak a)); [done| |].
    + intros x y. rewrite !elem_of_filter_bool.
      intros [Hx _] [Hy _] H1 H2. apply Hinj; [done..|].
      rewrite Forall_forall in HF. by apply (alias_less_sep a); auto.
    + by apply filter_bool_perm.
Qed.

(** A chain is accepted exactly when it names no model twice, and the error
    names the first reference that repeats an earlier one. *)
Theorem chain_validation chain :
  match ValidateChain chain with
  | Ok _ => NoDup chain
  | Err e => ∃ pre m post, chain = pre ++ m :: post ∧ m ∈ pre ∧ NoDup pre ∧
               e = ErrApi (FallbackDuplicate m)
  end.
Proof.
  unfold ValidateChain. pose proof (validate_chain_spec ∅ chain) as Hv.
  destruct (validate_chain ∅ chain); [by destruct Hv|].
  destruct Hv as (pre & m & post & ? & ? & [?%not_elem_of_empty|?] & ? & _); [done|].
  by exists pre, m, post.
Qed.

(** A model id that itself holds a slash loses everything up to it: whatever
    provider serves "vendor/model", it is asked for "model". *)
Theorem slash_id_loses_its_vendor e vendor model :
  vendor ≠ "" → has_slash vendor = false → en_ID e = vendor +:+ "/" +:+ model →
  cd_Model (entryCandidate e) = model ∧ cd_Provider (entryCandidate e) = en_Provider e.
Proof. intros Hv Hs E. unfold entryCandidate. simpl. by rewrite E, ProviderOf_qualified. Qed.

End facts.

(** ** Worked examples *)

#[local] Existing Instance ascii_only.
#[local] Existing Instance Store.toy_hash.

(** The tenant of the store's examples with an alias, a dead alias and a chain. *)
Definition demo_alias (name pin tier : string) (caps : list string) : Alias :=
  {| al_ID := ""; al_TenantID := Store.acme; al_Name := name; al_Pin := pin; al_Capabilities := caps;
     al_MinContextWindow := 0; al_ProviderPreference := ["alpha"]; al_CostTier := tier;
     al_CreatedAt := 0 |}.
Definition demo_route : Route :=
  {| r_ID := ""; r_TenantID := Store.acme; r_Match := "gpt";
     r_Chain := ["missing"; "gpt"; "zeta/gpt"; "cheap"; "alpha/gpt"]; r_CreatedAt := 0 |}.
Definition demo_store : Memory :=
  Eval vm_compute in
  run_mem Store.demo [OpUpsertAlias "1" 1 (demo_alias "cheap" "" "best" ["CHAT"]);
                      OpUpsertAlias "2" 2 (demo_alias "dead" "" "" ["vision"]);
                      OpUpsertRoute "3" 3 demo_route].
Definition snapshot : Snapshot := CatalogFacts.demo_snapshot.

#[local] Instance snapshot_indexed : IndexedSnapshot snapshot.
Proof.
  eapply snap_ok_indexed, refresh_ok, CatalogFacts.demo_refresh.
Qed.

Definition demo_out : list Candidate :=
  Eval vm_compute in
  match resolve_in (NewResolver 5) demo_store Store.acme "gpt" snapshot with Ok l => l | Err _ => [] end.

Lemma resolve_is_sound_witness :
  ServedBy <$> demo_out = ["zeta/gpt"; "zeta/small"; "alpha/gpt"] ∧ NoDup (ServedBy <$> demo_out).
Proof.
  split; [by vm_compute|].
  apply (resolve_is_sound 5 demo_store Store.acme "gpt" snapshot
    (ListAliases demo_store Store.acme) (r_Chain demo_route) demo_out snapshot_indexed);
    vm_compute; reflexivity.
Defined.

Lemma resolve_error_codes_witness :
  resolve_in (NewResolver 5) demo_store Store.acme "dead" snapshot =
    Err (ErrApi (AliasUnresolvable "dead")) ∧
  resolveRef "dead" (aliasByName (ListAliases demo_store Store.acme)) snapshot = [].
Proof.
  assert (resolve_in (NewResolver 5) demo_store Store.acme "dead" snapshot =
    Err (ErrApi (AliasUnresolvable "dead"))) as E by (vm_compute; reflexivity).
  split; [done|].
  apply (resolve_error_codes 5 demo_store Store.acme "dead" snapshot
    (ListAliases demo_store Store.acme) ["dead"] _) in E as [E _]; [|vm_compute; reflexivity..].
  apply E. left.
Defined.

Lemma direct_request_witness :
  is_ok (resolve_in (NewResolver 0) demo_store Store.acme "small" snapshot) = true.
Proof.
  rewrite (direct_request 0 demo_store Store.acme "small" snapshot
    (ListAliases demo_store Store.acme) (ListRoutes demo_store Store.acme)).
  - by vm_compute.
  - apply snapshot_indexed.
  - done.
  - done.
  - apply (bool_decide_unpack _). by vm_compute.
  - done.
  - apply (bool_decide_unpack _). by vm_compute.
Defined.

Lemma alias_selection_witness :
  ∃ l, resolveAlias (demo_alias "cheap" "retired" "cheapest" ["chat"]) snapshot = entryCandidate <$> l ∧
    NoDup (en_ID <$> l).
Proof.
  destruct (alias_selection (demo_alias "cheap" "retired" "cheapest" ["chat"]) snapshot
    snapshot_indexed) as (l & H1 & _ & H2 & _); [repeat constructor; done|].
  eauto.
Defined.

(** An aggregator that lists "openai/gpt-4o" is asked for "gpt-4o". *)
Lemma slash_id_loses_its_vendor_witness :
  cd_Model (entryCandidate (mkCatEntry (CatalogFacts.demo_model "openai/gpt-4o" 1) "p")) = "gpt-4o".
Proof. by apply (slash_id_loses_its_vendor _ "openai" "gpt-4o"). Defined.

End ResolveFacts.
