(* ===== verification/Dispatch.v ===== *)
(** * The cascade (internal/routing/dispatch.go)

    One request: candidates in order, the key pool of a provider while it
    answers 429, and an end as soon as the failure is the caller's fault. The
    state is the dispatcher's (breaker, key cursors, cooldowns) with the log of
    upstream calls made and the number of clock readings taken. What an upstream
    answers may depend on everything sent so far: it is the function [upstream]
    of the calls made and the call at hand. The clock is [clock], indexed by
    reading. *)

From S2P Require Import Prelude GoStrings GoTime GoFloat ApiErr StoreTypes Json Provider Breaker Catalog Resolve.
From Stdlib Require Import Ascii.

#[local] Open Scope Z_scope.
#[local] Open Scope stdpp_scope.

(** ** Data *)

Record Attempt := mkAttempt {
  at_Candidate : Candidate;
  at_Failure : FailureKind;
  at_Status : Z;
  at_Skipped : bool;
  at_Latency : Z;
  at_Err : option error
}.

Definition new_attempt (c : Candidate) : Attempt := mkAttempt c FailNone 0 false 0 None.

Record Result := {
  res_Response : Response;
  res_Candidate : Candidate;
  res_Depth : Z;
  res_Attempts : list Attempt;
  res_Snapshot : option Snapshot
}.

(** One upstream call: the adapter, the credential and the request. *)
Record call (A : Type) := mkCall { call_adapter : A; call_cred : Credential; call_req : Request }.
Arguments mkCall {A}.
Arguments call_adapter {A}.
Arguments call_cred {A}.
Arguments call_req {A}.

Record Dispatcher (A : Type) := mkDisp {
  d_breaker : Breaker;
  d_cursors : gmap string Z;
  d_cooldowns : gmap (string * string) Z;
  d_calls : list (call A);
  d_tick : nat
}.
Arguments mkDisp {A}.
Arguments d_breaker {A}.
Arguments d_cursors {A}.
Arguments d_cooldowns {A}.
Arguments d_calls {A}.
Arguments d_tick {A}.

Definition set_breaker {A} (d : Dispatcher A) (b : Breaker) : Dispatcher A :=
  mkDisp b (d_cursors d) (d_cooldowns d) (d_calls d) (d_tick d).
Definition set_cursors {A} (d : Dispatcher A) x : Dispatcher A :=
  mkDisp (d_breaker d) x (d_cooldowns d) (d_calls d) (d_tick d).
Definition set_cooldowns {A} (d : Dispatcher A) x : Dispatcher A :=
  mkDisp (d_breaker d) (d_cursors d) x (d_calls d) (d_tick d).
Definition tick {A} (d : Dispatcher A) : Dispatcher A :=
  mkDisp (d_breaker d) (d_cursors d) (d_cooldowns d) (d_calls d) (S (d_tick d)).

Definition NewDispatcher {A} (b : Breaker) : Dispatcher A := mkDisp b ∅ ∅ [] 0.

(** ** Pricing *)

Definition million : f64 := f_of_Z 1000000.

Definition CostUSD (c : Candidate) (usage : option Usage) : f64 :=
  match usage with
  | None => fzero
  | Some u =>
      let inp := m_InputCostPerMTok (en_Model (cd_Entry c)) in
      let out := m_OutputCostPerMTok (en_Model (cd_Entry c)) in
      if feqb inp fzero && feqb out fzero then fzero
      else fadd (fmul (fdiv (f_of_Z (us_PromptTokens u)) million) inp)
                (fmul (fdiv (f_of_Z (us_CompletionTokens u)) million) out)
  end.

(** ** Bodies *)

(** [http.ParseTime]: the three HTTP date formats. *)
Class HttpDates := { ParseTime : string → option Z }.

Section bodies.
Context `{Unicode} `{JsonCodec}.

Definition bad_json : error := ErrText (text "json").

(** [withModel]; the outer [None] is the panic of writing to the nil map that
    decoding the document [null] leaves. *)
Definition withModel (body resolved : string) : option (res error string) :=
  match Unmarshal body with
  | None => Some (Err bad_json)
  | Some (JObj fields) =>
      Some (Ok (Marshal (JObj (map_fields (<["model" := JStr resolved]> (fields_map fields))))))
  | Some JNull => None
  | Some _ => Some (Err bad_json)
  end.

(** Decoding a JSON value into a Go string field: null leaves it alone, another
    type is an error and leaves it alone too. *)
Definition decode_string (cur : string) (v : json) : string * bool :=
  match v with JStr s => (s, true) | JNull => (cur, true) | _ => (cur, false) end.

(** The anonymous struct of [clientError] and whether decoding succeeded. *)
Record upstream_error := mkUE {
  ue_Message : string; ue_Param : string; ue_Code : string; ue_ok : bool
}.

Definition decode_field (e : upstream_error) (kv : string * json) : upstream_error :=
  let '(k, v) := kv in
  if EqualFold k "message" then
    let '(s, ok) := decode_string (ue_Message e) v in
    mkUE s (ue_Param e) (ue_Code e) (ue_ok e && ok)
  else if EqualFold k "param" then
    let '(s, ok) := decode_string (ue_Param e) v in
    mkUE (ue_Message e) s (ue_Code e) (ue_ok e && ok)
  else if EqualFold k "code" then
    let '(s, ok) := decode_string (ue_Code e) v in
    mkUE (ue_Message e) (ue_Param e) s (ue_ok e && ok)
  else e.

Definition decode_error (body : string) : upstream_error :=
  let none ok := mkUE "" "" "" ok in
  match Unmarshal body with
  | None => none false
  | Some (JObj fields) =>
      foldl (λ e kv,
          if EqualFold kv.1 "error" then
            match kv.2 with
            | JObj inner => foldl decode_field e inner
            | JNull => e
            | _ => mkUE (ue_Message e) (ue_Param e) (ue_Code e) false
            end
          else e) (none true) fields
  | Some JNull => none true
  | Some _ => none false
  end.

Definition clientError (resp : Response) : error :=
  let parsed := decode_error (rs_Body resp) in
  let msg := if ue_ok parsed && negb (bool_decide (ue_Message parsed = ""))
             then ue_Message parsed else "The upstream provider rejected the request." in
  let code := if negb (bool_decide (ue_Code parsed = "")) then ue_Code parsed else CodeInvalidRequest in
  ErrApi (mkError (rs_StatusCode resp) code TypeInvalidRequest (text msg) (ue_Param parsed) None [] 0).

(** ** Key pools *)

Definition two64 : Z := 2 * two63.

Definition keyOrder {A} (d : Dispatcher A) (p : Provider) : list string * Dispatcher A :=
  let n := Z.of_nat (length (p_Keys p)) in
  if (n <? 2) || bool_decide (p_KeyStrategy p = KeyStrategyFailover) then (p_Keys p, d)
  else
    let start := default 0 (d_cursors d !! p_ID p) in
    let d := set_cursors d (<[p_ID p := (start + 1) mod two64]> (d_cursors d)) in
    let offset := start mod n in
    ((λ i, default "" (p_Keys p !! Z.to_nat ((offset + Z.of_nat i) mod n))) <$>
       seq 0 (length (p_Keys p)), d).

Definition coolKey {A} (d : Dispatcher A) (providerID key : string) (until : Z) : Dispatcher A :=
  match d_cooldowns d !! (providerID, key) with
  | Some cur =>
      if After cur until then d
      else set_cooldowns d (<[(providerID, key) := until]> (d_cooldowns d))
  | None => set_cooldowns d (<[(providerID, key) := until]> (d_cooldowns d))
  end.

(** The loop of [readyKeys]: the ready keys and what is left of the cooldowns. *)
Fixpoint ready_loop (now : Z) (providerID : string) (order : list string)
    (cool : gmap (string * string) Z) : list string * gmap (string * string) Z :=
  match order with
  | [] => ([], cool)
  | key :: order' =>
      match cool !! (providerID, key) with
      | Some until =>
          if After until now then ready_loop now providerID order' cool
          else let '(ready, cool) := ready_loop now providerID order' (delete (providerID, key) cool) in
               (key :: ready, cool)
      | None => let '(ready, cool) := ready_loop now providerID order' cool in (key :: ready, cool)
      end
  end.

Section effects.
Context `{HttpDates}.
Context {A : Type} (upstream : list (call A) → call A → DoResult) (clock : nat → Z).

Definition readyKeys (d : Dispatcher A) (providerID : string) (order : list string) :
    list string * Dispatcher A :=
  if bool_decide (d_cooldowns d = ∅) then (order, d)
  else
    let '(ready, cool) := ready_loop (clock (d_tick d)) providerID order (d_cooldowns d) in
    let d := set_cooldowns (tick d) cool in
    (if bool_decide (ready = []) then order else ready, d).

Definition retryAfter (h : gmap string string) (now : Z) : Z :=
  let v := TrimSpace (default "" (h !! "Retry-After")) in
  if bool_decide (v = "") then 0
  else match Atoi v with
       | Some secs => if secs <=? 0 then 0 else seconds secs
       | None =>
           match ParseTime v with
           | Some t => let wait := Sub t now in if 0 <? wait then wait else 0
           | None => 0
           end
       end.

(** One upstream call: the reply, and the call in the log. *)
Definition Do (d : Dispatcher A) (c : call A) : DoResult * Dispatcher A :=
  (upstream (d_calls d) c,
   mkDisp (d_breaker d) (d_cursors d) (d_cooldowns d) (d_calls d ++ [c]) (d_tick d)).

(** Parking a rate-limited key for the time the provider asked for. *)
Definition park (d : Dispatcher A) (p : Provider) (key : string) (resp : Response) : Dispatcher A :=
  match rs_Header resp with
  | None => d
  | Some h =>
      let wait := retryAfter h (clock (d_tick d)) in
      let d := tick d in
      if 0 <? wait then coolKey (tick d) (p_ID p) key (Add (clock (d_tick d)) wait) else d
  end.

(** ** One candidate *)

Definition set_reply (a : Attempt) (resp : option Response) (err : option error) : Attempt :=
  match resp with
  | Some r => mkAttempt (at_Candidate a) (rs_Failure r) (rs_StatusCode r) (at_Skipped a)
                (rs_Latency r) err
  | None => mkAttempt (at_Candidate a) (at_Failure a) (at_Status a) (at_Skipped a) (at_Latency a) err
  end.
Definition transport (a : Attempt) : Attempt :=
  mkAttempt (at_Candidate a) FailTransport (at_Status a) (at_Skipped a) (at_Latency a) (at_Err a).

(** What the switch of [tryCandidate] decides about one reply. *)
Inductive verdict :=
  | Serve (resp : Response)
  | Fatal (err : error)
  | Cascade (transport_failure : bool)
  | NextKey (resp : Response).

Definition judge (reply : DoResult) : verdict :=
  let '(resp, err) := reply in
  match err with
  | Some e =>
      if is_response_too_large e
      then Fatal (ErrApi (WithCause (ResponseTooLarge 0) e))
      else match resp with
           | None => Cascade true
           | Some r =>
               match rs_Failure r with
               | FailTransport => Cascade true
               | FailNone => Serve r
               | FailClient => Fatal (clientError r)
               | FailRateLimit => NextKey r
               | FailServer => Cascade false
               end
           end
  | None =>
      match resp with
      | None => Cascade true
      | Some r =>
          match rs_Failure r with
          | FailNone => Serve r
          | FailClient => Fatal (clientError r)
          | FailRateLimit => NextKey r
          | FailTransport | FailServer => Cascade false
          end
      end
  end.

(** The loop over the keys: the response, the attempt, the fatal error. *)
Fixpoint try_keys (adapter : A) (p : Provider) (req : Request) (keys : list string)
    (attempt : Attempt) (d : Dispatcher A) :
    (option Response * Attempt * option error) * Dispatcher A :=
  match keys with
  | [] => ((None, attempt, None), d)
  | key :: keys' =>
      let '(reply, d) := Do d (mkCall adapter {| cr_BaseURL := p_BaseURL p; cr_APIKey := key |} req) in
      let attempt := set_reply attempt reply.1 reply.2 in
      match judge reply with
      | Serve r => ((Some r, attempt, None), d)
      | Fatal e => ((None, attempt, Some e), d)
      | Cascade t => ((None, if t then transport attempt else attempt, None), d)
      | NextKey r => try_keys adapter p req keys' attempt (park d p key r)
      end
  end.

Definition tryCandidate (d : Dispatcher A) (adapter : A) (p : Provider) (cand : Candidate)
    (req : Request) : (option Response * Attempt * option error) * Dispatcher A :=
  let '(order, d) := keyOrder d p in
  let '(ready, d) := readyKeys d (p_ID p) order in
  try_keys adapter p req ready (new_attempt cand) d.

(** ** The cascade *)

(** [renderAttempts] *)
Definition reason (a : Attempt) : string :=
  if at_Skipped a then "breaker_open" else Failure_String (at_Failure a).

Definition renderAttempts (attempts : list Attempt) : list PubAttempt :=
  (λ a, {| pa_Provider := cd_Provider (at_Candidate a); pa_Model := cd_Model (at_Candidate a);
           pa_Failure := reason a; pa_Status := at_Status a |}) <$> attempts.

Definition summarize (attempts : list Attempt) : string :=
  Join ((λ a, ServedBy (at_Candidate a) +:+ "=" +:+ reason a) <$> attempts) ", ".

Definition exhausted (attempts : list Attempt) : error :=
  ErrApi (WithCause (WithAttempts (UpstreamExhausted (Z.of_nat (length attempts)))
                       (renderAttempts attempts))
            (ErrText (Msgf "no candidate succeeded: %s" [FStr (summarize attempts)]))).

(** [breaker.Allow], [breaker.Success] and [breaker.Failure] on the dispatcher. *)
Definition d_Allow (d : Dispatcher A) (key : string) : bool * Dispatcher A :=
  let '(ok, b) := Allow (d_breaker d) (clock (d_tick d)) key in (ok, set_breaker (tick d) b).
Definition d_Success (d : Dispatcher A) (key : string) : Dispatcher A :=
  set_breaker d (Success (d_breaker d) key).
Definition d_Failure (d : Dispatcher A) (key : string) : Dispatcher A :=
  set_breaker (tick d) (Failure (d_breaker d) (clock (d_tick d)) key).

Definition unusable (cand : Candidate) (e : error) : Attempt :=
  mkAttempt cand FailTransport 0 false 0 (Some e).

Section dispatch.
Context (adapters : gmap string A) (byID : gmap string Provider).
Context (body : string) (stream : bool) (path : string) (snap : option Snapshot).

(** The loop over the candidates; the outer [None] is a panic. *)
Fixpoint cascade (cands : list Candidate) (depth : Z) (attempts : list Attempt)
    (d : Dispatcher A) : option (res error Result) * Dispatcher A :=
  match cands with
  | [] => (Some (Err (exhausted attempts)), d)
  | cand :: cands' =>
      let '(ok, d) := d_Allow d (cand_Key cand) in
      if negb ok then
        cascade cands' (depth + 1) (attempts ++ [mkAttempt cand FailNone 0 true 0 None]) d
      else
        match byID !! cd_ProviderID cand with
        | Some p =>
            if negb (p_Enabled p) || bool_decide (p_Keys p = []) then
              cascade cands' (depth + 1)
                (attempts ++ [unusable cand (ErrText (Msgf "provider %s has no usable credential"
                                                        [FStr (cd_Provider cand)]))]) d
            else
              match Registry_Get adapters (p_Kind p) with
              | None =>
                  cascade cands' (depth + 1)
                    (attempts ++ [unusable cand (ErrText (Msgf "no adapter for provider kind %q"
                                                            [FStr (p_Kind p)]))]) d
              | Some adapter =>
                  match withModel body (cd_Model cand) with
                  | None => (None, d)
                  | Some (Err e) =>
                      (Some (Err (ErrApi (WithCause
                         (InvalidRequest (text "Request body is not valid JSON.")) e))), d)
                  | Some (Ok attemptBody) =>
                      let req := {| rq_Model := cd_Model cand; rq_Body := attemptBody;
                                    rq_Stream := stream; rq_Path := path |} in
                      let '(resp, attempt, fatal, d) := tryCandidate d adapter p cand req in
                      let attempts := attempts ++ [attempt] in
                      match fatal, resp with
                      | Some e, _ => (Some (Err e), d)
                      | None, Some r =>
                          (Some (Ok {| res_Response := r; res_Candidate := cand; res_Depth := depth;
                                       res_Attempts := attempts; res_Snapshot := snap |}),
                           d_Success d (cand_Key cand))
                      | None, None =>
                          cascade cands' (depth + 1) attempts (d_Failure d (cand_Key cand))
                      end
                  end
              end
        | None =>
            cascade cands' (depth + 1)
              (attempts ++ [unusable cand (ErrText (Msgf "provider %s has no usable credential"
                                                      [FStr (cd_Provider cand)]))]) d
        end
  end.
End dispatch.

Definition providersByID (providers : list Provider) : gmap string Provider :=
  foldl (λ m p, <[p_ID p := p]> m) ∅ providers.

(** [Dispatch] on the outcome of the resolution and of the provider listing *)
Definition Dispatch (adapters : gmap string A) (d : Dispatcher A)
    (resolved : res error (list Candidate) * option Snapshot)
    (providers : res error (list Provider)) (body : string) (stream : bool) (path : string) :
    option (res error Result) * Dispatcher A :=
  match resolved.1 with
  | Err e => (Some (Err e), d)
  | Ok candidates =>
      match providers with
      | Err e => (Some (Err e), d)
      | Ok ps => cascade adapters (providersByID ps) body stream path resolved.2 candidates 0 [] d
      end
  end.

End effects.

(** [Primary] on the outcome of the resolution; the outer [None] is the panic of
    indexing an empty list. *)
Definition Primary (resolved : res error (list Candidate)) : option (res error Candidate) :=
  match resolved with
  | Err e => Some (Err e)
  | Ok [] => None
  | Ok (c :: _) => Some (Ok c)
  end.

End bodies.
