(* ===== verification/DispatchFacts.v ===== *)
(** * The cascade: lemmas and component theorems *)

From S2P Require Import Prelude GoStrings GoTime GoFloat ApiErr StoreTypes Json Provider Breaker Catalog Resolve Dispatch.
From Stdlib Require Import Ascii.

#[local] Open Scope Z_scope.
#[local] Open Scope stdpp_scope.

(** ** Key pools *)

(** Starting at [off] and wrapping around. *)
Definition rotate {A} (off : nat) (l : list A) : list A := drop off l ++ take off l.

Lemma rotate_perm {A} off (l : list A) : rotate off l ≡ₚ l.
Proof. unfold rotate. rewrite Permutation_app_comm. by rewrite take_drop. Qed.

Lemma rotate_lookup {A} off (l : list A) i :
  (off < length l)%nat → (i < length l)%nat → rotate off l !! i = l !! ((off + i) mod length l)%nat.
Proof.
  intros Ho Hi. unfold rotate. destruct (decide (off + i < length l)%nat) as [Hlt|Hge].
  - rewrite lookup_app_l by (rewrite length_drop; lia). by rewrite lookup_drop, Nat.mod_small.
  - rewrite lookup_app_r by (rewrite length_drop; lia). rewrite length_drop.
    rewrite lookup_take_lt by lia.
    replace (off + i)%nat with (off + i - length l + 1 * length l)%nat by lia.
    rewrite Nat.Div0.mod_add, Nat.mod_small by lia. f_equal. lia.
Qed.

Lemma head_rotate {A} off (l : list A) : (off < length l)%nat → head (rotate off l) = l !! off.
Proof.
  intros Ho. rewrite head_lookup, rotate_lookup by lia. by rewrite Nat.add_0_r, Nat.mod_small.
Qed.

Section pools.
Context {A : Type}.

(** Whether the pool rotates. *)
Definition rotates (p : Provider) : bool :=
  negb ((Z.of_nat (length (p_Keys p)) <? 2) || bool_decide (p_KeyStrategy p = KeyStrategyFailover)).

Definition cursor (d : Dispatcher A) (p : Provider) : Z := default 0 (d_cursors d !! p_ID p).

Lemma keyOrder_spec (d : Dispatcher A) p :
  keyOrder d p =
    if rotates p
    then (rotate (Z.to_nat (cursor d p mod Z.of_nat (length (p_Keys p)))) (p_Keys p),
          set_cursors d (<[p_ID p := (cursor d p + 1) mod two64]> (d_cursors d)))
    else (p_Keys p, d).
Proof.
  unfold keyOrder, rotates. fold (cursor d p). destruct (_ || _) eqn:Er; simpl; [done|].
  apply orb_false_iff in Er as [Hn%Z.ltb_ge _]. f_equal.
  set (n := length (p_Keys p)) in *. set (off := cursor d p mod Z.of_nat n).
  assert (0 ≤ off < Z.of_nat n) as Hoff by (apply Z.mod_pos_bound; lia).
  apply list_eq. intros i. rewrite list_lookup_fmap.
  destruct (decide (i < n)%nat) as [Hi|Hi].
  - rewrite lookup_seq_lt by done. rewrite rotate_lookup by (fold n; lia). simpl. fold n.
    assert (Z.to_nat ((off + Z.of_nat i) mod Z.of_nat n) = ((Z.to_nat off + i) mod n)%nat) as ->.
    { apply Nat2Z.inj. rewrite Nat2Z.inj_mod, Nat2Z.inj_add, !Z2Nat.id; [done|lia|].
      apply Z.mod_pos_bound. lia. }
    assert ((Z.to_nat off + i) mod n < n)%nat as Hlt by (apply Nat.mod_upper_bound; lia).
    destruct (lookup_lt_is_Some_2 (p_Keys p) _ Hlt) as [k Hk]. by rewrite Hk.
  - rewrite !lookup_ge_None_2; [done| |].
    + rewrite rotate_perm. fold n. lia.
    + rewrite length_seq. lia.
Qed.

(** The first keys of [k] consecutive requests. *)
Fixpoint first_keys (k : nat) (d : Dispatcher A) (p : Provider) : list (option string) :=
  match k with
  | O => []
  | S k' => head (keyOrder d p).1 :: first_keys k' (keyOrder d p).2 p
  end.

Lemma first_keys_spec k (d : Dispatcher A) p :
  rotates p = true → 0 ≤ cursor d p → cursor d p + Z.of_nat k < two64 →
  first_keys k d p =
    (λ i, p_Keys p !! Z.to_nat ((cursor d p + Z.of_nat i) mod Z.of_nat (length (p_Keys p)))) <$> seq 0 k.
Proof.
  intros Hr. revert d; induction k as [|k IH]; intros d Hc Hk; [done|].
  assert (2 ≤ Z.of_nat (length (p_Keys p))) as Hn.
  { revert Hr. unfold rotates. rewrite negb_true_iff, orb_false_iff, Z.ltb_ge. by intros [? _]. }
  cbn [first_keys]. rewrite keyOrder_spec, Hr. cbn [fst snd].
  set (d' := set_cursors d _).
  assert (cursor d' p = cursor d p + 1) as Hc'.
  { unfold cursor, d'. simpl. rewrite lookup_insert_eq. simpl. fold (cursor d p).
    apply Z.mod_small. lia. }
  rewrite head_rotate.
  2: { apply Nat2Z.inj_lt. rewrite Z2Nat.id; apply Z.mod_pos_bound; lia. }
  rewrite IH by lia. cbn [seq]. rewrite fmap_cons, Z.add_0_r. f_equal.
  rewrite <-fmap_S_seq, <-list_fmap_compose. apply list_fmap_ext. intros i x Hi. simpl.
  rewrite Hc'. do 3 f_equal. lia.
Qed.

Lemma keyOrder_perm (d : Dispatcher A) p : (keyOrder d p).1 ≡ₚ p_Keys p.
Proof. rewrite keyOrder_spec. destruct (rotates p); [apply rotate_perm|done]. Qed.

Lemma keyOrder_frame (d : Dispatcher A) p :
  d_calls (keyOrder d p).2 = d_calls d ∧ d_breaker (keyOrder d p).2 = d_breaker d ∧
  d_cooldowns (keyOrder d p).2 = d_cooldowns d ∧ d_tick (keyOrder d p).2 = d_tick d.
Proof. rewrite keyOrder_spec. by destruct (rotates p). Qed.

(** What [readyKeys] keeps. *)
Definition cooling (cool : gmap (string * string) Z) (pid : string) (now : Z) (key : string) : bool :=
  match cool !! (pid, key) with Some until => After until now | None => false end.

Lemma ready_loop_spec now pid order cool :
  let '(ready, cool') := ready_loop now pid order cool in
  ready = List.filter (λ k, negb (cooling cool pid now k)) order ∧
  (∀ k, cooling cool' pid now k = cooling cool pid now k) ∧
  cool' ⊆ cool.
Proof.
  revert cool; induction order as [|key order IH]; intros cool; simpl; [done|].
  unfold cooling at 1. destruct (cool !! (pid, key)) as [until|] eqn:E.
  - destruct (After until now) eqn:Ea; simpl.
    + apply (IH cool).
    + specialize (IH (delete (pid, key) cool)).
      destruct (ready_loop now pid order (delete (pid, key) cool)) as [ready cool'].
      destruct IH as (-> & Hc & Hs).
      assert (∀ k, cooling (delete (pid, key) cool) pid now k = cooling cool pid now k) as Hd.
      { intros k. unfold cooling. destruct (decide (k = key)) as [->|Hne].
        - by rewrite lookup_delete_eq, E.
        - rewrite lookup_delete_ne; [done|]. congruence. }
      split_and!.
      * f_equal. apply List.filter_ext. intros k. by rewrite Hd.
      * intros k. by rewrite Hc.
      * etrans; [done|]. apply delete_subseteq.
  - specialize (IH cool). destruct (ready_loop now pid order cool) as [ready cool'].
    destruct IH as (-> & Hc & Hs). done.
Qed.

End pools.

(** ** Calls *)

Section calls.
Context `{Unicode} `{JsonCodec} `{HttpDates}.
Context {A : Type} (upstream : list (call A) → call A → DoResult) (clock : nat → Z).

(** How the calls [cs], sent after [pre], were answered: a reply that serves or
    is fatal is the last one and satisfies [fin]. *)
Definition answered (fin : verdict → Prop) (pre cs : list (call A)) : Prop :=
  ∀ i c, cs !! i = Some c →
    match judge (upstream (pre ++ take i cs) c) with
    | Cascade _ | NextKey _ => True
    | v => S i = length cs ∧ fin v
    end.

Lemma answered_nil fin pre : answered fin pre [].
Proof. by intros i c. Qed.

Lemma answered_app fin pre cs1 cs2 :
  answered (λ _, False) pre cs1 → answered fin (pre ++ cs1) cs2 → answered fin pre (cs1 ++ cs2).
Proof.
  intros H1' H2' i c [Hi|[Hge Hi]]%lookup_app_Some.
  - specialize (H1' i c Hi). rewrite take_app_le by (apply lookup_lt_Some in Hi; lia).
    by destruct (judge _) as [r|e|t|r]; [destruct H1'|destruct H1'|..].
  - specialize (H2' _ c Hi). rewrite take_app_ge by done. rewrite app_assoc.
    destruct (judge _) as [r|e|t|r]; try done;
      destruct H2' as [Hl ?]; (split; [|done]); rewrite length_app; lia.
Qed.

Lemma answered_one fin pre c :
  match judge (upstream pre c) with Cascade _ | NextKey _ => True | v => fin v end →
  answered fin pre [c].
Proof.
  intros Hf [|i] c' Hi; simpl in Hi; [|done]. injection Hi as <-. simpl. rewrite app_nil_r.
  by destruct (judge _).
Qed.

Lemma coolKey_frame (d : Dispatcher A) pid key until :
  d_calls (coolKey d pid key until) = d_calls d ∧ d_breaker (coolKey d pid key until) = d_breaker d ∧
  d_cursors (coolKey d pid key until) = d_cursors d.
Proof. unfold coolKey. by repeat case_match. Qed.

Lemma park_frame (d : Dispatcher A) p key r :
  d_calls (park clock d p key r) = d_calls d ∧ d_breaker (park clock d p key r) = d_breaker d ∧
  d_cursors (park clock d p key r) = d_cursors d.
Proof.
  unfold park. destruct (rs_Header r); [|done]. destruct (0 <? _); [|done].
  apply (coolKey_frame (tick (tick d))).
Qed.

(** The call a key of the pool is used for. *)
Definition key_call (adapter : A) (p : Provider) (req : Request) (key : string) : call A :=
  mkCall adapter {| cr_BaseURL := p_BaseURL p; cr_APIKey := key |} req.

(** What the verdict of the last reply makes of the candidate. *)
Definition settles (resp : option Response) (fatal : option error) (v : verdict) : Prop :=
  match v with
  | Serve r => resp = Some r ∧ fatal = None
  | Fatal e => resp = None ∧ fatal = Some e
  | _ => True
  end.

Lemma try_keys_spec adapter p req keys at0 d resp at1 fatal d' :
  try_keys upstream clock adapter p req keys at0 d = ((resp, at1, fatal), d') →
  ∃ used, used `prefix_of` keys ∧
    let cs := key_call adapter p req <$> used in
    d_calls d' = d_calls d ++ cs ∧ d_breaker d' = d_breaker d ∧ d_cursors d' = d_cursors d ∧
    at_Candidate at1 = at_Candidate at0 ∧ at_Skipped at1 = at_Skipped at0 ∧
    answered (settles resp fatal) (d_calls d) cs ∧
    (resp = None → fatal = None → answered (λ _, False) (d_calls d) cs) ∧
    (∀ r, resp = Some r → fatal = None ∧ ∃ pre c, cs = pre ++ [c] ∧
       judge (upstream (d_calls d ++ pre) c) = Serve r) ∧
    (∀ e, fatal = Some e → resp = None ∧ ∃ pre c, cs = pre ++ [c] ∧
       judge (upstream (d_calls d ++ pre) c) = Fatal e) ∧
    (resp = None → fatal = None →
       used = keys ∨ ∃ pre c t, cs = pre ++ [c] ∧ judge (upstream (d_calls d ++ pre) c) = Cascade t).
Proof.
  revert at0 d. induction keys as [|key keys IH]; intros at0 d; simpl.
  { intros [= <- <- <- <-]. exists []. rewrite app_nil_r. split_and!; try done;
      auto using answered_nil. }
  set (c := mkCall _ _ req). set (d1 := mkDisp _ _ _ _ _).
  assert (c = key_call adapter p req key) as Hc by done.
  destruct (judge (upstream (d_calls d) c)) as [r|e|t|r] eqn:Ej.
  - intros [= <- <- <- <-]. exists [key]. split_and!; try done.
    + by apply prefix_cons, prefix_nil.
    + by destruct (upstream _ _) as [[]].
    + by destruct (upstream _ _) as [[]].
    + apply answered_one. rewrite <-Hc, Ej. done.
    + intros r' [= <-]. split; [done|]. exists [], c. by rewrite app_nil_r.
  - intros [= <- <- <- <-]. exists [key]. split_and!; try done.
    + by apply prefix_cons, prefix_nil.
    + by destruct (upstream _ _) as [[]].
    + by destruct (upstream _ _) as [[]].
    + apply answered_one. rewrite <-Hc, Ej. done.
    + intros e' [= <-]. split; [done|]. exists [], c. by rewrite app_nil_r.
  - intros [= <- <- <- <-]. exists [key]. split_and!; try done.
    + by apply prefix_cons, prefix_nil.
    + by destruct (upstream _ _) as [[]], t.
    + by destruct (upstream _ _) as [[]], t.
    + apply answered_one. by rewrite <-Hc, Ej.
    + intros _ _. apply answered_one. by rewrite <-Hc, Ej.
    + right. exists [], c, t. by rewrite app_nil_r.
  - destruct (park_frame d1 p key r) as (Ec & Eb & Eu).
    intros (used & Hp & E1 & E2 & E3 & E4 & E5 & Ha & Hn & Hs & Hf & Hx)%IH.
    rewrite Ec in E1, Ha, Hn, Hs, Hf, Hx. rewrite Eb in E2. rewrite Eu in E3.
    simpl in E1, Ha, Hn, Hs, Hf, Hx.
    assert (∀ pre c', key_call adapter p req <$> used = pre ++ [c'] →
      key_call adapter p req <$> key :: used = (c :: pre) ++ [c']) as Hcons.
    { intros pre c' E. rewrite fmap_cons, E. done. }
    assert (answered (λ _, False) (d_calls d) [c]) as H1c by (apply answered_one; by rewrite Ej).
    assert (key_call adapter p req <$> key :: used = [c] ++ (key_call adapter p req <$> used)) as Hk by done.
    exists (key :: used). rewrite Hk. split_and!; try done.
    + by apply prefix_cons.
    + by rewrite E1, <-app_assoc.
    + rewrite E4. by destruct (upstream _ _) as [[]].
    + rewrite E5. by destruct (upstream _ _) as [[]].
    + by apply answered_app.
    + intros Hr Hfa. apply answered_app; auto.
    + intros r' Hr'. destruct (Hs r' Hr') as (? & pre & c' & E & Ejj). split; [done|].
      exists (c :: pre), c'. rewrite E. split; [done|]. by rewrite <-app_assoc in Ejj.
    + intros e' He'. destruct (Hf e' He') as (? & pre & c' & E & Ejj). split; [done|].
      exists (c :: pre), c'. rewrite E. split; [done|]. by rewrite <-app_assoc in Ejj.
    + intros Hr Hfa. destruct (Hx Hr Hfa) as [->|(pre & c' & t & E & Ejj)]; [by left|].
      right. exists (c :: pre), c', t. rewrite E. split; [done|]. by rewrite <-app_assoc in Ejj.
Qed.

(** The keys [readyKeys] returns: those not cooling, or all of them if every
    one is; never none of a non-empty pool. *)
Lemma readyKeys_spec (d : Dispatcher A) pid order :
  let now := clock (d_tick d) in
  let ready := List.filter (λ k, negb (cooling (d_cooldowns d) pid now k)) order in
  (readyKeys clock d pid order).1 = (if bool_decide (ready = []) then order else ready) ∧
  d_calls (readyKeys clock d pid order).2 = d_calls d ∧
  d_breaker (readyKeys clock d pid order).2 = d_breaker d ∧
  d_cooldowns (readyKeys clock d pid order).2 ⊆ d_cooldowns d.
Proof.
  cbv zeta. unfold readyKeys. case_bool_decide as Ec.
  - assert (List.filter (λ k, negb (cooling (d_cooldowns d) pid (clock (d_tick d)) k)) order = order) as ->.
    { rewrite Ec. clear. induction order as [|k l IH]; simpl; [done|].
      unfold cooling at 1. rewrite lookup_empty. simpl. by rewrite IH. }
    split_and!; [by destruct (bool_decide _)|done..].
  - pose proof (ready_loop_spec (clock (d_tick d)) pid order (d_cooldowns d)) as Hl.
    destruct (ready_loop _ _ _ _) as [ready cool]. destruct Hl as (-> & _ & ?). done.
Qed.

Lemma readyKeys_elem (d : Dispatcher A) pid order k :
  k ∈ (readyKeys clock d pid order).1 → k ∈ order.
Proof.
  destruct (readyKeys_spec d pid order) as [-> _]. case_bool_decide; [done|].
  rewrite elem_of_filter_bool. by intros [? _].
Qed.

Lemma tryCandidate_spec d adapter p cand req resp at1 fatal d' :
  tryCandidate upstream clock d adapter p cand req = ((resp, at1, fatal), d') →
  ∃ used, (∀ k, k ∈ used → k ∈ p_Keys p) ∧
    let cs := key_call adapter p req <$> used in
    d_calls d' = d_calls d ++ cs ∧ d_breaker d' = d_breaker d ∧
    at_Candidate at1 = cand ∧ at_Skipped at1 = false ∧
    answered (settles resp fatal) (d_calls d) cs ∧
    (resp = None → fatal = None → answered (λ _, False) (d_calls d) cs) ∧
    (∀ r, resp = Some r → fatal = None ∧ ∃ pre c, cs = pre ++ [c] ∧
       judge (upstream (d_calls d ++ pre) c) = Serve r) ∧
    (∀ e, fatal = Some e → resp = None ∧ ∃ pre c, cs = pre ++ [c] ∧
       judge (upstream (d_calls d ++ pre) c) = Fatal e).
Proof.
  unfold tryCandidate. destruct (keyOrder_frame d p) as (Ec & Eb & _ & _).
  pose proof (keyOrder_perm d p) as Hperm.
  destruct (keyOrder d p) as [order d1]. simpl in Ec, Eb, Hperm.
  destruct (readyKeys_spec d1 (p_ID p) order) as (_ & Ec' & Eb' & _).
  pose proof (readyKeys_elem d1 (p_ID p) order) as Hel.
  destruct (readyKeys clock d1 (p_ID p) order) as [ready d2]. simpl in Ec', Eb', Hel.
  intros (used & Hp & E1 & E2 & E3 & E4 & E5 & Ha & Hn & Hs & Hf & _)%try_keys_spec.
  rewrite Ec', Ec in E1, Ha, Hn, Hs, Hf.
  exists used. split_and!; try done.
  - intros k Hk. rewrite <-Hperm. apply Hel. destruct Hp as [l ->]. apply elem_of_app. by left.
  - by rewrite E2, Eb', Eb.
Qed.

(** ** The cascade *)

Context (adapters : gmap string A) (byID : gmap string Provider).
Context (body : string) (stream : bool) (path : string) (snap : option Snapshot).

Abbreviation run_cascade := (cascade upstream clock adapters byID body stream path snap).

(** A call the cascade may make: to the provider of one of the candidates, enabled,
    with a key of its own pool, for the candidate's model. *)
Definition authorised (cands : list Candidate) (c : call A) : Prop :=
  ∃ cand p, cand ∈ cands ∧ byID !! cd_ProviderID cand = Some p ∧ p_Enabled p = true ∧
    Registry_Get adapters (p_Kind p) = Some (call_adapter c) ∧
    cr_APIKey (call_cred c) ∈ p_Keys p ∧ cr_BaseURL (call_cred c) = p_BaseURL p ∧
    rq_Model (call_req c) = cd_Model cand ∧ rq_Stream (call_req c) = stream ∧
    rq_Path (call_req c) = path ∧
    withModel body (cd_Model cand) = Some (Ok (rq_Body (call_req c))).

(** The outcome a final reply leads to. *)
Definition concludes (r : option (res error Result)) (v : verdict) : Prop :=
  match v with
  | Serve resp => ∃ result, r = Some (Ok result) ∧ res_Response result = resp
  | Fatal e => r = Some (Err e)
  | _ => True
  end.

Definition bad_body : Prop := Unmarshal body = None ∨ ∃ j, Unmarshal body = Some j ∧
  match j with JObj _ => False | _ => True end.

Lemma withModel_fails model e : withModel body model = Some (Err e) → bad_body.
Proof.
  unfold withModel, bad_body. destruct (Unmarshal body) as [j|]; [|auto].
  intros E. right. exists j. split; [done|]. by destruct j.
Qed.
Lemma withModel_panics model : withModel body model = None → Unmarshal body = Some JNull.
Proof. unfold withModel. destruct (Unmarshal body) as [[]|]; done. Qed.

Definition invalid_body (e : error) : Prop :=
  ∃ cause, e = ErrApi (WithCause (InvalidRequest (text "Request body is not valid JSON.")) cause).

(** How a cascade over [cands], entered with [atts] at [depth], ends. *)
Definition ends (cands : list Candidate) (depth : Z) (atts : list Attempt)
    (pre0 cs : list (call A)) (r : option (res error Result)) : Prop :=
  match r with
  | Some (Ok result) =>
      (∃ pre c, cs = pre ++ [c] ∧ judge (upstream (pre0 ++ pre) c) = Serve (res_Response result) ∧
         authorised [res_Candidate result] c) ∧
      res_Snapshot result = snap ∧
      ∃ i, cands !! i = Some (res_Candidate result) ∧ res_Depth result = depth + Z.of_nat i ∧
        at_Candidate <$> res_Attempts result = (at_Candidate <$> atts) ++ take (S i) cands
  | Some (Err e) =>
      (answered (λ _, False) pre0 cs ∧
       ∃ atts', at_Candidate <$> atts' = cands ∧ e = exhausted (atts ++ atts')) ∨
      (∃ pre c, cs = pre ++ [c] ∧ judge (upstream (pre0 ++ pre) c) = Fatal e) ∨
      (bad_body ∧ invalid_body e)
  | None => Unmarshal body = Some JNull
  end.

(** A candidate that made the calls [cs1] without a conclusion, then the rest. *)
Lemma ends_step cand cands depth atts a pre0 cs1 cs2 r :
  at_Candidate a = cand → answered (λ _, False) pre0 cs1 →
  ends cands (depth + 1) (atts ++ [a]) (pre0 ++ cs1) cs2 r →
  ends (cand :: cands) depth atts pre0 (cs1 ++ cs2) r.
Proof.
  intros Ha H1' He. destruct r as [[result|e]|]; simpl in *; [| |done].
  - destruct He as ((pre & c & -> & Hj & Hc) & Hs & i & Hi & Hd & Hat). split_and!; [|done|].
    + exists (cs1 ++ pre), c. by rewrite !app_assoc in *.
    + exists (S i). split_and!; [done|lia|]. rewrite Hat, fmap_app, <-app_assoc. simpl. by rewrite Ha.
  - destruct He as [[Hno (atts' & Hat & ->)]|[(pre & c & -> & Hj)|?]].
    + left. split; [by apply answered_app|]. exists (a :: atts').
      rewrite fmap_cons, Ha, Hat, <-app_assoc. done.
    + right; left. exists (cs1 ++ pre), c. by rewrite !app_assoc in *.
    + by right; right.
Qed.

Lemma authorised_cons cand cands c : authorised cands c → authorised (cand :: cands) c.
Proof. intros (x & p & Hx & Hr). exists x, p. split; [by right|done]. Qed.

Lemma cascade_spec cands depth atts d r d' :
  run_cascade cands depth atts d = (r, d') →
  ∃ cs, d_calls d' = d_calls d ++ cs ∧ Forall (authorised cands) cs ∧
    answered (concludes r) (d_calls d) cs ∧ ends cands depth atts (d_calls d) cs r.
Proof.
  revert depth atts d. induction cands as [|cand cands IH]; intros depth atts d; simpl.
  { intros [= <- <-]. exists []. rewrite app_nil_r. split_and!; [done|constructor|apply answered_nil|].
    left. split; [apply answered_nil|]. exists []. by rewrite app_nil_r. }
  unfold d_Allow. destruct (Allow (d_breaker d) _ _) as [ok b]. set (d1 := set_breaker (tick d) b).
  assert (∀ a, at_Candidate a = cand → run_cascade cands (depth + 1) (atts ++ [a]) d1 = (r, d') →
    ∃ cs, d_calls d' = d_calls d ++ cs ∧ Forall (authorised (cand :: cands)) cs ∧
      answered (concludes r) (d_calls d) cs ∧ ends (cand :: cands) depth atts (d_calls d) cs r) as Hskip.
  { intros a Ha (cs & E & HF & Hans & He)%IH. simpl in *. exists cs. split_and!; try done.
    - eapply Forall_impl; [done|]. apply authorised_cons.
    - apply (ends_step _ _ _ _ a _ []); [done|apply answered_nil|]. by rewrite app_nil_r. }
  destruct ok; simpl; [|by apply Hskip].
  destruct (byID !! cd_ProviderID cand) as [p|] eqn:Ep; [|by apply Hskip].
  destruct (negb (p_Enabled p) || _) eqn:Een; [by apply Hskip|].
  apply orb_false_iff in Een as [Een%negb_false_iff _].
  destruct (Registry_Get adapters (p_Kind p)) as [adapter|] eqn:Eg; [|by apply Hskip].
  destruct (withModel body (cd_Model cand)) as [[attemptBody|e]|] eqn:Ew.
  2: { intros [= <- <-]. exists []. rewrite app_nil_r. split_and!;
         [done|constructor|apply answered_nil|]. right; right.
       split; [by eapply withModel_fails|by eexists]. }
  2: { intros [= <- <-]. exists []. rewrite app_nil_r. split_and!;
         [done|constructor|apply answered_nil|]. by eapply withModel_panics. }
  set (req := Build_Request _ _ _ _).
  destruct (tryCandidate upstream clock d1 adapter p cand req) as [[[resp a] fatal] d2] eqn:Et.
  destruct (tryCandidate_spec _ _ _ _ _ _ _ _ _ Et)
    as (used & Hu & E1 & E2 & E3 & E4 & Hans & Hno & Hs & Hf). simpl in E1, Hans, Hno, Hs, Hf.
  assert (Forall (authorised [cand]) (key_call adapter p req <$> used)) as HF1.
  { apply Forall_forall. intros c (k & -> & Hk)%list_elem_of_fmap. exists cand, p.
    split_and!; try done; [left|by apply Hu]. }
  assert (Forall (authorised (cand :: cands)) (key_call adapter p req <$> used)) as HF.
  { eapply Forall_impl; [exact HF1|]. intros c (x & q & ->%list_elem_of_singleton & Hr). exists cand, q. split; [left|done]. }
  destruct fatal as [e|]; [|destruct resp as [rsp|]].
  - destruct (Hf e eq_refl) as (-> & Hlast). intros [= <- <-]. eexists. split_and!; [done..| |].
    + intros i c Hi. specialize (Hans i c Hi). destruct (judge _); try done.
      * destruct Hans as [? [? ?]]. done.
      * destruct Hans as [? [? [= <-]]]. done.
    + right; left. done.
  - destruct (Hs rsp eq_refl) as (_ & Hlast). intros [= <- <-]. eexists. split_and!; [done..| |].
    + intros i c Hi. specialize (Hans i c Hi). destruct (judge _); try done.
      * destruct Hans as [? [[= ->] _]]. split; [done|]. by eexists.
      * destruct Hans as [? [? ?]]. done.
    + split_and!; [|done|].
      { destruct Hlast as (pre & c & Ecs & Hj). exists pre, c. split_and!; [done..|].
        rewrite Ecs in HF1. by apply Forall_app in HF1 as [_ ?%Forall_inv]. }
      exists 0%nat. simpl. split_and!; [done|lia|].
      rewrite fmap_app. simpl. by rewrite E3.
  - intros (cs & E & HF' & Hans' & He)%IH. simpl in *.
    rewrite E1 in E, Hans', He. specialize (Hno eq_refl eq_refl).
    exists ((key_call adapter p req <$> used) ++ cs). split_and!.
    + by rewrite E, app_assoc.
    + apply Forall_app. split; [done|]. eapply Forall_impl; [done|]. apply authorised_cons.
    + by apply answered_app.
    + by eapply ends_step.
Qed.

(** The cascade touches the breaker through its operations only. *)
Lemma cascade_breaker cands depth atts d r d' :
  run_cascade cands depth atts d = (r, d') →
  ∃ ops, d_breaker d' = run (d_breaker d) ops ∧
    Forall (λ o, ∃ cand, cand ∈ cands ∧ op_key o = cand_Key cand) ops.
Proof.
  revert depth atts d. induction cands as [|cand cands IH]; intros depth atts d; simpl.
  { intros [= <- <-]. by exists []. }
  unfold d_Allow. destruct (Allow (d_breaker d) (clock (d_tick d)) (cand_Key cand)) as [ok b] eqn:Ea.
  set (d1 := set_breaker (tick d) b). set (o := OpAllow (cand_Key cand) (clock (d_tick d))).
  assert (d_breaker d1 = run (d_breaker d) [o]) as Hd1 by (simpl; by rewrite Ea).
  assert (∀ ops1 dep ats d2, d_breaker d2 = run (d_breaker d) (o :: ops1) →
    Forall (λ o, op_key o = cand_Key cand) ops1 → run_cascade cands dep ats d2 = (r, d') →
    ∃ ops, d_breaker d' = run (d_breaker d) ops ∧
      Forall (λ o, ∃ c, c ∈ cand :: cands ∧ op_key o = cand_Key c) ops) as Hk.
  { intros ops1 dep ats d2 E HF (ops & Eo & HFo)%IH. exists ((o :: ops1) ++ ops).
    unfold run in *. rewrite foldl_app, <-E. split; [done|]. apply Forall_app. split.
    - constructor; [exists cand; split; [left|done]|]. eapply Forall_impl; [done|].
      intros o' Ho'. exists cand. split; [left|done].
    - eapply Forall_impl; [done|]. intros o' (c & Hc & ?). exists c. split; [by right|done]. }
  assert (∀ ops1, Forall (λ o, op_key o = cand_Key cand) ops1 →
    Forall (λ o, ∃ c, c ∈ cand :: cands ∧ op_key o = cand_Key c) (o :: ops1)) as Hhere.
  { intros ops1 HF. constructor; [exists cand; split; [left|done]|]. eapply Forall_impl; [done|].
    intros o' Ho'. exists cand. split; [left|done]. }
  destruct ok; simpl; [|by apply (Hk [])].
  destruct (byID !! cd_ProviderID cand) as [p|]; [|by apply (Hk [])].
  destruct (_ || _); [by apply (Hk [])|].
  destruct (Registry_Get adapters (p_Kind p)) as [adapter|]; [|by apply (Hk [])].
  destruct (withModel body (cd_Model cand)) as [[attemptBody|e]|].
  2,3: intros [= <- <-]; exists [o]; split; [done|by apply Hhere].
  set (req := Build_Request _ _ _ _).
  destruct (tryCandidate upstream clock d1 adapter p cand req) as [[[resp a] fatal] d2] eqn:Et.
  destruct (tryCandidate_spec _ _ _ _ _ _ _ _ _ Et) as (_ & _ & _ & Eb & _).
  destruct fatal as [e|]; [|destruct resp as [rsp|]].
  - intros [= <- <-]. exists [o]. split; [by rewrite Eb|by apply Hhere].
  - intros [= <- <-]. exists [o; OpSuccess (cand_Key cand)].
    split; [|apply Hhere; by repeat constructor]. simpl in *. by rewrite Eb, Hd1.
  - apply (Hk [OpFailure (cand_Key cand) (clock (d_tick d2))]); [|by repeat constructor].
    simpl in *. by rewrite Eb, Hd1.
Qed.

End calls.

(** ** Component theorems *)

Module DispatchProps.
Section props.
Context `{Unicode} `{JsonCodec} `{HttpDates}.
Context {A : Type} (upstream : list (call A) → call A → DoResult) (clock : nat → Z).
Context (adapters : gmap string A).

Abbreviation dispatch := (Dispatch upstream clock adapters).

(** C14: Nothing is sent after a verdict. Of the calls one dispatch makes, a reply that
    serves the request or blames it (an upstream 4xx other than 429, an oversized
    response) is the last, and the caller gets that very response or error;
    every other reply is one the cascade may retry. A result is never invented:
    it is the reply to the last call. *)
Theorem nothing_sent_after_a_verdict d cands snap ps body stream path r d' :
  dispatch d (Ok cands, snap) (Ok ps) body stream path = (r, d') →
  ∃ cs, d_calls d' = d_calls d ++ cs ∧ answered upstream (concludes r) (d_calls d) cs ∧
    ∀ result, r = Some (Ok result) →
      ∃ pre c, cs = pre ++ [c] ∧ judge (upstream (d_calls d ++ pre) c) = Serve (res_Response result).
Proof.
  intros (cs & E & _ & Ha & He)%cascade_spec. exists cs. split_and!; [done..|].
  intros result ->. destruct He as [(pre & c & ? & ? & _) _]. eauto.
Qed.

(** The attempts account for the cascade: a result served at depth [i] lists the first
    [i + 1] candidates in order and names the last of them; an exhausted
    cascade is a 502 whose body lists every candidate once, in order. *)
Theorem attempts_enumerate_candidates d cands snap ps body stream path r d' :
  dispatch d (Ok cands, snap) (Ok ps) body stream path = (r, d') →
  match r with
  | Some (Ok result) =>
      ∃ i, cands !! i = Some (res_Candidate result) ∧ res_Depth result = Z.of_nat i ∧
        at_Candidate <$> res_Attempts result = take (S i) cands ∧ res_Snapshot result = snap
  | Some (Err e) =>
      (∃ atts, at_Candidate <$> atts = cands ∧ e = exhausted atts ∧
         ∀ e', as_api e = Some e' → err_Status e' = 502 ∧
           (λ a, (pa_Provider a, pa_Model a)) <$> err_Attempts e' =
             (λ c, (cd_Provider c, cd_Model c)) <$> cands) ∨
      (∃ pre c, d_calls d' = d_calls d ++ pre ++ [c] ∧
         judge (upstream (d_calls d ++ pre) c) = Fatal e) ∨
      (bad_body body ∧ invalid_body e)
  | None => Unmarshal body = Some JNull
  end.
Proof.
  intros (cs & E & _ & _ & He)%cascade_spec. unfold ends in He. destruct r as [[result|e]|]; [| |done].
  - destruct He as (_ & Hs & i & Hi & Hd & Hat). exists i. rewrite Hd, Hat. split_and!; try done; lia.
  - destruct He as [[_ (atts & Hat & ->)]|[(pre & c & -> & Hj)|?]].
    + left. exists atts. split_and!; try done. intros e' [= <-]. split; [done|].
      simpl. unfold renderAttempts. rewrite <-Hat, <-!list_fmap_compose. done.
    + right; left. eauto.
    + by right; right.
Qed.

(** C15: Every upstream call goes to the provider of one of the resolved candidates,
    which is enabled, with a key of that provider's own pool and its base URL, and
    carries the caller's body with that candidate's model in it. *)
Theorem calls_are_authorised d cands snap ps body stream path r d' :
  dispatch d (Ok cands, snap) (Ok ps) body stream path = (r, d') →
  ∃ cs, d_calls d' = d_calls d ++ cs ∧
    Forall (authorised adapters (providersByID ps) body stream path cands) cs.
Proof. intros (cs & E & HF & _)%cascade_spec. eauto. Qed.

(** A dispatch keeps the breaker well formed and leaves the entries of every
    key but its candidates' alone. *)
Theorem dispatch_respects_breaker d cands snap ps body stream path r d' :
  dispatch d (Ok cands, snap) (Ok ps) body stream path = (r, d') → wf (d_breaker d) →
  wf (d_breaker d') ∧
  ∀ key, (∀ cand, cand ∈ cands → cand_Key cand ≠ key) →
    b_entries (d_breaker d') !! key = b_entries (d_breaker d) !! key.
Proof.
  intros (ops & E & HF)%cascade_breaker Hwf. rewrite E. split; [by apply run_wf|].
  intros key Hk. clear E Hwf. revert HF. generalize (d_breaker d) as b.
  induction ops as [|o ops IH]; intros b; simpl; [done|].
  intros [(cand & Hc & Ho) HF]%Forall_cons. rewrite IH by done.
  apply apply_op_other. rewrite Ho. by apply Hk.
Qed.

(** The pool walk covers every key once, whatever the strategy, and round robin
    is fair: over as many consecutive requests as there are keys, each key starts
    exactly one of them (while the 64-bit cursor does not wrap around). *)
Theorem key_rotation_is_fair (d : Dispatcher A) p :
  (keyOrder d p).1 ≡ₚ p_Keys p ∧
  (rotates p = false → keyOrder d p = (p_Keys p, d)) ∧
  (rotates p = true → 0 ≤ cursor d p → cursor d p + Z.of_nat (length (p_Keys p)) < two64 →
     first_keys (length (p_Keys p)) d p ≡ₚ Some <$> p_Keys p).
Proof.
  split_and!; [apply keyOrder_perm|intros E; by rewrite keyOrder_spec, E|].
  intros Hr Hc Hl. rewrite first_keys_spec by done.
  set (n := length (p_Keys p)). set (off := Z.to_nat (cursor d p mod Z.of_nat n)).
  assert (2 ≤ Z.of_nat n) as Hn.
  { revert Hr. unfold rotates. rewrite negb_true_iff, orb_false_iff, Z.ltb_ge. by intros [? _]. }
  rewrite <-(rotate_perm off (p_Keys p)).
  assert (off < n)%nat as Hoff.
  { unfold off. apply Nat2Z.inj_lt. rewrite Z2Nat.id; apply Z.mod_pos_bound; lia. }
  match goal with |- ?l ≡ₚ _ => assert (l = Some <$> rotate off (p_Keys p)) as ->; [|done] end.
  apply list_eq. intros i. rewrite !list_lookup_fmap. destruct (decide (i < n)%nat) as [Hi|Hi].
  - rewrite lookup_seq_lt, rotate_lookup by done. simpl.
    assert (Z.to_nat ((cursor d p + Z.of_nat i) mod Z.of_nat n) = ((off + i) mod n)%nat) as ->.
    { apply Nat2Z.inj. rewrite Nat2Z.inj_mod, Nat2Z.inj_add. unfold off.
      rewrite !Z2Nat.id by (apply Z.mod_pos_bound; lia). by rewrite Z.add_mod_idemp_l by lia. }
    assert ((off + i) mod n < n)%nat as Hlt by (apply Nat.mod_upper_bound; lia).
    fold n. destruct (lookup_lt_is_Some_2 (p_Keys p) _ Hlt) as [k Hk]. by rewrite Hk.
  - rewrite !lookup_ge_None_2; [done|rewrite rotate_perm; fold n; lia|rewrite length_seq; lia].
Qed.

(** Cooldowns. Parking a key never shortens a longer wait. A parked key is not
    used before its time unless every key of the pool is parked, in which case
    the whole pool is tried; a non-empty pool never comes back empty. *)
Theorem cooldown_is_respected (d : Dispatcher A) pid key until order :
  let d' := coolKey d pid key until in
  let until' := Z.max until (default until (d_cooldowns d !! (pid, key))) in
  let now := clock (d_tick d') in
  let ready := (readyKeys clock d' pid order).1 in
  d_cooldowns d' !! (pid, key) = Some until' ∧
  (∀ k, k ≠ (pid, key) → d_cooldowns d' !! k = d_cooldowns d !! k) ∧
  (now < until' → key ∈ ready →
     ready = order ∧ Forall (λ k, cooling (d_cooldowns d') pid now k = true) order) ∧
  (order ≠ [] → ready ≠ []) ∧ (∀ k, k ∈ ready → k ∈ order).
Proof.
  intros d' until' now ready.
  assert (d_cooldowns d' !! (pid, key) = Some until') as Hcool.
  { unfold d', until', coolKey, After. destruct (d_cooldowns d !! (pid, key)) as [cur|] eqn:E; simpl.
    - destruct (Z.ltb_spec until cur); [rewrite E; f_equal; lia|]. simpl.
      rewrite lookup_insert_eq. f_equal. lia.
    - rewrite lookup_insert_eq. f_equal. lia. }
  destruct (readyKeys_spec clock d' pid order) as (Hr & _). fold ready now in Hr.
  split_and!; [done| | | |].
  - intros k Hk. unfold d', coolKey. repeat case_match; simpl; try done; by rewrite lookup_insert_ne.
  - intros Hnow Hin. rewrite Hr in *. case_bool_decide as Ef.
    + split; [done|]. apply Forall_forall. intros k Hk. apply not_false_is_true. intros Ec.
      assert (k ∈ []) as []%not_elem_of_nil. rewrite <-Ef. apply elem_of_filter_bool. by rewrite Ec.
    + apply elem_of_filter_bool in Hin as [_ Hin]. unfold cooling in Hin. rewrite Hcool in Hin.
      unfold After in Hin. destruct (Z.ltb_spec now until'); [done|lia].
  - intros Ho. rewrite Hr. by case_bool_decide.
  - apply readyKeys_elem.
Qed.

(** A 429 rotates through the rest of the pool before the provider is given up: a
    candidate that fails without a fatal error and without another kind of failure
    has had one call per ready key, in order. *)
Theorem rate_limits_exhaust_the_pool adapter p req keys at0 d at1 d' :
  try_keys upstream clock adapter p req keys at0 d = ((None, at1, None), d') →
  (∀ pre c t, d_calls d' = d_calls d ++ pre ++ [c] →
     judge (upstream (d_calls d ++ pre) c) ≠ Cascade t) →
  d_calls d' = d_calls d ++ (key_call adapter p req <$> keys).
Proof.
  intros (used & _ & E & _ & _ & _ & _ & _ & _ & _ & _ & Hx)%try_keys_spec Hno.
  destruct (Hx eq_refl eq_refl) as [->|(pre & c & t & Ec & Hj)]; [done|].
  destruct (Hno pre c t); [|done]. by rewrite E, Ec.
Qed.

(** Substituting the model changes that field and no other: every field the
    caller sent survives, and the body that goes out decodes to the caller's
    object with "model" replaced. *)
Theorem withModel_only_sets_model body fields resolved :
  Unmarshal body = Some (JObj fields) →
  ∃ out fields', withModel body resolved = Some (Ok out) ∧ Unmarshal out = Some (JObj fields') ∧
    fields_map fields' = <["model" := JStr resolved]> (fields_map fields).
Proof.
  intros E. unfold withModel. rewrite E. do 2 eexists. split; [done|].
  split; [apply Unmarshal_Marshal_map|]. apply fields_map_map_fields.
Qed.

(** A probe the request is to blame for is never settled: when the breaker of the
    first candidate admits a probe and the upstream answers with a client error,
    the dispatch returns without telling the breaker, and from then on every
    caller of that candidate is refused, at any time, as long as nobody reports
    an outcome for it; and nobody can, for nobody is admitted. *)
Theorem client_error_strands_probe d cand cands snap ps p adapter body out stream path key rest resp ops now :
  let b := d_breaker d in
  let k := cand_Key cand in
  fst (Allow b (clock (d_tick d)) k) = true →
  position (snd (Allow b (clock (d_tick d)) k)) k = StateHalfOpen →
  providersByID ps !! cd_ProviderID cand = Some p → p_Enabled p = true →
  Registry_Get adapters (p_Kind p) = Some adapter →
  withModel body (cd_Model cand) = Some (Ok out) →
  p_Keys p = key :: rest → p_KeyStrategy p = KeyStrategyFailover → d_cooldowns d = ∅ →
  let req := {| rq_Model := cd_Model cand; rq_Body := out; rq_Stream := stream; rq_Path := path |} in
  upstream (d_calls d) (key_call adapter p req key) = (Some resp, None) → rs_Failure resp = FailClient →
  Forall (λ o, op_key o = k → ∃ t, o = OpAllow k t) ops →
  let r := dispatch d (Ok (cand :: cands), snap) (Ok ps) body stream path in
  r.1 = Some (Err (clientError resp)) ∧ fst (Allow (run (d_breaker r.2) ops) now k) = false.
Proof.
  intros b k Hal Hpos Hp Hen Hg Hw Hk Hst Hco req Hup Hf HF r.
  destruct (Allow_admits_probe _ _ _ Hal Hpos) as (e & He & Hpr).
  assert (r.1 = Some (Err (clientError resp)) ∧ d_breaker r.2 = snd (Allow b (clock (d_tick d)) k))
    as [Hr Hb].
  { unfold r, Dispatch. simpl. unfold d_Allow.
    fold b k. destruct (Allow b (clock (d_tick d)) k) as [ok b'] eqn:Ea. simpl in Hal. subst ok. simpl.
    rewrite Hp, Hen, Hk, Hg, Hw. simpl. unfold tryCandidate, keyOrder. rewrite Hst.
    rewrite bool_decide_eq_true_2, orb_true_r by done.
    unfold readyKeys. simpl. rewrite Hco, bool_decide_eq_true_2 by done. rewrite Hk. simpl.
    fold req. fold (key_call adapter p req key). rewrite Hup. simpl. rewrite Hf. done. }
  split; [done|]. rewrite Hb.
  by rewrite (Allow_probing _ _ _ e) by eauto using run_probing.
Qed.

End props.

(** ** Worked examples

    Two providers. The first has two keys: one is rate limited and asks for
    thirty seconds, the other meets a server error; the second provider serves. *)

#[local] Existing Instance ascii_only.
#[local] Existing Instance binary_codec.
Definition no_dates : HttpDates := {| ParseTime _ := None |}.
#[local] Existing Instance no_dates.

Definition reply (status : Z) (h : option (gmap string string)) : DoResult :=
  (Some {| rs_StatusCode := status; rs_Header := h; rs_Body := ""; rs_Usage := None;
           rs_Failure := Classify status; rs_Latency := 0 |}, None).
Definition demo_upstream (_ : list (call ())) (c : call ()) : DoResult :=
  if bool_decide (cr_APIKey (call_cred c) = "k1") then reply 429 (Some {["Retry-After" := "30"]})
  else if bool_decide (cr_APIKey (call_cred c) = "k2") then reply 500 None
  else if bool_decide (cr_APIKey (call_cred c) = "bad") then reply 400 None
  else reply 200 None.
Definition demo_clock (n : nat) : Z := 1000 * Second + Z.of_nat n.

Definition demo_pool (id name : string) (keys : list string) (strategy : string) : Provider :=
  {| p_ID := id; p_TenantID := "t"; p_Name := name; p_Kind := "openai"; p_BaseURL := "http://u";
     p_Enabled := true; p_KeyStrategy := strategy; p_Keys := keys; p_KeyPrefixes := [];
     p_CreatedAt := 0 |}.
Definition demo_pools : list Provider :=
  [demo_pool "p1" "one" ["k1"; "k2"] ""; demo_pool "p2" "two" ["ok"] "";
   demo_pool "p3" "three" ["bad"] KeyStrategyFailover].
Definition demo_cand (pid name : string) : Candidate :=
  {| cd_TenantID := "t"; cd_Provider := name; cd_ProviderID := pid; cd_Model := "m";
     cd_Entry := mkCatEntry (CatalogFacts.demo_model "m" 1) pid |}.
Definition demo_cands : list Candidate := [demo_cand "p1" "one"; demo_cand "p2" "two"; demo_cand "p3" "three"].
Definition demo_fields : list (string * json) := [("model", JStr "x"); ("n", JNum "1")].
Definition demo_body : string := Eval vm_compute in Marshal (JObj demo_fields).
Definition demo_dispatcher : Dispatcher () := NewDispatcher (NewBreaker 5 0 0).
Definition demo_adapters : gmap string () := {["openai" := ()]}.
Definition demo_run : option (res error Result) * Dispatcher () :=
  Dispatch demo_upstream demo_clock demo_adapters demo_dispatcher (Ok demo_cands, None) (Ok demo_pools)
    demo_body false "/chat/completions".

Lemma nothing_sent_after_a_verdict_witness :
  ∃ cs, d_calls demo_run.2 = cs ∧ (λ c, cr_APIKey (call_cred c)) <$> cs = ["k1"; "k2"; "ok"] ∧
    answered demo_upstream (concludes demo_run.1) [] cs.
Proof.
  destruct (nothing_sent_after_a_verdict demo_upstream demo_clock demo_adapters demo_dispatcher
    demo_cands None demo_pools demo_body false "/chat/completions" demo_run.1 demo_run.2)
    as (cs & E & Ha & _); [apply surjective_pairing|].
  exists cs. split; [done|]. split; [|exact Ha]. simpl in E. rewrite <-E. by vm_compute.
Defined.

Lemma attempts_enumerate_candidates_witness :
  ∃ result, demo_run.1 = Some (Ok result) ∧ res_Depth result = 1 ∧
    at_Candidate <$> res_Attempts result = [demo_cand "p1" "one"; demo_cand "p2" "two"].
Proof.
  destruct (demo_run.1) as [[result|]|] eqn:E; [|by vm_compute in E..].
  pose proof (attempts_enumerate_candidates demo_upstream demo_clock demo_adapters demo_dispatcher
    demo_cands None demo_pools demo_body false "/chat/completions" demo_run.1 demo_run.2
    (surjective_pairing demo_run)) as Hat.
  rewrite E in Hat. destruct Hat as (i & Hi & Hd & Hat & _). exists result. split; [done|].
  vm_compute in E. injection E as <-. simpl in *. by vm_compute.
Defined.

Lemma calls_are_authorised_witness :
  Forall (authorised demo_adapters (providersByID demo_pools) demo_body false "/chat/completions"
    demo_cands) (d_calls demo_run.2).
Proof.
  destruct (calls_are_authorised demo_upstream demo_clock demo_adapters demo_dispatcher
    demo_cands None demo_pools demo_body false "/chat/completions" demo_run.1 demo_run.2)
    as (cs & E & HF); [apply surjective_pairing|].
  simpl in E. by rewrite E.
Defined.

Lemma dispatch_respects_breaker_witness : wf (d_breaker demo_run.2).
Proof.
  apply (dispatch_respects_breaker demo_upstream demo_clock demo_adapters demo_dispatcher
    demo_cands None demo_pools demo_body false "/chat/completions" demo_run.1 demo_run.2);
    [apply surjective_pairing|apply NewBreaker_wf].
Defined.

Lemma key_rotation_is_fair_witness :
  first_keys 2 demo_dispatcher (demo_pool "p1" "one" ["k1"; "k2"] "") ≡ₚ [Some "k1"; Some "k2"].
Proof.
  apply (key_rotation_is_fair demo_dispatcher (demo_pool "p1" "one" ["k1"; "k2"] ""));
    by vm_compute.
Defined.

Lemma cooldown_is_respected_witness :
  (readyKeys demo_clock (coolKey demo_dispatcher "p1" "k1" (2000 * Second)) "p1" ["k1"; "k2"]).1 ≠ [].
Proof.
  by apply (cooldown_is_respected demo_clock demo_dispatcher "p1" "k1" (2000 * Second) ["k1"; "k2"]).
Defined.

Lemma rate_limits_exhaust_the_pool_witness :
  let p := demo_pool "p1" "one" ["k1"] "" in
  let req := {| rq_Model := "m"; rq_Body := ""; rq_Stream := false; rq_Path := "/x" |} in
  d_calls (try_keys demo_upstream demo_clock () p req ["k1"] (new_attempt (demo_cand "p1" "one"))
    demo_dispatcher).2 = key_call () p req <$> ["k1"].
Proof.
  intros p req.
  set (t := try_keys demo_upstream demo_clock () p req ["k1"] (new_attempt (demo_cand "p1" "one"))
    demo_dispatcher).
  apply (rate_limits_exhaust_the_pool demo_upstream demo_clock () p req ["k1"]
    (new_attempt (demo_cand "p1" "one")) demo_dispatcher t.1.1.2 t.2).
  - by vm_compute.
  - intros pre c tr E. assert (pre = []) as ->.
    { vm_compute in E. destruct pre as [|? [|? ?]]; done. }
    vm_compute in E. injection E as <-. by vm_compute.
Defined.

Lemma withModel_only_sets_model_witness :
  ∃ out fields', withModel demo_body "m" = Some (Ok out) ∧ Unmarshal out = Some (JObj fields') ∧
    fields_map fields' !! "n" = Some (JNum "1").
Proof.
  destruct (withModel_only_sets_model demo_body demo_fields "m") as (out & f & H1 & H2 & H3);
    [by vm_compute|].
  exists out, f. split; [exact H1|]. split; [exact H2|]. rewrite H3. by vm_compute.
Defined.

(** The third provider's breaker tripped and its cool-off is over. *)
Definition demo_tripped : Dispatcher () :=
  NewDispatcher (fails (NewBreaker 1 0 0) (cand_Key (demo_cand "p3" "three")) [Second]).

Lemma client_error_strands_probe_witness :
  fst (Allow (d_breaker (Dispatch demo_upstream demo_clock demo_adapters demo_tripped
    (Ok [demo_cand "p3" "three"], None) (Ok demo_pools) demo_body false "/x").2)
    (1000000 * Hour) (cand_Key (demo_cand "p3" "three"))) = false.
Proof.
  destruct (withModel demo_body "m") as [[out|]|] eqn:Ew; [|by vm_compute in Ew..].
  refine (proj2 (client_error_strands_probe demo_upstream demo_clock demo_adapters demo_tripped
    (demo_cand "p3" "three") [] None demo_pools (demo_pool "p3" "three" ["bad"] KeyStrategyFailover) ()
    demo_body out false "/x" "bad" [] (default (Build_Response 0 None "" None FailNone 0)
      (reply 400 None).1) [] (1000000 * Hour) _ _ _ _ _ Ew _ _ _ _ _ _)); by vm_compute.
Defined.

End DispatchProps.
