(* ===== verification/Diagnose.v ===== *)
(** * Diagnosis of the routing configuration (internal/routing/diagnose.go)

    The health report's view of aliases and routing rules, and its agreement
    with what [Resolve] does to a request for the same name. *)

From S2P Require Import Prelude GoStrings GoTime GoFloat ApiErr StoreTypes Keys Memory MemoryFacts MemoryProps Provider Breaker Catalog Resolve.

#[local] Open Scope Z_scope.
#[local] Open Scope stdpp_scope.

(** ** Data *)

Definition ReasonAliasUnresolvable : string := CodeAliasUnresolvable.
Definition ReasonFallbackDuplicate : string := CodeFallbackDuplicate.
Definition ReasonPinUnresolvable : string := "pin_unresolvable".
Definition ReasonRuleUnresolvable : string := "rule_unresolvable".

Record NameState := {
  ns_Name : string;
  ns_State : string;
  ns_ResolvesTo : string;
  ns_Reason : string
}.

Record Diagnosis := { dg_Aliases : list NameState; dg_Rules : list NameState }.

Definition Degraded (d : Diagnosis) : bool :=
  existsb (λ s, negb (bool_decide (ns_Reason s = ""))) (dg_Aliases d)
  || existsb (λ s, negb (bool_decide (ns_Reason s = ""))) (dg_Rules d).

Section diagnose.
Context `{Unicode}.

Definition ok_state (name resolvesTo : string) : NameState :=
  {| ns_Name := name; ns_State := "ok"; ns_ResolvesTo := resolvesTo; ns_Reason := "" |}.
Definition degraded_state (name resolvesTo reason : string) : NameState :=
  {| ns_Name := name; ns_State := "degraded"; ns_ResolvesTo := resolvesTo; ns_Reason := reason |}.

Definition diagnoseAlias (a : Alias) (snap : Snapshot) : NameState :=
  match resolveAlias a snap with
  | [] => degraded_state (al_Name a) "" ReasonAliasUnresolvable
  | c :: _ =>
      if negb (bool_decide (al_Pin a = "")) && is_None_b (Lookup (Some snap) (al_Pin a))
      then degraded_state (al_Name a) (ServedBy c) ReasonPinUnresolvable
      else ok_state (al_Name a) (ServedBy c)
  end.

(** The first choice of every chain position that still resolves. *)
Definition live_positions (chain : list string) (aliases : gmap string Alias) (snap : Snapshot) :
    list string :=
  omap (λ ref, ServedBy <$> head (resolveRef ref aliases snap)) chain.

(** Two neighbours land on the same place. *)
Fixpoint adjacent_duplicate (live : list string) : bool :=
  match live with
  | a :: (b :: _) as tl => bool_decide (b = a) || adjacent_duplicate tl
  | _ => false
  end.

Definition diagnoseRoute (rt : Route) (aliases : gmap string Alias) (snap : Snapshot) : NameState :=
  match live_positions (r_Chain rt) aliases snap with
  | [] => degraded_state (r_Match rt) "" ReasonRuleUnresolvable
  | (first :: _) as live =>
      if adjacent_duplicate live then degraded_state (r_Match rt) first ReasonFallbackDuplicate
      else ok_state (r_Match rt) first
  end.

Definition name_less (a b : NameState) : bool := String.ltb (ns_Name a) (ns_Name b).

(** [Diagnose] on the outcome of the catalog read *)
Definition Diagnose {S} `{RoutingStore S} (s : S) (tenantID : string) (got : res error Snapshot) :
    res error Diagnosis :=
  match got with
  | Err e => Err e
  | Ok snap =>
      match rst_ListAliases s tenantID with
      | Err e => Err e
      | Ok aliases =>
          match rst_ListRoutes s tenantID with
          | Err e => Err e
          | Ok routes =>
              Ok {| dg_Aliases := sort_slice name_less ((λ a, diagnoseAlias a snap) <$> aliases);
                    dg_Rules := sort_slice name_less
                      ((λ rt, diagnoseRoute rt (aliasByName aliases) snap) <$> routes) |}
          end
      end
  end.

(** ** Lemmas *)

Lemma walk_nil maxDepth t aliases snap chain :
  1 ≤ maxDepth →
  walk maxDepth t aliases snap chain ∅ [] = [] ↔ live_positions chain aliases snap = [].
Proof.
  intros Hd. induction chain as [|ref chain IH]; [done|]. cbn [walk live_positions omap list_omap].
  rewrite (proj2 (Z.leb_gt maxDepth (Z.of_nat (length (@nil Candidate))))) by (simpl; lia).
  unfold live_positions. simpl. destruct (resolveRef ref aliases snap) as [|c l]; simpl; [apply IH|].
  rewrite bool_decide_eq_false_2 by apply not_elem_of_empty. simpl. split; [|done].
  destruct (walk_spec maxDepth t aliases snap chain ({[ServedBy c]} ∪ ∅) [stamp t c])
    as (new & _ & -> & _); [..|done].
  - intros x ->%list_elem_of_singleton. by apply elem_of_union_l, elem_of_singleton.
  - intros x [->%elem_of_singleton|?%not_elem_of_empty]%elem_of_union; [left|done].
Qed.

(** The first candidate of a cascade is the first live position. *)
Lemma walk_head maxDepth t aliases snap chain :
  1 ≤ maxDepth →
  ServedBy <$> head (walk maxDepth t aliases snap chain ∅ []) = head (live_positions chain aliases snap).
Proof.
  intros Hd. induction chain as [|ref chain IH]; [done|]. cbn [walk].
  rewrite (proj2 (Z.leb_gt maxDepth (Z.of_nat (length (@nil Candidate))))) by (simpl; lia).
  unfold live_positions. simpl. destruct (resolveRef ref aliases snap) as [|c l]; simpl; [apply IH|].
  rewrite bool_decide_eq_false_2 by apply not_elem_of_empty. simpl.
  destruct (walk_spec maxDepth t aliases snap chain ({[ServedBy c]} ∪ ∅) [stamp t c])
    as (new & _ & -> & _); [..|done].
  - intros x ->%list_elem_of_singleton. by apply elem_of_union_l, elem_of_singleton.
  - intros x [->%elem_of_singleton|?%not_elem_of_empty]%elem_of_union; [left|done].
Qed.

Lemma adjacent_duplicate_spec live :
  adjacent_duplicate live = true ↔ ∃ i x, live !! i = Some x ∧ live !! (i + 1)%nat = Some x.
Proof.
  induction live as [|a [|b live] IH]; [split; [done|]; by intros (i & x & ? & _)|..].
  - split; [done|]. intros ([|i] & x & ? & ?); simpl in *; done.
  - cbn [adjacent_duplicate]. rewrite orb_true_iff, bool_decide_eq_true, IH. split.
    + intros [->|(i & x & H1 & H2)]; [by exists 0%nat, a|]. by exists (S i), x.
    + intros ([|i] & x & H1 & H2); simpl in *; [left; congruence|right; eauto].
Qed.

Lemma chainFor_route routes rt :
  NoDup (r_Match <$> routes) → rt ∈ routes → r_Chain rt ≠ [] →
  chainFor (Ok routes) (r_Match rt) = Ok (r_Chain rt).
Proof.
  intros Hnd Hin Hne. unfold chainFor.
  destruct (List.find _ routes) as [rt'|] eqn:Ef.
  - apply List.find_some in Ef as [Hin' [Hm%bool_decide_eq_true _]%andb_true_iff].
    apply list_elem_of_In in Hin'. do 2 f_equal.
    apply list_elem_of_lookup_1 in Hin as [i Hi]. apply list_elem_of_lookup_1 in Hin' as [j Hj].
    assert (i = j) as ->; [|congruence].
    eapply (NoDup_lookup _ _ _ (r_Match rt) Hnd); rewrite list_lookup_fmap; [by rewrite Hi|].
    rewrite Hj. simpl. by rewrite Hm.
  - apply list_elem_of_In in Hin. pose proof (List.find_none _ _ Ef rt Hin) as E. simpl in E.
    by rewrite bool_decide_eq_true_2, bool_decide_eq_false_2 in E.
Qed.

End diagnose.

(** ** Component theorems *)

Module DiagnoseFacts.
Section facts.
Context `{Unicode} {S : Type} `{RoutingStore S}.

(** The report on a rule agrees with a request for it: the rule is reported
    unresolvable exactly when the request fails, and otherwise it names the
    destination the request tries first; it warns of a duplicate exactly when two
    neighbouring live positions land on the same destination. *)
Theorem rule_report_matches_requests s t maxDepth snap aliases routes rt :
  rst_ok s → rst_ListAliases s t = Ok aliases → rst_ListRoutes s t = Ok routes →
  rt ∈ routes → r_Chain rt ≠ [] →
  let st := diagnoseRoute rt (aliasByName aliases) snap in
  let r := resolve_in (NewResolver maxDepth) s t (r_Match rt) snap in
  match r with
  | Err _ => ns_Reason st = ReasonRuleUnresolvable
  | Ok out => ServedBy <$> head out = Some (ns_ResolvesTo st) ∧
      ns_Reason st = (if adjacent_duplicate (live_positions (r_Chain rt) (aliasByName aliases) snap)
                      then ReasonFallbackDuplicate else "")
  end.
Proof.
  intros Hok Ha Hr Hin Hne st r.
  assert (1 ≤ rv_maxDepth (NewResolver maxDepth)) as Hd.
  { unfold NewResolver. simpl. destruct (Z.ltb_spec maxDepth 1); lia. }
  unfold r, resolve_in. rewrite Ha, Hr, chainFor_route by eauto using rst_route_matches.
  pose proof (walk_nil (rv_maxDepth (NewResolver maxDepth)) t (aliasByName aliases) snap (r_Chain rt) Hd) as Hn.
  pose proof (walk_head (rv_maxDepth (NewResolver maxDepth)) t (aliasByName aliases) snap (r_Chain rt) Hd) as Hh.
  unfold st, diagnoseRoute.
  destruct (walk _ _ _ _ _ _ _) as [|c out].
  - rewrite (proj1 Hn eq_refl). by destruct (is_None_b _).
  - destruct (live_positions _ _ _) as [|l live] eqn:El; [by destruct (proj2 Hn eq_refl)|].
    simpl in Hh. injection Hh as Hh. by destruct (adjacent_duplicate _); simpl; rewrite Hh.
Qed.

(** The report on an alias agrees with a request for it, when no rule claims the
    name: unresolvable exactly when the request fails, which it then does with the
    same code; otherwise it names what the request gets, and flags a pin the catalog no
    longer has. *)
Theorem alias_report_matches_requests s t maxDepth snap aliases routes a :
  rst_ok s → rst_ListAliases s t = Ok aliases → rst_ListRoutes s t = Ok routes →
  a ∈ aliases → al_Name a ∉ r_Match <$> routes →
  let st := diagnoseAlias a snap in
  match resolve_in (NewResolver maxDepth) s t (al_Name a) snap with
  | Err e => ns_Reason st = ReasonAliasUnresolvable ∧
             ∃ e', as_api e = Some e' ∧ err_Code e' = ns_Reason st
  | Ok out => ServedBy <$> head out = Some (ns_ResolvesTo st) ∧
      ns_Reason st = (if negb (bool_decide (al_Pin a = "")) && is_None_b (Lookup (Some snap) (al_Pin a))
                      then ReasonPinUnresolvable else "")
  end.
Proof.
  intros Hok Ha Hr Hin Hnr st.
  assert (1 ≤ rv_maxDepth (NewResolver maxDepth)) as Hd.
  { unfold NewResolver. simpl. destruct (Z.ltb_spec maxDepth 1); lia. }
  assert (chainFor (Ok routes) (al_Name a) = Ok [al_Name a]) as Hc.
  { unfold chainFor. destruct (List.find _ routes) as [rt|] eqn:Ef; [|done].
    apply List.find_some in Ef as [Hi [Hm%bool_decide_eq_true _]%andb_true_iff].
    destruct Hnr. apply list_elem_of_fmap. exists rt. by rewrite list_elem_of_In. }
  pose proof (aliasByName_Some aliases a (rst_alias_names s t aliases Hok Ha) Hin) as Hl.
  unfold resolve_in. rewrite Ha, Hr, Hc, Hl.
  pose proof (walk_nil (rv_maxDepth (NewResolver maxDepth)) t (aliasByName aliases) snap [al_Name a] Hd) as Hn.
  pose proof (walk_head (rv_maxDepth (NewResolver maxDepth)) t (aliasByName aliases) snap [al_Name a] Hd) as Hh.
  set (w := walk _ _ _ _ _ _ _) in *. clearbody w.
  unfold live_positions in Hn, Hh. simpl in Hn, Hh. unfold resolveRef in Hn, Hh. rewrite Hl in Hn, Hh.
  unfold st, diagnoseAlias. destruct w as [|c out].
  - destruct (resolveAlias a snap); simpl in *; [|by destruct (proj1 Hn eq_refl)].
    split; [done|]. by eexists.
  - destruct (resolveAlias a snap) as [|c' l]; simpl in *; [done|]. injection Hh as Hh.
    rewrite Hh. by destruct (_ && _).
Qed.

End facts.

(** ** Worked examples *)

#[local] Existing Instance ascii_only.
#[local] Existing Instance Store.toy_hash.

Lemma demo_store_ok : mem_ok ResolveFacts.demo_store.
Proof.
  apply (run_mem_ok Store.demo [OpUpsertAlias "1" 1 (ResolveFacts.demo_alias "cheap" "" "best" ["CHAT"]);
    OpUpsertAlias "2" 2 (ResolveFacts.demo_alias "dead" "" "" ["vision"]);
    OpUpsertRoute "3" 3 ResolveFacts.demo_route]); [apply Store.demo_ok|done].
Qed.

Definition demo_saved_route : Route :=
  Eval vm_compute in default ResolveFacts.demo_route (head (ListRoutes ResolveFacts.demo_store Store.acme)).

Lemma rule_report_matches_requests_witness :
  ns_ResolvesTo (diagnoseRoute demo_saved_route
    (aliasByName (ListAliases ResolveFacts.demo_store Store.acme)) ResolveFacts.snapshot) = "zeta/gpt".
Proof.
  pose proof (rule_report_matches_requests ResolveFacts.demo_store Store.acme 5 ResolveFacts.snapshot
    (ListAliases ResolveFacts.demo_store Store.acme) (ListRoutes ResolveFacts.demo_store Store.acme)
    demo_saved_route demo_store_ok eq_refl eq_refl) as Hr.
  cbv zeta in Hr. destruct (resolve_in _ _ _ _ _) as [out|] eqn:E; [|by vm_compute in E].
  destruct Hr as [Hr _]; [vm_compute; left|done|].
  vm_compute in E. injection E as <-. apply (inj Some). rewrite <-Hr. by vm_compute.
Defined.

Definition demo_saved_alias : Alias :=
  Eval vm_compute in default (ResolveFacts.demo_alias "" "" "" [])
    (last (ListAliases ResolveFacts.demo_store Store.acme)).

Lemma alias_report_matches_requests_witness :
  ns_Reason (diagnoseAlias demo_saved_alias ResolveFacts.snapshot) = ReasonAliasUnresolvable.
Proof.
  pose proof (alias_report_matches_requests ResolveFacts.demo_store Store.acme 5 ResolveFacts.snapshot
    (ListAliases ResolveFacts.demo_store Store.acme) (ListRoutes ResolveFacts.demo_store Store.acme)
    demo_saved_alias demo_store_ok eq_refl eq_refl) as Hr.
  cbv zeta in Hr. destruct (resolve_in _ _ _ _ _) as [out|] eqn:E; [by vm_compute in E|].
  apply Hr; [vm_compute; right; left|apply (bool_decide_unpack _); by vm_compute].
Defined.

End DiagnoseFacts.
