(* ===== verification/Cache.v ===== *)
(** * The response cache (internal/cache/cache.go)

    A byte-bounded LRU with per-entry lifetimes and a flush per tenant. The
    recency list is [c_order], front first; an element of the list is its item,
    and the items of a reachable cache have different keys, so a pointer to an
    element is modelled by the item it holds. A nil cache is [None]. *)

From S2P Require Import Prelude GoStrings GoTime StoreTypes Keys Json.
From Stdlib Require Import Ascii.

#[local] Open Scope Z_scope.
#[local] Open Scope stdpp_scope.

(** ** Data *)

Record CacheEntry := {
  ce_Body : string;
  ce_Provider : string;
  ce_Model : string
}.

(** [Entry.ServedBy] *)
Definition ce_ServedBy (e : CacheEntry) : string := ce_Provider e +:+ "/" +:+ ce_Model e.

Record item := mkItem {
  it_key : string;
  it_tenant : string;
  it_entry : CacheEntry;
  it_expires : Z;
  it_size : Z
}.

Record Cache := mkCache {
  c_items : gmap string item;
  c_order : list item;
  c_byTenant : gmap string (gset string);
  c_bytes : Z;
  c_maxBytes : Z;
  c_maxEntryBytes : Z
}.

Definition NewCache (maxBytes maxEntryBytes : Z) : Cache := mkCache ∅ [] ∅ 0 maxBytes maxEntryBytes.

(** ** Operations *)

(** The list without the element of that key ([order.Remove]). *)
Definition without (key : string) (l : list item) : list item :=
  List.filter (λ it, negb (bool_decide (it_key it = key))) l.

Definition removeElement (c : Cache) (it : item) : Cache :=
  mkCache (delete (it_key it) (c_items c)) (without (it_key it) (c_order c))
    (match c_byTenant c !! it_tenant it with
     | None => c_byTenant c
     | Some keys =>
         let keys := keys ∖ {[it_key it]} in
         if bool_decide (keys = ∅) then delete (it_tenant it) (c_byTenant c)
         else <[it_tenant it := keys]> (c_byTenant c)
     end)
    (wrap64 (c_bytes c - it_size it)) (c_maxBytes c) (c_maxEntryBytes c).

Definition CGet (c : option Cache) (now : Z) (key : string) : option CacheEntry * option Cache :=
  match c with
  | None => (None, None)
  | Some c =>
      match c_items c !! key with
      | None => (None, Some c)
      | Some it =>
          if negb (Before now (it_expires it)) then (None, Some (removeElement c it))
          else (Some (it_entry it),
                Some (mkCache (c_items c) (it :: without key (c_order c)) (c_byTenant c)
                        (c_bytes c) (c_maxBytes c) (c_maxEntryBytes c)))
      end
  end.

Definition size_of (key : string) (e : CacheEntry) : Z :=
  Z.of_nat (String.length (ce_Body e) + String.length (ce_Provider e)
            + String.length (ce_Model e) + String.length key).

(** The eviction loop: the back of the list goes while the bound is exceeded.
    Each round removes an element, so [length (c_order c)] rounds are enough. *)
Fixpoint evict (fuel : nat) (c : Cache) : Cache :=
  match fuel with
  | O => c
  | S fuel' =>
      if c_maxBytes c <? c_bytes c then
        match last (c_order c) with
        | None => c
        | Some back => evict fuel' (removeElement c back)
        end
      else c
  end.

Definition push_front (c : Cache) (it : item) : Cache :=
  mkCache (<[it_key it := it]> (c_items c)) (it :: c_order c)
    (<[it_tenant it := {[it_key it]} ∪ default ∅ (c_byTenant c !! it_tenant it)]> (c_byTenant c))
    (wrap64 (c_bytes c + it_size it)) (c_maxBytes c) (c_maxEntryBytes c).

Definition CPut (c : option Cache) (now : Z) (tenant key : string) (e : CacheEntry) (ttl : Z) :
    option Cache :=
  match c with
  | None => None
  | Some c =>
      if ttl <=? 0 then Some c
      else
        let size := size_of key e in
        if c_maxEntryBytes c <? size then Some c
        else
          let c := match c_items c !! key with Some it => removeElement c it | None => c end in
          let c := push_front c (mkItem key tenant e (Add now ttl) size) in
          Some (evict (length (c_order c)) c)
  end.

(** The loop of [Flush] over the tenant's keys. *)
Definition flush_key (acc : Cache * Z) (key : string) : Cache * Z :=
  let '(c, n) := acc in
  match c_items c !! key with
  | Some it => (removeElement c it, n + 1)
  | None => (c, n)
  end.

Definition CFlush (c : option Cache) (tenant : string) : Z * option Cache :=
  match c with
  | None => (0, None)
  | Some c =>
      let '(c, n) := foldl flush_key (c, 0) (elements (default ∅ (c_byTenant c !! tenant))) in
      (n, Some c)
  end.

Definition Stats (c : option Cache) : Z * Z :=
  match c with None => (0, 0) | Some c => (Z.of_nat (size (c_items c)), c_bytes c) end.

(** ** Keys *)

Definition volatileFields : list string := ["user"; "metadata"; "stream_options"].

(** [json.Decoder.Decode]: the first document of the input. *)
Class JsonStream `{JsonCodec} := {
  Decode : string → option json;
  Decode_Unmarshal s j : Unmarshal s = Some j → Decode s = Some j
}.

(** A document as decoding into [any] and encoding again leaves it: at every
    level the last occurrence of a key wins and the keys are in order. *)
Fixpoint canon (j : json) : json :=
  match j with
  | JArr l => JArr (canon <$> l)
  | JObj fs => JObj (map_fields (fields_map ((λ f, (f.1, canon f.2)) <$> fs)))
  | _ => j
  end.

Section keys.
Context `{JsonStream} `{Crypto}.

Definition canonicalize (body : string) : option string :=
  match Decode body with
  | Some (JObj fs) =>
      let doc := fields_map ((λ f, (f.1, canon f.2)) <$> fs) in
      Some (Marshal (JObj (map_fields (foldl (λ m f, delete f m) doc volatileFields))))
  | Some JNull => Some (Marshal JNull)
  | _ => None
  end.

Definition key_input (tenantID servedBy canonical : string) : string :=
  tenantID +:+ String zero (servedBy +:+ String zero canonical).

Definition CKey (tenantID servedBy body : string) : option string :=
  canonical ← canonicalize body;
  Some (hex_encode (Sum256 (key_input tenantID servedBy canonical))).

End keys.

(** ** The invariant *)

Definition total (l : list item) : Z := foldr (λ it n, it_size it + n) 0 l.

Record cache_ok (c : Cache) : Prop := {
  co_nodup : NoDup (it_key <$> c_order c);
  co_items k it : c_items c !! k = Some it ↔ it ∈ c_order c ∧ it_key it = k;
  co_tenant t k : k ∈ default ∅ (c_byTenant c !! t) ↔
    ∃ it, it ∈ c_order c ∧ it_key it = k ∧ it_tenant it = t;
  co_nonempty t : c_byTenant c !! t ≠ Some ∅;
  co_sizes : Forall (λ it, 0 ≤ it_size it ≤ c_maxEntryBytes c) (c_order c);
  co_bytes : c_bytes c = total (c_order c);
  co_config : 0 ≤ c_maxBytes c ∧ 0 ≤ c_maxEntryBytes c ∧ c_maxBytes c + c_maxEntryBytes c ≤ maxInt64
}.

(** Within its bound: what every method leaves behind. *)
Definition bounded (c : Cache) : Prop := c_bytes c ≤ c_maxBytes c.

(** ** Lemmas *)

Lemma elem_of_without key l it : it ∈ without key l ↔ it ∈ l ∧ it_key it ≠ key.
Proof.
  unfold without. rewrite elem_of_filter_bool, negb_true_iff, bool_decide_eq_false. done.
Qed.

Lemma without_id key l : key ∉ it_key <$> l → without key l = l.
Proof.
  induction l as [|x l IH]; [done|]. rewrite fmap_cons, not_elem_of_cons. intros [Hx Hl].
  unfold without. simpl. rewrite bool_decide_eq_false_2 by congruence. simpl. f_equal. by apply IH.
Qed.

Lemma NoDup_without key l : NoDup (it_key <$> l) → NoDup (it_key <$> without key l).
Proof.
  intros Hnd. eapply sublist_NoDup; [exact Hnd|]. apply fmap_sublist. clear.
  induction l as [|x l IH]; simpl; [constructor|]. unfold without. simpl.
  destruct (negb _); by constructor.
Qed.

Lemma total_nonneg l M : Forall (λ it, 0 ≤ it_size it ≤ M) l → 0 ≤ total l.
Proof. induction 1 as [|x l Hx HF IH]; simpl; lia. Qed.

Lemma total_app l1 l2 : total (l1 ++ l2) = total l1 + total l2.
Proof. induction l1 as [|x l1 IH]; simpl; [done|]. unfold total in *. simpl. lia. Qed.

(** Removing the element of a key takes its size off the total. *)
Lemma total_without l it :
  NoDup (it_key <$> l) → it ∈ l → total (without (it_key it) l) = total l - it_size it.
Proof.
  induction l as [|x l IH]; [by intros _ ?%not_elem_of_nil|].
  rewrite fmap_cons, NoDup_cons. intros [Hx Hnd] [->|Hin]%elem_of_cons.
  - unfold without. simpl. rewrite bool_decide_eq_true_2 by done. simpl.
    fold (without (it_key x) l). rewrite without_id by done. lia.
  - unfold without. simpl. rewrite bool_decide_eq_false_2.
    + simpl. fold (without (it_key it) l). rewrite IH by done. lia.
    + intros E. apply Hx. rewrite E. apply list_elem_of_fmap. eauto.
Qed.

Lemma total_le l it M : Forall (λ it, 0 ≤ it_size it ≤ M) l → it ∈ l → it_size it ≤ total l.
Proof.
  intros HF. induction HF as [|x l Hx HF IH]; [by intros ?%not_elem_of_nil|].
  pose proof (total_nonneg l M HF). intros [->|Hin]%elem_of_cons; simpl; [lia|].
  specialize (IH Hin). lia.
Qed.

Definition total_bounded (c : Cache) : Prop := total (c_order c) ≤ maxInt64.

Lemma removeElement_ok c it :
  cache_ok c → total_bounded c → it ∈ c_order c → cache_ok (removeElement c it).
Proof.
  intros [C1 C2 C3 C4 C5 C6 C7] Hb Hin.
  pose proof (total_nonneg _ _ C5). pose proof (total_le _ _ _ C5 Hin).
  assert (0 ≤ it_size it) by (by apply (proj1 (Forall_forall _ _) C5)).
  assert (it_key it ∈ default ∅ (c_byTenant c !! it_tenant it)) as Hk by (apply C3; eauto).
  destruct (c_byTenant c !! it_tenant it) as [keys|] eqn:Et; [|by apply not_elem_of_empty in Hk].
  unfold removeElement. rewrite Et.
  split; simpl; [by apply NoDup_without| | | | | |done].
  - intros k x. rewrite lookup_delete_Some, C2, elem_of_without. split.
    + intros (Hne & ? & <-). auto.
    + intros ([? ?] & <-). auto.
  - intros t k.
    assert (k ∈ default ∅ ((if bool_decide (keys ∖ {[it_key it]} = ∅)
          then delete (it_tenant it) (c_byTenant c)
          else <[it_tenant it := keys ∖ {[it_key it]}]> (c_byTenant c)) !! t) ↔
        k ∈ default ∅ (c_byTenant c !! t) ∧ ¬ (t = it_tenant it ∧ k = it_key it)) as ->.
    { destruct (decide (t = it_tenant it)) as [->|Hne].
      - assert (default ∅ ((if bool_decide (keys ∖ {[it_key it]} = ∅)
          then delete (it_tenant it) (c_byTenant c)
          else <[it_tenant it := keys ∖ {[it_key it]}]> (c_byTenant c)) !! it_tenant it)
          = keys ∖ {[it_key it]}) as ->.
        { case_bool_decide as Ek; [rewrite lookup_delete_eq|rewrite lookup_insert_eq]; done. }
        rewrite Et. simpl. rewrite elem_of_difference, elem_of_singleton. tauto.
      - case_bool_decide; rewrite ?lookup_delete_ne, ?lookup_insert_ne by done; tauto. }
    rewrite C3. split.
    + intros ((x & Hx & <- & <-) & Hn). exists x. rewrite elem_of_without. split_and!; try done.
      intros E. apply Hn. by rewrite (NoDup_fmap_eq it_key _ _ _ C1 Hx Hin E).
    + intros (x & [Hx Hne]%elem_of_without & <- & <-). split; [eauto|]. by intros [_ ?].
  - intros t. case_bool_decide as Ek; [rewrite lookup_delete|rewrite lookup_insert];
      case_decide; try done; congruence.
  - apply Forall_forall. intros x [Hx _]%elem_of_without. by apply (proj1 (Forall_forall _ _) C5).
  - rewrite total_without by done. rewrite C6. apply wrap64_small.
    unfold total_bounded, in_int64, minInt64, maxInt64 in *. lia.
Qed.

Lemma push_front_ok c it :
  cache_ok c → it_key it ∉ it_key <$> c_order c → 0 ≤ it_size it ≤ c_maxEntryBytes c → bounded c →
  cache_ok (push_front c it) ∧ total_bounded (push_front c it).
Proof.
  intros [C1 C2 C3 C4 C5 C6 C7] Hnew Hsz Hb. pose proof (total_nonneg _ _ C5).
  unfold bounded in Hb. unfold total_bounded, maxInt64 in *.
  assert (∀ x, x ∈ c_order c → it_key x ≠ it_key it) as Hne.
  { intros x Hx E. apply Hnew. rewrite <-E. apply list_elem_of_fmap. eauto. }
  split; [|simpl; lia]. split; simpl; try done.
  - by constructor.
  - intros k x. rewrite lookup_insert_Some, C2, elem_of_cons. split.
    + intros [[<- <-]|(Hk & ? & <-)]; auto.
    + intros [[->|Hx] <-]; [by left|]. right. split; [|done]. intros E. by apply (Hne x Hx).
  - intros t k. rewrite lookup_insert. case_decide as E; simpl.
    + subst t. rewrite elem_of_union, elem_of_singleton, C3. split.
      * intros [->|(x & ? & ? & ?)]; [exists it; split; [left|done]|exists x; split; [by right|done]].
      * intros (x & [->|Hx]%elem_of_cons & <- & Et); [by left|right; eauto].
    + rewrite C3. split; intros (x & Hx & <- & Et).
      * exists x. split; [by right|done].
      * apply elem_of_cons in Hx as [->|Hx]; [done|eauto].
  - intros t. rewrite lookup_insert. case_decide; [|apply C4]. intros [= E].
    assert (it_key it ∈ (∅ : gset string)) as []%not_elem_of_empty.
    rewrite <-E. by apply elem_of_union_l, elem_of_singleton.
  - by constructor.
  - rewrite C6. rewrite wrap64_small; [lia|]. unfold in_int64, minInt64, maxInt64, two63 in *. lia.
Qed.

(** Eviction drops from the back, only as much as the bound needs. *)
Lemma evict_spec fuel c :
  cache_ok c → total_bounded c → (length (c_order c) ≤ fuel)%nat →
  let c' := evict fuel c in
  cache_ok c' ∧ bounded c' ∧ c_maxBytes c' = c_maxBytes c ∧ c_maxEntryBytes c' = c_maxEntryBytes c ∧
  ∃ gone, c_order c = c_order c' ++ gone ∧
    (∀ x rest, gone = x :: rest → c_maxBytes c < total (c_order c' ++ [x])).
Proof.
  revert c; induction fuel as [|fuel IH]; intros c Hok Htb Hl; simpl.
  { destruct (c_order c) eqn:E; [|simpl in Hl; lia]. pose proof (co_bytes c Hok) as Hbt.
    rewrite E in Hbt. split_and!; try done.
    - unfold bounded. rewrite Hbt. apply (co_config c Hok).
    - exists []. split; [by rewrite ?E|done]. }
  destruct (Z.ltb_spec (c_maxBytes c) (c_bytes c)) as [Hgt|Hle].
  2: { split_and!; try done. exists []. by rewrite app_nil_r. }
  destruct (last (c_order c)) as [back|] eqn:El.
  2: { apply last_None in El. pose proof (co_bytes c Hok) as Hbt. rewrite El in Hbt.
       pose proof (co_config c Hok). simpl in Hbt. lia. }
  apply last_Some in El as [l El].
  assert (back ∈ c_order c) as Hin by (rewrite El; auto with gate).
  pose proof (removeElement_ok c back Hok Htb Hin) as Hok'.
  assert (c_order (removeElement c back) = l) as Eo.
  { simpl. rewrite El. unfold without. rewrite List.filter_app. simpl.
    rewrite bool_decide_eq_true_2 by done. simpl. rewrite app_nil_r. apply without_id.
    pose proof (co_nodup c Hok) as Hnd. rewrite El, fmap_app in Hnd.
    apply NoDup_app in Hnd as (_ & Hd & _). intros Hk. apply (Hd _ Hk). left. }
  destruct (IH (removeElement c back)) as (K1 & K2 & K3 & K4 & gone & Eg & Hg); [done| | |].
  - unfold total_bounded in *. rewrite Eo. rewrite El, total_app in Htb. simpl in Htb.
    pose proof (proj1 (Forall_forall _ _) (co_sizes c Hok) back Hin). simpl in *. lia.
  - rewrite Eo. rewrite El, length_app in Hl. simpl in Hl. lia.
  - split_and!; [done..|]. exists (gone ++ [back]). rewrite Eo in Eg. split.
    + rewrite El, Eg. by rewrite app_assoc.
    + intros x rest E. destruct gone as [|y gone]; simpl in E; injection E as <- <-; [|by apply (Hg y gone)].
      rewrite app_nil_r in Eg. rewrite <-Eg, <-El, <-(co_bytes c Hok). done.
Qed.

Lemma removeElement_items c it k x :
  c_items (removeElement c it) !! k = Some x ↔ c_items c !! k = Some x ∧ it_key it ≠ k.
Proof. simpl. rewrite lookup_delete_Some. tauto. Qed.

Lemma evict_items fuel c k x : c_items (evict fuel c) !! k = Some x → c_items c !! k = Some x.
Proof.
  revert c; induction fuel as [|fuel IH]; intros c; simpl; [done|].
  destruct (_ <? _); [|done]. destruct (last _); [|done].
  by intros [? _]%IH%removeElement_items.
Qed.

Lemma total_bounded_of c : cache_ok c → bounded c → total_bounded c.
Proof.
  intros Hok Hb. unfold bounded, total_bounded in *. rewrite <-(co_bytes c Hok).
  pose proof (co_config c Hok). lia.
Qed.

Lemma removeElement_bounded c it : cache_ok c → bounded c → it ∈ c_order c →
  bounded (removeElement c it).
Proof.
  intros Hok Hb Hin. pose proof (removeElement_ok c it Hok (total_bounded_of c Hok Hb) Hin) as Hok'.
  unfold bounded in *. rewrite (co_bytes _ Hok'). simpl. rewrite total_without by (done || apply Hok).
  rewrite (co_bytes c Hok) in Hb.
  pose proof (proj1 (Forall_forall _ _) (co_sizes c Hok) it Hin). simpl in *. lia.
Qed.

(** Moving an element to the front keeps the cache well formed. *)
Lemma move_to_front_ok c it : cache_ok c → it ∈ c_order c →
  cache_ok (mkCache (c_items c) (it :: without (it_key it) (c_order c)) (c_byTenant c) (c_bytes c)
              (c_maxBytes c) (c_maxEntryBytes c)).
Proof.
  intros [C1 C2 C3 C4 C5 C6 C7] Hin.
  assert (∀ x, x ∈ it :: without (it_key it) (c_order c) ↔ x ∈ c_order c) as Hm.
  { intros x. rewrite elem_of_cons, elem_of_without. split; [intros [->|[? _]]; done|]. intros Hx.
    destruct (decide (it_key x = it_key it)) as [E|E]; [left|by right].
    by eapply (NoDup_fmap_eq it_key). }
  split; simpl; try done.
  - constructor; [|by apply NoDup_without].
    intros (x & E & [_ Hx]%elem_of_without)%list_elem_of_fmap. done.
  - intros k x. by rewrite C2, Hm.
  - intros t k. rewrite C3. by setoid_rewrite Hm.
  - rewrite Forall_forall in C5 |- *. intros x Hx. by apply C5, Hm.
  - rewrite total_without, C6 by done. lia.
Qed.

(** ** Executions and the unbounded map they refine *)

Inductive cop :=
  | OGet (now : Z) (key : string)
  | OPut (now : Z) (tenant key : string) (e : CacheEntry) (ttl : Z)
  | OFlush (tenant : string).

Definition apply_cop (c : option Cache) (o : cop) : option Cache :=
  match o with
  | OGet now key => (CGet c now key).2
  | OPut now tenant key e ttl => CPut c now tenant key e ttl
  | OFlush tenant => (CFlush c tenant).2
  end.
Definition run_cache (c : option Cache) (ops : list cop) : option Cache := foldl apply_cop c ops.

(** The specification: tenant, response and expiry under each key, never evicted. *)
Abbreviation store_map := (gmap string (string * CacheEntry * Z)).

Definition spec_step (maxEntryBytes : Z) (m : store_map) (o : cop) : store_map :=
  match o with
  | OGet _ _ => m
  | OPut now tenant key e ttl =>
      if (ttl <=? 0) || (maxEntryBytes <? size_of key e) then m
      else <[key := (tenant, e, Add now ttl)]> m
  | OFlush tenant => filter (λ kv, kv.2.1.1 ≠ tenant) m
  end.
Definition run_spec (maxEntryBytes : Z) (m : store_map) (ops : list cop) : store_map :=
  foldl (spec_step maxEntryBytes) m ops.

Definition represents (c : Cache) (m : store_map) : Prop :=
  ∀ k it, c_items c !! k = Some it → m !! k = Some (it_tenant it, it_entry it, it_expires it).

Lemma CPut_ok c now tenant key e ttl :
  cache_ok c → bounded c →
  ∃ c', CPut (Some c) now tenant key e ttl = Some c' ∧ cache_ok c' ∧ bounded c' ∧
    c_maxBytes c' = c_maxBytes c ∧ c_maxEntryBytes c' = c_maxEntryBytes c ∧
    if (ttl <=? 0) || (c_maxEntryBytes c <? size_of key e) then c' = c
    else ∃ gone, mkItem key tenant e (Add now ttl) (size_of key e) :: without key (c_order c)
                 = c_order c' ++ gone ∧
           (∀ x rest, gone = x :: rest → c_maxBytes c < total (c_order c' ++ [x])) ∧
           ∀ k it, c_items c' !! k = Some it →
             (k = key ∧ it = mkItem key tenant e (Add now ttl) (size_of key e)) ∨
             (k ≠ key ∧ c_items c !! k = Some it).
Proof.
  intros Hok Hb. unfold CPut. destruct (ttl <=? 0); simpl; [eauto 10|].
  destruct (Z.ltb_spec (c_maxEntryBytes c) (size_of key e)) as [|Hsz]; [eauto 10|].
  set (it := mkItem key tenant e (Add now ttl) (size_of key e)).
  set (c1 := match c_items c !! key with Some it => removeElement c it | None => c end).
  assert (cache_ok c1 ∧ bounded c1 ∧ c_order c1 = without key (c_order c) ∧
    c_maxBytes c1 = c_maxBytes c ∧ c_maxEntryBytes c1 = c_maxEntryBytes c ∧
    ∀ k x, c_items c1 !! k = Some x → c_items c !! k = Some x) as (H1 & H2 & H3 & H4 & H5 & H6).
  { unfold c1. destruct (c_items c !! key) as [x|] eqn:E.
    - apply (co_items c Hok) in E as [Hin <-]. split_and!; try done.
      + apply removeElement_ok; [done|by apply total_bounded_of|done].
      + by apply removeElement_bounded.
      + by intros k y [? _]%removeElement_items.
    - split_and!; try done. symmetry. apply without_id.
      intros (x & -> & Hx)%list_elem_of_fmap.
      assert (c_items c !! it_key x = Some x) by (by apply (co_items c Hok)). congruence. }
  destruct (push_front_ok c1 it) as [P1 P2]; [done| | |done|].
  { rewrite H3. intros (x & E & [_ Hx]%elem_of_without)%list_elem_of_fmap. done. }
  { simpl. rewrite H5. unfold size_of in *. lia. }
  destruct (evict_spec (length (c_order (push_front c1 it))) (push_front c1 it) P1 P2)
    as (E1 & E2 & E3 & E4 & gone & E5 & E6); [done|].
  exists (evict (length (c_order (push_front c1 it))) (push_front c1 it)).
  split; [done|]. split_and!; [done..|by etrans; [exact E3|]|by etrans; [exact E4|]|].
  exists gone. split_and!.
  - rewrite <-E5. simpl. by rewrite H3.
  - intros x rest Hg. rewrite <-H4. by apply (E6 x rest).
  - intros k x Hx%evict_items. simpl in Hx. apply lookup_insert_Some in Hx as [[<- <-]|[Hne Hx]]; auto.
Qed.

Lemma flush_loop c n L :
  cache_ok c → bounded c → NoDup L →
  (∀ k, k ∈ L → is_Some (c_items c !! k)) →
  let '(c', n') := foldl flush_key (c, n) L in
  cache_ok c' ∧ bounded c' ∧ n' = n + Z.of_nat (length L) ∧
  c_maxBytes c' = c_maxBytes c ∧ c_maxEntryBytes c' = c_maxEntryBytes c ∧
  c_order c' = List.filter (λ it, negb (bool_decide (it_key it ∈ L))) (c_order c).
Proof.
  revert c n; induction L as [|k L IH]; intros c n Hok Hb Hnd HL; simpl.
  { split_and!; try done; [lia|].
    induction (c_order c) as [|x l IHl]; simpl; [done|by f_equal]. }
  apply NoDup_cons in Hnd as [Hk Hnd].
  destruct (HL k) as [it Hit]; [left|]. rewrite Hit.
  pose proof (proj1 (co_items c Hok k it) Hit) as [Hin Hkey].
  specialize (IH (removeElement c it) (n + 1)).
  destruct (foldl flush_key (removeElement c it, n + 1) L) as [c' n'].
  destruct IH as (I1 & I2 & I3 & I4 & I5 & I6).
  - apply removeElement_ok; [done|by apply total_bounded_of|done].
  - by apply removeElement_bounded.
  - done.
  - intros k' Hk'. destruct (HL k') as [x Hx]; [by right|]. exists x.
    apply removeElement_items. split; [done|]. intros E. apply Hk. congruence.
  - split_and!; try done; [lia|]. rewrite I6. simpl. unfold without. rewrite Hkey.
    clear. induction (c_order c) as [|x l IHl]; simpl; [done|].
    destruct (decide (it_key x = k)) as [E|E].
    + rewrite (bool_decide_eq_true_2 (it_key x = k)) by done. simpl.
      rewrite (bool_decide_eq_true_2 (it_key x ∈ k :: L)) by (rewrite E; left). done.
    + rewrite (bool_decide_eq_false_2 (it_key x = k)) by done. simpl.
      destruct (decide (it_key x ∈ L)).
      * rewrite !bool_decide_eq_true_2; [done|by right|done].
      * rewrite !bool_decide_eq_false_2; [simpl; by f_equal|set_solver|done].
Qed.

Lemma CFlush_ok c t :
  cache_ok c → bounded c →
  ∃ c', CFlush (Some c) t = (Z.of_nat (length (List.filter (λ it, bool_decide (it_tenant it = t)) (c_order c))), Some c') ∧
    cache_ok c' ∧ bounded c' ∧ c_maxBytes c' = c_maxBytes c ∧ c_maxEntryBytes c' = c_maxEntryBytes c ∧
    c_order c' = List.filter (λ it, negb (bool_decide (it_tenant it = t))) (c_order c).
Proof.
  intros Hok Hb. unfold CFlush. set (L := elements (default ∅ (c_byTenant c !! t))).
  pose proof (flush_loop c 0 L Hok Hb (NoDup_elements _)) as Hf.
  assert (∀ k, k ∈ L ↔ ∃ it, it ∈ c_order c ∧ it_key it = k ∧ it_tenant it = t) as HL.
  { intros k. unfold L. rewrite elem_of_elements. apply (co_tenant c Hok). }
  destruct (foldl flush_key (c, 0) L) as [c' n']. destruct Hf as (F1 & F2 & -> & F4 & F5 & F6).
  { intros k (it & Hin & <- & _)%HL. exists it. by apply (co_items c Hok). }
  assert (∀ it, it ∈ c_order c → it_key it ∈ L ↔ it_tenant it = t) as HLt.
  { intros it Hin. rewrite HL. split; [|eauto]. intros (x & Hx & E & <-).
    by rewrite (NoDup_fmap_eq it_key _ _ _ (co_nodup c Hok) Hx Hin E). }
  exists c'. split_and!; try done.
  - do 2 f_equal. rewrite Z.add_0_l. f_equal.
    assert (L ≡ₚ it_key <$> List.filter (λ it, bool_decide (it_tenant it = t)) (c_order c)) as ->.
    { apply NoDup_Permutation; [apply NoDup_elements| |].
      - eapply sublist_NoDup; [apply (co_nodup c Hok)|]. apply fmap_sublist. clear.
        induction (c_order c) as [|x l IH]; simpl; [constructor|]. destruct (bool_decide _); by constructor.
      - intros k. rewrite HL, list_elem_of_fmap. setoid_rewrite elem_of_filter_bool.
        setoid_rewrite bool_decide_eq_true. split.
        + intros (x & Hx & <- & Ht). exists x. auto.
        + intros (x & -> & Hx & Ht). exists x. auto. }
    by rewrite length_fmap.
  - rewrite F6. apply List.filter_ext_in. intros it Hin%list_elem_of_In. f_equal.
    apply bool_decide_ext. by apply HLt.
Qed.

Lemma cache_step c m o :
  cache_ok c → bounded c → represents c m →
  ∃ c', apply_cop (Some c) o = Some c' ∧ cache_ok c' ∧ bounded c' ∧
    c_maxBytes c' = c_maxBytes c ∧ c_maxEntryBytes c' = c_maxEntryBytes c ∧
    represents c' (spec_step (c_maxEntryBytes c) m o).
Proof.
  intros Hok Hb Hr. destruct o as [now key|now tenant key e ttl|tenant]; cbn [apply_cop spec_step].
  - simpl. destruct (c_items c !! key) as [it|] eqn:E; [|eauto 10].
    pose proof (proj1 (co_items c Hok key it) E) as [Hin Hk]. destruct (negb _); simpl.
    + eexists; split_and!; [done|apply removeElement_ok; [done|by apply total_bounded_of|done]
        |by apply removeElement_bounded|done..|].
      intros k x [? _]%removeElement_items. auto.
    + eexists. split_and!; [done| |done..]. rewrite <-Hk. by apply move_to_front_ok.
  - destruct (CPut_ok c now tenant key e ttl Hok Hb) as (c' & -> & H1 & H2 & H3 & H4 & H5).
    exists c'. split_and!; try done. destruct (_ || _); [by subst|].
    destruct H5 as (gone & _ & _ & Hi). intros k it [[-> ->]|[Hne Hx]]%Hi.
    + by rewrite lookup_insert_eq.
    + rewrite lookup_insert_ne by done. auto.
  - destruct (CFlush_ok c tenant Hok Hb) as (c' & Ef & H1 & H2 & H3 & H4 & H5).
    rewrite Ef. exists c'. split_and!; try done. intros k it Hit.
    apply (co_items c' H1) in Hit as [Hin <-]. rewrite H5 in Hin.
    apply elem_of_filter_bool in Hin as [Hin Ht%negb_true_iff%bool_decide_eq_false].
    apply map_lookup_filter_Some_2; [|done]. apply Hr. by apply (co_items c Hok).
Qed.

Lemma cache_run c m ops :
  cache_ok c → bounded c → represents c m →
  ∃ c', run_cache (Some c) ops = Some c' ∧ cache_ok c' ∧ bounded c' ∧
    c_maxBytes c' = c_maxBytes c ∧ c_maxEntryBytes c' = c_maxEntryBytes c ∧
    represents c' (run_spec (c_maxEntryBytes c) m ops).
Proof.
  revert c m; induction ops as [|o ops IH]; intros c m Hok Hb Hr; [eauto 10|].
  unfold run_cache, run_spec. cbn [foldl].
  destruct (cache_step c m o Hok Hb Hr) as (c1 & E & H1 & H2 & H3 & H4 & H5).
  rewrite E. fold (run_cache (Some c1) ops). rewrite <-H4 in *.
  destruct (IH _ _ H1 H2 H5) as (c' & E' & ? & ? & ? & ? & ?).
  exists c'. split_and!; try done; congruence.
Qed.

Lemma NewCache_ok maxBytes maxEntryBytes :
  0 ≤ maxBytes → 0 ≤ maxEntryBytes → maxBytes + maxEntryBytes ≤ maxInt64 →
  cache_ok (NewCache maxBytes maxEntryBytes) ∧ bounded (NewCache maxBytes maxEntryBytes) ∧
  represents (NewCache maxBytes maxEntryBytes) ∅.
Proof.
  intros H1 H2 H3. split_and!; [|done|by intros k it]. split; simpl; try done.
  - constructor.
  - intros k it. rewrite lookup_empty. split; [done|by intros [?%not_elem_of_nil _]].
  - intros t k. rewrite lookup_empty. split; [by intros ?%not_elem_of_empty|].
    by intros (it & ?%not_elem_of_nil & _).
Qed.

(** ** Keys *)

Lemma key_input_inj t s c t' s' c' :
  str_has zero t = false → str_has zero t' = false →
  str_has zero s = false → str_has zero s' = false →
  key_input t s c = key_input t' s' c' → t = t' ∧ s = s' ∧ c = c'.
Proof.
  unfold key_input. intros Ht Ht' Hs Hs' E.
  apply cut_inj in E as [-> E]; [|done..]. by apply cut_inj in E as [-> ->].
Qed.

(** ** Component theorems *)

Module CacheFacts.

(** C33: The cache refines an unbounded map: whatever sequence of calls it has
    served, it is well formed (its three indexes agree, its byte count is the sum of
    its entries, no entry is above the entry limit), within its byte bound, and
    a hit is the response last stored under that key, not flushed since and not yet
    expired. *)
Theorem cache_refines_map maxBytes maxEntryBytes ops now key e c' :
  0 ≤ maxBytes → 0 ≤ maxEntryBytes → maxBytes + maxEntryBytes ≤ maxInt64 →
  ∃ c, run_cache (Some (NewCache maxBytes maxEntryBytes)) ops = Some c ∧ cache_ok c ∧
    c_bytes c ≤ maxBytes ∧
    (CGet (Some c) now key = (Some e, c') →
       ∃ tenant expires, run_spec maxEntryBytes ∅ ops !! key = Some (tenant, e, expires) ∧ now < expires).
Proof.
  intros H1 H2 H3. destruct (NewCache_ok _ _ H1 H2 H3) as (N1 & N2 & N3).
  destruct (cache_run _ _ ops N1 N2 N3) as (c & E & Hok & Hb & Em & _ & Hr).
  exists c. split_and!; try done.
  - unfold bounded in Hb. by rewrite Em in Hb.
  - unfold CGet. destruct (c_items c !! key) as [it|] eqn:Ei; [|done].
    unfold Before. destruct (Z.ltb_spec now (it_expires it)) as [Hlt|]; simpl; [|done].
    intros [= <- _]. exists (it_tenant it), (it_expires it). split; [by apply Hr|done].
Qed.

(** What is stored can be read back: a response within both limits is a hit on
    the very next read until its lifetime is over, and a miss from then on. *)
Theorem put_then_get c now tenant key e ttl now' :
  cache_ok c → bounded c → 0 < ttl → size_of key e ≤ c_maxEntryBytes c → size_of key e ≤ c_maxBytes c →
  (CGet (CPut (Some c) now tenant key e ttl) now' key).1 =
    if now' <? now + ttl then Some e else None.
Proof.
  intros Hok Hb Ht Hs1 Hs2.
  destruct (CPut_ok c now tenant key e ttl Hok Hb) as (c' & -> & Hok' & Hb' & _ & _ & Hc).
  rewrite (proj2 (Z.leb_gt ttl 0)), (proj2 (Z.ltb_ge (c_maxEntryBytes c) _)) in Hc by lia.
  destruct Hc as (gone & E & Hg & _). set (it := mkItem key tenant e (Add now ttl) (size_of key e)) in *.
  destruct (c_order c') as [|x l] eqn:Eo.
  { simpl in E, Hg. specialize (Hg it _ (eq_sym E)). simpl in Hg. lia. }
  simpl in E. injection E as <- _.
  assert (c_items c' !! key = Some it) as Hi.
  { apply (co_items c' Hok'). rewrite Eo. split; [left|done]. }
  unfold CGet. rewrite Hi. unfold Before, Add, it. cbn [it_expires it_entry]. unfold Add.
  by destruct (now' <? now + ttl).
Qed.

(** Eviction is least recently used and minimal: after a store, the recency list is the
    new entry and the previous entries in their order, cut off at the back, and
    keeping one more of those cut off would exceed the bound. *)
Theorem eviction_is_lru c now tenant key e ttl :
  cache_ok c → bounded c → 0 < ttl → size_of key e ≤ c_maxEntryBytes c →
  ∃ c' gone, CPut (Some c) now tenant key e ttl = Some c' ∧
    mkItem key tenant e (Add now ttl) (size_of key e) :: without key (c_order c) = c_order c' ++ gone ∧
    c_bytes c' ≤ c_maxBytes c ∧
    ∀ x rest, gone = x :: rest → c_maxBytes c < total (c_order c' ++ [x]).
Proof.
  intros Hok Hb Ht Hs.
  destruct (CPut_ok c now tenant key e ttl Hok Hb) as (c' & E & Hok' & Hb' & Em & _ & Hc).
  rewrite (proj2 (Z.leb_gt ttl 0)), (proj2 (Z.ltb_ge (c_maxEntryBytes c) _)) in Hc by lia.
  destruct Hc as (gone & E' & Hg & _). exists c', gone. split_and!; try done.
  unfold bounded in Hb'. by rewrite Em in Hb'.
Qed.

(** A flush drops every entry of the tenant and nothing else, and reports how
    many there were: no later read of one of those keys hits, and the order of
    the others is kept. *)
Theorem flush_drops_the_tenant c t now :
  cache_ok c → bounded c →
  ∃ c', CFlush (Some c) t =
      (Z.of_nat (length (List.filter (λ it, bool_decide (it_tenant it = t)) (c_order c))), Some c') ∧
    cache_ok c' ∧
    (∀ key it, c_items c !! key = Some it → it_tenant it = t → (CGet (Some c') now key).1 = None) ∧
    (∀ key it, c_items c !! key = Some it → it_tenant it ≠ t →
       (CGet (Some c') now key).1 = (CGet (Some c) now key).1) ∧
    c_order c' = List.filter (λ it, negb (bool_decide (it_tenant it = t))) (c_order c).
Proof.
  intros Hok Hb. destruct (CFlush_ok c t Hok Hb) as (c' & E & H1 & H2 & _ & _ & Ho).
  exists c'. split_and!; try done.
  - intros key it [Hin <-]%(co_items c Hok) Ht. unfold CGet.
    destruct (c_items c' !! it_key it) as [x|] eqn:Ex; [|done]. exfalso.
    apply (co_items c' H1) in Ex as [Hx Ek]. rewrite Ho in Hx.
    apply elem_of_filter_bool in Hx as [Hx Hn%negb_true_iff%bool_decide_eq_false].
    rewrite (NoDup_fmap_eq it_key _ _ _ (co_nodup c Hok) Hx Hin Ek) in Hn. done.
  - intros key it Hit Hne. pose proof (proj1 (co_items c Hok key it) Hit) as [Hin Hk].
    assert (c_items c' !! key = Some it) as Hit'.
    { apply (co_items c' H1). split; [|done]. rewrite Ho. apply elem_of_filter_bool.
      by rewrite bool_decide_eq_false_2. }
    unfold CGet. rewrite Hit, Hit'. by destruct (negb _).
Qed.

(** Keys never cross tenants: two requests with the same cache key either come
    from the same tenant, resolve to the same provider and model and agree on
    the canonical body, or exhibit a SHA-256 collision. *)
Theorem keys_never_cross_tenants `{JsonStream} `{Crypto} t s body t' s' body' k :
  str_has zero t = false → str_has zero t' = false →
  str_has zero s = false → str_has zero s' = false →
  CKey t s body = Some k → CKey t' s' body' = Some k →
  (t = t' ∧ s = s' ∧ canonicalize body = canonicalize body') ∨
  ∃ x y, x ≠ y ∧ Sum256 x = Sum256 y.
Proof.
  intros Ht Ht' Hs Hs'. unfold CKey.
  destruct (canonicalize body) as [c|] eqn:Ec; [|done]. destruct (canonicalize body') as [c'|] eqn:Ec'; [|done].
  simpl. intros [= E1] [= E2]. rewrite <-E2 in E1. apply hex_encode_inj in E1.
  destruct (decide (key_input t s c = key_input t' s' c')) as [E|Hne]; [left|right; eauto].
  by apply key_input_inj in E as (-> & -> & ->).
Qed.

(** ** Worked examples *)

Definition demo_entry (body : string) : CacheEntry :=
  {| ce_Body := body; ce_Provider := "p"; ce_Model := "m" |}.
Definition demo_ops : list cop :=
  [OPut 1 "t1" "a" (demo_entry "12345") 10; OPut 2 "t2" "b" (demo_entry "12345") 10;
   OGet 3 "a"; OPut 4 "t1" "c" (demo_entry "12345") 10].
Definition demo_cache : Cache :=
  Eval vm_compute in default (NewCache 20 20) (run_cache (Some (NewCache 20 20)) demo_ops).

Lemma demo_cache_ok : cache_ok demo_cache ∧ bounded demo_cache.
Proof.
  destruct (NewCache_ok 20 20 ltac:(lia) ltac:(lia) ltac:(by vm_compute)) as (N1 & N2 & N3).
  destruct (cache_run _ _ demo_ops N1 N2 N3) as (c & E & Hok & Hb & _).
  assert (c = demo_cache) as <- by (vm_compute in E; by injection E as <-). done.
Qed.

Lemma cache_refines_map_witness :
  it_key <$> c_order demo_cache = ["c"; "a"] ∧
  ∃ tenant expires, run_spec 20 ∅ demo_ops !! "a" = Some (tenant, demo_entry "12345", expires) ∧ 5 < expires.
Proof.
  split; [by vm_compute|].
  destruct (cache_refines_map 20 20 demo_ops 5 "a" (demo_entry "12345") (CGet (Some demo_cache) 5 "a").2)
    as (c & E & _ & _ & Hg); [lia|lia|by vm_compute|].
  apply Hg. assert (c = demo_cache) as -> by (vm_compute in E; by injection E as <-). by vm_compute.
Defined.

Lemma put_then_get_witness :
  (CGet (CPut (Some demo_cache) 5 "t1" "d" (demo_entry "xy") 10) 14 "d").1 = Some (demo_entry "xy").
Proof.
  rewrite (put_then_get demo_cache 5 "t1" "d" (demo_entry "xy") 10 14); [done|apply demo_cache_ok..|lia| |];
    by vm_compute.
Defined.

Lemma eviction_is_lru_witness :
  ∃ c' gone, CPut (Some demo_cache) 5 "t1" "d" (demo_entry "12345") 10 = Some c' ∧
    it_key <$> (c_order c' ++ gone) = ["d"; "c"; "a"] ∧ c_bytes c' ≤ 20.
Proof.
  destruct (eviction_is_lru demo_cache 5 "t1" "d" (demo_entry "12345") 10)
    as (c' & gone & E & Eo & Hb & _); [apply demo_cache_ok..|lia|by vm_compute|].
  exists c', gone. split; [done|]. rewrite <-Eo. split; [by vm_compute|done].
Defined.

Lemma flush_drops_the_tenant_witness : (CFlush (Some demo_cache) "t1").1 = 2.
Proof.
  destruct (flush_drops_the_tenant demo_cache "t1" 5) as (c' & E & _); [apply demo_cache_ok..|].
  rewrite E. by vm_compute.
Defined.

#[local] Existing Instance binary_codec.
Definition one_document : JsonStream :=
  {| Decode := Unmarshal; Decode_Unmarshal _ _ E := E |}.
#[local] Existing Instance one_document.
Definition identity_hash : Crypto := {| Sum256 := λ s, s |}.
#[local] Existing Instance identity_hash.

Lemma keys_never_cross_tenants_witness :
  let body := Marshal (JObj [("b", JNum "1"); ("a", JNull)]) in
  let body' := Marshal (JObj [("a", JNull); ("user", JStr "u"); ("b", JNum "1")]) in
  canonicalize body = canonicalize body'.
Proof.
  intros body body'.
  destruct (CKey "t" "p/m" body) as [k|] eqn:E; [|by vm_compute in E].
  assert (CKey "t" "p/m" body' = Some k) as E' by (rewrite <-E; by vm_compute).
  destruct (keys_never_cross_tenants "t" "p/m" body "t" "p/m" body' k) as [(_ & _ & Ec)|(x & y & Hne & Exy)];
    try done.
Defined.

End CacheFacts.
