(* ===== verification/Config.v ===== *)
(** * Configuration (internal/config/config.go)

    The configuration record, its defaults, its validation and the billing
    arithmetic; Boot.v has the loading of a configuration from a file and the
    environment. *)

From S2P Require Import Prelude GoStrings GoTime GoFloat ApiErr.

#[local] Open Scope Z_scope.
#[local] Open Scope stdpp_scope.

(** ** Data *)

Record GatewayCfg := { g_Port : Z; g_TLSCertFile : string; g_TLSKeyFile : string }.

Definition TLSEnabled (g : GatewayCfg) : bool :=
  negb (bool_decide (g_TLSCertFile g = "")) && negb (bool_decide (g_TLSKeyFile g = "")).

Definition MinBootstrapKeyLen : Z := 16.

Record AnalyticsCfg := { an_BaseURL : string; an_Token : string; an_Timeout : Z }.

Record ModelPrice := { mp_Input : f64; mp_Output : f64 }.

Record CatalogCfg := {
  cg_TTL : Z;
  cg_StaleWarnAfter : Z;
  cg_ProviderTimeout : Z;
  cg_Prices : gmap string (gmap string ModelPrice)
}.

Definition BillingPassthrough : string := "passthrough".
Definition BillingMarkup : string := "markup".
Definition BillingAbsorb : string := "absorb".
Definition CostExact : string := "exact".
Definition CostHint : string := "hint".
Definition CostHidden : string := "hidden".

Record Billing := { bl_Mode : string; bl_MarkupPct : f64; bl_CostVisibility : string }.

Record BreakerCfg := { br_ErrorThreshold : Z; br_Window : Z; br_OpenDuration : Z }.
Record RoutingCfg := { ro_MaxFallbackDepth : Z; ro_Breaker : BreakerCfg }.
Record QuotasCfg := { qc_DefaultSoftThresholdPct : Z; qc_Enforcement : string }.

Record LimitsCfg := {
  li_MaxRequestBytes : Z;
  li_MaxResponseBytes : Z;
  li_RequestTimeout : Z;
  li_UpstreamConnectTimeout : Z;
  li_StreamIdleTimeout : Z;
  li_MaxConcurrentPerKey : Z
}.

Record RateLimitCfg := { rl_RequestsPerSecond : Z; rl_BurstCapacity : Z; rl_RequestsPerMinute : Z }.

Record CacheCfg := {
  cc_Enabled : bool;
  cc_DefaultTTL : Z;
  cc_MaxTTL : Z;
  cc_MaxEntryBytes : Z;
  cc_MaxBytes : Z
}.

Record WebhooksCfg := { wh_MaxAttempts : Z; wh_Timeout : Z }.
Record MetricsCfg := { me_Enabled : bool; me_Path : string; me_Token : string }.

Record DebugCfg := {
  db_MaxTTL : Z;
  db_DefaultTTL : Z;
  db_DefaultSampleRate : f64;
  db_MaxBytesPerTenant : Z;
  db_SweepInterval : Z
}.

Record Config := {
  cf_Gateway : GatewayCfg;
  cf_BootstrapKey : string;
  cf_Analytics : AnalyticsCfg;
  cf_Catalog : CatalogCfg;
  cf_Billing : Billing;
  cf_SystemInstruction : string;
  cf_Routing : RoutingCfg;
  cf_Quotas : QuotasCfg;
  cf_Limits : LimitsCfg;
  cf_RateLimit : RateLimitCfg;
  cf_Cache : CacheCfg;
  cf_Webhooks : WebhooksCfg;
  cf_TelemetryBuffer : Z;
  cf_HealthCacheTTL : Z;
  cf_Metrics : MetricsCfg;
  cf_DrainTimeout : Z;
  cf_LogLevel : string;
  cf_Debug : DebugCfg
}.

(** ** Field updates *)

Section updates.
Context (c : Config).

Definition set_Gateway (x : GatewayCfg) : Config :=
  {| cf_Gateway := x; cf_BootstrapKey := cf_BootstrapKey c; cf_Analytics := cf_Analytics c;
     cf_Catalog := cf_Catalog c; cf_Billing := cf_Billing c; cf_SystemInstruction := cf_SystemInstruction c;
     cf_Routing := cf_Routing c; cf_Quotas := cf_Quotas c; cf_Limits := cf_Limits c;
     cf_RateLimit := cf_RateLimit c; cf_Cache := cf_Cache c; cf_Webhooks := cf_Webhooks c;
     cf_TelemetryBuffer := cf_TelemetryBuffer c; cf_HealthCacheTTL := cf_HealthCacheTTL c;
     cf_Metrics := cf_Metrics c; cf_DrainTimeout := cf_DrainTimeout c; cf_LogLevel := cf_LogLevel c;
     cf_Debug := cf_Debug c |}.
Definition set_BootstrapKey (x : string) : Config :=
  {| cf_Gateway := cf_Gateway c; cf_BootstrapKey := x; cf_Analytics := cf_Analytics c;
     cf_Catalog := cf_Catalog c; cf_Billing := cf_Billing c; cf_SystemInstruction := cf_SystemInstruction c;
     cf_Routing := cf_Routing c; cf_Quotas := cf_Quotas c; cf_Limits := cf_Limits c;
     cf_RateLimit := cf_RateLimit c; cf_Cache := cf_Cache c; cf_Webhooks := cf_Webhooks c;
     cf_TelemetryBuffer := cf_TelemetryBuffer c; cf_HealthCacheTTL := cf_HealthCacheTTL c;
     cf_Metrics := cf_Metrics c; cf_DrainTimeout := cf_DrainTimeout c; cf_LogLevel := cf_LogLevel c;
     cf_Debug := cf_Debug c |}.
Definition set_Analytics (x : AnalyticsCfg) : Config :=
  {| cf_Gateway := cf_Gateway c; cf_BootstrapKey := cf_BootstrapKey c; cf_Analytics := x;
     cf_Catalog := cf_Catalog c; cf_Billing := cf_Billing c; cf_SystemInstruction := cf_SystemInstruction c;
     cf_Routing := cf_Routing c; cf_Quotas := cf_Quotas c; cf_Limits := cf_Limits c;
     cf_RateLimit := cf_RateLimit c; cf_Cache := cf_Cache c; cf_Webhooks := cf_Webhooks c;
     cf_TelemetryBuffer := cf_TelemetryBuffer c; cf_HealthCacheTTL := cf_HealthCacheTTL c;
     cf_Metrics := cf_Metrics c; cf_DrainTimeout := cf_DrainTimeout c; cf_LogLevel := cf_LogLevel c;
     cf_Debug := cf_Debug c |}.
Definition set_Billing (x : Billing) : Config :=
  {| cf_Gateway := cf_Gateway c; cf_BootstrapKey := cf_BootstrapKey c; cf_Analytics := cf_Analytics c;
     cf_Catalog := cf_Catalog c; cf_Billing := x; cf_SystemInstruction := cf_SystemInstruction c;
     cf_Routing := cf_Routing c; cf_Quotas := cf_Quotas c; cf_Limits := cf_Limits c;
     cf_RateLimit := cf_RateLimit c; cf_Cache := cf_Cache c; cf_Webhooks := cf_Webhooks c;
     cf_TelemetryBuffer := cf_TelemetryBuffer c; cf_HealthCacheTTL := cf_HealthCacheTTL c;
     cf_Metrics := cf_Metrics c; cf_DrainTimeout := cf_DrainTimeout c; cf_LogLevel := cf_LogLevel c;
     cf_Debug := cf_Debug c |}.
Definition set_SystemInstruction (x : string) : Config :=
  {| cf_Gateway := cf_Gateway c; cf_BootstrapKey := cf_BootstrapKey c; cf_Analytics := cf_Analytics c;
     cf_Catalog := cf_Catalog c; cf_Billing := cf_Billing c; cf_SystemInstruction := x;
     cf_Routing := cf_Routing c; cf_Quotas := cf_Quotas c; cf_Limits := cf_Limits c;
     cf_RateLimit := cf_RateLimit c; cf_Cache := cf_Cache c; cf_Webhooks := cf_Webhooks c;
     cf_TelemetryBuffer := cf_TelemetryBuffer c; cf_HealthCacheTTL := cf_HealthCacheTTL c;
     cf_Metrics := cf_Metrics c; cf_DrainTimeout := cf_DrainTimeout c; cf_LogLevel := cf_LogLevel c;
     cf_Debug := cf_Debug c |}.
Definition set_Quotas (x : QuotasCfg) : Config :=
  {| cf_Gateway := cf_Gateway c; cf_BootstrapKey := cf_BootstrapKey c; cf_Analytics := cf_Analytics c;
     cf_Catalog := cf_Catalog c; cf_Billing := cf_Billing c; cf_SystemInstruction := cf_SystemInstruction c;
     cf_Routing := cf_Routing c; cf_Quotas := x; cf_Limits := cf_Limits c; cf_RateLimit := cf_RateLimit c;
     cf_Cache := cf_Cache c; cf_Webhooks := cf_Webhooks c; cf_TelemetryBuffer := cf_TelemetryBuffer c;
     cf_HealthCacheTTL := cf_HealthCacheTTL c; cf_Metrics := cf_Metrics c; cf_DrainTimeout := cf_DrainTimeout c;
     cf_LogLevel := cf_LogLevel c; cf_Debug := cf_Debug c |}.
Definition set_Cache (x : CacheCfg) : Config :=
  {| cf_Gateway := cf_Gateway c; cf_BootstrapKey := cf_BootstrapKey c; cf_Analytics := cf_Analytics c;
     cf_Catalog := cf_Catalog c; cf_Billing := cf_Billing c; cf_SystemInstruction := cf_SystemInstruction c;
     cf_Routing := cf_Routing c; cf_Quotas := cf_Quotas c; cf_Limits := cf_Limits c;
     cf_RateLimit := cf_RateLimit c; cf_Cache := x; cf_Webhooks := cf_Webhooks c;
     cf_TelemetryBuffer := cf_TelemetryBuffer c; cf_HealthCacheTTL := cf_HealthCacheTTL c;
     cf_Metrics := cf_Metrics c; cf_DrainTimeout := cf_DrainTimeout c; cf_LogLevel := cf_LogLevel c;
     cf_Debug := cf_Debug c |}.
Definition set_Metrics (x : MetricsCfg) : Config :=
  {| cf_Gateway := cf_Gateway c; cf_BootstrapKey := cf_BootstrapKey c; cf_Analytics := cf_Analytics c;
     cf_Catalog := cf_Catalog c; cf_Billing := cf_Billing c; cf_SystemInstruction := cf_SystemInstruction c;
     cf_Routing := cf_Routing c; cf_Quotas := cf_Quotas c; cf_Limits := cf_Limits c;
     cf_RateLimit := cf_RateLimit c; cf_Cache := cf_Cache c; cf_Webhooks := cf_Webhooks c;
     cf_TelemetryBuffer := cf_TelemetryBuffer c; cf_HealthCacheTTL := cf_HealthCacheTTL c; cf_Metrics := x;
     cf_DrainTimeout := cf_DrainTimeout c; cf_LogLevel := cf_LogLevel c; cf_Debug := cf_Debug c |}.
Definition set_LogLevel (x : string) : Config :=
  {| cf_Gateway := cf_Gateway c; cf_BootstrapKey := cf_BootstrapKey c; cf_Analytics := cf_Analytics c;
     cf_Catalog := cf_Catalog c; cf_Billing := cf_Billing c; cf_SystemInstruction := cf_SystemInstruction c;
     cf_Routing := cf_Routing c; cf_Quotas := cf_Quotas c; cf_Limits := cf_Limits c;
     cf_RateLimit := cf_RateLimit c; cf_Cache := cf_Cache c; cf_Webhooks := cf_Webhooks c;
     cf_TelemetryBuffer := cf_TelemetryBuffer c; cf_HealthCacheTTL := cf_HealthCacheTTL c;
     cf_Metrics := cf_Metrics c; cf_DrainTimeout := cf_DrainTimeout c; cf_LogLevel := x;
     cf_Debug := cf_Debug c |}.
End updates.

(** ** Billing *)

(** [Billing.HidesCost] *)
Definition HidesCost (b : Billing) : bool := bool_decide (bl_CostVisibility b = CostHidden).

Definition Charge (b : Billing) (cost : f64) : f64 :=
  if bool_decide (bl_Mode b = BillingAbsorb) then fzero
  else if bool_decide (bl_Mode b = BillingMarkup)
  then fmul cost (fadd (f_of_Z 1) (fdiv (bl_MarkupPct b) (f_of_Z 100)))
  else cost.

(** ** Defaults *)

Definition MaxCaptureTTLCeiling : Z := 72 * Hour.

(** The literal 0.01 *)
Definition one_percent : f64 := S754_finite false 5764607523034235 (-59).

Definition Default : Config :=
  {| cf_Gateway := {| g_Port := 8080; g_TLSCertFile := ""; g_TLSKeyFile := "" |};
     cf_BootstrapKey := "";
     cf_Analytics := {| an_BaseURL := ""; an_Token := ""; an_Timeout := 10 * Second |};
     cf_Catalog := {| cg_TTL := Hour; cg_StaleWarnAfter := 6 * Hour;
                      cg_ProviderTimeout := 10 * Second; cg_Prices := ∅ |};
     cf_Billing := {| bl_Mode := BillingPassthrough; bl_MarkupPct := fzero;
                      bl_CostVisibility := CostHidden |};
     cf_SystemInstruction := "";
     cf_Routing := {| ro_MaxFallbackDepth := 5;
                      ro_Breaker := {| br_ErrorThreshold := 5; br_Window := 30 * Second;
                                       br_OpenDuration := 60 * Second |} |};
     cf_Quotas := {| qc_DefaultSoftThresholdPct := 80; qc_Enforcement := "on" |};
     cf_Limits := {| li_MaxRequestBytes := 2 * 1024 * 1024; li_MaxResponseBytes := 8 * 1024 * 1024;
                     li_RequestTimeout := 120 * Second; li_UpstreamConnectTimeout := 10 * Second;
                     li_StreamIdleTimeout := 60 * Second; li_MaxConcurrentPerKey := 32 |};
     cf_RateLimit := {| rl_RequestsPerSecond := 50; rl_BurstCapacity := 100;
                        rl_RequestsPerMinute := 3600 |};
     cf_Cache := {| cc_Enabled := false; cc_DefaultTTL := 5 * Minute; cc_MaxTTL := 24 * Hour;
                    cc_MaxEntryBytes := 256 * 1024; cc_MaxBytes := 64 * 1024 * 1024 |};
     cf_Webhooks := {| wh_MaxAttempts := 5; wh_Timeout := 10 * Second |};
     cf_TelemetryBuffer := 1000;
     cf_HealthCacheTTL := 2 * Second;
     cf_Metrics := {| me_Enabled := true; me_Path := "/metrics"; me_Token := "" |};
     cf_DrainTimeout := 30 * Second;
     cf_LogLevel := "info";
     cf_Debug := {| db_MaxTTL := MaxCaptureTTLCeiling; db_DefaultTTL := 24 * Hour;
                    db_DefaultSampleRate := one_percent; db_MaxBytesPerTenant := 32 * 1048576;
                    db_SweepInterval := Minute |} |}.

(** ** Validation *)

(** The first failing check decides: [Some] is the error. *)
Fixpoint first_failing (checks : list (bool * message)) : option message :=
  match checks with
  | [] => None
  | (bad, m) :: checks' => if bad then Some m else first_failing checks'
  end.

Definition one_of (s : string) (l : list string) : bool := existsb (λ x, bool_decide (s = x)) l.

(** The first negative rate met, with the order of Go's map iteration left to
    [map_to_list]. *)
Definition negative_price (prices : gmap string (gmap string ModelPrice)) : option (string * string) :=
  head (concat ((λ kind, (λ m, (kind.1, m.1)) <$>
    List.filter (λ m, fltb (mp_Input m.2) fzero || fltb (mp_Output m.2) fzero)
      (map_to_list kind.2)) <$> map_to_list prices)).

Definition Validate (c : Config) : option message :=
  let g := cf_Gateway c in
  let n := Z.of_nat (String.length (cf_BootstrapKey c)) in
  let cert := negb (bool_decide (g_TLSCertFile g = "")) in
  let key := negb (bool_decide (g_TLSKeyFile g = "")) in
  let b := cf_Billing c in
  let l := cf_Limits c in
  let d := cf_Debug c in
  first_failing
    [((g_Port g <? 1) || (65535 <? g_Port g), Msgf "gateway.port %d out of range" [FInt (g_Port g)]);
     ((0 <? n) && (n <? MinBootstrapKeyLen),
      Msgf "admin.bootstrap_key is %d characters; at least %d are required" [FInt n; FInt MinBootstrapKeyLen]);
     (cert && negb key,
      text "gateway.tls_cert_file is set but gateway.tls_key_file is not; TLS needs both");
     (key && negb cert,
      text "gateway.tls_key_file is set but gateway.tls_cert_file is not; TLS needs both");
     (bool_decide (is_Some (negative_price (cg_Prices (cf_Catalog c)))),
      let '(kind, id) := default ("", "") (negative_price (cg_Prices (cf_Catalog c))) in
      Msgf "catalog.prices.%s.%s: rates cannot be negative" [FStr kind; FStr id]);
     (bool_decide (bl_Mode b = BillingMarkup) && fleb (bl_MarkupPct b) fzero,
      Msgf "billing.markup_pct must be positive when billing.mode is %q" [FStr BillingMarkup]);
     (negb (one_of (bl_Mode b) [BillingPassthrough; BillingAbsorb; BillingMarkup]),
      Msgf "billing.mode must be %q, %q or %q, got %q"
        [FStr BillingPassthrough; FStr BillingMarkup; FStr BillingAbsorb; FStr (bl_Mode b)]);
     (negb (one_of (bl_CostVisibility b) [CostExact; CostHint; CostHidden]),
      Msgf "billing.cost_visibility must be %q, %q or %q, got %q"
        [FStr CostHidden; FStr CostHint; FStr CostExact; FStr (bl_CostVisibility b)]);
     (ro_MaxFallbackDepth (cf_Routing c) <? 1, text "routing.max_fallback_depth must be at least 1");
     (li_MaxRequestBytes l <? 1, text "limits.max_request_bytes must be positive");
     (li_MaxResponseBytes l <? 1, text "limits.max_response_bytes must be positive");
     (li_RequestTimeout l <=? 0, text "limits.request_timeout must be positive");
     (li_MaxConcurrentPerKey l <? 1, text "limits.max_concurrent_per_key must be at least 1");
     (negb (one_of (qc_Enforcement (cf_Quotas c)) ["on"; "observe"]),
      Msgf "quotas.enforcement must be %q or %q, got %q"
        [FStr "on"; FStr "observe"; FStr (qc_Enforcement (cf_Quotas c))]);
     ((qc_DefaultSoftThresholdPct (cf_Quotas c) <? 1) || (100 <? qc_DefaultSoftThresholdPct (cf_Quotas c)),
      Msgf "quotas.default_soft_threshold_pct %d out of range 1..100"
        [FInt (qc_DefaultSoftThresholdPct (cf_Quotas c))]);
     (cc_MaxTTL (cf_Cache c) <? cc_DefaultTTL (cf_Cache c), text "cache.default_ttl exceeds cache.max_ttl");
     (cc_MaxBytes (cf_Cache c) <? cc_MaxEntryBytes (cf_Cache c),
      text "cache.max_entry_bytes exceeds cache.max_bytes: no entry could ever be stored");
     (cf_TelemetryBuffer c <? 1, text "telemetry.buffer must be at least 1");
     (negb (one_of (cf_LogLevel c) ["debug"; "info"; "warn"; "error"]),
      Msgf "log.level must be one of debug|info|warn|error, got %q" [FStr (cf_LogLevel c)]);
     (fltb (db_DefaultSampleRate d) fzero || fltb (f_of_Z 1) (db_DefaultSampleRate d),
      text "debug.default_sample_rate must be within 0..1");
     (MaxCaptureTTLCeiling <? db_MaxTTL d, Msgf "debug.max_capture_ttl may not exceed %s" [FInt MaxCaptureTTLCeiling]);
     (db_MaxTTL d <? db_DefaultTTL d, text "debug.default_capture_ttl exceeds debug.max_capture_ttl");
     (db_MaxBytesPerTenant d <? 1, text "debug.max_capture_bytes_per_tenant must be positive");
     (db_SweepInterval d <? Second, text "debug.capture_sweep_interval must be at least 1s")].

(** ** Facts *)

Lemma first_failing_None checks : first_failing checks = None ↔ Forall (λ c, c.1 = false) checks.
Proof.
  induction checks as [|[bad m] l IH]; simpl; [done|]. rewrite Forall_cons. simpl.
  destruct bad; [split; [done|by intros [? _]]|]. rewrite IH. tauto.
Qed.

Lemma Validate_Default : Validate Default = None.
Proof. by vm_compute. Qed.

(** The [i]th check of a validated configuration did not fail. *)
Ltac check Hv i H := pose proof (proj1 (Forall_lookup _ _) Hv i _ eq_refl) as H; cbn [fst] in H.

(** What a running gateway may rely on. *)
Lemma Validate_sound c : Validate c = None →
  (cf_BootstrapKey c = "" ∨ MinBootstrapKeyLen ≤ Z.of_nat (String.length (cf_BootstrapKey c))) ∧
  1 ≤ ro_MaxFallbackDepth (cf_Routing c) ∧ 1 ≤ li_MaxRequestBytes (cf_Limits c) ∧
  0 < li_RequestTimeout (cf_Limits c) ∧ 1 ≤ li_MaxConcurrentPerKey (cf_Limits c) ∧
  1 ≤ qc_DefaultSoftThresholdPct (cf_Quotas c) ≤ 100 ∧
  cc_DefaultTTL (cf_Cache c) ≤ cc_MaxTTL (cf_Cache c) ∧
  db_DefaultTTL (cf_Debug c) ≤ db_MaxTTL (cf_Debug c) ≤ MaxCaptureTTLCeiling.
Proof.
  unfold Validate. intros Hv%first_failing_None.
  check Hv 1%nat Hk. check Hv 8%nat Hd. check Hv 9%nat Hr. check Hv 11%nat Ht. check Hv 12%nat Hc.
  check Hv 14%nat Hs. check Hv 15%nat Hca. check Hv 20%nat Hm. check Hv 21%nat Hdt. clear Hv.
  split_and!; try lia.
  destruct (cf_BootstrapKey c) as [|a s]; [by left|right].
  apply andb_false_iff in Hk as [Hk%Z.ltb_ge|Hk%Z.ltb_ge]; [|exact Hk].
  cbn [String.length] in Hk. lia.
Qed.

(** The size ceilings, which [Validate_sound] leaves out. *)
Lemma Validate_sizes c : Validate c = None →
  1 ≤ g_Port (cf_Gateway c) ≤ 65535 ∧ 1 ≤ cf_TelemetryBuffer c ∧ 1 ≤ db_MaxBytesPerTenant (cf_Debug c) ∧
  Second ≤ db_SweepInterval (cf_Debug c) ∧
  1 ≤ li_MaxResponseBytes (cf_Limits c) ∧ cc_MaxEntryBytes (cf_Cache c) ≤ cc_MaxBytes (cf_Cache c).
Proof.
  unfold Validate. intros Hv%first_failing_None.
  check Hv 0%nat Hp. check Hv 10%nat Hr. check Hv 16%nat Hc. check Hv 17%nat Ht. check Hv 22%nat Hb.
  check Hv 23%nat Hs. clear Hv.
  lia.
Qed.
