(* ===== verification/Limits.v ===== *)
(** * Limits (internal/server/limits.go, internal/server/middleware.go)

    What a request is held to (deployment ceilings narrowed by the tenant's
    overrides), the per-tenant rate limiter, the per-key concurrency limiter
    and the middleware that applies them. Each limiter operation runs under its
    mutex, so an execution is a sequence of the operations below; the clock is
    an argument. A release closure is a permit, numbered in the order the
    limiter handed them out, with the state of its [sync.Once]. *)

From S2P Require Import Prelude GoStrings GoTime GoFloat ApiErr StoreTypes Config.
From Stdlib Require Import Ascii.

#[local] Open Scope Z_scope.
#[local] Open Scope stdpp_scope.

(** ** Effective limits *)

Record effectiveLimits := {
  el_MaxRequestBytes : Z;
  el_RequestTimeout : Z;
  el_StreamIdleTimeout : Z;
  el_MaxConcurrentPerKey : Z;
  el_RequestsPerSecond : Z;
  el_BurstCapacity : Z;
  el_RequestsPerMinute : Z
}.

Definition lowerInt64 (ceiling override : Z) : Z :=
  if (override <=? 0) || (ceiling <? override) then ceiling else override.

Definition lowerInt (ceiling override : Z) : Z :=
  if (override <=? 0) || (ceiling <? override) then ceiling else override.

Definition lowerDuration (ceiling overrideSeconds : Z) : Z :=
  lowerInt64 ceiling (seconds overrideSeconds).

Definition limitsFor (cfg : Config) (t : option Tenant) : effectiveLimits :=
  let dep := cf_Limits cfg in
  let rate := cf_RateLimit cfg in
  match t with
  | None =>
      {| el_MaxRequestBytes := li_MaxRequestBytes dep;
         el_RequestTimeout := li_RequestTimeout dep;
         el_StreamIdleTimeout := li_StreamIdleTimeout dep;
         el_MaxConcurrentPerKey := li_MaxConcurrentPerKey dep;
         el_RequestsPerSecond := rl_RequestsPerSecond rate;
         el_BurstCapacity := rl_BurstCapacity rate;
         el_RequestsPerMinute := rl_RequestsPerMinute rate |}
  | Some t =>
      let o := t_Limits t in
      {| el_MaxRequestBytes := lowerInt64 (li_MaxRequestBytes dep) (tl_MaxRequestBytes o);
         el_RequestTimeout := lowerDuration (li_RequestTimeout dep) (tl_RequestTimeoutSeconds o);
         el_StreamIdleTimeout :=
           lowerDuration (li_StreamIdleTimeout dep) (tl_StreamIdleTimeoutSeconds o);
         el_MaxConcurrentPerKey :=
           lowerInt (li_MaxConcurrentPerKey dep) (tl_MaxConcurrentPerKey o);
         el_RequestsPerSecond := lowerInt (rl_RequestsPerSecond rate) (tl_RequestsPerSecond o);
         el_BurstCapacity := lowerInt (rl_BurstCapacity rate) (tl_BurstCapacity o);
         el_RequestsPerMinute := lowerInt (rl_RequestsPerMinute rate) (tl_RequestsPerMinute o) |}
  end.

(** The rows of the validation loop: parameter, value and ceiling. *)
Definition limit_rows (cfg : Config) (l : TenantLimits) : list (string * Z * Z) :=
  let dep := cf_Limits cfg in
  let rate := cf_RateLimit cfg in
  [("limits.max_request_bytes", tl_MaxRequestBytes l, li_MaxRequestBytes dep);
   ("limits.request_timeout_seconds", tl_RequestTimeoutSeconds l,
     f_trunc (Seconds (li_RequestTimeout dep)));
   ("limits.stream_idle_timeout_seconds", tl_StreamIdleTimeoutSeconds l,
     f_trunc (Seconds (li_StreamIdleTimeout dep)));
   ("limits.max_concurrent_per_key", tl_MaxConcurrentPerKey l, li_MaxConcurrentPerKey dep);
   ("limits.requests_per_second", tl_RequestsPerSecond l, rl_RequestsPerSecond rate);
   ("limits.burst_capacity", tl_BurstCapacity l, rl_BurstCapacity rate);
   ("limits.requests_per_minute", tl_RequestsPerMinute l, rl_RequestsPerMinute rate)].

Fixpoint check_rows (rows : list (string * Z * Z)) : option Error :=
  match rows with
  | [] => None
  | (param, value, ceiling) :: rows' =>
      if value <? 0 then
        Some (WithParam (InvalidRequest (Msgf "%s must not be negative." [FStr param])) param)
      else if ceiling <? value then
        Some (WithParam (InvalidRequest
          (Msgf "%s is %d, above the deployment ceiling of %d. A tenant limit may only narrow one."
             [FStr param; FInt value; FInt ceiling])) param)
      else check_rows rows'
  end.

Definition validateTenantLimits (cfg : Config) (l : TenantLimits) : option Error :=
  check_rows (limit_rows cfg l).

(** ** The rate limiter *)

Record bucket := {
  b_tokens : f64;
  b_last : Z;
  b_minuteStart : Z;
  b_minuteCount : Z
}.

Abbreviation rateLimiter := (gmap string bucket).

Definition sweepAbove : Z := 4096.

Definition newRateLimiter : rateLimiter := ∅.

(** Time for an empty bucket to fill. *)
Definition full_after (rps burst : Z) : Z :=
  if (1 <=? rps) && (1 <=? burst)
  then f_trunc (fmul (fdiv (f_of_Z burst) (f_of_Z rps)) (f_of_Z Second))
  else 0.

Definition sweep (now rps burst : Z) (l : rateLimiter) : rateLimiter :=
  filter (λ kb, negb ((full_after rps burst <=? Sub now (b_last kb.2))
                      && (Minute <=? Sub now (b_minuteStart kb.2))) = true) l.

(** The bucket of a tenant not seen before. *)
Definition fresh_bucket (now burst : Z) : bucket :=
  {| b_tokens := f_of_Z burst; b_last := now; b_minuteStart := now; b_minuteCount := 0 |}.

(** A known tenant's bucket at [now]: refilled, and its minute restarted when
    it is over. *)
Definition refill (now rps burst : Z) (bucketOn : bool) (b : bucket) : bucket :=
  let tokens :=
    if bucketOn then
      let t := fadd (b_tokens b) (fmul (Seconds (Sub now (b_last b))) (f_of_Z rps)) in
      if fltb (f_of_Z burst) t then f_of_Z burst else t
    else b_tokens b in
  let over := Minute <=? Sub now (b_minuteStart b) in
  {| b_tokens := tokens;
     b_last := now;
     b_minuteStart := if over then now else b_minuteStart b;
     b_minuteCount := if over then 0 else b_minuteCount b |}.

(** The two ceilings measured: whether the request is denied, and the wait. *)
Definition measure (now rps rpm : Z) (bucketOn minuteOn : bool) (b : bucket) : bool * Z :=
  let short := bucketOn && fltb (b_tokens b) (f_of_Z 1) in
  let wait :=
    if short
    then f_trunc (fmul (fdiv (fsub (f_of_Z 1) (b_tokens b)) (f_of_Z rps)) (f_of_Z Second))
    else 0 in
  if minuteOn && (rpm <=? b_minuteCount b) then
    let w := wrap64 (Minute - Sub now (b_minuteStart b)) in
    (true, if wait <? w then w else wait)
  else (short, wait).

Definition charge (bucketOn minuteOn : bool) (b : bucket) : bucket :=
  {| b_tokens := if bucketOn then fsub (b_tokens b) (f_of_Z 1) else b_tokens b;
     b_last := b_last b;
     b_minuteStart := b_minuteStart b;
     b_minuteCount := if minuteOn then b_minuteCount b + 1 else b_minuteCount b |}.

(** [take]: the wait, whether the request is admitted, and the limiter after.
    The bucket is shared with the map, so what is written to it is seen there
    as long as the sweep has left the entry in place ([alter]). *)
Definition take (now : Z) (id : string) (rps burst rpm : Z) (l : rateLimiter)
  : (Z * bool) * rateLimiter :=
  let bucketOn := (1 <=? rps) && (1 <=? burst) in
  let minuteOn := 1 <=? rpm in
  if negb bucketOn && negb minuteOn then ((0, true), l)
  else
    let '(b, l) :=
      match l !! id with
      | None =>
          let b := fresh_bucket now burst in
          let l := <[id := b]> l in
          (b, if sweepAbove <? Z.of_nat (size l) then sweep now rps burst l else l)
      | Some b => (refill now rps burst bucketOn b, l)
      end in
    let '(denied, wait) := measure now rps rpm bucketOn minuteOn b in
    if denied then ((wait, false), alter (λ _, b) id l)
    else ((0, true), alter (λ _, charge bucketOn minuteOn b) id l).

Definition slash_byte : ascii := "/".

Definition rateExempt (path : string) : bool :=
  let path := TrimRight path slash_byte in
  bool_decide (path = "/v1/health") || bool_decide (path = "/v1/meta").

(** ** The concurrency limiter *)

Record concurrencyLimiter := {
  inUse : gmap string Z;
  cl_limit : Z;
  permits : list (string * bool)
}.

Definition newConcurrencyLimiter (limit : Z) : concurrencyLimiter :=
  {| inUse := ∅; cl_limit := if limit <? 1 then 32 else limit; permits := [] |}.

(** [l.inUse[key]]: an absent key reads as zero. *)
Definition in_use (l : concurrencyLimiter) (key : string) : Z := default 0 (inUse l !! key).

Definition acquire (key : string) (limit : Z) (l : concurrencyLimiter)
  : option nat * concurrencyLimiter :=
  let limit := if limit <? 1 then cl_limit l else limit in
  if limit <=? in_use l key then (None, l)
  else (Some (length (permits l)),
        {| inUse := <[key := in_use l key + 1]> (inUse l);
           cl_limit := cl_limit l;
           permits := permits l ++ [(key, false)] |}).

(** Calling the release closure of a permit. *)
Definition release (p : nat) (l : concurrencyLimiter) : concurrencyLimiter :=
  match permits l !! p with
  | Some (key, false) =>
      {| inUse := if in_use l key <=? 1 then delete key (inUse l)
                  else <[key := in_use l key - 1]> (inUse l);
         cl_limit := cl_limit l;
         permits := <[p := (key, true)]> (permits l) |}
  | _ => l
  end.

Record slot := { sl_adopted : bool; sl_release : nat }.

(** [slot.take]: the closure, and the slot marked. *)
Definition slot_take (s : slot) : nat * slot :=
  (sl_release s, {| sl_adopted := true; sl_release := sl_release s |}).

Definition releaseUnlessAdopted (s : slot) (l : concurrencyLimiter) : concurrencyLimiter :=
  if sl_adopted s then l else release (sl_release s) l.

(** ** The middleware *)

Record LimitState := { ls_rates : rateLimiter; ls_limiter : concurrencyLimiter }.

(** What [limitTenant] reads of a request. *)
Record LimitedRequest := {
  rq_ContentLength : Z;
  rq_BodyLen : Z;
  rq_Path : string
}.

(** The checks before [c.Next()]: an error, or the slot the route runs under
    ([None] when the request carries no identity). *)
Definition limitTenant_enter (cfg : Config) (now : Z) (key : option APIKey)
    (tenant : option Tenant) (r : LimitedRequest) (st : LimitState)
  : res Error (option slot) * LimitState :=
  match key, tenant with
  | Some key, Some tenant =>
      let lim := limitsFor cfg (Some tenant) in
      if el_MaxRequestBytes lim <? rq_ContentLength r
      then (Err (RequestTooLarge (el_MaxRequestBytes lim)), st)
      else if el_MaxRequestBytes lim <? rq_BodyLen r
      then (Err (RequestTooLarge (el_MaxRequestBytes lim)), st)
      else
        let '((wait, ok), rates) :=
          if rateExempt (rq_Path r) then ((0, true), ls_rates st)
          else take now (t_ID tenant) (el_RequestsPerSecond lim) (el_BurstCapacity lim)
                 (el_RequestsPerMinute lim) (ls_rates st) in
        let st := {| ls_rates := rates; ls_limiter := ls_limiter st |} in
        if negb ok then (Err (WithRetryAfter RateLimited wait), st)
        else
          match acquire (k_ID key) (el_MaxConcurrentPerKey lim) (ls_limiter st) with
          | (None, _) => (Err (ConcurrencyExceeded (el_MaxConcurrentPerKey lim)), st)
          | (Some p, limiter) =>
              (Ok (Some {| sl_adopted := false; sl_release := p |}),
               {| ls_rates := rates; ls_limiter := limiter |})
          end
  | _, _ => (Ok None, st)
  end.

(** The deferred release, once the route has returned. *)
Definition limitTenant_exit (held : option slot) (st : LimitState) : LimitState :=
  match held with
  | None => st
  | Some s => {| ls_rates := ls_rates st;
                 ls_limiter := releaseUnlessAdopted s (ls_limiter st) |}
  end.

(** ** Correctness *)

Module LimitsFacts.

(** *** Overrides *)

Lemma lowerInt64_narrows c o : lowerInt64 c o ≤ c.
Proof. unfold lowerInt64. destruct (o <=? 0) eqn:E1, (c <? o) eqn:E2; simpl; lia. Qed.

Lemma lowerInt_narrows c o : lowerInt c o ≤ c.
Proof. apply lowerInt64_narrows. Qed.

Lemma lowerInt_exact c o : 0 ≤ o ≤ c → lowerInt c o = if o =? 0 then c else o.
Proof.
  intros Ho. unfold lowerInt. destruct (Z.eqb_spec o 0) as [->|]; [done|].
  by destruct (Z.leb_spec o 0), (Z.ltb_spec c o); try lia.
Qed.

Lemma lowerDuration_exact c o :
  in_int64 c → 0 ≤ o → o * Second ≤ c →
  lowerDuration c o = if o =? 0 then c else o * Second.
Proof.
  intros Hc Ho Hle. unfold lowerDuration.
  assert (seconds o = o * Second) as ->.
  { apply wrap64_small. unfold in_int64, minInt64, maxInt64, two63, Second in *. lia. }
  change lowerInt64 with lowerInt. rewrite lowerInt_exact by (unfold Second in *; lia).
  unfold Second. by destruct (Z.eqb_spec o 0), (Z.eqb_spec (o * 1000000000) 0); try lia.
Qed.

Lemma check_rows_None rows :
  check_rows rows = None ↔ Forall (λ r, 0 ≤ r.1.2 ≤ r.2) rows.
Proof.
  induction rows as [|[[p v] c] rows IH]; simpl; [done|]. rewrite Forall_cons. simpl.
  destruct (Z.ltb_spec v 0), (Z.ltb_spec c v);
    [split; [done|lia]..|rewrite IH; split; [intros; split; [lia|done]|tauto]].
Qed.

(** The seconds ceiling published for a timeout does not exceed it. *)
Definition whole_seconds (d : Z) : Prop := in_int64 d ∧ f_trunc (Seconds d) * Second ≤ d.

(** An override that validation accepts is in force to the letter, zero
    standing for the deployment's own limit. *)
Theorem accepted_overrides_are_in_force cfg t :
  whole_seconds (li_RequestTimeout (cf_Limits cfg)) →
  whole_seconds (li_StreamIdleTimeout (cf_Limits cfg)) →
  validateTenantLimits cfg (t_Limits t) = None →
  let o := t_Limits t in
  let dep := limitsFor cfg None in
  let pick v ceiling := if v =? 0 then ceiling else v in
  limitsFor cfg (Some t) =
    {| el_MaxRequestBytes := pick (tl_MaxRequestBytes o) (el_MaxRequestBytes dep);
       el_RequestTimeout :=
         if tl_RequestTimeoutSeconds o =? 0 then el_RequestTimeout dep
         else tl_RequestTimeoutSeconds o * Second;
       el_StreamIdleTimeout :=
         if tl_StreamIdleTimeoutSeconds o =? 0 then el_StreamIdleTimeout dep
         else tl_StreamIdleTimeoutSeconds o * Second;
       el_MaxConcurrentPerKey := pick (tl_MaxConcurrentPerKey o) (el_MaxConcurrentPerKey dep);
       el_RequestsPerSecond := pick (tl_RequestsPerSecond o) (el_RequestsPerSecond dep);
       el_BurstCapacity := pick (tl_BurstCapacity o) (el_BurstCapacity dep);
       el_RequestsPerMinute := pick (tl_RequestsPerMinute o) (el_RequestsPerMinute dep) |}.
Proof.
  intros [R1 R2] [S1 S2] Hv. unfold validateTenantLimits in Hv.
  apply check_rows_None in Hv. unfold limit_rows in Hv. rewrite !Forall_cons in Hv.
  cbn [fst snd] in Hv. destruct Hv as (? & ? & ? & ? & ? & ? & ? & _).
  cbv zeta. unfold limitsFor. change lowerInt64 with lowerInt.
  rewrite !lowerInt_exact by done.
  rewrite !lowerDuration_exact by (unfold Second in *; (done || nia)). done.
Qed.

(** Whatever is stored, validated or not, never widens a ceiling. *)
Lemma limits_only_narrow cfg t :
  let e := limitsFor cfg t in let dep := limitsFor cfg None in
  el_MaxRequestBytes e ≤ el_MaxRequestBytes dep ∧
  el_RequestTimeout e ≤ el_RequestTimeout dep ∧
  el_StreamIdleTimeout e ≤ el_StreamIdleTimeout dep ∧
  el_MaxConcurrentPerKey e ≤ el_MaxConcurrentPerKey dep ∧
  el_RequestsPerSecond e ≤ el_RequestsPerSecond dep ∧
  el_BurstCapacity e ≤ el_BurstCapacity dep ∧
  el_RequestsPerMinute e ≤ el_RequestsPerMinute dep.
Proof.
  cbv zeta. destruct t as [t|]; [|split_and!; reflexivity].
  unfold limitsFor, lowerDuration. cbn -[lowerInt64 lowerInt].
  split_and!; (apply lowerInt_narrows || apply lowerInt64_narrows).
Qed.

(** *** Concurrency *)

Inductive cl_op := Acquire (key : string) (limit : Z) | Release (p : nat).

Definition apply_cl (l : concurrencyLimiter) (op : cl_op) : concurrencyLimiter :=
  match op with
  | Acquire key limit => (acquire key limit l).2
  | Release p => release p l
  end.
Definition run_cl (l : concurrencyLimiter) (ops : list cl_op) : concurrencyLimiter :=
  foldl apply_cl l ops.

(** Permits of a key handed out and not released. *)
Definition open (l : concurrencyLimiter) (key : string) : Z :=
  Z.of_nat (length (List.filter (λ q, bool_decide (q = (key, false))) (permits l))).

Definition counted (l : concurrencyLimiter) : Prop :=
  ∀ key, inUse l !! key = if open l key =? 0 then None else Some (open l key).

Lemma in_use_open l key : counted l → in_use l key = open l key.
Proof. intros H. unfold in_use. rewrite H. destruct (Z.eqb_spec (open l key) 0); simpl; lia. Qed.

Lemma open_nonneg l key : 0 ≤ open l key.
Proof. unfold open. lia. Qed.

Definition one (b : bool) : Z := if b then 1 else 0.

Lemma open_acquire key limit l p l' k :
  acquire key limit l = (Some p, l') → open l' k = open l k + one (bool_decide (key = k)).
Proof.
  unfold acquire. destruct (_ <=? in_use l key); [done|]. intros [= <- <-].
  unfold open. cbn [permits]. rewrite List.filter_app, length_app. cbn [List.filter].
  destruct (decide (key = k)) as [->|Hne].
  - rewrite !bool_decide_eq_true_2 by done. simpl. lia.
  - rewrite !bool_decide_eq_false_2 by congruence. simpl. lia.
Qed.

Lemma acquired_permit key limit l p l' :
  acquire key limit l = (Some p, l') → permits l' !! p = Some (key, false).
Proof.
  unfold acquire. destruct (_ <=? _); [done|]. intros [= <- <-]. cbn [permits]. by rewrite list_lookup_middle.
Qed.

Lemma filter_insert_length {A} (f : A → bool) (l : list A) p x y :
  l !! p = Some x →
  Z.of_nat (length (List.filter f (<[p := y]> l)))
  = Z.of_nat (length (List.filter f l)) - one (f x) + one (f y).
Proof.
  revert p. induction l as [|z l IH]; intros [|p] Hp; simplify_eq/=.
  - destruct (f x), (f y); simpl; lia.
  - specialize (IH p Hp). destruct (f z); simpl; lia.
Qed.

Lemma open_release p key l k :
  permits l !! p = Some (key, false) →
  open (release p l) k = open l k - one (bool_decide (key = k)).
Proof.
  intros Hp. unfold release. rewrite Hp. unfold open. cbn [permits].
  rewrite (filter_insert_length _ _ _ _ _ Hp).
  rewrite (bool_decide_eq_false_2 ((key, true) = (k, false))) by congruence.
  destruct (decide (key = k)) as [->|Hne].
  - rewrite !bool_decide_eq_true_2 by done. simpl. lia.
  - rewrite !bool_decide_eq_false_2 by congruence. simpl. lia.
Qed.

Lemma open_pos p key l : permits l !! p = Some (key, false) → 1 ≤ open l key.
Proof.
  intros Hp. pose proof (open_release p key l key Hp) as E.
  rewrite bool_decide_eq_true_2 in E by done. simpl in E.
  pose proof (open_nonneg (release p l) key). lia.
Qed.

Lemma counted_acquire key limit l p l' :
  counted l → acquire key limit l = (Some p, l') → counted l'.
Proof.
  intros Hc E k. rewrite (open_acquire _ _ _ _ _ k E). pose proof (open_nonneg l k).
  unfold acquire in E. rewrite in_use_open in E by done.
  destruct (_ <=? open l key); [done|]. injection E as <- <-. cbn [inUse].
  destruct (decide (key = k)) as [->|Hne].
  - rewrite bool_decide_eq_true_2, lookup_insert_eq by done. simpl.
    by destruct (Z.eqb_spec (open l k + 1) 0); [lia|].
  - rewrite bool_decide_eq_false_2, lookup_insert_ne by done. simpl. rewrite Z.add_0_r. apply Hc.
Qed.

Lemma counted_release p l : counted l → counted (release p l).
Proof.
  intros Hc. destruct (permits l !! p) as [[key []]|] eqn:Hp;
    [unfold release; by rewrite Hp| |unfold release; by rewrite Hp].
  intros k. rewrite (open_release _ _ _ _ Hp). pose proof (open_pos _ _ _ Hp).
  unfold release. rewrite Hp. rewrite in_use_open by done. cbn [inUse].
  destruct (decide (key = k)) as [->|Hne].
  - rewrite bool_decide_eq_true_2 by done. simpl.
    destruct (Z.leb_spec (open l k) 1), (Z.eqb_spec (open l k - 1) 0); try lia.
    + by rewrite lookup_delete_eq.
    + by rewrite lookup_insert_eq.
  - rewrite bool_decide_eq_false_2 by done. simpl. rewrite Z.sub_0_r, <-Hc.
    destruct (_ <=? 1); [by rewrite lookup_delete_ne|by rewrite lookup_insert_ne].
Qed.

Lemma acquire_refused key limit l l' : acquire key limit l = (None, l') → l' = l.
Proof. unfold acquire. destruct (_ <=? in_use l key); congruence. Qed.

Lemma counted_apply op l : counted l → counted (apply_cl l op).
Proof.
  intros Hc. destruct op as [key limit|p]; [|by apply counted_release].
  unfold apply_cl. destruct (acquire key limit l) as [[p|] l'] eqn:E; simpl.
  - by eapply counted_acquire.
  - by apply acquire_refused in E as ->.
Qed.

Lemma counted_new limit : counted (newConcurrencyLimiter limit).
Proof. intros key. done. Qed.

Lemma counted_run ops l : counted l → counted (run_cl l ops).
Proof.
  revert l. induction ops as [|op ops IH]; intros l Hc; [done|].
  apply IH. by apply counted_apply.
Qed.

(** The limit one [acquire] enforces. *)
Definition asked (l : concurrencyLimiter) (limit : Z) : Z :=
  if limit <? 1 then cl_limit l else limit.

(** After any sequence of acquisitions and releases, repeated releases
    included, the counter of a key is the number of its permits still open
    (and the key is absent when there are none), a permit is granted exactly
    below the limit asked for, and a second release changes nothing. *)
Theorem in_use_counts_open_permits limit ops key ask p :
  let l := run_cl (newConcurrencyLimiter limit) ops in
  inUse l !! key = (if open l key =? 0 then None else Some (open l key)) ∧
  (is_Some (acquire key ask l).1 ↔ open l key < asked l ask) ∧
  release p (release p l) = release p l.
Proof.
  cbv zeta. set (l := run_cl _ _).
  assert (counted l) as Hc by apply counted_run, counted_new.
  split_and!; [apply Hc| |].
  - unfold acquire, asked. rewrite in_use_open by done.
    destruct (Z.leb_spec (if ask <? 1 then cl_limit l else ask) (open l key)); simpl.
    + split; [intros []%is_Some_None|lia].
    + split; [lia|by eexists].
  - unfold release at 2 3. destruct (permits l !! p) as [[k []]|] eqn:Hp.
    + unfold release. by rewrite Hp.
    + unfold release. cbn [permits].
      by rewrite list_lookup_insert_eq by (by eapply lookup_lt_Some).
    + unfold release. by rewrite Hp.
Qed.

Lemma cl_limit_apply l op : cl_limit (apply_cl l op) = cl_limit l.
Proof.
  destruct op as [k lim|p]; unfold apply_cl, acquire, release; [by destruct (_ <=? _)|].
  by destruct (permits l !! p) as [[? []]|].
Qed.

(** A key never holds more permits than the largest limit it asked under. *)
Theorem open_permits_bounded limit ops key m :
  0 ≤ m →
  Forall (λ op, match op with
                | Acquire k lim => k = key → asked (newConcurrencyLimiter limit) lim ≤ m
                | Release _ => True
                end) ops →
  open (run_cl (newConcurrencyLimiter limit) ops) key ≤ m.
Proof.
  intros Hm Hops.
  assert (open (newConcurrencyLimiter limit) key ≤ m) as H0 by exact Hm.
  pose proof (counted_new limit) as Hc.
  set (l := newConcurrencyLimiter limit) in H0, Hc |- *.
  assert (cl_limit l = cl_limit (newConcurrencyLimiter limit)) as Hl by done.
  clearbody l. revert l H0 Hc Hl Hops.
  induction ops as [|op ops IH]; intros l H0 Hc Hl Hops; [done|].
  apply Forall_cons in Hops as [Hop Hops]. cbn [run_cl foldl]. apply IH; [|by apply counted_apply| |].
  - destruct op as [k lim|p]; cbn [apply_cl].
    + destruct (acquire k lim l) as [[q|] l'] eqn:E; [|by apply acquire_refused in E as ->].
      cbn [snd]. rewrite (open_acquire _ _ _ _ _ _ E).
      unfold acquire in E. rewrite in_use_open in E by done.
      destruct (Z.leb_spec (if lim <? 1 then cl_limit l else lim) (open l k)); [done|].
      destruct (decide (k = key)) as [->|Hne].
      * specialize (Hop eq_refl). unfold asked in Hop. rewrite <-Hl in Hop.
        rewrite bool_decide_eq_true_2 by done. cbn [one]. lia.
      * rewrite bool_decide_eq_false_2 by done. cbn [one]. lia.
    + destruct (permits l !! p) as [[k []]|] eqn:Hp;
        [unfold release; by rewrite Hp| |unfold release; by rewrite Hp].
      rewrite (open_release _ _ _ _ Hp). destruct (bool_decide _); simpl; lia.
  - by rewrite cl_limit_apply.
  - done.
Qed.

Lemma open_permits_bounded_witness :
  let ops := [Acquire "k" 2; Acquire "k" 2; Acquire "k" 2; Release 0; Release 0; Acquire "k" 1] in
  permits (run_cl (newConcurrencyLimiter 8) ops) = [("k", true); ("k", false)] ∧
  open (run_cl (newConcurrencyLimiter 8) ops) "k" ≤ 2.
Proof.
  split; [by vm_compute|]. apply open_permits_bounded; [lia|].
  repeat constructor; intros _; unfold asked; simpl; lia.
Defined.

(** *** The middleware *)

Lemma permits_apply l op p q :
  permits l !! p = Some q → op ≠ Release p → permits (apply_cl l op) !! p = Some q.
Proof.
  intros Hp Hop. destruct op as [k lim|p']; cbn [apply_cl].
  - unfold acquire. destruct (_ <=? _); [done|]. cbn [snd permits]. by apply lookup_app_l_Some.
  - unfold release. destruct (permits l !! p') as [[k []]|] eqn:E; [done| |done]. cbn [permits].
    rewrite list_lookup_insert_ne; [done|congruence].
Qed.

Lemma permits_run ops l p q :
  permits l !! p = Some q → Release p ∉ ops → permits (run_cl l ops) !! p = Some q.
Proof.
  revert l. induction ops as [|op ops IH]; intros l Hp Hn; [done|].
  apply not_elem_of_cons in Hn as [Hne Hn]. cbn [run_cl foldl].
  apply IH; [|done]. by apply permits_apply.
Qed.

Lemma enter_Ok cfg now key tenant r st s st' :
  limitTenant_enter cfg now (Some key) (Some tenant) r st = (Ok s, st') →
  ∃ p lim, s = Some {| sl_adopted := false; sl_release := p |} ∧
    acquire (k_ID key) lim (ls_limiter st) = (Some p, ls_limiter st').
Proof.
  unfold limitTenant_enter. cbv zeta. set (lim := limitsFor _ _).
  destruct (_ <? rq_ContentLength r); [done|]. destruct (_ <? rq_BodyLen r); [done|].
  destruct (if rateExempt _ then _ else _) as [[wait []] rates]; [|done]. cbn [negb ls_limiter].
  destruct (acquire _ _ _) as [[p|] l'] eqn:E; [|done]. intros [= <- <-].
  exists p, (el_MaxConcurrentPerKey lim). done.
Qed.

(** A request let through holds one permit of its key for as long as its
    route runs, whatever other requests do meanwhile; when the route returns
    the permit is given back, unless the route adopted the slot, in which
    case it stays open until the adopter releases it. *)
Theorem slot_is_held_and_returned cfg now key tenant r s st st' others :
  limitTenant_enter cfg now (Some key) (Some tenant) r st = (Ok (Some s), st') →
  Release (sl_release s) ∉ others →
  let k := k_ID key in
  let running := run_cl (ls_limiter st') others in
  let held := {| ls_rates := ls_rates st'; ls_limiter := running |} in
  open (ls_limiter st') k = open (ls_limiter st) k + 1 ∧
  permits running !! sl_release s = Some (k, false) ∧
  open (ls_limiter (limitTenant_exit (Some s) held)) k = open running k - 1 ∧
  limitTenant_exit (Some (slot_take s).2) held = held ∧
  open (release (slot_take s).1 running) k = open running k - 1.
Proof.
  intros E Hn. cbv zeta. apply enter_Ok in E as (p & lim & [= ->] & E).
  cbn [sl_release sl_adopted slot_take fst snd] in *.
  assert (permits (run_cl (ls_limiter st') others) !! p = Some (k_ID key, false)) as Hp.
  { apply permits_run; [|done]. by eapply acquired_permit. }
  pose proof (open_release _ _ _ (k_ID key) Hp) as Ho.
  rewrite bool_decide_eq_true_2 in Ho by done.
  split_and!; [|done|exact Ho|done|exact Ho].
  rewrite (open_acquire _ _ _ _ _ _ E). by rewrite bool_decide_eq_true_2.
Qed.

(** A refused request holds no permit; a body over the tenant's ceiling is
    refused before the rate is charged; the code names the limit that
    refused. *)
Theorem refusal_holds_nothing cfg now key tenant r st e st' :
  limitTenant_enter cfg now (Some key) (Some tenant) r st = (Err e, st') →
  let lim := limitsFor cfg (Some tenant) in
  ls_limiter st' = ls_limiter st ∧
  ((err_Code e = CodeRequestTooLarge ∧ st' = st ∧
    el_MaxRequestBytes lim < Z.max (rq_ContentLength r) (rq_BodyLen r)) ∨
   (err_Code e = CodeRateLimited ∧ 1 ≤ err_RetryAfterSeconds e ∧
    ∃ wait, take now (t_ID tenant) (el_RequestsPerSecond lim) (el_BurstCapacity lim)
      (el_RequestsPerMinute lim) (ls_rates st) = ((wait, false), ls_rates st')) ∨
   (err_Code e = CodeConcurrencyExceeded ∧
    asked (ls_limiter st) (el_MaxConcurrentPerKey lim) ≤ in_use (ls_limiter st) (k_ID key))).
Proof.
  unfold limitTenant_enter. cbv zeta. set (lim := limitsFor _ _).
  destruct (Z.ltb_spec (el_MaxRequestBytes lim) (rq_ContentLength r)).
  { intros [= <- <-]. split; [done|]. left. split_and!; [done..|lia]. }
  destruct (Z.ltb_spec (el_MaxRequestBytes lim) (rq_BodyLen r)).
  { intros [= <- <-]. split; [done|]. left. split_and!; [done..|lia]. }
  destruct (if rateExempt _ then _ else _) as [[wait ok] rates] eqn:E. cbn [ls_limiter].
  destruct ok; cbn [negb].
  - destruct (acquire _ _ _) as [[p|] l'] eqn:Ea; [done|]. intros [= <- <-].
    split; [done|]. right; right. split; [done|]. unfold acquire in Ea. unfold asked.
    destruct (Z.leb_spec (if el_MaxConcurrentPerKey lim <? 1 then cl_limit (ls_limiter st)
      else el_MaxConcurrentPerKey lim) (in_use (ls_limiter st) (k_ID key))); [done|congruence].
  - destruct (rateExempt _); [congruence|]. intros [= <- <-]. split; [done|].
    right; left. split_and!; [done|apply WithRetryAfter_pos|by exists wait].
Qed.

(** *** The minute window *)

Lemma Sub_self now : Sub now now = 0.
Proof. unfold Sub, minInt64, maxInt64, two63. lia. Qed.

Lemma minute_over now s : (Minute <=? Sub now s) = (s + Minute <=? now).
Proof.
  rewrite Sub_ge by (unfold Minute, minInt64, maxInt64, two63, Second; lia).
  destruct (Z.leb_spec Minute (now - s)), (Z.leb_spec (s + Minute) now); lia.
Qed.

(** Where the window of a tenant stands when a request arrives at [now]. *)
Definition window_at (now : Z) (b : option bucket) : Z * Z :=
  match b with
  | None => (now, 0)
  | Some b => if b_minuteStart b + Minute <=? now then (now, 0)
              else (b_minuteStart b, b_minuteCount b)
  end.

Lemma lookup_sweep now rps burst (l : rateLimiter) id :
  sweep now rps burst l !! id = l !! id ∨
  ∃ b, l !! id = Some b ∧ sweep now rps burst l !! id = None ∧ b_minuteStart b + Minute ≤ now.
Proof.
  unfold sweep. rewrite map_lookup_filter. destruct (l !! id) as [b|] eqn:E; simpl; [|by left].
  destruct (full_after rps burst <=? Sub now (b_last b)); simpl; [|by left].
  rewrite minute_over. destruct (Z.leb_spec (b_minuteStart b + Minute) now); [|by left].
  right. by exists b.
Qed.

Lemma lookup_sweep_fresh now rps burst id (l : rateLimiter) :
  sweep now rps burst (<[id := fresh_bucket now burst]> l) !! id = Some (fresh_bucket now burst).
Proof.
  destruct (lookup_sweep now rps burst (<[id := fresh_bucket now burst]> l) id)
    as [->|(b & Hb & _ & Hle)]; [by rewrite lookup_insert_eq|].
  rewrite lookup_insert_eq in Hb. injection Hb as <-. cbn in Hle. unfold Minute, Second in Hle. lia.
Qed.

Lemma take_other now id id' rps burst rpm l :
  id' ≠ id →
  let l' := (take now id' rps burst rpm l).2 in
  l' !! id = l !! id ∨
  ∃ b, l !! id = Some b ∧ l' !! id = None ∧ b_minuteStart b + Minute ≤ now.
Proof.
  intros Hne. cbv zeta. unfold take.
  set (bon := (1 <=? rps) && (1 <=? burst)). set (mon := 1 <=? rpm).
  destruct (negb bon && negb mon); [by left|].
  destruct (l !! id') as [b|] eqn:E.
  - destruct (measure _ _ _ _ _ _) as [[] wait]; cbn [snd]; left; by rewrite lookup_alter_ne.
  - set (l1 := <[id' := _]> l).
    assert (l1 !! id = l !! id) as H1 by (unfold l1; by rewrite lookup_insert_ne).
    set (l2 := if sweepAbove <? _ then _ else _).
    assert (l2 !! id = l !! id ∨
      ∃ b, l !! id = Some b ∧ l2 !! id = None ∧ b_minuteStart b + Minute ≤ now) as H2.
    { unfold l2. destruct (sweepAbove <? _); [|by left]. rewrite <-H1. apply lookup_sweep. }
    destruct (measure _ _ _ _ _ _) as [[] wait]; cbn [snd]; by rewrite lookup_alter_ne.
Qed.

Lemma measure_admits now rps rpm bon b wait :
  measure now rps rpm bon true b = (false, wait) → b_minuteCount b < rpm.
Proof.
  unfold measure. cbn [andb]. destruct (Z.leb_spec rpm (b_minuteCount b)); [done|lia].
Qed.

(** One request of a tenant whose minute ceiling is on. *)
Lemma take_self now id rps burst rpm l ok wait l' :
  1 ≤ rpm → take now id rps burst rpm l = ((wait, ok), l') →
  let '(s, c) := window_at now (l !! id) in
  (ok = true → c < rpm) ∧
  ∃ b, l' !! id = Some b ∧ b_minuteStart b = s ∧ b_minuteCount b = c + one ok.
Proof.
  intros Hrpm. unfold take. set (bon := (1 <=? rps) && (1 <=? burst)).
  rewrite (proj2 (Z.leb_le 1 rpm)) by done. rewrite andb_false_r.
  destruct (match l !! id with None => _ | Some _ => _ end) as [b l1] eqn:E.
  assert (is_Some (l1 !! id) ∧ window_at now (l !! id) = (b_minuteStart b, b_minuteCount b))
    as [[b1 Hb1] Hw].
  { destruct (l !! id) as [b0|] eqn:E0; injection E as <- <-.
    - split; [by rewrite E0|]. unfold window_at, refill. cbn. rewrite minute_over.
      by destruct (_ <=? now).
    - split; [|done]. destruct (sweepAbove <? _);
        [rewrite lookup_sweep_fresh|rewrite lookup_insert_eq]; by eexists. }
  rewrite Hw. destruct (measure now rps rpm bon true b) as [[] w] eqn:Em; intros [= <- <- <-].
  - split; [done|]. eexists. split; [by rewrite lookup_alter_eq, Hb1|]. simpl. lia.
  - split; [intros _; by eapply measure_admits|].
    eexists. split; [by rewrite lookup_alter_eq, Hb1|]. by split.
Qed.

(** Elements of [A] in the interval from [lo] to [hi], the end excluded. *)
Definition cnt (A : list Z) (lo hi : Z) : Z :=
  Z.of_nat (length (List.filter (λ x, (lo <=? x) && (x <? hi)) A)).

Lemma cnt_snoc A x lo hi : cnt (A ++ [x]) lo hi = cnt A lo hi + one ((lo <=? x) && (x <? hi)).
Proof.
  unfold cnt. rewrite List.filter_app, length_app. cbn [List.filter].
  destruct ((lo <=? x) && (x <? hi)); simpl; lia.
Qed.

Lemma cnt_le A lo hi lo' hi' :
  (∀ x, x ∈ A → lo ≤ x < hi → lo' ≤ x < hi') → cnt A lo hi ≤ cnt A lo' hi'.
Proof.
  unfold cnt. induction A as [|x A IH]; intros H; [done|]. cbn [List.filter].
  assert (∀ y, y ∈ A → lo ≤ y < hi → lo' ≤ y < hi') as H' by (intros; apply H; [by right|done]).
  specialize (IH H'). specialize (H x ltac:(by left)).
  destruct (Z.leb_spec lo x), (Z.ltb_spec x hi), (Z.leb_spec lo' x), (Z.ltb_spec x hi');
    simpl; try lia.
Qed.

Lemma cnt_split A lo mid hi : lo ≤ mid ≤ hi → cnt A lo hi = cnt A lo mid + cnt A mid hi.
Proof.
  intros Hm. unfold cnt. induction A as [|x A IH]; [done|]. cbn [List.filter].
  destruct (Z.leb_spec lo x), (Z.ltb_spec x hi), (Z.leb_spec mid x), (Z.ltb_spec x mid);
    simpl; lia.
Qed.

Lemma cnt_none A lo hi : (∀ x, x ∈ A → lo ≤ x < hi → False) → cnt A lo hi = 0.
Proof.
  intros H. pose proof (cnt_le A lo hi 0 0 ltac:(intros; exfalso; by eapply H)) as Hle.
  unfold cnt in *. assert (List.filter (λ x, (0 <=? x) && (x <? 0)) A = []) as E; [|rewrite E in Hle; simpl in Hle; lia].
  clear. induction A as [|x A IH]; [done|]. cbn [List.filter].
  by destruct (Z.leb_spec 0 x), (Z.ltb_spec x 0); try lia.
Qed.

(** The admissions [A] so far, the last instant [n], and a window that
    started at [s] and admitted [c]. *)
Record window_ok (rpm : Z) (A : list Z) (n s c : Z) : Prop := {
  wk_now x : x ∈ A → x ≤ n;
  wk_end x : x ∈ A → x < s + Minute;
  wk_count : cnt A s (s + Minute) ≤ c ≤ rpm;
  wk_prev : cnt A (s - Minute) s ≤ rpm;
  wk_all t : cnt A t (t + Minute) ≤ 2 * rpm
}.

Lemma window_keep rpm A n now s c : n ≤ now → window_ok rpm A n s c → window_ok rpm A now s c.
Proof. intros Hn []. split; try done. intros x Hx. specialize (wk_now0 x Hx). lia. Qed.

Lemma window_restart rpm A n now s c :
  n ≤ now → s + Minute ≤ now → window_ok rpm A n s c → window_ok rpm A now now 0.
Proof.
  intros Hn Hs [W1 W2 W3 W4 W5].
  assert (0 < Minute) by (unfold Minute, Second; lia). split.
  - intros x Hx. specialize (W1 x Hx). lia.
  - intros x Hx. specialize (W1 x Hx). lia.
  - assert (0 ≤ cnt A s (s + Minute)) by (unfold cnt; lia).
    rewrite cnt_none; [lia|]. intros x Hx Hr. specialize (W2 x Hx). lia.
  - assert (cnt A (now - Minute) now ≤ cnt A s (s + Minute)); [|lia].
    apply cnt_le. intros x Hx Hr. specialize (W2 x Hx). lia.
  - done.
Qed.

Lemma window_admit rpm A now s c :
  s ≤ now < s + Minute → c < rpm → window_ok rpm A now s c →
  window_ok rpm (A ++ [now]) now s (c + 1).
Proof.
  intros Hs Hc [W1 W2 W3 W4 W5].
  assert (0 < Minute) by (unfold Minute, Second; lia). split.
  - intros x [Hx| ->]%elem_of_snoc; [auto|lia].
  - intros x [Hx| ->]%elem_of_snoc; [auto|lia].
  - rewrite cnt_snoc. destruct (_ && _); simpl; lia.
  - rewrite cnt_snoc. destruct (Z.ltb_spec now s); [lia|]. rewrite andb_false_r. simpl. lia.
  - intros t. rewrite cnt_snoc.
    destruct (Z.leb_spec t now), (Z.ltb_spec now (t + Minute)); cbn [one andb];
      try (specialize (W5 t); lia).
    destruct (Z.le_gt_cases s t).
    + assert (0 ≤ cnt A (s - Minute) s) by (unfold cnt; lia).
      assert (cnt A t (t + Minute) ≤ cnt A s (s + Minute)); [|lia].
      apply cnt_le. intros x Hx Hr. specialize (W2 x Hx). lia.
    + rewrite (cnt_split A t s (t + Minute)) by lia.
      assert (cnt A t s ≤ cnt A (s - Minute) s) by (apply cnt_le; intros; lia).
      assert (cnt A s (t + Minute) ≤ cnt A s (s + Minute)) by (apply cnt_le; intros; lia).
      lia.
Qed.

(** A sequence of requests, of every tenant, in the order the lock serves
    them. *)
Record rate_req := {
  rr_now : Z; rr_id : string; rr_rps : Z; rr_burst : Z; rr_rpm : Z
}.

(** The instants at which requests of [id] are admitted. *)
Fixpoint admitted (id : string) (l : rateLimiter) (reqs : list rate_req) : list Z :=
  match reqs with
  | [] => []
  | r :: reqs' =>
      let '((_, ok), l') := take (rr_now r) (rr_id r) (rr_rps r) (rr_burst r) (rr_rpm r) l in
      (if bool_decide (rr_id r = id) && ok then [rr_now r] else []) ++ admitted id l' reqs'
  end.

(** What the limiter remembers of [id] agrees with the admissions. *)
Definition linked (n s c : Z) (b : option bucket) : Prop :=
  s ≤ n ∧ match b with
          | Some b => b_minuteStart b = s ∧ b_minuteCount b = c
          | None => s + Minute ≤ n
          end.

Lemma window_at_ok rpm A n now s c b :
  n ≤ now → linked n s c b → window_ok rpm A n s c →
  let '(s', c') := window_at now b in window_ok rpm A now s' c' ∧ s' ≤ now < s' + Minute.
Proof.
  intros Hn [Hs Hb] W. assert (0 < Minute) by (unfold Minute, Second; lia).
  destruct b as [b|]; simpl in *.
  - destruct Hb as [-> ->]. destruct (Z.leb_spec (s + Minute) now).
    + split; [exact (window_restart _ _ n now s c Hn ltac:(lia) W)|lia].
    + split; [exact (window_keep _ _ n now s c Hn W)|lia].
  - split; [exact (window_restart _ _ n now s c Hn ltac:(lia) W)|lia].
Qed.

Lemma admitted_bounded id rpm reqs : 1 ≤ rpm → ∀ l A n s c,
  Forall (λ r, rr_id r = id → rr_rpm r = rpm) reqs →
  Sorted Z.le (n :: map rr_now reqs) →
  linked n s c (l !! id) → window_ok rpm A n s c →
  ∀ t, cnt (A ++ admitted id l reqs) t (t + Minute) ≤ 2 * rpm.
Proof.
  intros Hrpm. induction reqs as [|r reqs IH]; intros l A n s c HF HS HL W.
  { simpl. rewrite app_nil_r. apply W. }
  apply Forall_cons in HF as [Hr HF]. cbn [map] in HS.
  apply Sorted_inv in HS as [HS Hn%HdRel_inv]. cbn [admitted].
  destruct (take _ _ _ _ _ l) as [[wait ok] l'] eqn:E.
  destruct (decide (rr_id r = id)) as [Hid|Hid].
  - rewrite bool_decide_eq_true_2 by done. cbn [andb]. rewrite Hid, (Hr Hid) in E.
    pose proof (take_self _ _ _ _ _ _ _ _ _ Hrpm E) as Hself.
    pose proof (window_at_ok _ _ _ _ _ _ _ Hn HL W) as Hat.
    destruct (window_at (rr_now r) (l !! id)) as [s' c'].
    destruct Hself as (Hlt & b & Hb & Hbs & Hbc), Hat as [W' Hs'].
    rewrite app_assoc. eapply (IH l' _ (rr_now r) s' (c' + one ok)); [done..| |].
    + split; [lia|]. by rewrite Hb.
    + destruct ok; simpl; [apply window_admit; auto|by rewrite app_nil_r, Z.add_0_r].
  - rewrite bool_decide_eq_false_2 by done. cbn [andb app].
    assert (l' = (take (rr_now r) (rr_id r) (rr_rps r) (rr_burst r) (rr_rpm r) l).2) as El
      by (by rewrite E).
    destruct (take_other (rr_now r) id (rr_id r) (rr_rps r) (rr_burst r) (rr_rpm r) l Hid)
      as [Hl|(b & Hb & Hl & Hle)]; rewrite <-El in Hl;
      (eapply (IH l' A (rr_now r) s c); [done..| |exact (window_keep _ _ _ _ _ _ Hn W)]); destruct HL as [HLs HL].
    + split; [lia|]. rewrite Hl. destruct (l !! id); [done|lia].
    + split; [lia|]. rewrite Hl. rewrite Hb in HL. destruct HL as [<- _]. lia.
Qed.

(** C28: requests_per_minute, whatever the other tenants send and however often
    the limiter sweeps: in no interval of one minute are more than twice the
    ceiling admitted (a spent window followed by a fresh one). *)
Theorem minute_ceiling id rpm reqs t :
  1 ≤ rpm →
  Forall (λ r, rr_id r = id → rr_rpm r = rpm) reqs →
  Sorted Z.le (map rr_now reqs) →
  cnt (admitted id newRateLimiter reqs) t (t + Minute) ≤ 2 * rpm.
Proof.
  intros Hrpm HF HS. destruct reqs as [|r reqs]; [unfold cnt; simpl; lia|].
  set (n := rr_now r).
  apply (admitted_bounded id rpm (r :: reqs) Hrpm newRateLimiter [] n (n - Minute) 0).
  - done.
  - constructor; [done|]. by constructor.
  - split; [unfold Minute, Second; lia|]. unfold newRateLimiter. rewrite lookup_empty. lia.
  - split; unfold cnt; simpl; try lia; intros x []%not_elem_of_nil.
Qed.

Lemma take_known now id rps burst rpm (l : rateLimiter) b :
  1 ≤ rpm → l !! id = Some b →
  let bon := (1 <=? rps) && (1 <=? burst) in
  let b' := refill now rps burst bon b in
  (take now id rps burst rpm l).1
  = if (measure now rps rpm bon true b').1 then ((measure now rps rpm bon true b').2, false)
    else (0, true).
Proof.
  intros Hrpm Hb. cbv zeta. unfold take. rewrite Hb, (proj2 (Z.leb_le 1 rpm)), andb_false_r by done.
  by destruct (measure _ _ _ _ _ _) as [[] w].
Qed.

Lemma take_decides now id rps burst rpm (l : rateLimiter) b :
  1 ≤ rpm → l !! id = Some b →
  let c := (window_at now (Some b)).2 in
  (rpm ≤ c → (take now id rps burst rpm l).1.2 = false) ∧
  ((1 <=? rps) && (1 <=? burst) = false → c < rpm → (take now id rps burst rpm l).1.2 = true).
Proof.
  intros Hrpm Hb. cbv zeta. rewrite (take_known _ _ _ _ _ _ _ Hrpm Hb). unfold measure. cbn [andb].
  set (b' := refill _ _ _ _ b).
  assert (b_minuteCount b' = (window_at now (Some b)).2) as ->.
  { unfold b', refill, window_at. cbn. rewrite minute_over. by destruct (_ <=? now). }
  destruct (Z.leb_spec rpm (window_at now (Some b)).2); split; try done; try lia.
  intros -> _. done.
Qed.

Lemma minute_rest now s :
  s ≤ now < s + Minute → wrap64 (Minute - Sub now s) = s + Minute - now.
Proof.
  intros H. unfold Sub, minInt64, maxInt64, two63. unfold Minute, Second in *.
  rewrite wrap64_small; [lia|]. unfold in_int64, minInt64, maxInt64, two63. lia.
Qed.

Lemma measure_spent now rps rpm bon b :
  rpm ≤ b_minuteCount b →
  ∃ w, (bon = false → w = 0) ∧
    measure now rps rpm bon true b
    = (true, Z.max w (wrap64 (Minute - Sub now (b_minuteStart b)))).
Proof.
  intros Hc. unfold measure. rewrite (proj2 (Z.leb_le _ _) Hc). cbn [andb].
  set (w := if bon && _ then _ else 0). exists w. split; [unfold w; by intros ->|].
  f_equal. destruct (Z.ltb_spec w (wrap64 (Minute - Sub now (b_minuteStart b)))); lia.
Qed.

(** The Retry-After of a spent minute: when a request is refused because its
    tenant's window is spent, the wait reported covers the rest of the
    window, every retry before the window ends is refused, and, where no
    token bucket is configured, the wait is exact and a retry after it is
    admitted. *)
Theorem minute_retry_after now id rps burst rpm (l : rateLimiter) wait l' s c :
  1 ≤ rpm →
  (∀ b, l !! id = Some b → b_minuteStart b ≤ now) →
  window_at now (l !! id) = (s, c) → rpm ≤ c →
  take now id rps burst rpm l = ((wait, false), l') →
  let rest := s + Minute - now in
  0 < rest ≤ wait ∧
  (∀ now', now ≤ now' < now + rest → (take now' id rps burst rpm l').1.2 = false) ∧
  ((1 <=? rps) && (1 <=? burst) = false →
     wait = rest ∧ ∀ now', now + wait ≤ now' → (take now' id rps burst rpm l').1.2 = true).
Proof.
  intros Hrpm Hpast Hw Hc E. cbv zeta.
  pose proof (take_self _ _ _ _ _ _ _ _ _ Hrpm E) as Hself. rewrite Hw in Hself.
  destruct Hself as (_ & b' & Hb' & Hs' & Hc'). cbn [one] in Hc'. rewrite Z.add_0_r in Hc'.
  destruct (l !! id) as [b|] eqn:Hb; [|simpl in Hw; injection Hw as <- <-; lia].
  specialize (Hpast b eq_refl). unfold window_at in Hw.
  destruct (Z.leb_spec (b_minuteStart b + Minute) now); [injection Hw as <- <-; lia|].
  injection Hw as <- <-.
  assert (∀ now', (window_at now' (Some b')).2
    = if b_minuteStart b + Minute <=? now' then 0 else b_minuteCount b) as Hwin.
  { intros now'. unfold window_at. rewrite Hs', Hc'. by destruct (_ <=? now'). }
  assert (∃ w, ((1 <=? rps) && (1 <=? burst) = false → w = 0) ∧
    wait = Z.max w (b_minuteStart b + Minute - now)) as (w & Hw0 & ->).
  { pose proof (f_equal fst E) as E1. rewrite (take_known _ _ _ _ _ _ _ Hrpm Hb) in E1.
    set (bon := (1 <=? rps) && (1 <=? burst)) in *. set (b1 := refill _ _ _ _ b) in *.
    assert (b_minuteCount b1 = b_minuteCount b ∧ b_minuteStart b1 = b_minuteStart b) as [R1 R2].
    { unfold b1, refill. cbn. rewrite minute_over.
      by destruct (Z.leb_spec (b_minuteStart b + Minute) now); [lia|]. }
    destruct (measure_spent now rps rpm bon b1) as (w & Hw0 & Em); [by rewrite R1|].
    rewrite Em, R2, minute_rest in E1 by lia. cbn [fst snd] in E1. exists w. split; [exact Hw0|congruence]. }
  split_and!; [lia..| |].
  - intros now' Hn. apply (take_decides now' id rps burst rpm l' b' Hrpm Hb'). rewrite Hwin.
    destruct (Z.leb_spec (b_minuteStart b + Minute) now'); lia.
  - intros Hoff. rewrite (Hw0 Hoff). split; [lia|]. intros now' Hn.
    apply (take_decides now' id rps burst rpm l' b' Hrpm Hb'); [done|]. rewrite Hwin.
    destruct (Z.leb_spec (b_minuteStart b + Minute) now'); lia.
Qed.

(** *** Witnesses *)

Definition at_second (n : Z) : rate_req :=
  {| rr_now := n * Second; rr_id := "a"; rr_rps := 0; rr_burst := 0; rr_rpm := 2 |}.

Lemma minute_ceiling_witness :
  let reqs := map at_second [0; 58; 59; 60; 61; 62] in
  admitted "a" newRateLimiter reqs = map (Z.mul Second) [0; 58; 60; 61] ∧
  cnt (admitted "a" newRateLimiter reqs) (5 * Second) (5 * Second + Minute) ≤ 2 * 2.
Proof.
  split; [by vm_compute|]. apply minute_ceiling; [done|repeat constructor|].
  apply StronglySorted_Sorted. repeat constructor; by vm_compute.
Defined.

Definition spent_limiter : rateLimiter :=
  {[ "a" := {| b_tokens := fzero; b_last := 3 * Second; b_minuteStart := Second;
               b_minuteCount := 2 |} ]}.

Lemma minute_retry_after_witness :
  (take (11 * Second) "a" 0 0 2 spent_limiter).1 = (50 * Second, false) ∧
  (take (61 * Second) "a" 0 0 2 (take (11 * Second) "a" 0 0 2 spent_limiter).2).1.2 = true.
Proof.
  split; [by vm_compute|].
  refine (proj2 (proj2 (proj2 (minute_retry_after (11 * Second) "a" 0 0 2 spent_limiter
    (50 * Second) (take (11 * Second) "a" 0 0 2 spent_limiter).2 Second 2 _ _ _ _ _)) _) _ _).
  - lia.
  - intros b [= <-]. by vm_compute.
  - by vm_compute.
  - lia.
  - apply surjective_pairing.
  - done.
  - by vm_compute.
Defined.

Definition narrow_tenant : Tenant :=
  {| t_ID := "t"; t_Name := "t"; t_Status := "active"; t_CreatedAt := 0;
     t_Limits := {| tl_MaxRequestBytes := 10; tl_RequestTimeoutSeconds := 120;
       tl_StreamIdleTimeoutSeconds := 7; tl_MaxConcurrentPerKey := 1; tl_RequestsPerSecond := 0;
       tl_BurstCapacity := 0; tl_RequestsPerMinute := 2 |};
     t_Cache := no_cache; t_DebugCapture := no_capture; t_SystemInstruction := "" |}.

Lemma accepted_overrides_are_in_force_witness :
  validateTenantLimits Default (t_Limits narrow_tenant) = None ∧
  el_RequestTimeout (limitsFor Default (Some narrow_tenant)) = 120 * Second.
Proof.
  split; [by vm_compute|].
  rewrite (accepted_overrides_are_in_force Default narrow_tenant); [done| | |by vm_compute];
    split; by vm_compute.
Defined.

Definition narrow_key : APIKey :=
  {| k_ID := "k"; k_TenantID := "t"; k_Plane := PlaneData; k_Name := ""; k_Prefix := "";
     k_Hash := ""; k_Scope := ""; k_CreatedAt := 0; k_ExpiresAt := None; k_RevokedAt := None |}.
Definition small_request : LimitedRequest :=
  {| rq_ContentLength := 5; rq_BodyLen := 5; rq_Path := "/v1/chat/completions" |}.
Definition idle : LimitState :=
  {| ls_rates := newRateLimiter; ls_limiter := newConcurrencyLimiter 32 |}.
Definition entered (st : LimitState) :=
  limitTenant_enter Default Hour (Some narrow_key) (Some narrow_tenant) small_request st.

Lemma slot_is_held_and_returned_witness :
  open (ls_limiter (limitTenant_exit (Some {| sl_adopted := false; sl_release := 0 |})
    {| ls_rates := ls_rates (entered idle).2;
       ls_limiter := run_cl (ls_limiter (entered idle).2) [Acquire "other" 3] |})) "k"
  = open (run_cl (ls_limiter (entered idle).2) [Acquire "other" 3]) "k" - 1.
Proof.
  refine (proj1 (proj2 (proj2 (slot_is_held_and_returned Default Hour narrow_key narrow_tenant
    small_request {| sl_adopted := false; sl_release := 0 |} idle (entered idle).2
    [Acquire "other" 3] _ _)))).
  - by vm_compute.
  - apply not_elem_of_cons. split; [done|apply not_elem_of_nil].
Defined.

Lemma refusal_holds_nothing_witness :
  (entered (entered idle).2).1 = Err (ConcurrencyExceeded 1) ∧
  ls_limiter (entered (entered idle).2).2 = ls_limiter (entered idle).2.
Proof.
  split; [by vm_compute|].
  refine (proj1 (refusal_holds_nothing Default Hour narrow_key narrow_tenant small_request
    (entered idle).2 (ConcurrencyExceeded 1) (entered (entered idle).2).2 _)).
  by vm_compute.
Defined.

(** [sweep] measures every tenant's bucket with the limits of the tenant that
    happened to trigger it: a bucket that needs a hundred seconds to refill
    is dropped after sixty by a tenant whose own bucket fills in one, and its
    owner gets a full burst back instead of what has accrued. *)
Theorem sweep_forgets_an_unfilled_bucket :
  let b := {| b_tokens := fzero; b_last := 0; b_minuteStart := 0; b_minuteCount := 0 |} in
  let now := 60 * Second in
  full_after 1 100 = 100 * Second ∧
  b_tokens (refill now 1 100 true b) = f_of_Z 60 ∧
  sweep now 10 10 {[ "slow" := b ]} !! "slow" = None ∧
  b_tokens (fresh_bucket now 100) = f_of_Z 100.
Proof. by vm_compute. Qed.
End LimitsFacts.
