(* ===== verification/Quota.v ===== *)
(** * Quotas (internal/server/quota.go)

    Positions of a caller against its caps, the verdict on a request, the
    position cache and the announcements of crossings. What the server asks of
    the store is the class [QuotaStore]; the in-memory store is an instance.
    Evaluations of one scope are serialised by the code's per-scope lock, so
    [get] is a function of the cache; the clock reading is its [now] argument.
    The metrics gauge is not modelled; an emitted event is recorded in
    [qs_emitted]. *)

From S2P Require Import Prelude GoStrings GoTime GoFloat Calendar ApiErr StoreTypes Keys Memory Config.
From Stdlib Require Import Ascii.

#[local] Open Scope Z_scope.
#[local] Open Scope stdpp_scope.
#[local] Open Scope gate_scope.

(** ** Data *)

Definition QuotaOK : string := "ok".
Definition QuotaSoftExceeded : string := "soft-exceeded".
Definition QuotaHardExceeded : string := "hard-exceeded".

Definition quotaCacheTTL : Z := 5 * Second.
Definition unitTokens : string := "tokens".
Definition unitCost : string := "cost".
Definition unitRequests : string := "requests".
Definition windowDay : string := "day".
Definition windowMonth : string := "month".
Definition QuotaThresholdCrossed : string := "quota.threshold_crossed".
Definition QuotaHardCapReached : string := "quota.hard_cap_reached".

Record quotaVerdict := { v_State : string; v_Reject : option Error }.

Record quotaScope := { sc_tenantID : string; sc_keyID : string; sc_keyPrefix : string }.

(** The separator of the cache keys, a zero byte. *)
Definition nul : ascii := ascii_of_nat 0.

Definition cacheKey (q : quotaScope) : string := sc_tenantID q +:+ String nul (sc_keyID q).

Definition requestScope (tenantID : string) (k : option APIKey) : quotaScope :=
  match k with
  | None => {| sc_tenantID := tenantID; sc_keyID := ""; sc_keyPrefix := "" |}
  | Some k => {| sc_tenantID := tenantID; sc_keyID := k_ID k; sc_keyPrefix := k_Prefix k |}
  end.

Record slotPosition := {
  sp_window : string;
  sp_unit : string;
  sp_state : string;
  sp_used : f64;
  sp_cap : f64;
  sp_softPct : Z;
  sp_since : Z;
  sp_resetsAt : Z;
  sp_keyLevel : bool
}.

Definition no_slot : slotPosition :=
  {| sp_window := ""; sp_unit := ""; sp_state := ""; sp_used := fzero; sp_cap := fzero;
     sp_softPct := 0; sp_since := 0; sp_resetsAt := 0; sp_keyLevel := false |}.

Record quotaEntry := { qe_state : string; qe_binding : slotPosition; qe_expires : Z }.

Record announcement := { an_since : Z; an_state : string }.

Record quotaCache := {
  qc_entries : gmap string quotaEntry;
  qc_announced : gmap string announcement;
  qc_ttl : Z
}.

Definition newQuotaCache (ttl : Z) : quotaCache :=
  {| qc_entries := ∅; qc_announced := ∅; qc_ttl := if ttl <=? 0 then quotaCacheTTL else ttl |}.

(** ** Positions *)

Definition position (used limit : f64) (softPct : Z) : string :=
  if fleb limit fzero then QuotaOK
  else if fleb limit used then QuotaHardExceeded
  else if fleb (fdiv (fmul limit (f_of_Z softPct)) (f_of_Z 100)) used then QuotaSoftExceeded
  else QuotaOK.

Definition quotaGauge (state : string) : Z :=
  if bool_decide (state = QuotaSoftExceeded) then 1
  else if bool_decide (state = QuotaHardExceeded) then 2 else 0.

Definition worse (a b : string) : string := if quotaGauge b <=? quotaGauge a then a else b.

Definition periodWindow (period : string) (now : Z) : Z * Z :=
  if bool_decide (period = windowMonth) then
    let since := Date (Year now) (Month now) 1 in (since, AddDate since 1 0)
  else
    let since := Date (Year now) (Month now) (DayOfMonth now) in (since, AddDate since 0 1).

Record windowTotals := { wt_day : UsageTotals; wt_month : UsageTotals }.

(** The closure [add] of [positions]: nothing for an unset slot. *)
Definition add_position (cfg : Config) (now : Z) (keyLevel : bool) (window unit : string)
    (limit : option QuotaLimit) (used : f64) : list slotPosition :=
  match limit with
  | None => []
  | Some limit =>
      let '(since, resets) := periodWindow window now in
      let soft := ql_SoftThresholdPct limit in
      let soft := if (soft <? 1) || (100 <? soft)
                  then qc_DefaultSoftThresholdPct (cf_Quotas cfg) else soft in
      [{| sp_window := window; sp_unit := unit; sp_state := position used (ql_Cap limit) soft;
          sp_used := used; sp_cap := ql_Cap limit; sp_softPct := soft; sp_since := since;
          sp_resetsAt := resets; sp_keyLevel := keyLevel |}]
  end.

Definition positions (cfg : Config) (q : Quota) (totals : windowTotals) (now : Z)
    (keyLevel : bool) : list slotPosition :=
  let add := add_position cfg now keyLevel in
  add windowDay unitTokens (qw_Tokens (q_Day q)) (f_of_Z (ut_TotalTokens (wt_day totals))) ++
  add windowDay unitCost (qw_Cost (q_Day q)) (ut_CostUSD (wt_day totals)) ++
  add windowDay unitRequests (qw_Requests (q_Day q)) (f_of_Z (ut_Requests (wt_day totals))) ++
  add windowMonth unitTokens (qw_Tokens (q_Month q)) (f_of_Z (ut_TotalTokens (wt_month totals))) ++
  add windowMonth unitCost (qw_Cost (q_Month q)) (ut_CostUSD (wt_month totals)) ++
  add windowMonth unitRequests (qw_Requests (q_Month q)) (f_of_Z (ut_Requests (wt_month totals))).

(** ** The store, as quotas see it *)

Class QuotaStore (S : Type) := {
  qs_GetQuota : S → string → string → res error Quota;
  qs_Usage : S → string → Z → Z → res error UsageTotals;
  qs_KeyUsage : S → string → string → Z → Z → res error UsageTotals
}.

#[export] Instance memory_quota_store : QuotaStore Memory := {|
  qs_GetQuota := GetQuota;
  qs_Usage m t since until := Ok (Usage m t since until);
  qs_KeyUsage m t p since until := Ok (KeyUsage m t p since until)
|}.

Record QuotaEvent := {
  qv_tenantID : string;
  qv_event : string;
  qv_slot : slotPosition;
  qv_scope : string;
  qv_keyPrefix : option string;
  qv_enforcement : string
}.

(** What an evaluation changes: the cache and the events emitted. [qs_events]
    is whether the server has an event sink ([s.Events != nil]). *)
Record QuotaState := {
  qs_quotas : quotaCache;
  qs_events : bool;
  qs_emitted : list QuotaEvent
}.

(** ** Evaluation *)

Section evaluate.
Context {S : Type} `{QuotaStore S} (cfg : Config) (store : S).

Definition loadQuota (tenantID keyID : string) : res error (option Quota) :=
  match qs_GetQuota store tenantID keyID with
  | Err err => if is_not_found err then Ok None else Err err
  | Ok q => if Empty q then Ok None else Ok (Some q)
  end.

Definition read_window (tenantID keyPrefix : string) (now : Z) (window : string)
  : res error UsageTotals :=
  let '(since, until) := periodWindow window now in
  if bool_decide (keyPrefix = "") then qs_Usage store tenantID since until
  else qs_KeyUsage store tenantID keyPrefix since until.

(** Whether any unit of a window is capped. *)
Definition constrained (w : QuotaWindow) : bool :=
  negb (is_None_b (qw_Tokens w)) || negb (is_None_b (qw_Cost w))
  || negb (is_None_b (qw_Requests w)).

Definition usageFor (tenantID keyPrefix : string) (now : Z) (q : Quota)
  : res error windowTotals :=
  let! day := if constrained (q_Day q)
              then read_window tenantID keyPrefix now windowDay else Ok no_usage in
  let! month := if constrained (q_Month q)
                then read_window tenantID keyPrefix now windowMonth else Ok no_usage in
  Ok {| wt_day := day; wt_month := month |}.

(** One level of [quotaSlots]: load, aggregate, position. *)
Definition level_slots (tenantID keyID keyPrefix : string) (keyLevel : bool) (now : Z)
  : res error (list slotPosition) :=
  let! q := loadQuota tenantID keyID in
  match q with
  | None => Ok []
  | Some q =>
      let! totals := usageFor tenantID keyPrefix now q in
      Ok (positions cfg q totals now keyLevel)
  end.

Definition quotaSlots (now : Z) (scope : quotaScope) : res error (list slotPosition) :=
  let! slots := level_slots (sc_tenantID scope) "" "" false now in
  if bool_decide (sc_keyID scope = "") then Ok slots
  else
    let! own := level_slots (sc_tenantID scope) (sc_keyID scope) (sc_keyPrefix scope) true now in
    Ok (slots ++ own).

(** The loop of [computeQuota] over the slots. *)
Definition bind_slot (entry : string * slotPosition) (p : slotPosition)
  : string * slotPosition :=
  if quotaGauge entry.1 <? quotaGauge (sp_state p) then (sp_state p, p)
  else if bool_decide (sp_state p = entry.1) && (0 <? quotaGauge (sp_state p))
          && After (sp_resetsAt p) (sp_resetsAt entry.2)
  then (entry.1, p) else entry.

Definition shouldAnnounce (scopeKey : string) (p : slotPosition) (q : quotaCache)
  : bool * quotaCache :=
  if quotaGauge (sp_state p) =? 0 then (false, q)
  else
    let key := scopeKey +:+ String nul (sp_window p +:+ String nul (sp_unit p)) in
    let told :=
      match qc_announced q !! key with
      | Some prev => (an_since prev =? sp_since p)
                     && (quotaGauge (sp_state p) <=? quotaGauge (an_state prev))
      | None => false
      end in
    if told then (false, q)
    else (true, {| qc_entries := qc_entries q;
                   qc_announced := <[key := {| an_since := sp_since p;
                                               an_state := sp_state p |}]> (qc_announced q);
                   qc_ttl := qc_ttl q |}).

Definition emitQuotaCrossing (scope : quotaScope) (p : slotPosition) (events : bool)
    (log : list QuotaEvent) : list QuotaEvent :=
  if negb events then log
  else
    log ++ [{| qv_tenantID := sc_tenantID scope;
               qv_event := if bool_decide (sp_state p = QuotaHardExceeded)
                           then QuotaHardCapReached else QuotaThresholdCrossed;
               qv_slot := p;
               qv_scope := if sp_keyLevel p then "key" else "tenant";
               qv_keyPrefix := if sp_keyLevel p then Some (sc_keyPrefix scope) else None;
               qv_enforcement := qc_Enforcement (cf_Quotas cfg) |}].

Definition announce_slot (scope : quotaScope) (st : QuotaState) (p : slotPosition)
  : QuotaState :=
  let '(rise, q) := shouldAnnounce (cacheKey scope) p (qs_quotas st) in
  {| qs_quotas := q;
     qs_events := qs_events st;
     qs_emitted := if rise then emitQuotaCrossing scope p (qs_events st) (qs_emitted st)
                   else qs_emitted st |}.

Definition computeQuota (now : Z) (scope : quotaScope) (st : QuotaState)
  : res error (string * slotPosition) * QuotaState :=
  match quotaSlots now scope with
  | Err err => (Err err, st)
  | Ok slots => (Ok (foldl bind_slot (QuotaOK, no_slot) slots),
                 foldl (announce_slot scope) st slots)
  end.

Definition get (now : Z) (scope : quotaScope) (st : QuotaState)
  : res error quotaEntry * QuotaState :=
  let key := cacheKey scope in
  let fill :=
    match computeQuota now scope st with
    | (Err err, st) => (Err err, st)
    | (Ok (state, binding), st) =>
        let entry := {| qe_state := state; qe_binding := binding;
                        qe_expires := Add now (qc_ttl (qs_quotas st)) |} in
        (Ok entry,
         {| qs_quotas := {| qc_entries := <[key := entry]> (qc_entries (qs_quotas st));
                            qc_announced := qc_announced (qs_quotas st);
                            qc_ttl := qc_ttl (qs_quotas st) |};
            qs_events := qs_events st;
            qs_emitted := qs_emitted st |})
    end in
  match qc_entries (qs_quotas st) !! key with
  | Some e => if Before now (qe_expires e) then (Ok e, st) else fill
  | None => fill
  end.

(** A lookup failure fails open. *)
Definition evaluateQuota (now : Z) (scope : quotaScope) (st : QuotaState)
  : quotaVerdict * QuotaState :=
  let ok := {| v_State := QuotaOK; v_Reject := None |} in
  if bool_decide (sc_tenantID scope = "") then (ok, st)
  else
    match get now scope st with
    | (Err _, st) => (ok, st)
    | (Ok entry, st) =>
        if negb (bool_decide (qe_state entry = QuotaHardExceeded))
           || negb (bool_decide (qc_Enforcement (cf_Quotas cfg) = "on"))
        then ({| v_State := qe_state entry; v_Reject := None |}, st)
        else
          let e := if bool_decide (sp_unit (qe_binding entry) = unitCost)
                   then BudgetExceeded else QuotaExceeded in
          ({| v_State := qe_state entry;
              v_Reject := Some (WithRetryAfter e (Sub (sp_resetsAt (qe_binding entry)) now)) |}, st)
    end.
End evaluate.

Definition invalidate (tenantID : string) (q : quotaCache) : quotaCache :=
  {| qc_entries := filter (λ ke, HasPrefix ke.1 (tenantID +:+ String nul "") = false) (qc_entries q);
     qc_announced := qc_announced q;
     qc_ttl := qc_ttl q |}.

(** ** Correctness *)

Module QuotaFacts.

(** *** The states *)

Lemma quotaGauge_range s : 0 ≤ quotaGauge s ≤ 2.
Proof. unfold quotaGauge. repeat case_bool_decide; lia. Qed.

Lemma quotaGauge_inj s s' : 0 < quotaGauge s → quotaGauge s = quotaGauge s' → s = s'.
Proof. unfold quotaGauge. repeat case_bool_decide; subst; try lia; done. Qed.

Lemma quotaGauge_hard s : quotaGauge s = 2 ↔ s = QuotaHardExceeded.
Proof.
  unfold quotaGauge. destruct (decide (s = QuotaSoftExceeded)) as [->|?];
    [by rewrite bool_decide_eq_true_2|]. rewrite bool_decide_eq_false_2 by done.
  case_bool_decide; naive_solver lia.
Qed.

Lemma position_hard used limit soft :
  position used limit soft = QuotaHardExceeded ↔ fleb limit fzero = false ∧ fleb limit used = true.
Proof. unfold position. split_if; naive_solver. Qed.

(** What the loop over the slots computes: the worst state, and the slot in
    that state that resets last. *)
Record bound (slots : list slotPosition) (e : string * slotPosition) : Prop := {
  bd_max p : p ∈ slots → quotaGauge (sp_state p) ≤ quotaGauge e.1;
  bd_ok : quotaGauge e.1 = 0 → e.1 = QuotaOK;
  bd_in : 0 < quotaGauge e.1 → e.2 ∈ slots ∧ sp_state e.2 = e.1;
  bd_last p : 0 < quotaGauge e.1 → p ∈ slots → sp_state p = e.1 → sp_resetsAt p ≤ sp_resetsAt e.2
}.

Lemma bind_slots_bound slots : bound slots (foldl bind_slot (QuotaOK, no_slot) slots).
Proof.
  induction slots as [|p slots IH] using rev_ind.
  { split; simpl; try done; intros ? []%not_elem_of_nil. }
  rewrite foldl_snoc. destruct IH as [M K I L].
  destruct (foldl bind_slot _ slots) as [s b]. cbn [fst snd] in *. unfold bind_slot. cbn [fst snd].
  pose proof (quotaGauge_range s). pose proof (quotaGauge_range (sp_state p)).
  destruct (Z.ltb_spec (quotaGauge s) (quotaGauge (sp_state p))) as [Hlt|Hge]; cbn [fst snd].
  - split; cbn [fst snd]; try lia.
    + intros q [Hq| ->]%elem_of_snoc; [specialize (M q Hq); lia|lia].
    + intros _. eauto with gate.
    + intros q _ [Hq| ->]%elem_of_snoc E; [|lia]. specialize (M q Hq). rewrite E in M. lia.
  - destruct (bool_decide (sp_state p = s) && (0 <? quotaGauge (sp_state p))
              && After (sp_resetsAt p) (sp_resetsAt b)) eqn:E.
    + rewrite !andb_true_iff in E. destruct E as [[E1%bool_decide_eq_true E2%Z.ltb_lt] Ha]. subst s.
      unfold After in Ha. split; cbn [fst snd].
      * intros q [Hq| ->]%elem_of_snoc; [by apply M|lia].
      * done.
      * intros _. eauto with gate.
      * intros q Hpos [Hq| ->]%elem_of_snoc Es; [|lia]. specialize (L q Hpos Hq Es). lia.
    + split; cbn [fst snd].
      * intros q [Hq| ->]%elem_of_snoc; [by apply M|lia].
      * done.
      * intros Hpos. destruct (I Hpos). eauto with gate.
      * intros q Hpos [Hq| ->]%elem_of_snoc Es; [by apply L|]. subst s.
        rewrite bool_decide_eq_true_2, (proj2 (Z.ltb_lt _ _)) in E by done. simpl in E.
        unfold After in E. lia.
Qed.

Lemma hard_iff slots :
  (foldl bind_slot (QuotaOK, no_slot) slots).1 = QuotaHardExceeded ↔
  ∃ p, p ∈ slots ∧ sp_state p = QuotaHardExceeded.
Proof.
  destruct (bind_slots_bound slots) as [M _ I _].
  set (e := foldl _ _ _) in *. split.
  - intros E. exists e.2. rewrite <-E. apply I. rewrite E. by vm_compute.
  - intros (p & Hp & Hs). specialize (M p Hp). rewrite Hs in M.
    apply quotaGauge_hard. change (quotaGauge QuotaHardExceeded) with 2 in M.
    pose proof (quotaGauge_range e.1). lia.
Qed.

(** *** The slots of a scope *)

Definition slot_limit (q : Quota) (window unit : string) : option QuotaLimit :=
  let w := if bool_decide (window = windowMonth) then q_Month q
           else if bool_decide (window = windowDay) then q_Day q else no_window in
  if bool_decide (unit = unitTokens) then qw_Tokens w
  else if bool_decide (unit = unitCost) then qw_Cost w
  else if bool_decide (unit = unitRequests) then qw_Requests w else None.

Definition amount (t : UsageTotals) (unit : string) : f64 :=
  if bool_decide (unit = unitTokens) then f_of_Z (ut_TotalTokens t)
  else if bool_decide (unit = unitCost) then ut_CostUSD t else f_of_Z (ut_Requests t).

Definition of_window (t : windowTotals) (window : string) : UsageTotals :=
  if bool_decide (window = windowMonth) then wt_month t else wt_day t.

Lemma slot_limit_cases q w u lim :
  slot_limit q w u = Some lim →
  (w = windowDay ∨ w = windowMonth) ∧ (u = unitTokens ∨ u = unitCost ∨ u = unitRequests).
Proof.
  unfold slot_limit. intros E. split.
  - destruct (decide (w = windowMonth)) as [->|Hm]; [by right|].
    rewrite (bool_decide_eq_false_2 (w = windowMonth)) in E by done.
    destruct (decide (w = windowDay)) as [->|Hd]; [by left|].
    rewrite (bool_decide_eq_false_2 (w = windowDay)) in E by done. simpl in E.
    by repeat case_bool_decide.
  - repeat (case_bool_decide; [by auto|]). done.
Qed.

Lemma elem_of_add cfg now kl w u lim used p :
  p ∈ add_position cfg now kl w u lim used ↔
  ∃ l, lim = Some l ∧ add_position cfg now kl w u (Some l) used = [p].
Proof.
  destruct lim as [l|]; simpl.
  - destruct (periodWindow w now) as [since resets]. rewrite list_elem_of_singleton.
    split; [intros ->; by exists l|]. intros (l' & [= <-] & [= E]). done.
  - split; [intros []%not_elem_of_nil|by intros (l & ? & _)].
Qed.

Lemma elem_of_positions cfg q t now kl p :
  p ∈ positions cfg q t now kl ↔
  ∃ w u lim, slot_limit q w u = Some lim ∧
    add_position cfg now kl w u (Some lim) (amount (of_window t w) u) = [p].
Proof.
  unfold positions. rewrite !elem_of_app, !elem_of_add. split.
  - intros [(l & El & Ep)|[(l & El & Ep)|[(l & El & Ep)|[(l & El & Ep)|[(l & El & Ep)|(l & El & Ep)]]]]];
      [exists windowDay, unitTokens|exists windowDay, unitCost|exists windowDay, unitRequests
      |exists windowMonth, unitTokens|exists windowMonth, unitCost|exists windowMonth, unitRequests];
      exists l; (split; [exact El|exact Ep]).
  - intros (w & u & l & El & Ep).
    destruct (slot_limit_cases _ _ _ _ El) as [[->| ->] [->|[->| ->]]];
      [left|right; left|do 2 right; left|do 3 right; left|do 4 right; left|do 5 right];
      exists l; (split; [exact El|exact Ep]).
Qed.

(** Consumption of a tenant, or of one of its keys, in the current window. *)
Definition window_usage (m : Memory) (now : Z) (tenantID prefix window : string) : UsageTotals :=
  let '(since, until) := periodWindow window now in
  if bool_decide (prefix = "") then Usage m tenantID since until
  else KeyUsage m tenantID prefix since until.

Lemma constrained_spec w :
  constrained w = false → qw_Tokens w = None ∧ qw_Cost w = None ∧ qw_Requests w = None.
Proof. unfold constrained. by destruct (qw_Tokens w), (qw_Cost w), (qw_Requests w). Qed.

Lemma slot_constrained q w u lim :
  slot_limit q w u = Some lim →
  constrained (if bool_decide (w = windowMonth) then q_Month q else q_Day q) = true.
Proof.
  intros El. destruct (slot_limit_cases _ _ _ _ El) as [Hw _].
  apply not_false_is_true. intros (T & C & R)%constrained_spec. revert El. unfold slot_limit.
  destruct Hw as [->| ->]; simpl in *; rewrite T, C, R; by repeat case_bool_decide.
Qed.

Lemma slot_not_Empty q w u lim : slot_limit q w u = Some lim → Empty q = false.
Proof.
  intros El. pose proof (slot_constrained _ _ _ _ El) as Hc. apply not_true_is_false.
  unfold Empty. rewrite !andb_true_iff. intros [[[[[? ?] ?] ?] ?] ?]. revert Hc.
  unfold constrained. case_bool_decide.
  - by destruct (qw_Tokens (q_Month q)), (qw_Cost (q_Month q)), (qw_Requests (q_Month q)).
  - by destruct (qw_Tokens (q_Day q)), (qw_Cost (q_Day q)), (qw_Requests (q_Day q)).
Qed.

Lemma usageFor_memory m t prefix now q :
  ∃ totals, usageFor m t prefix now q = Ok totals ∧
    ∀ w u lim, slot_limit q w u = Some lim → of_window totals w = window_usage m now t prefix w.
Proof.
  assert (∀ w, read_window m t prefix now w = Ok (window_usage m now t prefix w)) as Hread.
  { intros w. unfold read_window, window_usage. destruct (periodWindow w now).
    by case_bool_decide. }
  exists {| wt_day := if constrained (q_Day q) then window_usage m now t prefix windowDay
                      else no_usage;
            wt_month := if constrained (q_Month q) then window_usage m now t prefix windowMonth
                        else no_usage |}.
  split.
  - unfold usageFor. rewrite !Hread. by destruct (constrained (q_Day q)), (constrained (q_Month q)).
  - intros w u lim El. pose proof (slot_constrained _ _ _ _ El) as Hc. unfold of_window.
    destruct (slot_limit_cases _ _ _ _ El) as [[->| ->] _]; simpl in Hc |- *; by rewrite Hc.
Qed.

Lemma level_slots_memory cfg m t k prefix kl now :
  ∃ slots, level_slots cfg m t k prefix kl now = Ok slots ∧
    ∀ p, p ∈ slots ↔ ∃ q w u lim, GetQuota m t k = Ok q ∧ slot_limit q w u = Some lim ∧
      add_position cfg now kl w u (Some lim) (amount (window_usage m now t prefix w) u) = [p].
Proof.
  unfold level_slots, loadQuota. cbn [qs_GetQuota memory_quota_store].
  destruct (GetQuota m t k) as [q|err] eqn:Eq.
  - destruct (Empty q) eqn:Em; cbn [res_bind].
    + exists []. split; [done|]. intros p. split; [intros []%not_elem_of_nil|].
      intros (q' & w & u & lim & [= <-] & El & _). by rewrite (slot_not_Empty _ _ _ _ El) in Em.
    + destruct (usageFor_memory m t prefix now q) as (totals & -> & Ht). cbn [res_bind].
      eexists. split; [done|]. intros p. rewrite elem_of_positions. split.
      * intros (w & u & lim & El & Ep). exists q, w, u, lim. rewrite (Ht _ _ _ El) in Ep. done.
      * intros (q' & w & u & lim & [= <-] & El & Ep). exists w, u, lim.
        by rewrite (Ht _ _ _ El).
  - unfold GetQuota in Eq. destruct (mem_quotas m !! _); [done|]. injection Eq as <-.
    cbn [is_not_found res_bind]. exists []. split; [done|].
    intros p. split; [intros []%not_elem_of_nil|]. by intros (q' & w & u & lim & ? & _).
Qed.

(** Some configured cap of a quota, one that is not zero or less, is used up
    by what is consumed under [prefix]. *)
Definition level_reached (m : Memory) (now : Z) (t k prefix : string) : Prop :=
  ∃ q w u lim, GetQuota m t k = Ok q ∧ slot_limit q w u = Some lim ∧
    fleb (ql_Cap lim) fzero = false ∧
    fleb (ql_Cap lim) (amount (window_usage m now t prefix w) u) = true.

(** A cap of the tenant's quota, or of the key's own. *)
Definition cap_reached (m : Memory) (now : Z) (scope : quotaScope) : Prop :=
  level_reached m now (sc_tenantID scope) "" "" ∨
  (sc_keyID scope ≠ "" ∧
   level_reached m now (sc_tenantID scope) (sc_keyID scope) (sc_keyPrefix scope)).

Lemma add_position_hard cfg now kl w u lim used p :
  add_position cfg now kl w u (Some lim) used = [p] →
  sp_state p = QuotaHardExceeded ↔ fleb (ql_Cap lim) fzero = false ∧ fleb (ql_Cap lim) used = true.
Proof.
  unfold add_position. destruct (periodWindow w now). intros [= <-]. cbn [sp_state].
  apply position_hard.
Qed.

Lemma add_position_some cfg now kl w u lim used :
  ∃ p, add_position cfg now kl w u (Some lim) used = [p].
Proof. unfold add_position. destruct (periodWindow w now). by eexists. Qed.

Definition some_hard (slots : list slotPosition) : Prop :=
  ∃ p, p ∈ slots ∧ sp_state p = QuotaHardExceeded.

Lemma some_hard_app s1 s2 : some_hard (s1 ++ s2) ↔ some_hard s1 ∨ some_hard s2.
Proof. unfold some_hard. setoid_rewrite elem_of_app. naive_solver. Qed.

Lemma level_slots_hard cfg m t k prefix kl now :
  ∃ slots, level_slots cfg m t k prefix kl now = Ok slots ∧
    (some_hard slots ↔ level_reached m now t k prefix).
Proof.
  destruct (level_slots_memory cfg m t k prefix kl now) as (slots & E & Hsl).
  exists slots. split; [done|]. split.
  - intros (p & (q & w & u & lim & Hq & El & Ep)%Hsl & Hs).
    exists q, w, u, lim. by apply (add_position_hard _ _ _ _ _ _ _ _ Ep) in Hs as [? ?].
  - intros (q & w & u & lim & Hq & El & Hc).
    destruct (add_position_some cfg now kl w u lim
      (amount (window_usage m now t prefix w) u)) as [p Ep].
    exists p. rewrite Hsl, (add_position_hard _ _ _ _ _ _ _ _ Ep). split; [|done].
    by exists q, w, u, lim.
Qed.

Lemma quotaSlots_memory cfg m now scope :
  ∃ slots, quotaSlots cfg m now scope = Ok slots ∧ (some_hard slots ↔ cap_reached m now scope).
Proof.
  unfold quotaSlots, cap_reached.
  destruct (level_slots_hard cfg m (sc_tenantID scope) "" "" false now) as (s1 & -> & H1).
  destruct (level_slots_hard cfg m (sc_tenantID scope) (sc_keyID scope) (sc_keyPrefix scope)
      true now) as (s2 & -> & H2). cbn [res_bind].
  case_bool_decide as Hk; eexists; (split; [reflexivity|]); [|rewrite some_hard_app]; tauto.
Qed.

(** *** Verdicts *)

(** No position of the scope is cached that is still good. *)
Definition not_cached (now : Z) (scope : quotaScope) (st : QuotaState) : Prop :=
  match qc_entries (qs_quotas st) !! cacheKey scope with
  | Some e => Before now (qe_expires e) = false
  | None => True
  end.

(** The position an evaluation takes that is not cached, and the verdict it leads
    to. *)
Lemma evaluate_uncached {S} `{QuotaStore S} cfg (store : S) now scope st slots :
  sc_tenantID scope ≠ "" → not_cached now scope st →
  quotaSlots cfg store now scope = Ok slots →
  let e := foldl bind_slot (QuotaOK, no_slot) slots in
  (evaluateQuota cfg store now scope st).1 =
    {| v_State := e.1;
       v_Reject :=
         if bool_decide (e.1 = QuotaHardExceeded)
            && bool_decide (qc_Enforcement (cf_Quotas cfg) = "on")
         then Some (WithRetryAfter (if bool_decide (sp_unit e.2 = unitCost) then BudgetExceeded
                                    else QuotaExceeded) (Sub (sp_resetsAt e.2) now))
         else None |}.
Proof.
  intros Ht Hcold Hs. cbv zeta. unfold not_cached in Hcold. unfold evaluateQuota, get, computeQuota.
  rewrite (bool_decide_eq_false_2 _ Ht), Hs.
  destruct (qc_entries _ !! cacheKey scope) as [old|]; [rewrite Hcold|];
    destruct (foldl bind_slot _ slots) as [state b]; cbn [fst snd qe_state qe_binding];
    by destruct (bool_decide (state = _)), (bool_decide (qc_Enforcement _ = "on")).
Qed.

Lemma cold_not_cached now scope st : qc_entries (qs_quotas st) !! cacheKey scope = None → not_cached now scope st.
Proof. unfold not_cached. by intros ->. Qed.

Lemma evaluate_cold {S} `{QuotaStore S} cfg (store : S) now scope st slots :
  sc_tenantID scope ≠ "" → qc_entries (qs_quotas st) !! cacheKey scope = None →
  quotaSlots cfg store now scope = Ok slots →
  let e := foldl bind_slot (QuotaOK, no_slot) slots in
  (evaluateQuota cfg store now scope st).1 =
    {| v_State := e.1;
       v_Reject :=
         if bool_decide (e.1 = QuotaHardExceeded)
            && bool_decide (qc_Enforcement (cf_Quotas cfg) = "on")
         then Some (WithRetryAfter (if bool_decide (sp_unit e.2 = unitCost) then BudgetExceeded
                                    else QuotaExceeded) (Sub (sp_resetsAt e.2) now))
         else None |}.
Proof. intros Ht Hcold. by apply evaluate_uncached, cold_not_cached. Qed.

(** C27: With the in-memory store, an evaluation that is not answered from the
    cache refuses the caller exactly when enforcement is on and a cap of its
    tenant, or of the key itself, is used up in the current window. *)
Theorem refused_iff_cap_reached cfg (m : Memory) now scope st :
  sc_tenantID scope ≠ "" → qc_entries (qs_quotas st) !! cacheKey scope = None →
  is_Some (v_Reject (evaluateQuota cfg m now scope st).1) ↔
  qc_Enforcement (cf_Quotas cfg) = "on" ∧ cap_reached m now scope.
Proof.
  intros Ht Hcold. destruct (quotaSlots_memory cfg m now scope) as (slots & Hs & Hc).
  rewrite (evaluate_cold _ _ _ _ _ _ Ht Hcold Hs). cbn [v_Reject]. rewrite <-Hc.
  pose proof (hard_iff slots) as Hh. fold (some_hard slots) in Hh. rewrite <-Hh.
  repeat case_bool_decide; simpl; split; try naive_solver; intros []%is_Some_None.
Qed.

(** Whatever the store: the state reported is the worst of the slots', and a
    refusal names the binding slot. Its code is the slot's unit's, and its
    Retry-After lasts until that slot resets, which is the last reset among
    the slots that refuse. *)
Theorem verdict_names_binding_slot {S} `{QuotaStore S} cfg (store : S) now scope st slots :
  sc_tenantID scope ≠ "" → qc_entries (qs_quotas st) !! cacheKey scope = None →
  quotaSlots cfg store now scope = Ok slots →
  let v := (evaluateQuota cfg store now scope st).1 in
  (∀ p, p ∈ slots → quotaGauge (sp_state p) ≤ quotaGauge (v_State v)) ∧
  (v_State v = QuotaOK ∨ ∃ p, p ∈ slots ∧ sp_state p = v_State v) ∧
  (∀ e, v_Reject v = Some e →
     ∃ p, p ∈ slots ∧ sp_state p = QuotaHardExceeded ∧
       (∀ p', p' ∈ slots → sp_state p' = QuotaHardExceeded → sp_resetsAt p' ≤ sp_resetsAt p) ∧
       err_Code e = (if bool_decide (sp_unit p = unitCost) then CodeBudgetExceeded
                     else CodeQuotaExceeded) ∧
       err_RetryAfterSeconds e = Z.max 1 (f_ceil (Seconds (Sub (sp_resetsAt p) now)))).
Proof.
  intros Ht Hcold Hs. cbv zeta. rewrite (evaluate_cold _ _ _ _ _ _ Ht Hcold Hs).
  destruct (bind_slots_bound slots) as [M K I L]. set (e := foldl _ _ _) in *. clearbody e.
  cbn [v_State v_Reject]. pose proof (quotaGauge_range e.1). split_and!.
  - done.
  - destruct (decide (quotaGauge e.1 = 0)); [left; auto|right]. exists e.2. apply I. lia.
  - intros err. destruct (bool_decide (e.1 = QuotaHardExceeded)) eqn:Eh; [|done].
    destruct (bool_decide (qc_Enforcement _ = "on")); [|done]. intros [= <-].
    apply bool_decide_eq_true in Eh.
    assert (0 < quotaGauge e.1) as Hpos by (rewrite Eh; by vm_compute).
    destruct (I Hpos) as [Hin Hst]. exists e.2. split_and!; [done|congruence| | |].
    + intros p' Hp' Hh. apply L; congruence.
    + by case_bool_decide.
    + unfold WithRetryAfter. cbn [err_RetryAfterSeconds].
      destruct (Z.ltb_spec (f_ceil (Seconds (Sub (sp_resetsAt e.2) now))) 1); lia.
Qed.

(** *** Announcements *)

(** One consultation of the announcement memory: a scope key and a slot. *)
Abbreviation call := (string * slotPosition)%type.

Definition slot_key (c : call) : string :=
  c.1 +:+ String nul (sp_window c.2 +:+ String nul (sp_unit c.2)).

(** The calls that are answered with an announcement. *)
Fixpoint announcements (q : quotaCache) (calls : list call) : list call :=
  match calls with
  | [] => []
  | c :: calls' =>
      let '(rise, q') := shouldAnnounce c.1 c.2 q in
      (if rise then [c] else []) ++ announcements q' calls'
  end.

Definition gauge (c : call) : Z := quotaGauge (sp_state c.2).
Definition since (c : call) : Z := sp_since c.2.

(** A later window, or a worse state of the same one. *)
Definition rises (c d : call) : Prop := since c < since d ∨ (since c = since d ∧ gauge c < gauge d).

Definition about (K : string) (c : call) : bool := bool_decide (slot_key c = K).

(** What the memory holds of [K] covers the call. *)
Definition covered (q : quotaCache) (K : string) (c : call) : Prop :=
  ∃ a, qc_announced q !! K = Some a ∧ an_since a = since c ∧ gauge c ≤ quotaGauge (an_state a).

Lemma shouldAnnounce_false c q q' :
  shouldAnnounce c.1 c.2 q = (false, q') → q' = q ∧ (gauge c = 0 ∨ covered q (slot_key c) c).
Proof.
  unfold shouldAnnounce. fold (slot_key c) (gauge c) (since c).
  destruct (Z.eqb_spec (gauge c) 0); [intros [= <-]; auto|].
  destruct (qc_announced q !! slot_key c) as [a|] eqn:Ea; [|done].
  destruct (Z.eqb_spec (an_since a) (since c)), (Z.leb_spec (gauge c) (quotaGauge (an_state a)));
    simpl; try done. intros [= <-]. split; [done|]. right. by exists a.
Qed.

Lemma shouldAnnounce_true c q q' :
  shouldAnnounce c.1 c.2 q = (true, q') →
  ¬ covered q (slot_key c) c ∧
  qc_announced q' = <[slot_key c := {| an_since := since c; an_state := sp_state c.2 |}]> (qc_announced q).
Proof.
  unfold shouldAnnounce. fold (slot_key c) (gauge c) (since c).
  destruct (Z.eqb_spec (gauge c) 0); [done|]. unfold covered.
  destruct (qc_announced q !! slot_key c) as [a|] eqn:Ea;
    [|intros [= <-]; split; [by intros (? & ? & _)|done]].
  destruct (Z.eqb_spec (an_since a) (since c)), (Z.leb_spec (gauge c) (quotaGauge (an_state a)));
    simpl; try done; intros [= <-]; (split; [|done]); intros (? & [= <-] & ? & ?); lia.
Qed.

Lemma announcements_covered q K calls c :
  c ∈ calls → slot_key c = K → gauge c ≠ 0 →
  covered q K c ∨
  ∃ d, d ∈ announcements q calls ∧ slot_key d = K ∧ since d = since c ∧ gauge c ≤ gauge d.
Proof.
  intros Hc HK Hg. revert q. induction calls as [|d calls IH]; intros q; [by apply not_elem_of_nil in Hc|].
  cbn [announcements]. destruct (shouldAnnounce d.1 d.2 q) as [[] q'] eqn:E.
  - apply shouldAnnounce_true in E as [_ Eq].
    apply elem_of_cons in Hc as [->|Hc]; [right; exists d; split_and!; [by left|done..|lia]|].
    destruct (IH Hc q') as [(a & Ha & Hs & Hle)|(x & Hx & Hr)]; [|right; exists x; split; [by right|done]].
    rewrite Eq in Ha. destruct (decide (slot_key d = K)) as [Hd|Hd].
    + rewrite Hd, lookup_insert_eq in Ha. injection Ha as <-. right. exists d.
      split_and!; [by left|done..].
    + rewrite lookup_insert_ne in Ha by done. left. by exists a.
  - apply shouldAnnounce_false in E as [-> [Hz|Hcov]].
    + apply elem_of_cons in Hc as [->|Hc]; [lia|]. apply IH; done.
    + apply elem_of_cons in Hc as [->|Hc]; [left; by subst K|]. apply IH; done.
Qed.

(** Everything announced about [K] is newer than what the memory holds. *)
Lemma announcements_newer K calls q a :
  qc_announced q !! K = Some a →
  StronglySorted (λ c d, since c ≤ since d) (List.filter (about K) calls) →
  Forall (λ c, an_since a ≤ since c) (List.filter (about K) calls) →
  Forall (λ c, an_since a < since c ∨ (an_since a = since c ∧ quotaGauge (an_state a) < gauge c))
    (List.filter (about K) (announcements q calls)).
Proof.
  revert q a. induction calls as [|c calls IH]; intros q a Ha HS HF; [constructor|].
  cbn [announcements]. destruct (shouldAnnounce c.1 c.2 q) as [rise q'] eqn:E.
  cbn [List.filter] in HS, HF. unfold about at 1 in HS. unfold about at 1 in HF.
  destruct rise.
  - apply shouldAnnounce_true in E as [Hn Eq]. cbn [app List.filter]. unfold about at 1.
    destruct (decide (slot_key c = K)) as [HK|HK].
    + rewrite bool_decide_eq_true_2 in HS, HF |- * by done.
      apply StronglySorted_inv in HS as [HS Hle]. apply Forall_cons in HF as [Hac HF].
      assert (an_since a < since c ∨ (an_since a = since c ∧ quotaGauge (an_state a) < gauge c)) as Hnew.
      { destruct (Z.le_gt_cases (gauge c) (quotaGauge (an_state a))); [|lia].
        left. assert (an_since a ≠ since c); [|lia]. intros Es. apply Hn. exists a. by rewrite HK. }
      constructor; [done|].
      assert (qc_announced q' !! K = Some {| an_since := since c; an_state := sp_state c.2 |}) as Ha'
        by (by rewrite Eq, HK, lookup_insert_eq).
      eapply Forall_impl; [apply (IH q' _ Ha' HS Hle)|]. cbn [an_since an_state].
      fold (gauge c). intros d Hd. lia.
    + rewrite bool_decide_eq_false_2 in HS, HF |- * by done. apply IH; [|done..].
      by rewrite Eq, lookup_insert_ne.
  - apply shouldAnnounce_false in E as [-> _]. cbn [app]. apply IH; [done|..];
      destruct (bool_decide (slot_key c = K)); try done;
      [by apply StronglySorted_inv in HS as [? _]|by apply Forall_cons in HF as [_ ?]].
Qed.

Lemma announcements_sorted K calls q :
  StronglySorted (λ c d, since c ≤ since d) (List.filter (about K) calls) →
  StronglySorted rises (List.filter (about K) (announcements q calls)).
Proof.
  revert q. induction calls as [|c calls IH]; intros q HS; [constructor|].
  cbn [announcements]. destruct (shouldAnnounce c.1 c.2 q) as [rise q'] eqn:E.
  cbn [List.filter] in HS. unfold about at 1 in HS. destruct rise.
  - apply shouldAnnounce_true in E as [_ Eq]. cbn [app List.filter]. unfold about at 1.
    destruct (decide (slot_key c = K)) as [HK|HK].
    + rewrite bool_decide_eq_true_2 in HS |- * by done.
      apply StronglySorted_inv in HS as [HS Hle]. constructor; [by apply IH|].
      assert (qc_announced q' !! K = Some {| an_since := since c; an_state := sp_state c.2 |}) as Ha'
        by (by rewrite Eq, HK, lookup_insert_eq).
      apply (announcements_newer K calls q' _ Ha' HS Hle).
    + rewrite bool_decide_eq_false_2 in HS |- * by done. by apply IH.
  - apply shouldAnnounce_false in E as [-> _]. cbn [app]. apply IH.
    destruct (bool_decide (slot_key c = K)); [by apply StronglySorted_inv in HS as [? _]|done].
Qed.

(** GW-4: as long as windows do not go backwards, a slot's announcements
    strictly rise (a later window, or a worse state of the same window, so at
    most two per window), and every soft or hard position has been announced,
    at that state or a worse one, for its own window. *)
Theorem crossings_announced_once ttl K calls :
  StronglySorted (λ c d, since c ≤ since d) (List.filter (about K) calls) →
  let told := announcements (newQuotaCache ttl) calls in
  StronglySorted rises (List.filter (about K) told) ∧
  ∀ c, c ∈ calls → slot_key c = K → gauge c ≠ 0 →
    ∃ d, d ∈ told ∧ slot_key d = K ∧ since d = since c ∧ gauge c ≤ gauge d.
Proof.
  intros HS. cbv zeta. split; [by apply announcements_sorted|]. intros c Hc HK Hg.
  destruct (announcements_covered (newQuotaCache ttl) K calls c Hc HK Hg) as [(a & Ha & _)|]; [|done].
  unfold newQuotaCache in Ha. cbn [qc_announced] in Ha. by rewrite lookup_empty in Ha.
Qed.

(** *** Scopes, the cache and the calendar *)

(** A key's own quota narrows its tenant's and never widens it: the key is
    in at least as bad a state as the tenant, and refused whenever the tenant
    is. *)
Theorem key_quota_only_narrows {S} `{QuotaStore S} cfg (store : S) now t k prefix st slots :
  let tenant := {| sc_tenantID := t; sc_keyID := ""; sc_keyPrefix := "" |} in
  let key := {| sc_tenantID := t; sc_keyID := k; sc_keyPrefix := prefix |} in
  t ≠ "" →
  qc_entries (qs_quotas st) !! cacheKey tenant = None →
  qc_entries (qs_quotas st) !! cacheKey key = None →
  quotaSlots cfg store now key = Ok slots →
  let vt := (evaluateQuota cfg store now tenant st).1 in
  let vk := (evaluateQuota cfg store now key st).1 in
  quotaGauge (v_State vt) ≤ quotaGauge (v_State vk) ∧
  (is_Some (v_Reject vt) → is_Some (v_Reject vk)).
Proof.
  intros tenant key Ht Hct Hck Hs. cbv zeta.
  assert (∃ sl own, quotaSlots cfg store now tenant = Ok sl ∧ slots = sl ++ own) as (sl & own & Hsl & ->).
  { revert Hs. unfold quotaSlots. cbn [sc_tenantID sc_keyID sc_keyPrefix tenant key].
    destruct (level_slots cfg store t "" "" false now) as [sl|err]; [|done]. cbn [res_bind].
    rewrite (bool_decide_eq_true_2 ("" = "")) by done.
    case_bool_decide; [intros [= <-]; exists sl, []; by rewrite app_nil_r|].
    destruct (level_slots cfg store t k prefix true now) as [own|err]; [|done]. cbn [res_bind].
    intros [= <-]. by exists sl, own. }
  rewrite (evaluate_cold _ _ _ tenant _ _ Ht Hct Hsl), (evaluate_cold _ _ _ key _ _ Ht Hck Hs).
  cbn [v_State v_Reject].
  destruct (bind_slots_bound sl) as [_ _ I _], (bind_slots_bound (sl ++ own)) as [M _ _ _].
  set (e := foldl _ _ sl) in *. set (e' := foldl _ _ (sl ++ own)) in *. clearbody e e'.
  assert (quotaGauge e.1 ≤ quotaGauge e'.1) as Hle.
  { pose proof (quotaGauge_range e.1). pose proof (quotaGauge_range e'.1).
    destruct (decide (quotaGauge e.1 = 0)); [lia|]. destruct (I ltac:(lia)) as [Hin Hst].
    rewrite <-Hst. apply M. apply elem_of_app. by left. }
  split; [done|]. case_bool_decide as He; [|intros []%is_Some_None].
  rewrite He in Hle. change (quotaGauge QuotaHardExceeded) with 2 in Hle.
  rewrite (bool_decide_eq_true_2 (e'.1 = _)); [by case_bool_decide|].
  apply quotaGauge_hard. pose proof (quotaGauge_range e'.1). lia.
Qed.

Lemma joined a b : a +:+ String nul b = (a +:+ String nul "") +:+ b.
Proof. by rewrite str_app_assoc. Qed.

(** An invalidation drops every cached position of the tenant, whatever the
    key, so its next evaluations are computed; it keeps the positions of
    other tenants and the announcement memory. *)
Theorem invalidate_drops_the_tenant t q :
  str_has nul t = false →
  (∀ scope, sc_tenantID scope = t → qc_entries (invalidate t q) !! cacheKey scope = None) ∧
  (∀ scope, str_has nul (sc_tenantID scope) = false → sc_tenantID scope ≠ t →
     qc_entries (invalidate t q) !! cacheKey scope = qc_entries q !! cacheKey scope) ∧
  qc_announced (invalidate t q) = qc_announced q.
Proof.
  intros Ht. unfold invalidate, cacheKey. cbn [qc_entries qc_announced]. split_and!; [| |done].
  - intros scope ->. apply map_lookup_filter_None. right. intros e _. cbn [fst].
    rewrite (joined t), HasPrefix_app. done.
  - intros scope Hn Hne. rewrite map_lookup_filter. destruct (qc_entries q !! _) as [e|]; [|done].
    cbn [mbind option_bind]. destruct (HasPrefix _ _) eqn:E.
    + apply HasPrefix_spec in E as [u E]. exfalso. apply Hne.
      rewrite <-joined in E. by apply cut_inj in E as [? _].
    + done.
Qed.

Lemma day_lt a b : a < b ↔ a * Day < b * Day.
Proof. pose proof Day_pos. nia. Qed.

Lemma month_window now :
  periodWindow windowMonth now = (Date (Year now) (Month now) 1, Date (Year now) (Month now + 1) 1).
Proof.
  unfold periodWindow. rewrite bool_decide_eq_true_2 by done.
  destruct (month_bounds now) as [Hm _]. by destruct (month_start (Year now) _ Hm) as (_ & _ & _ & ->).
Qed.

Lemma month_window_days now t :
  Date (Year now) (Month now) 1 ≤ t < Date (Year now) (Month now + 1) 1 ↔
  days_before_year (Year now) + days_before_month (leap (Year now)) (Month now) ≤ day_of t
    < days_before_year (Year now) + days_before_month (leap (Year now)) (Month now + 1).
Proof.
  destruct (month_bounds now) as [Hm _]. rewrite !Date_eq by lia. pose proof Day_pos.
  pose proof (proj1 (day_of_spec t _) eq_refl). nia.
Qed.

(** The windows of a period tile time: every instant lies in its own window,
    and every instant of that window has the same one. A day is a UTC day, a
    month a calendar month, leap years included. *)
Theorem period_windows_tile period now since until :
  periodWindow period now = (since, until) →
  since ≤ now < until ∧
  ∀ t, since ≤ t < until → periodWindow period t = (since, until).
Proof.
  destruct (decide (period = windowMonth)) as [->|Hd].
  - rewrite month_window. intros [= <- <-]. destruct (month_bounds now) as [Hm Hb].
    split; [by apply month_window_days|]. intros t Ht. apply month_window_days in Ht.
    rewrite month_window. by destruct (date_fields t _ _ Hm Ht) as [-> ->].
  - assert (∀ t, periodWindow period t = (day_of t * Day, (day_of t + 1) * Day)) as Hw.
    { intros t. unfold periodWindow. rewrite bool_decide_eq_false_2 by done.
      by destruct (day_start t) as [-> ->]. }
    rewrite Hw. intros [= <- <-]. split; [by apply day_of_spec|].
    intros t Ht%day_of_spec. by rewrite Hw, Ht.
Qed.

(** *** Witnesses *)

Lemma period_windows_tile_witness :
  periodWindow windowMonth (Date 2024 2 29 + 5) = (Date 2024 2 1, Date 2024 3 1) ∧
  periodWindow windowMonth (Date 2024 2 15) = (Date 2024 2 1, Date 2024 3 1).
Proof.
  split; [by vm_compute|].
  refine (proj2 (period_windows_tile windowMonth (Date 2024 2 29 + 5) (Date 2024 2 1)
    (Date 2024 3 1) _) _ _); by vm_compute.
Defined.

Definition cap (n : Z) : option QuotaLimit :=
  Some {| ql_Cap := f_of_Z n; ql_SoftThresholdPct := 50 |}.
Definition used_tokens (n : Z) : UsageRecord :=
  {| u_RequestID := ""; u_ClientRequestID := ""; u_TenantID := "t"; u_KeyPrefix := "p";
     u_Provider := ""; u_Model := ""; u_RequestedModel := ""; u_FallbackDepth := 0;
     u_PromptTokens := 0; u_CompletionToken := 0; u_TotalTokens := n; u_CostUSD := fzero;
     u_ChargeUSD := fzero; u_BillingMode := ""; u_Cached := false; u_Streamed := false;
     u_StatusCode := 200; u_DurationMS := 0; u_RecordedAt := Date 2024 2 3 |}.
Definition caps (k : string) (n : Z) : Quota :=
  {| q_TenantID := "t"; q_KeyID := k; q_Day := no_window;
     q_Month := {| qw_Tokens := cap n; qw_Cost := None; qw_Requests := cap 100 |};
     q_UpdatedAt := 0 |}.
(** Tenant "t" has spent 60 tokens of [n], all through key "k", which has a
    cap of 40 of its own. *)
Definition spent (n : Z) : Memory :=
  RecordUsage (set_quotas (NewMemory false)
    (<[quotaKey "t" "" := caps "" n]> (<[quotaKey "t" "k" := caps "k" 40]> ∅))) (used_tokens 60).
Definition whole_tenant : quotaScope :=
  {| sc_tenantID := "t"; sc_keyID := ""; sc_keyPrefix := "" |}.
Definition one_key : quotaScope :=
  {| sc_tenantID := "t"; sc_keyID := "k"; sc_keyPrefix := "p" |}.
Definition cold : QuotaState :=
  {| qs_quotas := newQuotaCache 0; qs_events := true; qs_emitted := [] |}.
Definition today : Z := Date 2024 2 5.

Lemma refused_iff_cap_reached_witness :
  v_State (evaluateQuota Default (spent 100) today whole_tenant cold).1 = QuotaSoftExceeded ∧
  cap_reached (spent 100) today one_key ∧
  is_Some (v_Reject (evaluateQuota Default (spent 100) today one_key cold).1).
Proof.
  assert (cap_reached (spent 100) today one_key) as Hc.
  { right. split; [done|].
    exists (caps "k" 40), windowMonth, unitTokens, {| ql_Cap := f_of_Z 40; ql_SoftThresholdPct := 50 |}.
    by vm_compute. }
  split; [by vm_compute|]. split; [exact Hc|].
  apply (refused_iff_cap_reached Default (spent 100) today one_key cold); [done|done|].
  split; [done|exact Hc].
Defined.

Definition month_slot (unit : string) (used limit : Z) (kl : bool) : list slotPosition :=
  add_position Default today kl windowMonth unit (cap limit) (f_of_Z used).

Definition all_slots : list slotPosition :=
  month_slot unitTokens 60 100 false ++ month_slot unitRequests 1 100 false ++
  month_slot unitTokens 60 40 true ++ month_slot unitRequests 1 100 true.

Lemma all_slots_eq : quotaSlots Default (spent 100) today one_key = Ok all_slots.
Proof. by vm_compute. Qed.

Lemma verdict_names_binding_slot_witness :
  quotaGauge QuotaSoftExceeded
  ≤ quotaGauge (v_State (evaluateQuota Default (spent 100) today one_key cold).1).
Proof.
  refine (proj1 (verdict_names_binding_slot Default (spent 100) today one_key cold all_slots
    _ _ all_slots_eq) (List.hd no_slot all_slots) _).
  - done.
  - done.
  - left.
Defined.

Lemma key_quota_only_narrows_witness :
  quotaGauge (v_State (evaluateQuota Default (spent 100) today whole_tenant cold).1)
  ≤ quotaGauge (v_State (evaluateQuota Default (spent 100) today one_key cold).1).
Proof.
  refine (proj1 (key_quota_only_narrows Default (spent 100) today "t" "k" "p" cold all_slots
    _ _ _ all_slots_eq)); done.
Defined.

Lemma invalidate_drops_the_tenant_witness :
  qc_entries (invalidate "t" (qs_quotas (get Default (spent 100) today one_key cold).2))
    !! cacheKey one_key = None.
Proof.
  refine (proj1 (invalidate_drops_the_tenant "t" _ _) one_key _); done.
Defined.

Definition tick (state : string) : call :=
  ("s", {| sp_window := windowDay; sp_unit := unitTokens; sp_state := state; sp_used := fzero;
           sp_cap := fzero; sp_softPct := 0; sp_since := 0; sp_resetsAt := 0; sp_keyLevel := false |}).

Lemma crossings_announced_once_witness :
  let calls := map tick [QuotaSoftExceeded; QuotaSoftExceeded; QuotaHardExceeded; QuotaSoftExceeded] in
  announcements (newQuotaCache 0) calls = map tick [QuotaSoftExceeded; QuotaHardExceeded] ∧
  StronglySorted rises (List.filter (about (slot_key (tick "")))
    (announcements (newQuotaCache 0) calls)).
Proof.
  split; [by vm_compute|].
  refine (proj1 (crossings_announced_once 0 (slot_key (tick "")) _ _)).
  simpl. repeat constructor; vm_compute; discriminate.
Defined.

(** The announcement memory is shared by the tenant's slot and the key's own
    slot of the same window and unit: when both cross into the same state,
    only the tenant's crossing is announced. *)
Theorem key_crossing_is_swallowed :
  let slots := month_slot unitTokens 60 100 false ++ month_slot unitTokens 30 50 true in
  map sp_state slots = [QuotaSoftExceeded; QuotaSoftExceeded] ∧
  map qv_scope (qs_emitted (foldl (announce_slot Default one_key) cold slots)) = ["tenant"].
Proof. by vm_compute. Qed.
End QuotaFacts.
