(* ===== verification/Middleware.v ===== *)
(** * Request middleware (internal/server/middleware.go, internal/httpx/httpx.go)

    Authentication on the two planes, the deployment body ceiling, the drain
    gate and the one place that renders an error. A handler that answers the
    request itself is [Err]; [c.Next()] is [Ok] with what the handler attached
    to the request. The store is reached through the class [KeyStore]. *)

From S2P Require Import Prelude GoStrings GoTime GoFloat ApiErr StoreTypes Keys Memory Config.
From Stdlib Require Import Ascii.

#[local] Open Scope Z_scope.
#[local] Open Scope stdpp_scope.

(** ** Authentication *)

Class KeyStore (S : Type) := {
  ks_ResolveKey : S → Z → string → res error (APIKey * option Tenant)
}.

#[export] Instance memory_key_store `{Crypto} : KeyStore Memory := {| ks_ResolveKey := ResolveKey |}.

Definition bearer_scheme : string := "bearer ".

(** [bearer], given the Authorization header *)
Definition bearer `{Unicode} (h : string) : string :=
  if bool_decide (h = "") then ""
  else
    let n := String.length bearer_scheme in
    if (n <? String.length h)%nat && EqualFold (str_take n h) bearer_scheme
    then TrimSpace (str_drop n h) else TrimSpace h.

Definition bootstrapMatches (cfg : Config) (raw : string) : bool :=
  let want := cf_BootstrapKey cfg in
  if Z.of_nat (String.length want) <? MinBootstrapKeyLen then false else ConstantTimeEqual raw want.

Definition plane_name (p : Plane) : string :=
  match p with PlaneAdmin => "admin" | PlaneData => "data" end.

(** The principal the bootstrap key stands for. *)
Definition bootstrap_principal : APIKey :=
  {| k_ID := "bootstrap"; k_TenantID := ""; k_Plane := PlaneAdmin; k_Name := "bootstrap";
     k_Prefix := "bootstrap"; k_Hash := ""; k_Scope := ScopeRoot; k_CreatedAt := 0;
     k_ExpiresAt := None; k_RevokedAt := None |}.

Definition suspended (t : option Tenant) : bool :=
  match t with Some t => bool_decide (t_Status t = "suspended") | None => false end.

(** [auth(want)]: what [SetAuth] records, or the refusal. *)
Definition auth `{Unicode} {S} `{KeyStore S} (cfg : Config) (store : S) (now : Z) (want : Plane)
    (header : string) : res Error (APIKey * option Tenant) :=
  let raw := bearer header in
  if bool_decide (raw = "") then Err InvalidAPIKey
  else if bootstrapMatches cfg raw then
    if negb (bool_decide (want = PlaneAdmin)) then Err (WrongPlane (plane_name want))
    else Ok (bootstrap_principal, None)
  else
    match PlaneOf raw with
    | None => Err InvalidAPIKey
    | Some plane =>
        if negb (bool_decide (plane = want)) then Err (WrongPlane (plane_name want))
        else
          match ks_ResolveKey store now raw with
          | Err err => Err (WithCause InvalidAPIKey err)
          | Ok (key, tenant) =>
              if negb (bool_decide (k_Plane key = want)) then Err (WrongPlane (plane_name want))
              else if suspended tenant then Err InvalidAPIKey
              else Ok (key, tenant)
          end
    end.

(** ** Body ceiling and drain *)

Definition limitBody (cfg : Config) (declared bodyLen : Z) : res Error () :=
  let limit := li_MaxRequestBytes (cf_Limits cfg) in
  if limit <? declared then Err (RequestTooLarge limit)
  else if limit <? bodyLen then Err (RequestTooLarge limit)
  else Ok ().

Definition metricsPath (p : string) : string :=
  let p := TrimSpace p in
  if bool_decide (p = "") then "/metrics"
  else if negb (HasPrefix p "/") then "/" +:+ p else p.

Definition refuseWhenDraining (cfg : Config) (draining : bool) (path : string) : res Error () :=
  if negb draining then Ok ()
  else if bool_decide (path = "/healthz") || bool_decide (path = metricsPath (me_Path (cf_Metrics cfg)))
  then Ok ()
  else Err (Unavailable (text "The gateway is shutting down and is not accepting new requests.")).

(** ** Errors on the wire *)

Record Response := {
  rs_Status : Z;
  rs_RetryAfter : option Z;
  rs_RequestID : option string;
  rs_Body : Body
}.

(** [Fail]. [askedRetryAfter] is what [c.Get] returns for Retry-After, which is
    the request's header of that name. The error code it leaves for the access
    log is not modelled. *)
Definition Fail (requestID askedRetryAfter : string) (err : error) : Response :=
  let e := From err in
  {| rs_Status := err_Status e;
     rs_RetryAfter :=
       if (err_Status e =? 429) && bool_decide (askedRetryAfter = "")
       then Some (if err_RetryAfterSeconds e <? 1 then 1 else err_RetryAfterSeconds e)
       else None;
     rs_RequestID := if bool_decide (requestID = "") then None else Some requestID;
     rs_Body := Envelope e requestID |}.

(** ** Query parameters *)

Definition queryInt (raw : string) (def min max : Z) : Z :=
  let raw := TrimSpace raw in
  if bool_decide (raw = "") then def
  else match Atoi raw with
       | None => def
       | Some n => if (n <? min) || (max <? n) then def else n
       end.

(** ** Correctness *)

Module MiddlewareFacts.
Section auth.
Context `{Unicode} {S : Type} `{KeyStore S} (cfg : Config) (store : S) (now : Z).

Lemma bootstrap_spec raw :
  bootstrapMatches cfg raw = true ↔
  MinBootstrapKeyLen ≤ Z.of_nat (String.length (cf_BootstrapKey cfg)) ∧ raw = cf_BootstrapKey cfg.
Proof.
  unfold bootstrapMatches.
  destruct (Z.ltb_spec (Z.of_nat (String.length (cf_BootstrapKey cfg))) MinBootstrapKeyLen).
  - split; [done|lia].
  - rewrite ConstantTimeEqual_eq. tauto.
Qed.

(** C26: Who gets through, on either plane: the holder of the bootstrap key, on
    the admin plane only and as root, when that key is long enough; otherwise
    the holder of a credential whose prefix and whose stored record both name
    the plane asked for, which the store resolves, and whose tenant is not
    suspended. Nobody else. *)
Theorem auth_exact want header key tenant :
  let raw := bearer header in
  let bootstrap := MinBootstrapKeyLen ≤ Z.of_nat (String.length (cf_BootstrapKey cfg)) ∧
                   raw = cf_BootstrapKey cfg in
  auth cfg store now want header = Ok (key, tenant) ↔
  (bootstrap ∧ want = PlaneAdmin ∧ key = bootstrap_principal ∧ tenant = None) ∨
  (¬ bootstrap ∧ PlaneOf raw = Some want ∧ ks_ResolveKey store now raw = Ok (key, tenant) ∧
   k_Plane key = want ∧ suspended tenant = false).
Proof.
  cbv zeta. unfold auth. set (raw := bearer header). rewrite <-bootstrap_spec.
  destruct (decide (raw = "")) as [E|Hne].
  { rewrite (bool_decide_eq_true_2 _ E). split; [done|]. rewrite bootstrap_spec, E.
    intros [[[Hl E2] _]|(_ & Hp & _)]; [|done]. rewrite <-E2 in Hl. by vm_compute in Hl. }
  rewrite (bool_decide_eq_false_2 _ Hne). destruct (bootstrapMatches cfg raw).
  - case_bool_decide as Hw; simpl; [|naive_solver]. split; [intros [= <- <-]; by left|].
    intros [(_ & _ & -> & ->)|[[] _]]; done.
  - destruct (PlaneOf raw) as [plane|]; [|naive_solver].
    destruct (decide (plane = want)) as [->|Hpl]; [|rewrite bool_decide_eq_false_2 by done; naive_solver].
    rewrite bool_decide_eq_true_2 by done. cbn [negb].
    destruct (ks_ResolveKey store now raw) as [[k t]|err]; [|naive_solver].
    destruct (decide (k_Plane k = want)) as [Hk|Hk].
    + rewrite (bool_decide_eq_true_2 _ Hk). cbn [negb].
      destruct (suspended t) eqn:Es; naive_solver.
    + rewrite (bool_decide_eq_false_2 _ Hk). cbn [negb]. naive_solver.
Qed.

(** A refusal is a 401 whose body depends on nothing but the plane asked for
    and, between its two codes, on whether a known credential was sent to
    the wrong plane; what the store answered never shows. *)
Theorem auth_refusals_reveal_nothing want header e rid :
  auth cfg store now want header = Err e →
  Envelope e rid = Envelope InvalidAPIKey rid ∨ Envelope e rid = Envelope (WrongPlane (plane_name want)) rid.
Proof.
  unfold auth. intros E.
  repeat (case_match; simplify_eq/=; try (by left); try (by right)); by auto.
Qed.
End auth.

(** Every 429 leaves with a Retry-After of at least a second, provided the
    request did not itself carry a Retry-After header; the body holds the
    request id. *)
Theorem rate_limit_answers_carry_retry_after requestID err :
  err_Status (From err) = 429 →
  let r := Fail requestID "" err in
  rs_RetryAfter r = Some (Z.max 1 (err_RetryAfterSeconds (From err))) ∧
  body_RequestID (rs_Body r) = requestID.
Proof.
  intros Es. cbv zeta. unfold Fail. rewrite Es. cbn [rs_RetryAfter rs_Body Z.eqb].
  rewrite bool_decide_eq_true_2 by done. split; [|done].
  simpl. f_equal. destruct (Z.ltb_spec (err_RetryAfterSeconds (From err)) 1); lia.
Qed.

(** A request that sends its own Retry-After header gets a 429 without one. *)
Theorem request_header_suppresses_retry_after :
  rs_Status (Fail "req_1" "5" (ErrApi (WithRetryAfter RateLimited (30 * Second)))) = 429 ∧
  rs_RetryAfter (Fail "req_1" "5" (ErrApi (WithRetryAfter RateLimited (30 * Second)))) = None ∧
  rs_RetryAfter (Fail "req_1" "" (ErrApi (WithRetryAfter RateLimited (30 * Second)))) = Some 30.
Proof. by vm_compute. Qed.

Lemma rate_limit_answers_carry_retry_after_witness :
  rs_RetryAfter (Fail "req_1" "" (ErrApi (ConcurrencyExceeded 4))) = Some 1.
Proof.
  exact (proj1 (rate_limit_answers_carry_retry_after "req_1" (ErrApi (ConcurrencyExceeded 4)) eq_refl)).
Defined.

#[local] Existing Instance ascii_only.
#[local] Instance flat_hash : Crypto := {| Sum256 s := s |}.

Lemma auth_refusals_reveal_nothing_witness :
  let e := WithCause InvalidAPIKey ErrNotFound in
  Envelope e "r" = Envelope InvalidAPIKey "r" ∨ Envelope e "r" = Envelope (WrongPlane "data") "r".
Proof.
  apply (auth_refusals_reveal_nothing Default (NewMemory false) 0 PlaneData "Bearer cg-abc"
    (WithCause InvalidAPIKey ErrNotFound) "r").
  by vm_compute.
Defined.
End MiddlewareFacts.
