(* ===== verification/Page.v ===== *)
(** * Pagination (internal/server/page.go)

    The list envelope of the admin API: [?limit=] and [?after=], the cursor
    being the id of the last item seen. A query parameter that is absent reads
    as the empty string. *)

From S2P Require Import Prelude GoStrings GoTime ApiErr.

#[local] Open Scope Z_scope.
#[local] Open Scope stdpp_scope.
#[local] Open Scope gate_scope.

Definition defaultPageLimit : Z := 50.
Definition maxPageLimit : Z := 200.

Definition pageLimit (query : string → string) : res Error Z :=
  let raw := TrimSpace (query "limit") in
  if bool_decide (raw = "") then Ok defaultPageLimit
  else
    let bad := Err (WithParam (InvalidRequest
      (Msgf "limit must be an integer between 1 and %d." [FInt maxPageLimit])) "limit") in
    match Atoi raw with
    | None => bad
    | Some n => if (n <? 1) || (maxPageLimit <? n) then bad else Ok n
    end.

Record ListPage (T : Type) := { lp_data : list T; lp_has_more : bool }.
Arguments lp_data {T}.
Arguments lp_has_more {T}.

Section paginate.
Context {T : Type} (idOf : T → string).

(** The loop looking for the cursor: the items after its first match. *)
Fixpoint items_after (after : string) (items : list T) : option (list T) :=
  match items with
  | [] => None
  | x :: items' => if bool_decide (idOf x = after) then Some items' else items_after after items'
  end.

Definition paginate (query : string → string) (items : list T) : res Error (ListPage T) :=
  let! limit := pageLimit query in
  let after := TrimSpace (query "after") in
  let! items :=
    if bool_decide (after = "") then Ok items
    else match items_after after items with
         | None => Err (WithParam (InvalidRequest
             (text "Unknown cursor: no item with that id in this collection.")) "after")
         | Some rest => Ok rest
         end in
  let hasMore := limit <? Z.of_nat (length items) in
  Ok {| lp_data := if hasMore then take (Z.to_nat limit) items else items;
        lp_has_more := hasMore |}.

(** A client following the cursor: it asks again after the last item of each
    page while [has_more] is set. [None] when a page is refused or the fuel
    runs out. *)
Fixpoint follow (fuel : nat) (limit after : string) (items : list T) : option (list (list T)) :=
  match fuel with
  | O => None
  | S fuel' =>
      let query q := if bool_decide (q = "limit") then limit
                     else if bool_decide (q = "after") then after else "" in
      match paginate query items with
      | Err _ => None
      | Ok page =>
          if lp_has_more page then
            last ← last (lp_data page);
            rest ← follow fuel' limit (idOf last) items;
            Some (lp_data page :: rest)
          else Some [lp_data page]
      end
  end.
End paginate.

(** ** Correctness *)

Module PageFacts.
Section facts.
Context {T : Type} (idOf : T → string).

Lemma items_after_app pre x post :
  NoDup (map idOf (pre ++ x :: post)) → items_after idOf (idOf x) (pre ++ x :: post) = Some post.
Proof.
  induction pre as [|y pre IH]; simpl.
  { intros _. by rewrite bool_decide_eq_true_2. }
  intros [Hn HN]%NoDup_cons. rewrite bool_decide_eq_false_2; [by apply IH|].
  intros E. apply Hn. rewrite E. apply list_elem_of_fmap. exists x. split; [done|].
  apply elem_of_app. right. left.
Qed.

Lemma pageLimit_range query n : pageLimit query = Ok n → 1 ≤ n ≤ maxPageLimit.
Proof.
  unfold pageLimit, maxPageLimit. case_bool_decide; [intros [= <-]; unfold defaultPageLimit; lia|].
  destruct (Atoi _) as [k|]; [|done].
  destruct (Z.ltb_spec k 1), (Z.ltb_spec 200 k); simpl; intros; simplify_eq; lia.
Qed.

Definition ask (limit after : string) (q : string) : string :=
  if bool_decide (q = "limit") then limit else if bool_decide (q = "after") then after else "".

Lemma pageLimit_ask limit after after' : pageLimit (ask limit after) = pageLimit (ask limit after').
Proof. done. Qed.

(** One page from a cursor that is the last item of what has been seen. *)
Lemma paginate_from limit n seen rest after :
  pageLimit (ask limit "") = Ok n → NoDup (map idOf (seen ++ rest)) →
  after = default "" (idOf <$> last seen) →
  TrimSpace after = after → (seen ≠ [] → after ≠ "") →
  paginate idOf (ask limit after) (seen ++ rest) =
    Ok {| lp_data := take (Z.to_nat n) rest; lp_has_more := n <? Z.of_nat (length rest) |}.
Proof.
  intros Hn HN Ha Ht Hne. unfold paginate. rewrite (pageLimit_ask _ _ ""), Hn. cbn [res_bind].
  change (ask limit after "after") with after. rewrite Ht.
  assert ((if bool_decide (after = "") then Ok (seen ++ rest)
           else match items_after idOf after (seen ++ rest) with
                | None => Err (WithParam (InvalidRequest
                    (text "Unknown cursor: no item with that id in this collection.")) "after")
                | Some rest => Ok rest end) = @Ok Error _ rest) as ->.
  { destruct seen as [|x0 s0] using rev_ind.
    - simpl in Ha. subst after. done.
    - clear IHs0. rewrite last_snoc in Ha. simpl in Ha.
      rewrite bool_decide_eq_false_2 by (apply Hne; by destruct s0).
      rewrite Ha, <-app_assoc in *. cbn [app] in *. by rewrite items_after_app. }
  cbn [res_bind]. f_equal. pose proof (pageLimit_range _ _ Hn).
  destruct (Z.ltb_spec n (Z.of_nat (length rest))) as [|Hle]; [done|].
  f_equal. symmetry. apply take_ge. lia.
Qed.

(** Following the cursor with any accepted limit shows the whole collection:
    the pages joined are the items in order, nothing skipped or repeated, no
    page is longer than the limit, and the client stops after finitely many
    requests. *)
Theorem paging_enumerates limit n items :
  pageLimit (ask limit "") = Ok n → NoDup (map idOf items) →
  Forall (λ x, idOf x ≠ "" ∧ TrimSpace (idOf x) = idOf x) items →
  ∃ pages, follow idOf (S (length items)) limit "" items = Some pages ∧
    concat pages = items ∧ Forall (λ p, Z.of_nat (length p) ≤ n) pages.
Proof.
  intros Hn HN HF. pose proof (pageLimit_range _ _ Hn) as Hr.
  assert (∀ fuel seen rest, seen ++ rest = items → (length rest < fuel)%nat →
    ∃ pages, follow idOf fuel limit (default "" (idOf <$> last seen)) items = Some pages ∧
      concat pages = rest ∧ Forall (λ p, Z.of_nat (length p) ≤ n) pages) as Hgo.
  2: { apply (Hgo _ [] items); [done|lia]. }
  induction fuel as [|fuel IH]; intros seen rest Hs Hf; [lia|]. cbn [follow].
  set (after := default "" (idOf <$> last seen)).
  assert (TrimSpace after = after ∧ (seen ≠ [] → after ≠ "")) as [Ht Hne].
  { unfold after. destruct (last seen) as [x|] eqn:El; simpl.
    - apply last_Some_elem_of in El. rewrite Forall_forall in HF.
      destruct (HF x) as [? ?]; [rewrite <-Hs; apply elem_of_app; by left|]. done.
    - apply last_None in El as ->. done. }
  assert (paginate idOf (ask limit after) items = Ok {| lp_data := take (Z.to_nat n) rest;
    lp_has_more := n <? Z.of_nat (length rest) |}) as E
    by (rewrite <-Hs; apply paginate_from; rewrite ?Hs; done).
  change (paginate idOf _ items) with (paginate idOf (ask limit after) items). rewrite E.
  cbn [lp_has_more lp_data]. destruct (Z.ltb_spec n (Z.of_nat (length rest))) as [Hlt|Hge].
  - assert (length (take (Z.to_nat n) rest) = Z.to_nat n) as Hlen by (rewrite length_take; lia).
    destruct (last (take (Z.to_nat n) rest)) as [x|] eqn:El;
      [|apply last_None in El; rewrite El in Hlen; simpl in Hlen; lia].
    cbn [mbind option_bind].
    destruct (IH (seen ++ take (Z.to_nat n) rest) (drop (Z.to_nat n) rest)) as (pages & Hp & Hc & HL).
    { by rewrite <-app_assoc, take_drop. }
    { rewrite length_drop. lia. }
    rewrite last_app, El in Hp. cbn in Hp. rewrite Hp. cbn [mbind option_bind].
    eexists. split; [done|]. split; [simpl; by rewrite Hc, take_drop|].
    constructor; [rewrite Hlen; lia|done].
  - eexists. split; [done|]. simpl. rewrite app_nil_r, take_ge by lia.
    split; [done|]. constructor; [lia|constructor].
Qed.
End facts.

Lemma paging_enumerates_witness :
  follow id 4 " 2 " "" ["a"; "b"; "c"] = Some [["a"; "b"]; ["c"]] ∧
  ∃ pages, follow id 4 " 2 " "" ["a"; "b"; "c"] = Some pages ∧
    concat pages = ["a"; "b"; "c"] ∧ Forall (λ p, Z.of_nat (length p) ≤ 2) pages.
Proof.
  split; [by vm_compute|]. apply (paging_enumerates id " 2 " 2 ["a"; "b"; "c"]).
  - by vm_compute.
  - by apply (bool_decide_unpack _).
  - repeat constructor; by vm_compute.
Defined.
End PageFacts.
