(* ===== verification/Capture.v ===== *)
(** * Debug captures (internal/capture/capture.go, internal/server/capture.go,
    internal/server/cache.go)

    The per-tenant buffer of captured exchanges, the policies that decide what
    is captured and for how long, and the middleware that captures. The store's
    methods hold its lock for their whole body. The sampling draw, the clock and
    what the route answered are arguments of the middleware. *)

From S2P Require Import Prelude GoStrings GoTime GoFloat ApiErr StoreTypes Keys Config.

#[local] Open Scope Z_scope.
#[local] Open Scope stdpp_scope.

(** ** The buffer *)

Record CapEntry := {
  cx_ID : string;
  cx_RequestID : string;
  cx_At : Z;
  cx_ExpiresAt : Z;
  cx_Model : string;
  cx_Status : Z;
  cx_Request : string;
  cx_Response : string
}.

(** [Entry.size] *)
Definition cap_size (e : CapEntry) : Z :=
  Z.of_nat (String.length (cx_Request e) + String.length (cx_Response e)) + 256.

Record cap_bucket := { cb_bytes : Z; cb_entries : list CapEntry }.

Record CapStore := { cs_max : Z; cs_byTenant : gmap string cap_bucket }.

(** [capture.New] *)
Definition NewCapStore (maxBytesPerTenant : Z) : CapStore :=
  {| cs_max := maxBytesPerTenant; cs_byTenant := ∅ |}.

(** [bucket.expire]: how many entries went, and the bucket after. *)
Fixpoint expire_loop (now bytes : Z) (entries : list CapEntry) : Z * cap_bucket :=
  match entries with
  | e :: rest =>
      if negb (Before now (cx_ExpiresAt e)) then
        let '(n, b) := expire_loop now (wrap64 (bytes - cap_size e)) rest in (n + 1, b)
      else (0, {| cb_bytes := bytes; cb_entries := entries |})
  | [] => (0, {| cb_bytes := bytes; cb_entries := [] |})
  end.
Definition expire (now : Z) (b : cap_bucket) : Z * cap_bucket :=
  expire_loop now (cb_bytes b) (cb_entries b).

(** The eviction loop of [Put]. *)
Fixpoint make_room (size max bytes : Z) (entries : list CapEntry) : cap_bucket :=
  match entries with
  | e :: rest =>
      if max <? wrap64 (bytes + size) then make_room size max (wrap64 (bytes - cap_size e)) rest
      else {| cb_bytes := bytes; cb_entries := entries |}
  | [] => {| cb_bytes := bytes; cb_entries := [] |}
  end.

Definition no_bucket : cap_bucket := {| cb_bytes := 0; cb_entries := [] |}.

(** [Store.Put] *)
Definition CapPut (tenantID : string) (e : CapEntry) (s : CapStore) : bool * CapStore :=
  let size := cap_size e in
  if bool_decide (tenantID = "") || (cs_max s <? size) then (false, s)
  else
    let b := default no_bucket (cs_byTenant s !! tenantID) in
    let b := (expire (cx_At e) b).2 in
    let b := make_room size (cs_max s) (cb_bytes b) (cb_entries b) in
    let b := {| cb_bytes := wrap64 (cb_bytes b + size); cb_entries := cb_entries b ++ [e] |} in
    (true, {| cs_max := cs_max s; cs_byTenant := <[tenantID := b]> (cs_byTenant s) |}).

(** [Store.List] *)
Definition CapList (tenantID : string) (now : Z) (s : CapStore) : list CapEntry :=
  match cs_byTenant s !! tenantID with
  | None => []
  | Some b => List.filter (λ e, Before now (cx_ExpiresAt e)) (reverse (cb_entries b))
  end.

(** What [Sweep] leaves of a bucket: nothing when it is empty. *)
Definition sweep_bucket (now : Z) (b : cap_bucket) : option cap_bucket :=
  let b := (expire now b).2 in
  if bool_decide (cb_entries b = []) then None else Some b.

(** [Store.Sweep] *)
Definition CapSweep (now : Z) (s : CapStore) : Z * CapStore :=
  (foldr Z.add 0 ((λ kb, (expire now kb.2).1) <$> map_to_list (cs_byTenant s)),
   {| cs_max := cs_max s; cs_byTenant := omap (sweep_bucket now) (cs_byTenant s) |}).

(** [Store.Flush] *)
Definition CapFlush (tenantID : string) (s : CapStore) : Z * CapStore :=
  match cs_byTenant s !! tenantID with
  | None => (0, s)
  | Some b => (Z.of_nat (length (cb_entries b)),
               {| cs_max := cs_max s; cs_byTenant := delete tenantID (cs_byTenant s) |})
  end.

(** ** Policies *)

Definition captureTTL (cfg : Config) (t : option Tenant) : Z :=
  let ttl := match t with
             | Some t => if 0 <? dc_TTLSeconds (t_DebugCapture t)
                         then seconds (dc_TTLSeconds (t_DebugCapture t)) else db_DefaultTTL (cf_Debug cfg)
             | None => db_DefaultTTL (cf_Debug cfg)
             end in
  if db_MaxTTL (cf_Debug cfg) <? ttl then db_MaxTTL (cf_Debug cfg) else ttl.

Definition captureSampleRate (cfg : Config) (t : option Tenant) : f64 :=
  match t with
  | Some t => if fltb fzero (dc_SampleRate (t_DebugCapture t)) then dc_SampleRate (t_DebugCapture t)
              else db_DefaultSampleRate (cf_Debug cfg)
  | None => db_DefaultSampleRate (cf_Debug cfg)
  end.

(** [time.Duration.Hours] *)
Definition Hours (d : Z) : f64 :=
  fadd (f_of_Z (Z.quot d Hour)) (fdiv (f_of_Z (Z.rem d Hour)) (f_of_Z Hour)).

Definition validateTenantDebugCapture (cfg : Config) (p : TenantDebugCapture) : option Error :=
  if dc_TTLSeconds p <? 0 then
    Some (WithParam (InvalidRequest (text "debug_capture.ttl_seconds must not be negative."))
            "debug_capture.ttl_seconds")
  else if db_MaxTTL (cf_Debug cfg) <? seconds (dc_TTLSeconds p) then
    Some (CaptureTTLTooLong (f_trunc (Hours (db_MaxTTL (cf_Debug cfg)))))
  else if fltb (dc_SampleRate p) fzero || fltb (f_of_Z 1) (dc_SampleRate p) then
    Some (WithParam (InvalidRequest (text "debug_capture.sample_rate must be within 0..1."))
            "debug_capture.sample_rate")
  else None.

Definition cacheTTL (cfg : Config) (t : option Tenant) : Z :=
  let ttl := match t with
             | Some t => if 0 <? tc_TTLSeconds (t_Cache t)
                         then seconds (tc_TTLSeconds (t_Cache t)) else cc_DefaultTTL (cf_Cache cfg)
             | None => cc_DefaultTTL (cf_Cache cfg)
             end in
  if cc_MaxTTL (cf_Cache cfg) <? ttl then cc_MaxTTL (cf_Cache cfg) else ttl.

Definition validateTenantCache (cfg : Config) (p : TenantCache) : option Error :=
  if tc_TTLSeconds p <? 0 then
    Some (WithParam (InvalidRequest (text "cache.ttl_seconds must not be negative."))
            "cache.ttl_seconds")
  else if cc_MaxTTL (cf_Cache cfg) <? seconds (tc_TTLSeconds p) then
    Some (WithParam (InvalidRequest
      (Msgf "cache.ttl_seconds is %d, above the deployment ceiling of %d."
         [FInt (tc_TTLSeconds p); FInt (f_trunc (Seconds (cc_MaxTTL (cf_Cache cfg))))]))
      "cache.ttl_seconds")
  else None.

(** ** The middleware *)

(** What the route left on the response. *)
Record Answered := {
  aw_Status : Z;
  aw_Err : option error;
  aw_Streamed : bool;
  aw_Body : string;
  aw_Model : string
}.

(** [captureDebug]: whether the header is set, and the store after. [draw] is
    the sampling draw, [rnd] the random bytes of the capture's id. *)
Definition captureDebug (cfg : Config) (tenant : option Tenant) (draw : f64) (body requestID : string)
    (a : Answered) (rnd : string) (now : Z) (s : CapStore) : bool * CapStore :=
  match tenant with
  | None => (false, s)
  | Some t =>
      if negb (dc_Enabled (t_DebugCapture t)) then (false, s)
      else if negb (fltb draw (captureSampleRate cfg (Some t))) then (true, s)
      else if bool_decide (body = "") then (true, s)
      else
        let e := {| cx_ID := NewID IDCapture rnd; cx_RequestID := requestID; cx_At := now;
                    cx_ExpiresAt := Add now (captureTTL cfg (Some t)); cx_Model := aw_Model a;
                    cx_Status := match aw_Err a with
                                 | Some err => err_Status (From err) | None => aw_Status a end;
                    cx_Request := body;
                    cx_Response := if aw_Streamed a then "" else aw_Body a |} in
        (true, (CapPut (t_ID t) e s).2)
  end.

(** ** Correctness *)

Module CaptureFacts.

Definition total (l : list CapEntry) : Z := foldr (λ e n, cap_size e + n) 0 l.

Lemma cap_size_pos e : 256 ≤ cap_size e.
Proof. unfold cap_size. lia. Qed.

Lemma cap_total_nonneg l : 0 ≤ total l.
Proof. induction l as [|e l IH]; simpl; [done|]. pose proof (cap_size_pos e). lia. Qed.

Lemma cap_total_app l l' : total (l ++ l') = total l + total l'.
Proof. induction l as [|e l IH]; simpl; [done|]. rewrite IH. lia. Qed.

(** Budgets whose double fits in an int64, so that the accounting cannot wrap. *)
Definition budget_ok (max : Z) : Prop := 0 ≤ max ∧ 2 * max ≤ maxInt64.

Lemma wrap_small max z : budget_ok max → 0 ≤ z ≤ 2 * max → wrap64 z = z.
Proof.
  unfold budget_ok. intros [? ?] ?. apply wrap64_small. unfold in_int64, minInt64, maxInt64, two63 in *. lia.
Qed.

Definition bucket_ok (max : Z) (b : cap_bucket) : Prop :=
  cb_bytes b = total (cb_entries b) ∧ total (cb_entries b) ≤ max.

Lemma expire_loop_spec max now entries : budget_ok max → total entries ≤ max →
  ∃ gone rest, entries = gone ++ rest ∧
    expire_loop now (total entries) entries
    = (Z.of_nat (length gone), {| cb_bytes := total rest; cb_entries := rest |}) ∧
    Forall (λ e, cx_ExpiresAt e ≤ now) gone ∧ (∀ e, head rest = Some e → now < cx_ExpiresAt e).
Proof.
  intros Hb. induction entries as [|e l IH]; intros Hle; simpl in *.
  { exists [], []. done. }
  pose proof (cap_total_nonneg l). pose proof (cap_size_pos e). unfold Before.
  destruct (Z.ltb_spec now (cx_ExpiresAt e)) as [Hlt|Hge]; simpl.
  - exists [], (e :: l). split_and!; [done..|]. by intros e' [= <-].
  - replace (cap_size e + total l - cap_size e) with (total l) by lia.
    rewrite (wrap_small max) by (done || lia).
    destruct (IH ltac:(lia)) as (gone & rest & -> & -> & HF & Hh).
    exists (e :: gone), rest. split_and!; [done| |by constructor|done].
    cbn [length]. f_equal. lia.
Qed.

Lemma expire_spec max now b : budget_ok max → bucket_ok max b →
  ∃ gone rest, cb_entries b = gone ++ rest ∧
    expire now b = (Z.of_nat (length gone), {| cb_bytes := total rest; cb_entries := rest |}) ∧
    Forall (λ e, cx_ExpiresAt e ≤ now) gone ∧ (∀ e, head rest = Some e → now < cx_ExpiresAt e) ∧
    total rest ≤ max.
Proof.
  intros Hb [E Hle]. unfold expire. rewrite E.
  destruct (expire_loop_spec max now (cb_entries b) Hb Hle) as (gone & rest & Eq & Hx & HF & Hh).
  exists gone, rest. split_and!; [done..|]. rewrite Eq, cap_total_app in Hle.
  pose proof (cap_total_nonneg gone). lia.
Qed.

Lemma make_room_spec max size entries : budget_ok max → total entries ≤ max → 0 ≤ size ≤ max →
  ∃ gone rest, entries = gone ++ rest ∧
    make_room size max (total entries) entries = {| cb_bytes := total rest; cb_entries := rest |} ∧
    total rest + size ≤ max.
Proof.
  intros Hb Hle Hs. induction entries as [|e l IH]; simpl in *.
  { exists [], []. split_and!; [done..|simpl; lia]. }
  pose proof (cap_total_nonneg l). pose proof (cap_size_pos e).
  rewrite (wrap_small max (_ + size)) by (done || lia).
  destruct (Z.ltb_spec max (cap_size e + total l + size)).
  - replace (cap_size e + total l - cap_size e) with (total l) by lia.
    rewrite (wrap_small max) by (done || lia).
    destruct (IH ltac:(lia)) as (gone & rest & -> & -> & Hr). by exists (e :: gone), rest.
  - exists [], (e :: l). split_and!; [done..|simpl; lia].
Qed.

(** *** Executions *)

Inductive cap_op :=
  | DoPut (tenantID : string) (e : CapEntry)
  | DoSweep (now : Z)
  | DoFlush (tenantID : string).

Definition apply_cap (s : CapStore) (o : cap_op) : CapStore :=
  match o with
  | DoPut t e => (CapPut t e s).2
  | DoSweep now => (CapSweep now s).2
  | DoFlush t => (CapFlush t s).2
  end.
Definition run_cap (s : CapStore) (ops : list cap_op) : CapStore := foldl apply_cap s ops.

(** What a tenant has had captured since it was last flushed. *)
Definition hist_step (max : Z) (t : string) (h : list CapEntry) (o : cap_op) : list CapEntry :=
  match o with
  | DoPut t' e => if bool_decide (t' = t) && negb (max <? cap_size e) then h ++ [e] else h
  | DoSweep _ => h
  | DoFlush t' => if bool_decide (t' = t) then [] else h
  end.
Definition history (max : Z) (t : string) (ops : list cap_op) : list CapEntry :=
  foldl (hist_step max t) [] ops.

Definition held (s : CapStore) (t : string) : cap_bucket := default no_bucket (cs_byTenant s !! t).

(** The bucket of [t] is a suffix of its history, with its bytes accounted. *)
Definition tracks (max : Z) (t : string) (h : list CapEntry) (s : CapStore) : Prop :=
  cs_max s = max ∧ bucket_ok max (held s t) ∧ cb_entries (held s t) `suffix_of` h.

Lemma suffix_drop {A} (gone rest h : list A) : gone ++ rest `suffix_of` h → rest `suffix_of` h.
Proof. intros [k ->]. exists (k ++ gone). by rewrite app_assoc. Qed.

Lemma held_insert s t b t' :
  held {| cs_max := cs_max s; cs_byTenant := <[t := b]> (cs_byTenant s) |} t'
  = if decide (t = t') then b else held s t'.
Proof.
  unfold held. cbn [cs_byTenant]. destruct (decide (t = t')) as [->|];
    [by rewrite lookup_insert_eq|by rewrite lookup_insert_ne].
Qed.

Lemma Put_tracks max t h s t' e : budget_ok max → t ≠ "" →
  tracks max t h s → tracks max t (hist_step max t h (DoPut t' e)) (CapPut t' e s).2.
Proof.
  intros Hb Hne (Hm & Hok & Hsuf). unfold CapPut, hist_step. rewrite Hm.
  destruct (decide (t' = t)) as [->|Ht].
  - rewrite (bool_decide_eq_false_2 _ Hne), (bool_decide_eq_true_2 (t = t)) by done. cbn [orb andb].
    destruct (Z.ltb_spec max (cap_size e)); [by split_and!|]. cbn [negb snd].
    destruct (expire_spec max (cx_At e) _ Hb Hok) as (gone & rest & Eg & Ex & _ & _ & Hr).
    pose proof (cap_size_pos e).
    fold (held s t). rewrite Ex. cbn [snd cb_bytes cb_entries].
    destruct (make_room_spec max (cap_size e) rest Hb Hr ltac:(lia)) as (gone' & rest' & -> & -> & Hr').
    cbn [cb_bytes cb_entries]. pose proof (cap_total_nonneg rest').
    rewrite (wrap_small max) by (done || lia). unfold tracks, bucket_ok.
    rewrite <-Hm, held_insert, decide_True by done. cbn [cb_bytes cb_entries cs_max].
    rewrite cap_total_app. simpl. split_and!; [done|lia|lia|].
    apply suffix_app. apply (suffix_drop (gone ++ gone')). by rewrite <-app_assoc, <-Eg.
  - rewrite (bool_decide_eq_false_2 (t' = t)) by done. cbn [andb].
    destruct (_ || _); [by split_and!|]. cbn [snd]. unfold tracks.
    rewrite <-Hm, held_insert, decide_False by done. by rewrite Hm.
Qed.

Lemma Sweep_held max now s t : budget_ok max → bucket_ok max (held s t) →
  held (CapSweep now s).2 t = (expire now (held s t)).2.
Proof.
  intros Hb Hok. unfold held, CapSweep. cbn [snd cs_byTenant]. rewrite lookup_omap.
  unfold held in Hok. destruct (cs_byTenant s !! t) as [b|]; simpl in *; [|done]. unfold sweep_bucket.
  destruct (expire_spec max now b Hb Hok) as (gone & rest & _ & -> & _). cbn [snd cb_entries].
  case_bool_decide as E; [|done]. by rewrite E.
Qed.

Lemma step_tracks max t h s o : budget_ok max → t ≠ "" →
  tracks max t h s → tracks max t (hist_step max t h o) (apply_cap s o).
Proof.
  intros Hb Hne Ht. destruct o as [t' e|now|t']; cbn [apply_cap]; [by apply Put_tracks| |].
  - destruct Ht as (Hm & Hok & Hsuf). cbn [hist_step]. unfold tracks.
    rewrite (Sweep_held max) by done.
    destruct (expire_spec max now _ Hb Hok) as (gone & rest & Eg & -> & _ & _ & Hr).
    cbn [snd]. split_and!; [done|done|]. cbn [cb_entries]. rewrite Eg in Hsuf. by eapply suffix_drop.
  - destruct Ht as (Hm & Hok & Hsuf). unfold CapFlush, hist_step.
    destruct (decide (t' = t)) as [->|Hd].
    + rewrite bool_decide_eq_true_2 by done. unfold tracks, held in *.
      destruct (cs_byTenant s !! t) as [b|] eqn:Eb; cbn [snd cs_byTenant].
      * rewrite lookup_delete_eq. cbn. split_and!; [done|split; simpl; [done|apply Hb]|apply suffix_nil].
      * rewrite Eb. cbn. split_and!; [done|split; simpl; [done|apply Hb]|apply suffix_nil].
    + rewrite bool_decide_eq_false_2 by done. unfold tracks, held in *.
      destruct (cs_byTenant s !! t') as [b|]; cbn [snd cs_byTenant]; [|done].
      by rewrite lookup_delete_ne.
Qed.

Lemma run_tracks max t ops : budget_ok max → t ≠ "" →
  tracks max t (history max t ops) (run_cap (NewCapStore max) ops).
Proof.
  intros Hb Hne. unfold history, run_cap.
  assert (tracks max t [] (NewCapStore max)) as H0.
  { split_and!; [done|split; [done|apply Hb]|done]. }
  revert H0. generalize (@nil CapEntry) (NewCapStore max).
  induction ops as [|o ops IH]; intros h s H0; [done|]. apply IH. by apply step_tracks.
Qed.

(** After any sequence of captures, sweeps and flushes, what is held of a
    tenant is the most recent part of what was captured for it since its last
    flush, within the byte budget and with the bytes accounted; what is listed
    is the live part of that, newest first. Other tenants play no part. *)
Theorem captures_are_the_recent_ones max t ops now :
  budget_ok max → t ≠ "" →
  let s := run_cap (NewCapStore max) ops in
  ∃ kept, kept `suffix_of` history max t ops ∧ total kept ≤ max ∧ cb_bytes (held s t) = total kept ∧
    CapList t now s = List.filter (λ e, now <? cx_ExpiresAt e) (reverse kept).
Proof.
  intros Hb Hne. cbv zeta. destruct (run_tracks max t ops Hb Hne) as (_ & [E Hle] & Hsuf).
  exists (cb_entries (held (run_cap (NewCapStore max) ops) t)). split_and!; [done..|].
  unfold CapList, held. by destruct (cs_byTenant _ !! t).
Qed.

(** The hard-delete promise: when every capture was given at most [ceiling] to
    live and captures arrive in time order, a sweep at [now] leaves nothing
    that was captured [ceiling] or longer ago, however policies changed in
    between. *)
Theorem no_capture_outlives_the_ceiling max ceiling t ops now :
  budget_ok max → t ≠ "" →
  Forall (λ e, cx_ExpiresAt e ≤ cx_At e + ceiling) (history max t ops) →
  StronglySorted (λ e e', cx_At e ≤ cx_At e') (history max t ops) →
  Forall (λ e, now < cx_At e + ceiling)
    (cb_entries (held (run_cap (NewCapStore max) (ops ++ [DoSweep now])) t)).
Proof.
  intros Hb Hne HF HS.
  assert (run_cap (NewCapStore max) (ops ++ [DoSweep now])
    = (CapSweep now (run_cap (NewCapStore max) ops)).2) as -> by (unfold run_cap; by rewrite foldl_snoc).
  destruct (run_tracks max t ops Hb Hne) as (_ & Hok & [pre Hsuf]).
  rewrite Hsuf in HF, HS. apply Forall_app in HF as [_ HF].
  rewrite (Sweep_held max) by done.
  destruct (expire_spec max now _ Hb Hok) as (gone & rest & Eg & -> & _ & Hh & _). cbn [snd cb_entries].
  rewrite Eg in HF, HS. apply Forall_app in HF as [_ HF].
  assert (StronglySorted (λ e e', cx_At e ≤ cx_At e') rest) as HS'.
  { by apply StronglySorted_app_1_r, StronglySorted_app_1_r in HS. }
  destruct rest as [|e0 rest]; [constructor|]. specialize (Hh e0 eq_refl).
  apply Forall_cons in HF as [H0 _]. apply StronglySorted_inv in HS' as [_ Hle].
  constructor; [lia|]. eapply Forall_impl; [exact Hle|]. simpl. intros. lia.
Qed.

(** What [captureDebug] stores is given at most the deployment's ceiling. *)
Lemma captureTTL_ceiling cfg t : captureTTL cfg t ≤ db_MaxTTL (cf_Debug cfg).
Proof.
  unfold captureTTL. set (ttl := match t with Some _ => _ | None => _ end).
  destruct (Z.ltb_spec (db_MaxTTL (cf_Debug cfg)) ttl); lia.
Qed.

(** *** Witnesses *)

Definition captured (id : string) (at_ ttl : Z) : CapEntry :=
  {| cx_ID := id; cx_RequestID := ""; cx_At := at_; cx_ExpiresAt := at_ + ttl; cx_Model := "";
     cx_Status := 200; cx_Request := "{}"; cx_Response := "" |}.

(** A long capture, then a short one: the short one waits behind it. *)
Definition two_policies : list cap_op := [DoPut "t" (captured "a" 0 50); DoPut "t" (captured "b" 10 5)].

Lemma captures_are_the_recent_ones_witness :
  cx_ID <$> CapList "t" 12 (run_cap (NewCapStore 300) two_policies) = ["b"] ∧
  ∃ kept, kept `suffix_of` history 300 "t" two_policies ∧ total kept ≤ 300 ∧
    cb_bytes (held (run_cap (NewCapStore 300) two_policies) "t") = total kept ∧
    CapList "t" 12 (run_cap (NewCapStore 300) two_policies)
    = List.filter (λ e, 12 <? cx_ExpiresAt e) (reverse kept).
Proof.
  split; [by vm_compute|].
  apply (captures_are_the_recent_ones 300 "t" two_policies 12); [split; by vm_compute|done].
Defined.

Lemma no_capture_outlives_the_ceiling_witness :
  let s := run_cap (NewCapStore 1000) (two_policies ++ [DoSweep 60]) in
  cb_entries (held s "t") = [] ∧ Forall (λ e, 60 < cx_At e + 50) (cb_entries (held s "t")).
Proof.
  split; [by vm_compute|].
  apply (no_capture_outlives_the_ceiling 1000 50 "t" two_policies 60).
  - split; by vm_compute.
  - done.
  - repeat constructor; by vm_compute.
  - repeat constructor; by vm_compute.
Defined.

Definition policy (secs : Z) : TenantDebugCapture :=
  {| dc_Enabled := true; dc_TTLSeconds := secs; dc_SampleRate := f_of_Z 1 |}.
Definition with_policy (secs : Z) : Tenant :=
  {| t_ID := "t"; t_Name := "t"; t_Status := "active"; t_CreatedAt := 0; t_Limits := no_limits;
     t_Cache := {| tc_Enabled := true; tc_TTLSeconds := secs |}; t_DebugCapture := policy secs;
     t_SystemInstruction := "" |}.

(** Both policies multiply the seconds before comparing them with the ceiling,
    and the product wraps: 9223372037 seconds is accepted, and what is then in
    force is a negative lifetime. *)
Theorem huge_ttls_pass_validation :
  validateTenantDebugCapture Default (policy 9223372037) = None ∧
  captureTTL Default (Some (with_policy 9223372037)) < 0 ∧
  validateTenantCache Default (t_Cache (with_policy 9223372037)) = None ∧
  cacheTTL Default (Some (with_policy 9223372037)) < 0.
Proof. split_and!; by vm_compute. Qed.
End CaptureFacts.
