(* ===== verification/Telemetry.v ===== *)
(** * Usage telemetry (internal/obs/telemetry.go)

    The bounded queue between a served request and durable usage accounting.
    Requests call [Record] from any goroutine; one dispatcher goroutine takes
    records off the queue and writes them to the sink. The state keeps where the
    dispatcher stands ([stage]), so an execution is an interleaving of the
    atomic steps of [step]: a request records, the dispatcher moves to its next
    blocking point, the process is told to stop. [step] is [None] where the
    channel operation would block. What the sink answers, which case a [select]
    takes and the clock readings are part of the step. The sink's contents are
    what [tm_persisted] gained. *)

From S2P Require Import Prelude GoStrings GoTime GoFloat ApiErr StoreTypes.

#[local] Open Scope Z_scope.
#[local] Open Scope stdpp_scope.

(** ** Data *)

(** An error of the sink: whether an error in its chain implements [permanent],
    and what its [Permanent] method answers. *)
Record sink_error := { se_err : error; se_Permanent : option bool }.

Definition isPermanent (e : sink_error) : bool := default false (se_Permanent e).

Definition writeTimeout : Z := 10 * Second.
Definition stallWarnEvery : Z := 30 * Second.
Definition retryBase : Z := 500 * Millisecond.
Definition retryMax : Z := 30 * Second.

(** Who called [deliver]: [run], which asks it to retry, or [drain], with the
    number of records it has lost so far. *)
Inductive caller := FromRun | FromDrain (lost : Z).
Definition retries (c : caller) : bool := match c with FromRun => true | FromDrain _ => false end.

(** Where the dispatcher goroutine stands. *)
Inductive stage :=
  | AtSelect
  | Writing (rec : UsageRecord) (by_ : caller) (attempt backoff : Z)
  | Backing (rec : UsageRecord) (attempt backoff : Z)
  | Draining (lost : Z)
  | Exited.

Inductive logline :=
  | LogBufferFull (buffer : nat)
  | LogStalled (requestID : string) (attempt : Z) (queued buffer : nat)
  | LogRecovered (attempts : Z) (queued : nat)
  | LogNotPersisted (requestID : string)
  | LogDiscarded (count : Z).

(** [tm_log] and [tm_metrics] are [None] for a nil logger and nil metrics; the
    only metric used is the counter of dropped records. *)
Record Telemetry := mkTelemetry {
  tm_cap : nat;
  tm_ch : list UsageRecord;
  tm_stop : bool;
  tm_stage : stage;
  tm_log : option (list logline);
  tm_metrics : option Z;
  tm_lastWarned : Z;
  tm_lastStallWarn : Z;
  tm_persisted : list UsageRecord
}.

Definition set_ch (t : Telemetry) x : Telemetry :=
  mkTelemetry (tm_cap t) x (tm_stop t) (tm_stage t) (tm_log t) (tm_metrics t) (tm_lastWarned t)
    (tm_lastStallWarn t) (tm_persisted t).
Definition set_stage (t : Telemetry) x : Telemetry :=
  mkTelemetry (tm_cap t) (tm_ch t) (tm_stop t) x (tm_log t) (tm_metrics t) (tm_lastWarned t)
    (tm_lastStallWarn t) (tm_persisted t).
Definition log (t : Telemetry) (l : logline) : Telemetry :=
  mkTelemetry (tm_cap t) (tm_ch t) (tm_stop t) (tm_stage t) ((λ ls, ls ++ [l]) <$> tm_log t)
    (tm_metrics t) (tm_lastWarned t) (tm_lastStallWarn t) (tm_persisted t).
Definition set_warned (t : Telemetry) (warned stall : Z) : Telemetry :=
  mkTelemetry (tm_cap t) (tm_ch t) (tm_stop t) (tm_stage t) (tm_log t) (tm_metrics t) warned stall
    (tm_persisted t).
Definition persist (t : Telemetry) (rec : UsageRecord) : Telemetry :=
  mkTelemetry (tm_cap t) (tm_ch t) (tm_stop t) (tm_stage t) (tm_log t) (tm_metrics t)
    (tm_lastWarned t) (tm_lastStallWarn t) (tm_persisted t ++ [rec]).

(** ** Operations *)

Definition NewTelemetry (buffer : Z) (logger metrics : bool) : Telemetry :=
  mkTelemetry (Z.to_nat (if buffer <? 1 then 1000 else buffer)) [] false AtSelect
    (if logger then Some [] else None) (if metrics then Some 0 else None) 0 0 [].

(** [lost]: the counter; without metrics nothing is counted. *)
Definition lost (t : Telemetry) (n : Z) : Telemetry :=
  mkTelemetry (tm_cap t) (tm_ch t) (tm_stop t) (tm_stage t) (tm_log t) ((λ c, c + n) <$> tm_metrics t)
    (tm_lastWarned t) (tm_lastStallWarn t) (tm_persisted t).

(** [warn]; [now] is the reading of [time.Since], [now'] that of [time.Now]. *)
Definition warn (t : Telemetry) (now now' : Z) : Telemetry :=
  if Sub now (tm_lastWarned t) <? 10 * Second then t
  else log (set_warned t now' (tm_lastStallWarn t)) (LogBufferFull (tm_cap t)).

(** [Record] *)
Definition Record_ (t : Telemetry) (rec : UsageRecord) (now now' : Z) : Telemetry :=
  if (length (tm_ch t) <? tm_cap t)%nat then set_ch t (tm_ch t ++ [rec])
  else warn (lost t 1) now now'.

Definition warnStalled (t : Telemetry) (rec : UsageRecord) (attempt now now' : Z) : Telemetry :=
  if is_None_b (tm_log t) then t
  else if (1 <? attempt) && (Sub now (tm_lastStallWarn t) <? stallWarnEvery) then t
  else log (set_warned t (tm_lastWarned t) now')
         (LogStalled (u_RequestID rec) attempt (length (tm_ch t)) (tm_cap t)).

(** What the caller of [deliver] does with its result. *)
Definition delivered (t : Telemetry) (by_ : caller) (ok : bool) : Telemetry :=
  match by_ with
  | FromRun => set_stage (if ok then t else lost t 1) AtSelect
  | FromDrain n => set_stage t (Draining (if ok then n else n + 1))
  end.

(** The body of the loop of [deliver], from the sink's answer to the next
    blocking point. *)
Definition deliver (t : Telemetry) (rec : UsageRecord) (by_ : caller) (attempt backoff : Z)
    (err : option sink_error) (now now' : Z) : Telemetry :=
  match err with
  | None =>
      let t := persist t rec in
      let t := if 1 <? attempt then log t (LogRecovered attempt (length (tm_ch t))) else t in
      delivered t by_ true
  | Some e =>
      if negb (retries by_) || isPermanent e
      then delivered (log t (LogNotPersisted (u_RequestID rec))) by_ false
      else set_stage (warnStalled t rec attempt now now') (Backing rec attempt backoff)
  end.

(** One turn of the loop of [drain]. *)
Definition drain (t : Telemetry) (n : Z) : Telemetry :=
  match tm_ch t with
  | rec :: ch => set_stage (set_ch t ch) (Writing rec (FromDrain n) 1 retryBase)
  | [] => set_stage (if 0 <? n then log (lost t n) (LogDiscarded n) else t) Exited
  end.

(** [Close]; closing twice is the [Once]. *)
Definition Close (t : Telemetry) : Telemetry :=
  mkTelemetry (tm_cap t) (tm_ch t) true (tm_stage t) (tm_log t) (tm_metrics t) (tm_lastWarned t)
    (tm_lastStallWarn t) (tm_persisted t).

(** ** Steps *)

Inductive event :=
  | ERecord (rec : UsageRecord) (now now' : Z)
  | EClose
  | ETake
  | EStop
  | ESink (err : option sink_error) (now now' : Z)
  | ETimer
  | EDrain.

Definition step (t : Telemetry) (e : event) : option Telemetry :=
  match e with
  | ERecord rec now now' => Some (Record_ t rec now now')
  | EClose => Some (Close t)
  | ETake =>
      match tm_stage t, tm_ch t with
      | AtSelect, rec :: ch => Some (set_stage (set_ch t ch) (Writing rec FromRun 1 retryBase))
      | _, _ => None
      end
  | EStop =>
      if negb (tm_stop t) then None
      else match tm_stage t with
           | AtSelect => Some (set_stage t (Draining 0))
           | Backing rec _ _ =>
               Some (delivered (log t (LogNotPersisted (u_RequestID rec))) FromRun false)
           | _ => None
           end
  | ESink err now now' =>
      match tm_stage t with
      | Writing rec by_ attempt backoff => Some (deliver t rec by_ attempt backoff err now now')
      | _ => None
      end
  | ETimer =>
      match tm_stage t with
      | Backing rec attempt backoff =>
          Some (set_stage t (Writing rec FromRun (attempt + 1) (Z.min (wrap64 (backoff * 2)) retryMax)))
      | _ => None
      end
  | EDrain =>
      match tm_stage t with Draining n => Some (drain t n) | _ => None end
  end.

Fixpoint run (t : Telemetry) (es : list event) : option Telemetry :=
  match es with
  | [] => Some t
  | e :: es' => match step t e with Some t' => run t' es' | None => None end
  end.

(** ** What telemetry promises

    A ledger of usage records: every record offered is refused at once or
    waits, and the one that has waited longest is settled next, for good or as
    a loss. *)

Record ledger := mkLedger {
  lg_offered : list UsageRecord;
  lg_refused : list UsageRecord;
  lg_waiting : list UsageRecord;
  lg_settled : list (UsageRecord * bool)
}.

Inductive ledger_step : ledger → ledger → Prop :=
  | ledger_accept r o f w s :
      ledger_step (mkLedger o f w s) (mkLedger (o ++ [r]) f (w ++ [r]) s)
  | ledger_refuse r o f w s :
      ledger_step (mkLedger o f w s) (mkLedger (o ++ [r]) (f ++ [r]) w s)
  | ledger_settle r ok o f w s :
      ledger_step (mkLedger o f (r :: w) s) (mkLedger o f w (s ++ [(r, ok)])).

Definition no_ledger : ledger := mkLedger [] [] [] [].

Definition kept (s : list (UsageRecord * bool)) : list UsageRecord := (List.filter snd s).*1.
Definition losses (s : list (UsageRecord * bool)) : Z :=
  Z.of_nat (length (List.filter (λ x, negb x.2) s)).

Definition in_flight (t : Telemetry) : list UsageRecord :=
  match tm_stage t with Writing r _ _ _ | Backing r _ _ => [r] | _ => [] end.

(** Losses of a drain under way, added to the counter when it ends. *)
Definition pending (t : Telemetry) : Z :=
  match tm_stage t with Draining n | Writing _ (FromDrain n) _ _ => n | _ => 0 end.

(** A telemetry state implements a ledger. *)
Record implements (t : Telemetry) (l : ledger) : Prop := {
  im_waiting : lg_waiting l = in_flight t ++ tm_ch t;
  im_kept : tm_persisted t = kept (lg_settled l);
  im_count c : tm_metrics t = Some c →
    c + pending t = Z.of_nat (length (lg_refused l)) + losses (lg_settled l);
  im_pending : 0 ≤ pending t;
  im_cap : (length (tm_ch t) ≤ tm_cap t)%nat
}.

Definition offered (es : list event) : list UsageRecord :=
  omap (λ e, match e with ERecord r _ _ => Some r | _ => None end) es.

Module TelemetryFacts.

Lemma run_app t es es' : run t (es ++ es') = t' ← run t es; run t' es'.
Proof. revert t; induction es as [|e es IH]; intros t; simpl; [done|]. destruct (step t e); [apply IH|done]. Qed.

Lemma kept_snoc s r (ok : bool) : kept (s ++ [(r, ok)]) = kept s ++ (if ok then [r] else []).
Proof. unfold kept. rewrite List.filter_app, fmap_app. by destruct ok. Qed.

Lemma losses_snoc s r (ok : bool) : losses (s ++ [(r, ok)]) = losses s + (if ok then 0 else 1).
Proof. unfold losses. rewrite List.filter_app, length_app. destruct ok; simpl; lia. Qed.

(** Warnings change no accounting. *)
Definition same_books (t t' : Telemetry) : Prop :=
  tm_cap t' = tm_cap t ∧ tm_ch t' = tm_ch t ∧ tm_stop t' = tm_stop t ∧ tm_stage t' = tm_stage t ∧
  tm_metrics t' = tm_metrics t ∧ tm_persisted t' = tm_persisted t.

Lemma warn_books t now now' : same_books t (warn t now now').
Proof. unfold warn. split_if; done. Qed.

Lemma warnStalled_books t (r : UsageRecord) a now now' : same_books t (warnStalled t r a now now').
Proof. unfold warnStalled. split_if; done. Qed.

Lemma log_books t l : same_books t (log t l).
Proof. done. Qed.

(** A step that moves a record along the queue, at most. *)
Lemma quiet_implements t t' l :
  tm_metrics t' = tm_metrics t → tm_persisted t' = tm_persisted t → tm_cap t' = tm_cap t →
  in_flight t' ++ tm_ch t' = in_flight t ++ tm_ch t → pending t' = pending t →
  (length (tm_ch t') ≤ length (tm_ch t))%nat → implements t l → implements t' l.
Proof.
  intros Em Ep Ec Eq En Hl [H1 H2 H3 H4 H5]. split; rewrite ?Em, ?Ep, ?Ec, ?Eq, ?En; auto. lia.
Qed.

Lemma same_books_implements t t' l : same_books t t' → implements t l → implements t' l.
Proof.
  intros (Ec & Eh & _ & Es & Em & Ep). unfold same_books in *.
  apply quiet_implements; unfold in_flight, pending; rewrite ?Eh, ?Es; auto.
Qed.

(** A settled record leaves the head of the ledger. *)
Lemma settle_implements t l r by_ attempt backoff (ok : bool) :
  implements t l → tm_stage t = Writing r by_ attempt backoff ∨
                   (tm_stage t = Backing r attempt backoff ∧ by_ = FromRun) →
  ∃ l', ledger_step l l' ∧ lg_offered l' = lg_offered l ∧
    implements (delivered (if ok then persist t r else t) by_ ok) l'.
Proof.
  intros [H1 H2 H3 H4 H5] Hst. destruct l as [o f w s]; simpl in *.
  assert (in_flight t = [r] ∧ pending t = match by_ with FromRun => 0 | FromDrain n => n end) as [Hf Hp].
  { unfold in_flight, pending. destruct Hst as [->|[-> ->]]; [by destruct by_|done]. }
  rewrite Hf in H1. simpl in H1. rewrite H1. eexists. split; [exact (ledger_settle r ok o f _ s)|].
  split; [done|]. rewrite Hp in *.
  split; cbn [lg_waiting lg_settled lg_refused]; rewrite ?kept_snoc, ?losses_snoc.
  - by destruct ok, by_.
  - destruct ok, by_; simpl; by rewrite ?H2, ?app_nil_r.
  - intros c. destruct ok, by_; simpl; destruct (tm_metrics t) as [c'|]; simpl; try done;
      intros [= <-]; specialize (H3 c' eq_refl); unfold pending; simpl; lia.
  - destruct ok, by_; unfold pending; simpl; lia.
  - by destruct ok, by_.
Qed.

Lemma Record_refines t r now now' l : implements t l →
  ∃ l', ledger_step l l' ∧ lg_offered l' = lg_offered l ++ [r] ∧ implements (Record_ t r now now') l'.
Proof.
  intros [H1 H2 H3 H4 H5]. destruct l as [o f w s]; simpl in *. unfold Record_.
  destruct (Nat.ltb_spec (length (tm_ch t)) (tm_cap t)) as [Hlt|Hge].
  - eexists. split; [exact (ledger_accept r o f w s)|]. split; [done|].
    split; simpl; auto; [by rewrite H1, app_assoc|rewrite length_app; simpl; lia].
  - eexists. split; [exact (ledger_refuse r o f w s)|]. split; [done|].
    apply (same_books_implements (lost t 1)); [apply warn_books|].
    split; simpl; auto. unfold pending in *. simpl.
    destruct (tm_metrics t) as [c|]; simpl; [|done]. intros ? [= <-].
    specialize (H3 c eq_refl). rewrite length_app. simpl. lia.
Qed.

(** The sink's answer settles the record or sends it to its backoff. *)
Lemma deliver_refines t r by_ a b err now now' l :
  tm_stage t = Writing r by_ a b → implements t l →
  ∃ l', (l' = l ∨ ledger_step l l') ∧ lg_offered l' = lg_offered l ∧
    implements (deliver t r by_ a b err now now') l'.
Proof.
  intros Est Hi. unfold deliver. destruct err as [e|].
  - destruct (negb (retries by_) || isPermanent e) eqn:Ee.
    + destruct (settle_implements (log t (LogNotPersisted (u_RequestID r))) l r by_ a b false)
        as (l' & Hl & Ho & Hi'); [by apply (same_books_implements t)|by left|eauto].
    + apply orb_false_iff in Ee as [Er _]. destruct by_; [|done].
      exists l. split; [by left|]. split; [done|].
      destruct (warnStalled_books t r a now now') as (Ec & Eh & _ & Es & Em & Ep).
      apply (quiet_implements t); unfold in_flight, pending; simpl; rewrite ?Eh, ?Est; auto.
  - set (t1 := if 1 <? a then log t (LogRecovered a (length (tm_ch t))) else t).
    assert (same_books t t1) as Hb by (unfold t1; by destruct (1 <? a)).
    destruct (settle_implements t1 l r by_ a b true) as (l' & Hl & Ho & Hi');
      [by apply (same_books_implements t)|left; unfold t1; by destruct (1 <? a)|].
    exists l'. split; [by right|]. split; [done|]. revert Hi'. unfold t1. by destruct (1 <? a).
Qed.

Lemma drain_implements t n l : tm_stage t = Draining n → implements t l → implements (drain t n) l.
Proof.
  intros Est Hi. unfold drain. destruct (tm_ch t) as [|r ch] eqn:Ech.
  - destruct Hi as [H1 H2 H3 H4 H5]. unfold in_flight, pending in *. rewrite Est, Ech in *.
    destruct (Z.ltb_spec 0 n); split; unfold in_flight, pending; simpl; rewrite ?Ech; auto; simpl in *; try lia.
    + destruct (tm_metrics t) as [c|]; simpl; [|done]. intros ? [= <-]. specialize (H3 c eq_refl). lia.
    + intros c Hc. specialize (H3 c Hc). lia.
  - revert Hi. apply quiet_implements; unfold in_flight, pending; simpl; rewrite ?Est, ?Ech; simpl; auto.
Qed.

Lemma step_refines t e t' l :
  step t e = Some t' → implements t l →
  ∃ l', (l' = l ∨ ledger_step l l') ∧ lg_offered l' = lg_offered l ++ offered [e] ∧ implements t' l'.
Proof.
  intros Hs Hi. destruct e as [r now now'| | | |err now now'| |]; simpl in Hs; simplify_eq/=;
    rewrite ?app_nil_r.
  - destruct (Record_refines t r now now' l Hi) as (l' & ? & ? & ?). eauto.
  - exists l. split_and!; [by left|done|]. revert Hi. by apply quiet_implements.
  - destruct (tm_stage t) eqn:Est; simplify_eq. destruct (tm_ch t) as [|r ch] eqn:Ech; simplify_eq.
    exists l. split_and!; [by left|done|]. revert Hi.
    apply quiet_implements; unfold in_flight, pending; simpl; rewrite ?Est, ?Ech; simpl; auto.
  - destruct (tm_stop t); simplify_eq/=. destruct (tm_stage t) as [|?|r a b|?|] eqn:Est; simplify_eq.
    + exists l. split_and!; [by left|done|]. revert Hi.
      apply quiet_implements; unfold in_flight, pending; simpl; rewrite ?Est; auto.
    + destruct (settle_implements (log t (LogNotPersisted (u_RequestID r))) l r FromRun a b false)
        as (l' & Hl & Ho & Hi'); [by apply (same_books_implements t)|by right|eauto].
  - destruct (tm_stage t) as [|r by_ a b|?|?|] eqn:Est; simplify_eq. by apply deliver_refines.
  - destruct (tm_stage t) as [|?|r a b|?|] eqn:Est; simplify_eq. exists l. split_and!; [by left|done|].
    revert Hi. apply quiet_implements; unfold in_flight, pending; simpl; rewrite ?Est; auto.
  - destruct (tm_stage t) as [|?|?|n|] eqn:Est; simplify_eq. exists l. auto using drain_implements.
Qed.

Lemma run_refines t es t' l :
  run t es = Some t' → implements t l →
  ∃ l', rtc ledger_step l l' ∧ lg_offered l' = lg_offered l ++ offered es ∧ implements t' l'.
Proof.
  revert t l; induction es as [|e es IH]; intros t l; simpl.
  - intros [= <-] Hi. exists l. by rewrite app_nil_r.
  - destruct (step t e) as [t1|] eqn:E; [|done]. intros Hr Hi.
    destruct (step_refines t e t1 l E Hi) as (l1 & Hl & Ho & Hi1).
    destruct (IH t1 l1 Hr Hi1) as (l' & Hl' & Ho' & Hi').
    exists l'. split; [destruct Hl as [->|?]; [done|by eapply rtc_l]|]. split; [|done].
    rewrite Ho', Ho, <-app_assoc. f_equal. unfold offered. simpl. by case_match.
Qed.

Lemma ledger_conserves l l' : ledger_step l l' →
  lg_offered l ≡ₚ (lg_settled l).*1 ++ lg_waiting l ++ lg_refused l →
  lg_offered l' ≡ₚ (lg_settled l').*1 ++ lg_waiting l' ++ lg_refused l'.
Proof.
  destruct 1 as [r o f w s|r o f w s|r ok o f w s]; simpl; intros ->; rewrite ?fmap_app; simpl;
    solve_Permutation.
Qed.

(** What was accepted keeps the order it was offered in. *)
Lemma ledger_ordered l l' : ledger_step l l' →
  (lg_settled l).*1 ++ lg_waiting l `sublist_of` lg_offered l →
  (lg_settled l').*1 ++ lg_waiting l' `sublist_of` lg_offered l'.
Proof.
  destruct 1 as [r o f w s|r o f w s|r ok o f w s]; simpl; intros Hs.
  - rewrite app_assoc. by apply sublist_app.
  - by apply sublist_inserts_r.
  - by rewrite fmap_app, <-app_assoc.
Qed.

Lemma ledger_reachable l : rtc ledger_step no_ledger l →
  lg_offered l ≡ₚ (lg_settled l).*1 ++ lg_waiting l ++ lg_refused l ∧
  (lg_settled l).*1 ++ lg_waiting l `sublist_of` lg_offered l.
Proof.
  revert l. apply (rtc_ind_r (λ l, lg_offered l ≡ₚ (lg_settled l).*1 ++ lg_waiting l ++ lg_refused l ∧
    (lg_settled l).*1 ++ lg_waiting l `sublist_of` lg_offered l)); [done|].
  intros l l' _ Hl [? ?]. split; [by apply (ledger_conserves l)|by apply (ledger_ordered l)].
Qed.

Lemma New_implements buffer lg mt : implements (NewTelemetry buffer lg mt) no_ledger.
Proof. split; simpl; try done; [|lia]. intros c. destruct mt; [by intros [= <-]|done]. Qed.

Lemma step_metrics t e t' : step t e = Some t' → is_Some (tm_metrics t) → is_Some (tm_metrics t').
Proof.
  intros Hs [c Hc].
  destruct e; simpl in Hs; repeat case_match; simplify_eq/=;
    unfold Record_, warn, warnStalled, deliver, delivered, drain; repeat case_match; simpl; rewrite ?Hc; eauto.
  destruct (warnStalled_books t rec attempt now now') as (_ & _ & _ & _ & -> & _). by rewrite Hc.
Qed.

Lemma run_metrics t es t' : run t es = Some t' → is_Some (tm_metrics t) → is_Some (tm_metrics t').
Proof.
  revert t; induction es as [|e es IH]; simpl; intros t; [by intros [= <-]|].
  destruct (step t e) eqn:E; [|done]. eauto using step_metrics.
Qed.

(** *** Backoffs *)

Definition backoff_of (attempt : Z) : Z := Z.min (retryBase * 2 ^ (attempt - 1)) retryMax.

Lemma backoff_of_next a : 1 ≤ a → Z.min (wrap64 (backoff_of a * 2)) retryMax = backoff_of (a + 1).
Proof.
  intros Ha. unfold backoff_of.
  assert (2 ^ (a + 1 - 1) = 2 * 2 ^ (a - 1)) as ->.
  { replace (a + 1 - 1) with (Z.succ (a - 1)) by lia. apply Z.pow_succ_r. lia. }
  assert (0 < retryBase * 2 ^ (a - 1)) as Hx.
  { apply Z.mul_pos_pos; [by vm_compute|apply Z.pow_pos_nonneg; lia]. }
  replace (retryBase * (2 * 2 ^ (a - 1))) with (2 * (retryBase * 2 ^ (a - 1))) by lia.
  generalize dependent (retryBase * 2 ^ (a - 1)). intros x Hx.
  unfold retryMax, Second. rewrite wrap64_small; unfold in_int64, minInt64, maxInt64, two63; lia.
Qed.

(** Attempts are numbered from one and wait as the schedule says. *)
Definition timed (t : Telemetry) : Prop :=
  match tm_stage t with
  | Writing _ FromRun a b | Backing _ a b => 1 ≤ a ∧ b = backoff_of a
  | Writing _ (FromDrain _) a _ => a = 1
  | _ => True
  end.

Lemma step_timed t e t' : step t e = Some t' → timed t → timed t'.
Proof.
  intros Hs Ht. unfold timed in *.
  destruct e as [r now now'| | | |err now now'| |]; simpl in Hs; simplify_eq.
  - destruct (warn_books (lost t 1) now now') as (_ & _ & _ & Es & _). unfold Record_.
    destruct (_ <? _)%nat; [done|]. by rewrite Es.
  - done.
  - destruct (tm_stage t), (tm_ch t); simplify_eq. simpl. by vm_compute.
  - destruct (tm_stop t); simplify_eq/=. destruct (tm_stage t); by simplify_eq.
  - destruct (tm_stage t) as [|r by_ a b|?|?|]; simplify_eq. unfold deliver.
    destruct err as [e|]; [|by destruct by_, (1 <? a)].
    destruct by_; simpl; [|by destruct (isPermanent e)]. by destruct (isPermanent e).
  - destruct (tm_stage t) as [|?|r a b|?|]; simplify_eq. simpl. destruct Ht as [Ha ->].
    split; [lia|by apply backoff_of_next].
  - destruct (tm_stage t) as [|?|?|n|]; simplify_eq. unfold drain. destruct (tm_ch t); [|done].
    by destruct (0 <? n).
Qed.

(** ** Properties *)

(** C29: Telemetry implements the ledger: over any interleaving of requests, the
    dispatcher, the sink's answers and the shutdown, the state is that of a
    ledger reached by accepting, refusing and settling in order, and no attempt
    ever waits longer than the ceiling. *)
Theorem telemetry_refines_ledger buffer lg mt es t :
  run (NewTelemetry buffer lg mt) es = Some t →
  (∃ l, rtc ledger_step no_ledger l ∧ lg_offered l = offered es ∧ implements t l) ∧ timed t.
Proof.
  intros Hr. split.
  - destruct (run_refines _ es t no_ledger Hr (New_implements buffer lg mt)) as (l & ? & ? & ?). eauto.
  - assert (timed (NewTelemetry buffer lg mt)) as H0 by done. revert Hr H0.
    generalize (NewTelemetry buffer lg mt). induction es as [|e es IH]; simpl; intros u; [by intros [= <-]|].
    destruct (step u e) eqn:E; [|done]. eauto using step_timed.
Qed.

(** Every usage record a request hands over is accounted for: it was refused
    because the queue was full, or it was accepted, and then it is settled, in
    the dispatcher's hands or still queued; what was accepted is served in the
    order it came; the sink holds exactly the records settled well; and the
    counter, with what a drain under way still has to report, counts exactly
    the refused and the lost ones. The queue never exceeds its capacity. *)
Theorem every_record_is_accounted_for buffer lg es t :
  run (NewTelemetry buffer lg true) es = Some t →
  ∃ settled refused c,
    offered es ≡ₚ settled.*1 ++ in_flight t ++ tm_ch t ++ refused ∧
    settled.*1 ++ in_flight t ++ tm_ch t `sublist_of` offered es ∧
    tm_persisted t = kept settled ∧ tm_metrics t = Some c ∧
    c + pending t = Z.of_nat (length refused) + losses settled ∧ (length (tm_ch t) ≤ tm_cap t)%nat.
Proof.
  intros Hr. destruct (run_refines _ es t no_ledger Hr (New_implements buffer lg true))
    as (l & Hl & Ho & [H1 H2 H3 _ H5]).
  destruct (run_metrics _ es t Hr) as [c Hc]; [by eexists|].
  destruct (ledger_reachable l Hl) as [Hp Hs]. rewrite H1, Ho in *. simpl in *.
  exists (lg_settled l), (lg_refused l), c. rewrite <-app_assoc in Hp. split_and!; auto.
Qed.

(** *** An outage *)

(** One failed write and the wait after it. *)
Definition stumble (f : sink_error * Z * Z) : list event := [ESink (Some f.1.1) f.1.2 f.2; ETimer].

(** The dispatcher's schedule for one record whose first writes fail so. *)
Definition struggle (fs : list (sink_error * Z * Z)) : list event :=
  ETake :: concat (stumble <$> fs) ++ [ESink None 0 0].

Lemma stumbles_run t r a b fs :
  Forall (λ f, isPermanent f.1.1 = false) fs → tm_stage t = Writing r FromRun a b →
  ∃ t' a' b', run t (concat (stumble <$> fs)) = Some t' ∧ tm_stage t' = Writing r FromRun a' b' ∧
    tm_ch t' = tm_ch t ∧ tm_metrics t' = tm_metrics t ∧ tm_persisted t' = tm_persisted t ∧
    tm_cap t' = tm_cap t.
Proof.
  intros HF. revert t a b. induction HF as [|[[e now] now'] fs He HF IH]; intros t a b Hst.
  { by exists t, a, b. }
  cbn [fmap list_fmap concat stumble app run step fst snd]. rewrite Hst.
  unfold deliver. simpl in He. rewrite He. cbn [retries negb orb].
  cbn [set_stage tm_stage].
  destruct (warnStalled_books t r a now now') as (Ec & Eh & _ & _ & Em & Ep).
  edestruct (IH (set_stage (set_stage (warnStalled t r a now now') (Backing r a b))
    (Writing r FromRun (a + 1) (Z.min (wrap64 (b * 2)) retryMax)))) as (t' & a' & b' & Hr & H1 & H2 & H3 & H4 & H5);
    [done|].
  exists t', a', b'. simpl in *. split; [exact Hr|]. split_and!; congruence.
Qed.

Lemma struggle_run t r ch fs :
  Forall (λ f, isPermanent f.1.1 = false) fs → tm_stage t = AtSelect → tm_ch t = r :: ch →
  ∃ t', run t (struggle fs) = Some t' ∧ tm_stage t' = AtSelect ∧ tm_ch t' = ch ∧
    tm_metrics t' = tm_metrics t ∧ tm_persisted t' = tm_persisted t ++ [r] ∧ tm_cap t' = tm_cap t.
Proof.
  intros HF Hst Hch. unfold struggle. cbn [run step]. rewrite Hst, Hch.
  edestruct (stumbles_run (set_stage (set_ch t ch) (Writing r FromRun 1 retryBase)) r 1 retryBase fs HF)
    as (t' & a' & b' & Hr & H1 & H2 & H3 & H4 & H5); [done|].
  rewrite run_app, Hr. cbn [mbind option_bind run step]. rewrite H1. eexists. split; [done|]. unfold deliver.
  destruct (1 <? a'); simpl in *; rewrite ?H2, ?H3, ?H4, ?H5; done.
Qed.

(** C30: An outage of the sink, however long, loses nothing that was queued: when the
    writes of each queued record fail, each any number of times and never
    permanently, and then succeed, the backlog reaches the sink whole and in
    order, and the counter of lost records does not move. *)
Theorem outage_loses_nothing t outages :
  tm_stage t = AtSelect → length outages = length (tm_ch t) →
  Forall (Forall (λ f, isPermanent f.1.1 = false)) outages →
  ∃ t', run t (concat (struggle <$> outages)) = Some t' ∧ tm_stage t' = AtSelect ∧ tm_ch t' = [] ∧
    tm_persisted t' = tm_persisted t ++ tm_ch t ∧ tm_metrics t' = tm_metrics t.
Proof.
  intros Hst Hlen HF. remember (tm_ch t) as ch eqn:Ech. revert t ch Hst Ech Hlen.
  induction HF as [|fs outages HF1 HF IH]; intros t ch Hst Ech Hlen.
  { destruct ch; [|done]. exists t. rewrite app_nil_r. done. }
  destruct ch as [|r ch]; [done|]. cbn [fmap list_fmap concat].
  destruct (struggle_run t r ch fs HF1 Hst (eq_sym Ech)) as (t1 & Hr & H1 & H2 & H3 & H4 & _).
  destruct (IH t1 ch H1 (eq_sym H2)) as (t' & Hr' & H1' & H2' & H3' & H4'); [by injection Hlen|].
  exists t'. rewrite run_app, Hr. split; [done|]. rewrite H3', H4, <-app_assoc, H4', H3. done.
Qed.

(** *** Shutdown *)

(** A step of the dispatcher that does not wait out a backoff. *)
Definition prompt (e : event) : Prop :=
  match e with ETake | EStop | ESink _ _ _ | EDrain => True | _ => False end.

Definition work_left (t : Telemetry) : nat :=
  let q := length (tm_ch t) in
  match tm_stage t with
  | AtSelect => 3 * q + 2
  | Writing _ FromRun _ _ => 3 * q + 4
  | Backing _ _ _ => 3 * q + 3
  | Draining _ => 2 * q + 1
  | Writing _ (FromDrain _) _ _ => 2 * q + 2
  | Exited => 0
  end.

Lemma prompt_step t e t' : prompt e → step t e = Some t' →
  tm_stop t' = tm_stop t ∧ (work_left t' < work_left t)%nat.
Proof.
  intros He Hs. unfold work_left.
  destruct e as [r now now'| | | |err now now'| |]; try done; simpl in Hs.
  - destruct (tm_stage t); simplify_eq. destruct (tm_ch t); simplify_eq. simpl. split; [done|lia].
  - destruct (tm_stop t) eqn:Est; simplify_eq/=.
    destruct (tm_stage t); simplify_eq; simpl; rewrite ?Est; split; (done || lia).
  - destruct (tm_stage t) as [|r by_ a b|?|?|]; simplify_eq. unfold deliver.
    destruct (warnStalled_books t r a now now') as (_ & Eh & Es & _).
    destruct err as [e|]; [destruct (_ || _) eqn:Eo|destruct (1 <? a)]; destruct by_; simpl;
      rewrite ?Eh, ?Es; (split; [done|]); try lia.
    simpl in Eo. done.
  - destruct (tm_stage t) as [|?|?|n|]; simplify_eq. unfold drain. destruct (tm_ch t) eqn:Ech; simpl.
    + destruct (0 <? n); simpl; rewrite ?Ech; split; (done || lia).
    + split; [done|lia].
Qed.

Lemma exit_step t e t' : prompt e → step t e = Some t' →
  tm_stage t ≠ Exited → tm_stage t' = Exited → tm_ch t' = [].
Proof.
  intros He Hs Hne. destruct e as [| | | |err now now'| |]; try done; simpl in Hs.
  - destruct (tm_stage t), (tm_ch t); simplify_eq; by simpl.
  - destruct (tm_stop t), (tm_stage t); simplify_eq/=; by simpl.
  - destruct (tm_stage t) as [|r by_ a b|?|?|]; simplify_eq. unfold deliver, delivered.
    destruct err; [destruct (_ || _)|destruct (1 <? a)]; by destruct by_.
  - destruct (tm_stage t) as [|?|?|n|]; simplify_eq. unfold drain.
    destruct (tm_ch t) eqn:E; [|done]. by destruct (0 <? n).
Qed.

(** C31: Once the process is told to stop and nobody records any more, the
    dispatcher exits: its schedules that do not sit out another backoff are
    bounded in length by the work left, they end only at the exit, and there
    the queue is empty. *)
Theorem shutdown_terminates t es t' :
  tm_stop t = true → Forall prompt es → run t es = Some t' →
  (length es ≤ work_left t)%nat ∧
  (tm_stage t' ≠ Exited → ∃ e, prompt e ∧ is_Some (step t' e)) ∧
  (tm_stage t ≠ Exited → tm_stage t' = Exited → tm_ch t' = []).
Proof.
  intros Hstop HF. revert t Hstop. induction HF as [|e es He HF IH]; intros t Hstop; simpl.
  - intros [= <-]. split; [lia|]. split; [|done]. intros Hne.
    destruct (tm_stage t) as [|r by_ a b|r a b|n|] eqn:Est; [| | | |done].
    + exists EStop. simpl. rewrite Hstop, Est. eauto.
    + exists (ESink None 0 0). simpl. rewrite Est. eauto.
    + exists EStop. simpl. rewrite Hstop, Est. eauto.
    + exists EDrain. simpl. rewrite Est. eauto.
  - destruct (step t e) as [t1|] eqn:E; [|done]. intros Hr.
    destruct (prompt_step t e t1 He E) as [Es Hw]. destruct (IH t1) as (H1 & H2 & H3); [congruence|done|].
    split; [lia|]. split; [done|]. intros Hne Hex.
    destruct (tm_stage t1) eqn:Hx; [by apply H3..|].
    unfold work_left in H1. rewrite Hx in H1. destruct es; [|simpl in H1; lia]. injection Hr as <-.
    by apply (exit_step t e).
Qed.
(** A record handed over after the dispatcher has exited, with room in the
    queue, is neither persisted nor counted, whatever happens next: a request
    that outlives the drain deadline loses its accounting silently. *)
Theorem late_record_vanishes t r now now' es t' :
  tm_stage t = Exited → (length (tm_ch t) < tm_cap t)%nat →
  run (Record_ t r now now') es = Some t' →
  r ∈ tm_ch t' ∧ tm_persisted t' = tm_persisted t ∧
  (Forall (λ e, match e with ERecord _ _ _ => False | _ => True end) es → tm_metrics t' = tm_metrics t).
Proof.
  intros Hx Hl. unfold Record_. rewrite (proj2 (Nat.ltb_lt _ _) Hl). intros Hr.
  assert (∀ u, tm_stage u = Exited → r ∈ tm_ch u → run u es = Some t' →
    r ∈ tm_ch t' ∧ tm_persisted t' = tm_persisted u ∧
    (Forall (λ e, match e with ERecord _ _ _ => False | _ => True end) es → tm_metrics t' = tm_metrics u)) as Hgo.
  2: { apply Hgo in Hr; [done|done|]. simpl. auto with gate. }
  clear. induction es as [|e es IH]; intros u Hx Hin; simpl; [by intros [= <-]|].
  destruct (step u e) as [u'|] eqn:E; [|done]. intros Hr.
  destruct e as [r' n n'| | | | | |]; simpl in E; rewrite ?Hx in E; simplify_eq.
  - destruct (IH (Record_ u r' n n')) as (H1 & H2 & _); [| |done|].
    + unfold Record_. destruct (_ <? _)%nat; [done|]. unfold warn. by destruct (_ <? _).
    + unfold Record_. destruct (_ <? _)%nat; [simpl; auto with gate|]. unfold warn. by destruct (_ <? _).
    + split; [done|]. split; [|by intros [? _]%Forall_cons].
      rewrite H2. unfold Record_, warn. by split_if.
  - destruct (IH (Close u)) as (H1 & H2 & H3); [done..|]. split_and!; [done..|].
    by intros [_ ?]%Forall_cons; apply H3.
  - destruct (tm_stop u); simplify_eq.
Qed.

(** *** Witnesses *)

Definition usage_row (id : string) : UsageRecord :=
  {| u_RequestID := id; u_ClientRequestID := ""; u_TenantID := "ten_1"; u_KeyPrefix := "cg-1";
     u_Provider := "p"; u_Model := "m"; u_RequestedModel := "m"; u_FallbackDepth := 0;
     u_PromptTokens := 1; u_CompletionToken := 1; u_TotalTokens := 2; u_CostUSD := S754_zero false;
     u_ChargeUSD := S754_zero false; u_BillingMode := ""; u_Cached := false; u_Streamed := false;
     u_StatusCode := 200; u_DurationMS := 1; u_RecordedAt := 1 |}.
Definition down : sink_error := {| se_err := ErrText (text "connection refused"); se_Permanent := None |}.
Definition malformed : sink_error := {| se_err := ErrText (text "400"); se_Permanent := Some true |}.
Definition late : Z := 100 * Second.

(** A queue of two: one record persisted after a retry, one refused for want of
    room, one malformed, one lost to the shutdown. *)
Definition busy_day : list event :=
  [ERecord (usage_row "a") 0 0; ETake; ERecord (usage_row "b") 0 0; ERecord (usage_row "c") 0 0;
   ERecord (usage_row "d") late late; ESink (Some down) late late; ETimer; ESink None late late;
   ETake; ESink (Some malformed) late late; EClose; EStop; EDrain; ESink (Some down) late late; EDrain].

Lemma every_record_is_accounted_for_witness :
  ∃ t, run (NewTelemetry 2 true true) busy_day = Some t ∧ tm_persisted t = [usage_row "a"] ∧
    tm_metrics t = Some 3 ∧ tm_stage t = Exited ∧
    ∃ settled refused, offered busy_day ≡ₚ settled.*1 ++ refused ∧ kept settled = [usage_row "a"] ∧
      3 = Z.of_nat (length refused) + losses settled.
Proof.
  destruct (run (NewTelemetry 2 true true) busy_day) as [t|] eqn:E; [|by vm_compute in E].
  exists t. destruct (every_record_is_accounted_for 2 true busy_day t E) as (s & f & c & H1 & _ & H3 & H4 & H5 & _).
  vm_compute in E. injection E as <-. simpl in *. injection H4 as <-. split_and!; [done..|].
  unfold pending in H5. simpl in H5. exists s, f. split_and!; [done|by symmetry|lia].
Defined.

Lemma telemetry_refines_ledger_witness :
  ∃ t l, run (NewTelemetry 2 true true) busy_day = Some t ∧ rtc ledger_step no_ledger l ∧
    lg_offered l = usage_row <$> ["a"; "b"; "c"; "d"] ∧ kept (lg_settled l) = [usage_row "a"].
Proof.
  destruct (run (NewTelemetry 2 true true) busy_day) as [t|] eqn:E; [|by vm_compute in E].
  destruct (telemetry_refines_ledger 2 true true busy_day t E) as ((l & H1 & H2 & H3) & _).
  exists t, l. split_and!; [done..|]. rewrite <-(im_kept _ _ H3). vm_compute in E. by injection E as <-.
Defined.

Lemma outage_loses_nothing_witness :
  let t := mkTelemetry 2 [usage_row "a"; usage_row "b"] false AtSelect None None 0 0 [] in
  ∃ t', run t (concat (struggle <$> [[(down, 0, 0); (down, 0, 0)]; []])) = Some t' ∧
    tm_persisted t' = [usage_row "a"; usage_row "b"] ∧ tm_ch t' = [].
Proof.
  intros t. destruct (outage_loses_nothing t [[(down, 0, 0); (down, 0, 0)]; []])
    as (t' & H1 & _ & H2 & H3 & _); [done|done|by repeat constructor|eauto].
Defined.

Lemma shutdown_terminates_witness :
  let t := mkTelemetry 2 [usage_row "a"] true AtSelect None None 0 0 [] in
  work_left t = 5%nat ∧
  ∃ t', run t [ETake; ESink (Some down) 0 0; EStop; EStop; EDrain] = Some t' ∧
    (5 ≤ work_left t)%nat ∧ tm_stage t' = Exited ∧ tm_ch t' = [].
Proof.
  intros t. split; [done|].
  destruct (run t [ETake; ESink (Some down) 0 0; EStop; EStop; EDrain]) as [t'|] eqn:E; [|by vm_compute in E].
  exists t'. destruct (shutdown_terminates t [ETake; ESink (Some down) 0 0; EStop; EStop; EDrain] t')
    as (H1 & _ & H3); [done|by repeat constructor|done|].
  assert (tm_stage t' = Exited) as Hx by (vm_compute in E; by injection E as <-). auto.
Defined.

Lemma late_record_vanishes_witness :
  let t := mkTelemetry 2 [] true Exited None (Some 0) 0 0 [] in
  ∃ t', run (Record_ t (usage_row "z") 0 0) [EClose] = Some t' ∧ usage_row "z" ∈ tm_ch t' ∧
    tm_persisted t' = [] ∧ tm_metrics t' = Some 0.
Proof.
  intros t. eexists. split; [reflexivity|].
  destruct (late_record_vanishes t (usage_row "z") 0 0 [EClose] (Close (Record_ t (usage_row "z") 0 0)))
    as (H1 & H2 & H3); [done|simpl; lia|done|]. split_and!; [done..|]. apply H3. by repeat constructor.
Defined.
End TelemetryFacts.
