(* ===== verification/Events.v ===== *)
(** * Events and webhooks (internal/events/events.go, hooks.go)

    [Emit] stores an event and fans it out to the tenant's subscribed webhooks;
    a pool of workers delivers. Emit runs on the caller's goroutine and never
    blocks, so it is one function on the store and the dispatcher. A worker is
    where it stands between two blocking points, and an execution of the pool is
    a sequence of worker steps ([wstep]) and emissions; [wstep] is [None] where
    the worker would block. What an endpoint answers is part of the step. The
    store is reached through the class [EventStore]. Deliveries are numbered in
    the order they are queued ([dl_n]) to tell them apart; the numbers are not
    in the code. *)

From S2P Require Import Prelude GoStrings GoTime GoFloat Calendar GoFormat ApiErr StoreTypes Keys Json Memory MemoryFacts Breaker Catalog.
From Stdlib Require Import Ascii.

#[local] Open Scope Z_scope.
#[local] Open Scope stdpp_scope.

(** ** The registry *)

Definition QuotaThresholdCrossed : string := "quota.threshold_crossed".
Definition QuotaHardCapReached : string := "quota.hard_cap_reached".
Definition BreakerOpened : string := "breaker.opened".
Definition BreakerClosed : string := "breaker.closed".
Definition CatalogModelAdded : string := "catalog.model_added".
Definition CatalogModelRemoved : string := "catalog.model_removed".
Definition AliasDegraded : string := "alias.degraded".
Definition RuleDegraded : string := "rule.degraded".
Definition DebugCaptureEnabled : string := "debug_capture.enabled".
Definition DebugCaptureDisabled : string := "debug_capture.disabled".

Definition Registry : list string :=
  [QuotaThresholdCrossed; QuotaHardCapReached; BreakerOpened; BreakerClosed; CatalogModelAdded;
   CatalogModelRemoved; AliasDegraded; RuleDegraded; DebugCaptureEnabled; DebugCaptureDisabled].

(** ** Data *)

Record Envelope := {
  nv_ID : string;
  nv_Type : string;
  nv_Created : Z;
  nv_Tenant : string;
  nv_Data : gmap string datum
}.

Record EventOptions := {
  eo_MaxAttempts : Z;
  eo_Timeout : Z;
  eo_BaseBackoff : Z;
  eo_Queue : Z;
  eo_Workers : Z
}.

Record delivery := {
  dl_n : nat;
  dl_webhook : Webhook;
  dl_body : string;
  dl_eventID : string;
  dl_typ : string
}.

(** Where a worker stands: the select of [work], a request in progress, or the
    select of [deliver] after a failed attempt. *)
Inductive worker :=
  | WIdle
  | WTrying (job : delivery) (attempt backoff : Z)
  | WWaiting (job : delivery) (attempt backoff : Z)
  | WGone.

(** A request an endpoint got, and whether it accepted it. *)
Record posted := {
  po_n : nat;
  po_URL : string;
  po_EventID : string;
  po_Signature : string;
  po_Body : string;
  po_attempt : Z;
  po_ok : bool
}.

Inductive event_log :=
  | LogCannotRecord (eventID : string)
  | LogCannotList (tenant : string)
  | LogCannotEncode (eventID : string)
  | LogQueueFull (eventID webhookID : string)
  | LogDelivered (eventID webhookID : string) (attempt : Z)
  | LogGivingUp (eventID webhookID : string) (attempts : Z).

Record EventDispatcher := mkED {
  ed_opts : EventOptions;
  ed_queue : list delivery;
  ed_next : nat;
  ed_stop : bool;
  ed_workers : list worker;
  ed_posted : list posted;
  ed_log : list event_log
}.

(** ** Construction *)

Definition with_defaults (o : EventOptions) : EventOptions :=
  {| eo_MaxAttempts := if eo_MaxAttempts o <? 1 then 5 else eo_MaxAttempts o;
     eo_Timeout := if eo_Timeout o <=? 0 then 10 * Second else eo_Timeout o;
     eo_BaseBackoff := if eo_BaseBackoff o <=? 0 then 5 * Second else eo_BaseBackoff o;
     eo_Queue := if eo_Queue o <? 1 then 256 else eo_Queue o;
     eo_Workers := if eo_Workers o <? 1 then 8 else eo_Workers o |}.

(** [New] *)
Definition NewED (o : EventOptions) : EventDispatcher :=
  let o := with_defaults o in
  mkED o [] 0 false (replicate (Z.to_nat (eo_Workers o)) WIdle) [] [].

(** ** Signing *)

Section signing.
Context `{Crypto}.

Definition xor_byte (x : N) (c : ascii) : ascii := ascii_of_N (N.lxor x (N_of_ascii c)).

Fixpoint xor_pad (x : N) (s : string) : string :=
  match s with "" => "" | String c s' => String (xor_byte x c) (xor_pad x s') end.

(** The key filled up to the block size of SHA-256; a longer one is hashed. *)
Definition hmac_key (key : string) : string :=
  let key := if (64 <? String.length key)%nat then Sum256 key else key in
  key +:+ Repeat (String zero "") (64 - String.length key).

(** [hmac.New(sha256.New, key)], written once and summed *)
Definition hmac_sha256 (key msg : string) : string :=
  let k := hmac_key key in
  Sum256 (xor_pad 92 k +:+ Sum256 (xor_pad 54 k +:+ msg)).

Definition Sign (secret body : string) : string := "sha256=" +:+ hex_encode (hmac_sha256 secret body).
End signing.

(** ** Emission *)

Definition subscribed (events : list string) (typ : string) : bool :=
  existsb (λ e, bool_decide (e = typ)) events.

(** What the dispatcher asks of the store. *)
Class EventStore (S : Type) := {
  evs_RecordEvent : S → Event → res error () * S;
  evs_ListWebhooks : S → string → res error (list Webhook)
}.

#[export] Instance memory_event_store : EventStore Memory := {|
  evs_RecordEvent m e := (Ok (), RecordEvent m e);
  evs_ListWebhooks m t := Ok (ListWebhooks m t)
|}.

(** encoding/json's text of a float64; [None] for a NaN or an infinity, which it
    refuses. *)
Class JsonNumbers := { float_literal : f64 → option string }.

Definition datum_json `{JsonNumbers} (d : datum) : option json :=
  match d with
  | DStr s => Some (JStr s)
  | DInt z => Some (JNum (Itoa z))
  | DFloat f => JNum <$> float_literal f
  end.

(** [json.Marshal(envelope)]: fields in declaration order, the keys of the
    payload sorted. A year past 9999 is not representable. *)
Definition encode_envelope `{JsonCodec} `{JsonNumbers} (e : Envelope) : option string :=
  data ← mapM (λ kv, (λ j, (kv.1, j)) <$> datum_json kv.2) (map_to_list (nv_Data e));
  if (0 <=? Year (nv_Created e)) && (Year (nv_Created e) <=? 9999) then
    Some (Marshal (JObj [("id", JStr (nv_ID e)); ("type", JStr (nv_Type e));
      ("created", JStr (RFC3339Nano (nv_Created e))); ("tenant", JStr (nv_Tenant e));
      ("data", JObj (sort_slice (λ a b, String.ltb a.1 b.1) data))]))
  else None.

Definition elog (d : EventDispatcher) (l : event_log) : EventDispatcher :=
  mkED (ed_opts d) (ed_queue d) (ed_next d) (ed_stop d) (ed_workers d) (ed_posted d) (ed_log d ++ [l]).

Definition set_worker (d : EventDispatcher) (i : nat) (w : worker) : EventDispatcher :=
  mkED (ed_opts d) (ed_queue d) (ed_next d) (ed_stop d) (<[i := w]> (ed_workers d)) (ed_posted d) (ed_log d).

(** The body of the loop of [Emit] over the webhooks. *)
Definition offer_hook (body eventID typ : string) (d : EventDispatcher) (h : Webhook) : EventDispatcher :=
  if negb (w_Enabled h) || negb (subscribed (w_Events h) typ) then d
  else if Z.of_nat (length (ed_queue d)) <? eo_Queue (ed_opts d) then
    let job := {| dl_n := ed_next d; dl_webhook := h; dl_body := body; dl_eventID := eventID;
                  dl_typ := typ |} in
    mkED (ed_opts d) (ed_queue d ++ [job]) (S (ed_next d)) (ed_stop d) (ed_workers d) (ed_posted d) (ed_log d)
  else elog d (LogQueueFull eventID (w_ID h)).

(** [Emit]; [rnd] are the random bytes of the event id. *)
Definition Emit `{JsonCodec} `{JsonNumbers} {S} `{EventStore S} (rnd : string) (now : Z)
    (tenantID eventType : string) (data : gmap string datum) (st : S * EventDispatcher) :
    S * EventDispatcher :=
  let '(s, d) := st in
  let envelope := {| nv_ID := NewID IDEvent rnd; nv_Type := eventType; nv_Created := now;
                     nv_Tenant := tenantID; nv_Data := data |} in
  let '(recorded, s) := evs_RecordEvent s
    {| e_ID := nv_ID envelope; e_Type := eventType; e_Created := now; e_TenantID := tenantID;
       e_Data := data |} in
  let d := match recorded with Ok _ => d | Err _ => elog d (LogCannotRecord (nv_ID envelope)) end in
  match evs_ListWebhooks s tenantID with
  | Err _ => (s, elog d (LogCannotList tenantID))
  | Ok hooks =>
      match encode_envelope envelope with
      | None => (s, elog d (LogCannotEncode (nv_ID envelope)))
      | Some body => (s, foldl (offer_hook body (nv_ID envelope) eventType) d hooks)
      end
  end.

(** ** Delivery *)

Section workers.
Context `{Crypto}.

(** What an endpoint did with a request: the status it answered, or nothing. *)
Definition accepted (reply : option Z) : bool :=
  match reply with Some status => negb ((status <? 200) || (299 <? status)) | None => false end.

(** The request of [attempt], and its outcome. *)
Definition post (job : delivery) (attempt : Z) (reply : option Z) : posted :=
  {| po_n := dl_n job; po_URL := w_URL (dl_webhook job); po_EventID := dl_eventID job;
     po_Signature := Sign (w_Secret (dl_webhook job)) (dl_body job); po_Body := dl_body job;
     po_attempt := attempt; po_ok := accepted reply |}.

Definition add_posted (d : EventDispatcher) (p : posted) : EventDispatcher :=
  mkED (ed_opts d) (ed_queue d) (ed_next d) (ed_stop d) (ed_workers d) (ed_posted d ++ [p]) (ed_log d).

(** The body of the loop of [deliver], from the endpoint's answer to the next
    blocking point of worker [i]. *)
Definition deliver (d : EventDispatcher) (i : nat) (job : delivery) (attempt backoff : Z)
    (reply : option Z) : EventDispatcher :=
  let d := add_posted d (post job attempt reply) in
  if accepted reply then
    set_worker (elog d (LogDelivered (dl_eventID job) (w_ID (dl_webhook job)) attempt)) i WIdle
  else if attempt =? eo_MaxAttempts (ed_opts d) then
    set_worker (elog d (LogGivingUp (dl_eventID job) (w_ID (dl_webhook job)) attempt)) i WIdle
  else set_worker d i (WWaiting job attempt backoff).

(** [Close] up to its wait for the workers. *)
Definition CloseED (d : EventDispatcher) : EventDispatcher :=
  mkED (ed_opts d) (ed_queue d) (ed_next d) true (ed_workers d) (ed_posted d) (ed_log d).

Inductive wmove := MPick | MQuit | MReply (reply : option Z) | MWake | MAbandon.

(** A step of worker [i]. *)
Definition wstep (d : EventDispatcher) (i : nat) (m : wmove) : option EventDispatcher :=
  w ← ed_workers d !! i;
  match w, m with
  | WIdle, MPick =>
      match ed_queue d with
      | job :: q =>
          Some (set_worker (mkED (ed_opts d) q (ed_next d) (ed_stop d) (ed_workers d) (ed_posted d) (ed_log d))
                  i (WTrying job 1 (eo_BaseBackoff (ed_opts d))))
      | [] => None
      end
  | WIdle, MQuit => if ed_stop d then Some (set_worker d i WGone) else None
  | WTrying job a b, MReply reply => Some (deliver d i job a b reply)
  | WWaiting job a b, MWake => Some (set_worker d i (WTrying job (a + 1) (wrap64 (b * 2))))
  | WWaiting job a b, MAbandon => if ed_stop d then Some (set_worker d i WIdle) else None
  | _, _ => None
  end.
End workers.

(** ** Hooks *)

(** What a breaker transition publishes: tenant, type and payload. *)
Abbreviation emission := (string * string * gmap string datum)%type.

Definition BreakerHook (key : string) (from to : State) : option emission :=
  match (match to with StateOpen => Some BreakerOpened | StateClosed => Some BreakerClosed
         | StateHalfOpen => None end) with
  | None => None
  | Some typ =>
      let '(tenantID, provider, model) := SplitKey key in
      if bool_decide (tenantID = "") then None
      else Some (tenantID, typ,
                 <["provider" := DStr provider]> (<["model" := DStr model]>
                   (<["state" := DStr (State_String to)]>
                     (<["previous_state" := DStr (State_String from)]> ∅))))
  end.

(** What a catalog change publishes, in order. *)
Definition CatalogHook (tenantID : string) (added removed : list string) : list emission :=
  if bool_decide (tenantID = "") then []
  else ((λ id, (tenantID, CatalogModelAdded, {["model" := DStr id]})) <$> added) ++
       ((λ id, (tenantID, CatalogModelRemoved, {["model" := DStr id]})) <$> removed).

(** ** Executions *)

Section executions.
Context `{JsonCodec} `{JsonNumbers} `{Crypto} {S : Type} `{EventStore S}.

Inductive ed_op :=
  | OpEmit (rnd : string) (now : Z) (tenantID eventType : string) (data : gmap string datum)
  | OpWork (i : nat) (m : wmove)
  | OpCloseED.

Definition apply_ed (st : S * EventDispatcher) (o : ed_op) : option (S * EventDispatcher) :=
  match o with
  | OpEmit rnd now t typ data => Some (Emit rnd now t typ data st)
  | OpWork i m => (λ d, (st.1, d)) <$> wstep st.2 i m
  | OpCloseED => Some (st.1, CloseED st.2)
  end.

Fixpoint run_ed (st : S * EventDispatcher) (ops : list ed_op) : option (S * EventDispatcher) :=
  match ops with
  | [] => Some st
  | o :: ops' => st' ← apply_ed st o; run_ed st' ops'
  end.
End executions.

(** ** Lemmas *)

Module EventsFacts.
Section pool.
Context `{Crypto}.

Definition job_of (w : worker) : option delivery :=
  match w with WTrying j _ _ | WWaiting j _ _ => Some j | _ => None end.

(** The delivery a worker is busy with. *)
Definition busy (d : EventDispatcher) (i : nat) (j : delivery) : Prop :=
  ∃ w, ed_workers d !! i = Some w ∧ job_of w = Some j.

(** The deliveries the pool has in hand. *)
Definition in_hand (d : EventDispatcher) (j : delivery) : Prop := j ∈ ed_queue d ∨ ∃ i, busy d i j.

Definition entries (d : EventDispatcher) (n : nat) : list posted :=
  List.filter (λ p, Nat.eqb (po_n p) n) (ed_posted d).

(** The first [k] attempts of a delivery, all refused. *)
Definition failures (job : delivery) (k : nat) : list posted :=
  (λ i, post job (Z.of_nat i + 1) None) <$> seq 0 k.

Lemma failures_S job k : failures job (S k) = failures job k ++ [post job (Z.of_nat k + 1) None].
Proof. unfold failures. by rewrite seq_S, fmap_app. Qed.

Lemma post_refused job a reply : accepted reply = false → post job a reply = post job a None.
Proof. unfold post. by intros ->. Qed.

Lemma post_accepted job a reply : accepted reply = true → post job a reply = post job a (Some 200).
Proof. unfold post. by intros ->. Qed.

(** A delivery that has left the pool: accepted, out of attempts, or abandoned
    by a shutdown. *)
Definition settled (d : EventDispatcher) (n : nat) : Prop :=
  ∃ job k, dl_n job = n ∧
    ((entries d n = failures job k ++ [post job (Z.of_nat k + 1) (Some 200)] ∧
      Z.of_nat k < eo_MaxAttempts (ed_opts d)) ∨
     (entries d n = failures job k ∧ Z.of_nat k ≤ eo_MaxAttempts (ed_opts d) ∧
      (Z.of_nat k = eo_MaxAttempts (ed_opts d) ∨ ed_stop d = true))).

(** What a worker's position says of the attempts made so far. *)
Definition on_schedule (o : EventOptions) (done : nat → list posted) (w : worker) : Prop :=
  match w with
  | WTrying j a b =>
      1 ≤ a ≤ eo_MaxAttempts o ∧ b = wrap64 (eo_BaseBackoff o * 2 ^ (a - 1)) ∧
      done (dl_n j) = failures j (Z.to_nat (a - 1))
  | WWaiting j a b =>
      1 ≤ a < eo_MaxAttempts o ∧ b = wrap64 (eo_BaseBackoff o * 2 ^ (a - 1)) ∧
      done (dl_n j) = failures j (Z.to_nat a)
  | _ => True
  end.

Record pool_ok (d : EventDispatcher) : Prop := {
  pk_opts : 1 ≤ eo_MaxAttempts (ed_opts d) ∧ in_int64 (eo_BaseBackoff (ed_opts d)) ∧
            Z.of_nat (length (ed_queue d)) ≤ eo_Queue (ed_opts d);
  pk_queue : NoDup (dl_n <$> ed_queue d);
  pk_apart j i j' : j ∈ ed_queue d → busy d i j' → dl_n j ≠ dl_n j';
  pk_busy i i' j j' : busy d i j → busy d i' j' → dl_n j = dl_n j' → i = i';
  pk_bound j : in_hand d j → (dl_n j < ed_next d)%nat;
  pk_queued j : j ∈ ed_queue d → entries d (dl_n j) = [];
  pk_sched i w : ed_workers d !! i = Some w → on_schedule (ed_opts d) (entries d) w;
  pk_fresh n : (ed_next d ≤ n)%nat → entries d n = [];
  pk_rest n : (n < ed_next d)%nat → (∃ j, in_hand d j ∧ dl_n j = n) ∨ settled d n
}.

Lemma elog_pool d l : pool_ok d → pool_ok (elog d l).
Proof. by intros [? ? ? ? ? ? ? ? ?]. Qed.

Lemma close_pool d : pool_ok d → pool_ok (CloseED d).
Proof.
  intros [H0 H1 H2 H3 H4 H5 H6 H7 H8]. split; try done. intros n Hn.
  destruct (H8 n Hn) as [?|(job & k & E & [?|(? & ? & ?)])]; [by left|right..]; exists job, k; split;
    [done|by left|done|right]. split_and!; [done..|by right].
Qed.

Lemma offer_pool body id typ d h : pool_ok d → pool_ok (offer_hook body id typ d h).
Proof.
  intros Hd. unfold offer_hook. destruct (_ || _); [done|].
  destruct (Z.ltb_spec (Z.of_nat (length (ed_queue d))) (eo_Queue (ed_opts d))) as [Hlt|_];
    [|by apply elog_pool]. destruct Hd as [H0 H1 H2 H3 H4 H5 H6 H7 H8].
  set (job := {| dl_n := ed_next d |}).
  assert (∀ j, in_hand d j → dl_n j ≠ ed_next d) as Hnew by (intros j Hj; apply H4 in Hj; lia).
  split; simpl; try done.
  - rewrite length_app. simpl. destruct H0 as (? & ? & ?). split_and!; [done..|lia].
  - rewrite fmap_app. apply NoDup_app. split_and!; [done| |by apply NoDup_singleton].
    intros n (j & -> & Hj)%list_elem_of_fmap E%list_elem_of_singleton.
    apply (Hnew j); [by left|exact E].
  - intros j i j' [Hj| ->]%elem_of_snoc Hb; [by apply (H2 j i)|].
    intros E. apply (Hnew j'); [right; by exists i|by symmetry].
  - intros j [[Hj| ->]%elem_of_snoc|[i Hb]]; simpl; [|lia|];
      [pose proof (H4 j (or_introl Hj))|pose proof (H4 j (or_intror (ex_intro _ i Hb)))]; lia.
  - intros j [Hj| ->]%elem_of_snoc; [by apply H5|apply H7; simpl; lia].
  - intros n Hn. apply H7. lia.
  - intros n Hn. destruct (decide (n = ed_next d)) as [->|Hne].
    + left. exists job. split; [|done]. left. simpl. auto with gate.
    + destruct (H8 n) as [(j & [Hj|Hb] & E)|(j & k & E & Hs)]; [lia|left; exists j; split; [left; simpl; auto with gate|done]| |].
      * left. exists j. split; [by right|done].
      * right. by exists j, k.
Qed.

Lemma offers_pool body id typ hooks d : pool_ok d → pool_ok (foldl (offer_hook body id typ) d hooks).
Proof. revert d; induction hooks as [|h hooks IH]; intros d Hd; simpl; [done|]. by apply IH, offer_pool. Qed.

Lemma replaced (ws : list worker) i w' i' x : <[i := w']> ws !! i' = Some x →
  (i' = i ∧ x = w') ∨ (i' ≠ i ∧ ws !! i' = Some x).
Proof.
  intros [(-> & -> & _)|[Hne Hx]]%list_lookup_insert_Some; [by left|right]. split; [congruence|done].
Qed.

(** A step of worker [i], concerned with delivery [n] only, keeps the pool in
    order. *)
Lemma moved_pool d d' i w' n :
  pool_ok d → ed_opts d' = ed_opts d → ed_next d' = ed_next d →
  ed_workers d' = <[i := w']> (ed_workers d) → (i < length (ed_workers d))%nat →
  ed_queue d' `suffix_of` ed_queue d → (∀ j, j ∈ ed_queue d' → dl_n j ≠ n) →
  (∀ i' j, i' ≠ i → busy d i' j → dl_n j ≠ n) →
  (∀ m, m ≠ n → entries d' m = entries d m) → (n < ed_next d)%nat →
  (∀ j, job_of w' = Some j → dl_n j = n) → on_schedule (ed_opts d) (entries d') w' →
  (∀ m, m ≠ n → settled d m → settled d' m) →
  (∀ j, dl_n j ≠ n → in_hand d j → in_hand d' j) → is_Some (job_of w') ∨ settled d' n →
  pool_ok d'.
Proof.
  intros [H0 H1 H2 H3 H4 H5 H6 H7 H8] Eo En Ew Hi Hsuf Hq Hb He Hn Hw' Hs' Hset Hin Hfin.
  assert (∀ j, j ∈ ed_queue d' → j ∈ ed_queue d) as Hsub.
  { intros j. destruct Hsuf as [l ->]. rewrite elem_of_app. auto. }
  assert (∀ i' j, busy d' i' j → (i' = i ∧ dl_n j = n) ∨ (i' ≠ i ∧ busy d i' j ∧ dl_n j ≠ n)) as Hbusy.
  { intros i' j (x & Hx & Ej). rewrite Ew in Hx. apply replaced in Hx as [[-> ->]|[Hne Hx]]; [left; auto|right].
    assert (busy d i' j) as Hbj by (by exists x). split_and!; [done..|by apply (Hb i')]. }
  split; rewrite ?Eo, ?En.
  - destruct H0 as (? & ? & Hl). split_and!; [done..|]. destruct Hsuf as [l Hl']. rewrite Hl', length_app in Hl. lia.
  - destruct Hsuf as [l Hl]. rewrite Hl, fmap_app in H1. by apply NoDup_app in H1 as (_ & _ & ?).
  - intros j i' j' Hj [[-> ->]|(? & Hbj & _)]%Hbusy; [by apply Hq|]. by apply (H2 j i'); [apply Hsub|].
  - intros i1 i2 j1 j2 [[-> E1]|(? & Hb1 & E1)]%Hbusy [[-> E2]|(? & Hb2 & E2)]%Hbusy E;
      [done|congruence|congruence|by apply (H3 i1 i2 j1 j2)].
  - intros j [Hj|[i' [[-> ->]|(_ & Hbj & _)]%Hbusy]]; [|done|]; apply H4; [left; auto|right; eauto].
  - intros j Hj. rewrite He by auto. auto.
  - intros i' x Hx. rewrite Ew in Hx. apply replaced in Hx as [[-> ->]|[Hne Hx]]; [done|].
    pose proof (H6 i' x Hx) as Hsx. destruct x as [|j a b|j a b|]; simpl in *; try done;
      (rewrite He; [done|apply (Hb i'); [done|by eexists]]).
  - intros m Hm. rewrite He by lia. auto.
  - intros m Hm. destruct (decide (m = n)) as [->|Hne].
    + destruct Hfin as [[j Hj]|?]; [left|by right]. exists j. split; [|auto]. right. exists i, w'.
      rewrite Ew. split; [by rewrite list_lookup_insert_eq|done].
    + destruct (H8 m Hm) as [(j & Hj & <-)|?]; [left|right; auto]. exists j. split; [by apply Hin|done].
Qed.

Lemma settled_frame d d' n :
  ed_opts d' = ed_opts d → ed_stop d' = ed_stop d → entries d' n = entries d n → settled d n → settled d' n.
Proof. intros Eo Es Ee (j & k & E & Hs). exists j, k. by rewrite Eo, Es, Ee. Qed.

Lemma entries_other d p n : po_n p ≠ n → entries (add_posted d p) n = entries d n.
Proof.
  intros Hne. unfold entries. simpl. rewrite List.filter_app. simpl.
  rewrite (proj2 (Nat.eqb_neq _ _)) by done. by rewrite app_nil_r.
Qed.

Lemma entries_own d p : entries (add_posted d p) (po_n p) = entries d (po_n p) ++ [p].
Proof. unfold entries. simpl. rewrite List.filter_app. simpl. by rewrite Nat.eqb_refl. Qed.

(** The step of a busy worker that keeps the queue. *)
Lemma busy_step_pool d d' i w w' j :
  pool_ok d → ed_workers d !! i = Some w → job_of w = Some j →
  ed_opts d' = ed_opts d → ed_next d' = ed_next d → ed_stop d' = ed_stop d →
  ed_workers d' = <[i := w']> (ed_workers d) → ed_queue d' = ed_queue d →
  (∀ m, m ≠ dl_n j → entries d' m = entries d m) →
  job_of w' = None ∨ job_of w' = Some j → on_schedule (ed_opts d) (entries d') w' →
  is_Some (job_of w') ∨ settled d' (dl_n j) → pool_ok d'.
Proof.
  intros Hd Hw Hj Eo En Es Ew Eq He Hw' Hs Hfin. pose proof Hd as [_ _ H2 H3 H4 _ _ _ _].
  assert (busy d i j) as Hb by (by exists w).
  assert (∀ i' j', i' ≠ i → busy d i' j' → dl_n j' ≠ dl_n j) as Hoth.
  { intros i' j' Hne Hb' E. by apply Hne, (H3 i' i j' j). }
  apply (moved_pool d d' i w' (dl_n j)); auto.
  - by eapply lookup_lt_Some.
  - by rewrite Eq.
  - rewrite Eq. intros j' Hj'. by apply (H2 j' i).
  - apply H4. right. by exists i.
  - intros j' E. destruct Hw' as [Hw'|Hw']; congruence.
  - intros m Hm. apply settled_frame; auto.
  - intros j' Hne [Hin|(i' & x & Hx & Ex)]; [left; by rewrite Eq|right]. exists i', x.
    rewrite Ew, list_lookup_insert_ne; [done|]. intros <-. rewrite Hw in Hx. injection Hx as <-. congruence.
Qed.

Lemma pick_pool d i job q :
  pool_ok d → ed_workers d !! i = Some WIdle → ed_queue d = job :: q →
  pool_ok (set_worker (mkED (ed_opts d) q (ed_next d) (ed_stop d) (ed_workers d) (ed_posted d) (ed_log d))
             i (WTrying job 1 (eo_BaseBackoff (ed_opts d)))).
Proof.
  intros Hd Hw Hq. pose proof Hd as [H0 H1 H2 H3 H4 H5 H6 H7 H8].
  assert (job ∈ ed_queue d) as Hjob by (rewrite Hq; by left).
  assert (dl_n job ∉ dl_n <$> q) as Hout by (rewrite Hq in H1; by apply NoDup_cons in H1 as [? _]).
  apply (moved_pool d _ i (WTrying job 1 (eo_BaseBackoff (ed_opts d))) (dl_n job)); simpl; auto.
  - by eapply lookup_lt_Some.
  - rewrite Hq. by exists [job].
  - intros j Hj E. apply Hout. rewrite <-E. by apply list_elem_of_fmap_2.
  - intros i' j Hne Hb E. by apply (H2 job i' j).
  - apply H4. by left.
  - by intros j [= ->].
  - split_and!; [lia|lia| |by apply H5]. rewrite Z.mul_1_r. symmetry. by apply wrap64_small, H0.
  - intros j Hne [Hin|(i' & x & Hx & Ex)].
    + left. simpl. rewrite Hq in Hin. by apply elem_of_cons in Hin as [->|?].
    + right. exists i', x. simpl. rewrite list_lookup_insert_ne; [done|]. intros <-. by rewrite Hw in Hx; simplify_eq.
Qed.

Lemma quit_pool d i : pool_ok d → ed_workers d !! i = Some WIdle → pool_ok (set_worker d i WGone).
Proof.
  intros [H0 H1 H2 H3 H4 H5 H6 H7 H8] Hw.
  assert (∀ i' j, busy (set_worker d i WGone) i' j ↔ busy d i' j) as Hb.
  { intros i' j. split; intros (x & Hx & Ex).
    - apply replaced in Hx as [[_ ->]|[_ Hx]]; [done|by exists x].
    - exists x. simpl. rewrite list_lookup_insert_ne; [done|]. intros <-. by rewrite Hw in Hx; simplify_eq. }
  assert (∀ j, in_hand (set_worker d i WGone) j ↔ in_hand d j) as Hin.
  { intros j. unfold in_hand. by setoid_rewrite Hb. }
  split; try done; setoid_rewrite Hb || setoid_rewrite Hin || idtac; try done.
  - intros i' x Hx. apply replaced in Hx as [[_ ->]|[_ Hx]]; [done|by apply (H6 i')].
Qed.

Lemma wstep_pool d i m d' : pool_ok d → wstep d i m = Some d' → pool_ok d'.
Proof.
  intros Hd Hs. unfold wstep in Hs. destruct (ed_workers d !! i) as [w|] eqn:Hw; [|done]. simpl in Hs.
  pose proof (pk_sched d Hd i w Hw) as Hsch.
  destruct w as [|j a b|j a b|], m as [| |reply| |]; simplify_eq; simpl in Hsch.
  - destruct (ed_queue d) as [|job q] eqn:Eq; simplify_eq. by apply pick_pool.
  - destruct (ed_stop d); simplify_eq. by apply quit_pool.
  - destruct Hsch as (Ha & Hb & He). unfold deliver.
    assert (∀ m, m ≠ dl_n j → entries (add_posted d (post j a reply)) m = entries d m) as Hoth
      by (intros m Hm; apply entries_other; by symmetry).
    pose proof (entries_own d (post j a reply)) as Hown. change (po_n _) with (dl_n j) in Hown. rewrite He in Hown.
    assert (Z.of_nat (Z.to_nat (a - 1)) + 1 = a) as Ea by lia.
    assert (S (Z.to_nat (a - 1)) = Z.to_nat a) as Ea' by lia.
    destruct (accepted reply) eqn:Er; [|destruct (Z.eqb_spec a (eo_MaxAttempts (ed_opts (add_posted d (post j a reply))))) as [Em|Em]].
    + apply (busy_step_pool d _ i (WTrying j a b) WIdle j); auto; [done|]. right. exists j, (Z.to_nat (a - 1)). split; [done|].
      left. split; [|simpl; lia]. rewrite Ea, <-(post_accepted j a reply) by done. exact Hown.
    + apply (busy_step_pool d _ i (WTrying j a b) WIdle j); auto; [done|]. right. exists j, (Z.to_nat a). split; [done|].
      right. simpl in *. rewrite <-Ea', failures_S, Ea, <-(post_refused j a reply) by done.
      split_and!; [exact Hown|lia|left; lia].
    + apply (busy_step_pool d _ i (WTrying j a b) (WWaiting j a b) j); eauto; simpl in *.
      split_and!; [lia|lia|done|]. rewrite <-Ea', failures_S, Ea, <-(post_refused j a reply) by done. exact Hown.
  - destruct Hsch as (Ha & Hb & He).
    apply (busy_step_pool d _ i (WWaiting j a b) (WTrying j (a + 1) (wrap64 (b * 2))) j); eauto; simpl in *.
    split_and!; [lia|lia| |by replace (a + 1 - 1) with a by lia]. rewrite Hb.
    replace (a + 1 - 1) with (Z.succ (a - 1)) by lia. rewrite Z.pow_succ_r by lia.
    apply wrap64_eq. rewrite <-Z.mul_mod_idemp_l, wrap64_mod, Z.mul_mod_idemp_l by (by vm_compute). f_equal. lia.
  - destruct Hsch as (Ha & _ & He). destruct (ed_stop d) eqn:Est; simplify_eq.
    apply (busy_step_pool d _ i (WWaiting j a b) WIdle j); auto; [done|]. right. exists j, (Z.to_nat a). split; [done|].
    right. split_and!; [exact He|simpl; lia|by right].
Qed.

Lemma NewED_pool o : in_int64 (eo_BaseBackoff (with_defaults o)) → pool_ok (NewED o).
Proof.
  intros Hb. assert (∀ i j, ¬ busy (NewED o) i j) as Hno.
  { intros i j (w & Hw & Ej). apply lookup_replicate in Hw as [-> _]. done. }
  split; simpl.
  - split_and!; [|done|]; simpl; split_if; lia.
  - constructor.
  - by intros j i j' ?%not_elem_of_nil.
  - intros i i' j j' Hb1. by destruct (Hno i j).
  - intros j [?%not_elem_of_nil|[i Hb1]]; [done|]. by destruct (Hno i j).
  - by intros j ?%not_elem_of_nil.
  - intros i w [-> _]%lookup_replicate. done.
  - done.
  - intros n Hn. lia.
Qed.

(** A delivery in hand has failed fewer times than it may. *)
Lemma in_hand_failures d j : pool_ok d → in_hand d j →
  ∃ k, entries d (dl_n j) = failures j k ∧ Z.of_nat k < eo_MaxAttempts (ed_opts d).
Proof.
  intros [H0 _ _ _ _ H5 H6 _ _] [Hj|(i & w & Hw & Ej)].
  - exists 0%nat. split; [by apply H5|lia].
  - pose proof (H6 i w Hw) as Hs. destruct w as [|j' a b|j' a b|]; simplify_eq/=.
    + destruct Hs as (? & _ & ->). eexists. split; [done|lia].
    + destruct Hs as (? & _ & ->). eexists. split; [done|lia].
Qed.

Lemma HMAC_inj key m m' : hmac_sha256 key m = hmac_sha256 key m' →
  m = m' ∨ ∃ x y, x ≠ y ∧ Sum256 x = Sum256 y.
Proof.
  unfold hmac_sha256. set (o := xor_pad 92 _). set (i := xor_pad 54 _). intros E.
  destruct (decide (o +:+ Sum256 (i +:+ m) = o +:+ Sum256 (i +:+ m'))) as [E1|Hne]; [|right; eauto].
  apply str_app_inj_l in E1.
  destruct (decide (i +:+ m = i +:+ m')) as [E2|Hne]; [|right; eauto]. left. by apply str_app_inj_l in E2.
Qed.
End pool.

Section emit.
Context `{JsonCodec} `{JsonNumbers} `{Crypto}.

(** The webhooks an event of a type goes to. *)
Definition wanted (typ : string) (hooks : list Webhook) : list Webhook :=
  List.filter (λ h, w_Enabled h && subscribed (w_Events h) typ) hooks.

(** [d'] is [d] with [hooks] offered an event: those wanted are queued while
    there is room. *)
Definition offered_to (body id typ : string) (hooks : list Webhook) (d d' : EventDispatcher) : Prop :=
  ∃ new, ed_queue d' = ed_queue d ++ new ∧
    dl_webhook <$> new = take (Z.to_nat (eo_Queue (ed_opts d)) - length (ed_queue d)) (wanted typ hooks) ∧
    Forall (λ j, dl_body j = body ∧ dl_eventID j = id ∧ dl_typ j = typ) new ∧
    ed_workers d' = ed_workers d ∧ ed_posted d' = ed_posted d ∧ ed_opts d' = ed_opts d.

Lemma offer_hook_spec body id typ d h : offered_to body id typ [h] d (offer_hook body id typ d h).
Proof.
  unfold offer_hook, offered_to, wanted. simpl.
  destruct (w_Enabled h), (subscribed (w_Events h) typ); simpl;
    try (exists []; rewrite app_nil_r, take_nil; done).
  destruct (Z.ltb_spec (Z.of_nat (length (ed_queue d))) (eo_Queue (ed_opts d))) as [Hlt|Hge]; simpl.
  - eexists [_]. split; [done|]. rewrite take_ge by (simpl; lia). split_and!; [done| |done..]. by repeat constructor.
  - exists []. rewrite app_nil_r. replace (_ - _)%nat with 0%nat by lia. done.
Qed.

Lemma offers_queue body id typ hooks d :
  offered_to body id typ hooks d (foldl (offer_hook body id typ) d hooks).
Proof.
  revert d; induction hooks as [|h hooks IH]; intros d; cbn [foldl].
  { exists []. rewrite app_nil_r. change (wanted typ []) with (@nil Webhook). rewrite take_nil. done. }
  destruct (offer_hook_spec body id typ d h) as (n1 & A1 & A2 & A3 & A4 & A5 & A6).
  destruct (IH (offer_hook body id typ d h)) as (n2 & B1 & B2 & B3 & B4 & B5 & B6).
  exists (n1 ++ n2). rewrite B1, A1, <-app_assoc, B4, B5, B6, fmap_app, A2, B2, A1, A6, length_app.
  split_and!; [done| |by apply Forall_app|done..].
  assert (wanted typ (h :: hooks) = wanted typ [h] ++ wanted typ hooks) as ->.
  { unfold wanted. simpl. by destruct (_ && _). }
  rewrite take_app. f_equal. apply (f_equal length) in A2. rewrite length_fmap, length_take in A2.
  destruct (decide (Z.to_nat (eo_Queue (ed_opts d)) - length (ed_queue d) = 0)%nat) as [E|Hne].
  - by replace (_ - (_ + _))%nat with 0%nat by lia; replace (_ - _ - _)%nat with 0%nat by lia.
  - f_equal. assert (length (wanted typ [h]) ≤ 1)%nat by (unfold wanted; simpl; by destruct (_ && _); simpl; lia). lia.
Qed.

Lemma Emit_pool {S} `{EventStore S} rnd now t typ data st :
  pool_ok st.2 → pool_ok (Emit rnd now t typ data st).2.
Proof.
  destruct st as [s d]. intros Hd. unfold Emit. destruct (evs_RecordEvent _ _) as [r s'].
  assert (pool_ok (match r with Ok _ => d | Err _ => elog d (LogCannotRecord (NewID IDEvent rnd)) end)) as Hd'
    by (destruct r; [done|by apply elog_pool]).
  destruct (evs_ListWebhooks s' t); [|by apply elog_pool]. destruct (encode_envelope _); [|by apply elog_pool].
  by apply offers_pool.
Qed.

Lemma run_ed_pool {S} `{EventStore S} ops (st st' : S * EventDispatcher) :
  pool_ok st.2 → run_ed st ops = Some st' → pool_ok st'.2.
Proof.
  revert st; induction ops as [|o ops IH]; intros st Hd; simpl; [by intros [= <-]|].
  destruct (apply_ed st o) as [st1|] eqn:E; [|done]. apply IH.
  destruct o as [rnd now t typ data|i m|]; simpl in E; simplify_eq/=.
  - by apply Emit_pool.
  - destruct (wstep st.2 i m) eqn:Ew; simplify_eq/=. by eapply wstep_pool.
  - by apply close_pool.
Qed.

(** ** Properties *)

(** C32: Over any interleaving of emissions, workers, endpoint answers and shutdown,
    the queue stays within its bound and every delivery that was queued follows
    the retry schedule: what its endpoint was sent is an unbroken run of attempts
    numbered from one, each the same request (same URL, event id, body and
    signature), none after one was accepted, never more than the maximum; a
    worker that waits between attempts has seen exactly that many refused and
    waits the base backoff doubled once per attempt after the first, in int64;
    and while the dispatcher is not closed, a delivery with attempts left that
    was not accepted is still in hand. What finds the queue full is never
    queued. *)
Theorem deliveries_follow_the_schedule {S} `{EventStore S} o ops (s s' : S) d :
  in_int64 (eo_BaseBackoff (with_defaults o)) → run_ed (s, NewED o) ops = Some (s', d) →
  Z.of_nat (length (ed_queue d)) ≤ eo_Queue (ed_opts d) ∧
  (∀ i job a b, ed_workers d !! i = Some (WWaiting job a b) →
     1 ≤ a < eo_MaxAttempts (ed_opts d) ∧ b = wrap64 (eo_BaseBackoff (ed_opts d) * 2 ^ (a - 1)) ∧
     entries d (dl_n job) = failures job (Z.to_nat a)) ∧
  ∀ n, (n < ed_next d)%nat → ∃ job k (ok : bool), dl_n job = n ∧
    entries d n = failures job k ++ (if ok then [post job (Z.of_nat k + 1) (Some 200)] else []) ∧
    Z.of_nat k + (if ok then 1 else 0) ≤ eo_MaxAttempts (ed_opts d) ∧
    (ok = false → Z.of_nat k < eo_MaxAttempts (ed_opts d) → ed_stop d = false → in_hand d job).
Proof.
  intros Hb Hr. pose proof (run_ed_pool ops (s, NewED o) _ (NewED_pool o Hb) Hr) as Hd. simpl in Hd.
  split; [by apply (pk_opts d Hd)|]. split; [intros i job a b Hw; exact (pk_sched d Hd i _ Hw)|].
  intros n Hn.
  destruct (pk_rest d Hd n Hn) as [(j & Hj & <-)|(j & k & Ej & [[He Hk]|(He & Hk & Hend)])].
  - destruct (in_hand_failures d j Hd Hj) as (k & He & Hk). exists j, k, false.
    rewrite app_nil_r. split_and!; [done..|lia|done].
  - exists j, k, true. split_and!; [done..|lia|done].
  - exists j, k, false. rewrite app_nil_r. split_and!; [done..|lia|].
    intros _ Hlt Hst. destruct Hend; [lia|congruence].
Qed.

(** Emitting an event records it as the newest of its tenant, whatever becomes
    of its delivery; leaves the history of every other tenant alone; and queues
    it for exactly the enabled webhooks of that tenant subscribed to its type,
    in order, as far as the queue has room, all with one body and one id. The
    workers are not waited for. *)
Theorem emit_records_then_fans_out rnd now t typ data (m : Memory) d :
  let '(m', d') := Emit rnd now t typ data (m, d) in
  let e := {| e_ID := NewID IDEvent rnd; e_Type := typ; e_Created := now; e_TenantID := t; e_Data := data |} in
  let body := encode_envelope {| nv_ID := e_ID e; nv_Type := typ; nv_Created := now; nv_Tenant := t;
                                 nv_Data := data |} in
  head (ListEvents m' t) = Some e ∧ (∀ t', t' ≠ t → ListEvents m' t' = ListEvents m t') ∧
  ed_workers d' = ed_workers d ∧ ed_posted d' = ed_posted d ∧
  ∃ new, ed_queue d' = ed_queue d ++ new ∧
    dl_webhook <$> new = (if bool_decide (body = None) then [] else
      take (Z.to_nat (eo_Queue (ed_opts d)) - length (ed_queue d)) (wanted typ (ListWebhooks m t))) ∧
    Forall (λ j, body = Some (dl_body j) ∧ dl_eventID j = e_ID e ∧ dl_typ j = typ) new.
Proof.
  unfold Emit. simpl. set (e := {| e_ID := _ |}). set (env := {| nv_ID := _ |}).
  assert (head (ListEvents (RecordEvent m e) t) = Some e ∧
          ∀ t', t' ≠ t → ListEvents (RecordEvent m e) t' = ListEvents m t') as [Hh Ho].
  { unfold ListEvents, RecordEvent. simpl. split.
    - rewrite at_key_insert, decide_True by done. by rewrite reverse_push_bounded.
    - intros t' Hne. by rewrite at_key_insert, decide_False. }
  assert (ListWebhooks (RecordEvent m e) t = ListWebhooks m t) as El by done. rewrite El.
  destruct (encode_envelope env) as [body|] eqn:Eb.
  - destruct (offers_queue body (e_ID e) typ (ListWebhooks m t) d) as (new & E1 & E2 & E3 & E4 & E5 & _).
    split_and!; try done. exists new. rewrite bool_decide_eq_false_2 by done. split_and!; [done..|].
    eapply Forall_impl; [exact E3|]. naive_solver.
  - split_and!; try done. exists []. rewrite app_nil_r, bool_decide_eq_true_2 by done. done.
Qed.

(** A signature under a secret is that of one body: two bodies with equal
    signatures are equal, short of a SHA-256 collision. *)
Theorem signature_binds_body secret body body' :
  Sign secret body = Sign secret body' → body = body' ∨ ∃ x y, x ≠ y ∧ Sum256 x = Sum256 y.
Proof. unfold Sign. intros E%str_app_inj_l%hex_encode_inj. by apply (HMAC_inj secret). Qed.
End emit.

(** *** The hooks *)

(** The types published about a key, in order, by the callbacks of a breaker. *)
Definition published (log : list change) (key : string) : list string :=
  omap (λ c, let '(k, from, to) := c in
             if decide (k = key) then (λ em, em.1.2) <$> BreakerHook k from to else None) log.

Lemma BreakerHook_type t p m from to :
  str_has slash t = false → str_has slash p = false → t ≠ "" →
  (λ em, em.1) <$> BreakerHook (Key t p m) from to =
    match to with
    | StateOpen => Some (t, BreakerOpened)
    | StateClosed => Some (t, BreakerClosed)
    | StateHalfOpen => None
    end.
Proof.
  intros Ht Hp Hne. unfold BreakerHook. rewrite SplitKey_Key by done.
  rewrite bool_decide_eq_false_2 by done. by destruct to.
Qed.

Lemma published_snoc log c key :
  published (log ++ [c]) key = published log key ++ published [c] key.
Proof. apply omap_app. Qed.

Lemma path_ok_init log c : path_ok (log ++ [c]) → path_ok log.
Proof.
  intros Hp i k from to Hi. pose proof (lookup_lt_Some _ _ _ Hi).
  destruct (Hp i k from to) as [E El]; [by rewrite lookup_app_l|]. by rewrite take_app_le in E by lia.
Qed.

(** A subscriber that follows the events of one destination knows whether it is
    cut off: after any calls on the breaker, the last event published about it
    is breaker.opened exactly when its breaker is not closed, and each event
    goes to the tenant the destination belongs to. *)
Theorem subscriber_tracks_the_breaker threshold window openFor ops t p m :
  str_has slash t = false → str_has slash p = false → t ≠ "" →
  let b := Breaker.run (NewBreaker threshold window openFor) ops in
  let key := Key t p m in
  (last (published (b_changes b) key) = Some BreakerOpened ↔ position b key ≠ StateClosed) ∧
  Forall (λ c, let '(k, from, to) := c in k = key →
            ∀ em, BreakerHook k from to = Some em → em.1.1 = t) (b_changes b).
Proof.
  intros Ht Hp Hne b key. pose proof (run_wf _ ops (NewBreaker_wf threshold window openFor)) as Hwf.
  split.
  - rewrite <-(wf_last b Hwf). generalize (wf_path b Hwf). generalize (b_changes b).
    induction l as [|[[k from] to] log IH] using rev_ind; intros Hpath; [by vm_compute; split|].
    destruct (Hpath (length log) k from to) as [Ef El].
    { by rewrite lookup_app_r, Nat.sub_diag by lia. }
    rewrite take_app_length in Ef. specialize (IH (path_ok_init _ _ Hpath)).
    rewrite published_snoc, last_to_snoc. unfold published at 2. simpl.
    destruct (decide (k = key)) as [->|Hk]; [|by rewrite app_nil_r].
    pose proof (BreakerHook_type t p m from to Ht Hp Hne) as Hh. fold key in Hh.
    destruct (BreakerHook key from to) as [[[t' typ] data]|]; destruct to; simplify_eq/=;
      rewrite ?last_snoc, ?app_nil_r; try (by split).
    rewrite IH. by destruct (last_to log key).
  - apply Forall_forall. intros [[k from] to] _ -> em Hem.
    pose proof (BreakerHook_type t p m from to Ht Hp Hne) as Hh. fold key in Hh. rewrite Hem in Hh.
    simpl in Hh. destruct to; simplify_eq; by destruct em as [[? ?] ?]; simplify_eq/=.
Qed.

(** A provider that stays down is announced again by every failed probe: the
    transition from half-open back to open is published as breaker.opened. *)
Theorem failed_probe_is_announced_again :
  let key := Key "ten_1" "openai" "gpt" in
  let probe at_ := [OpAllow key at_; OpFailure key at_] in
  let b := Breaker.run (NewBreaker 2 Minute (10 * Second))
    (OpFailure key Second :: OpFailure key (2 * Second) ::
     probe (20 * Second) ++ probe (40 * Second) ++ probe (60 * Second)) in
  published (b_changes b) key = [BreakerOpened; BreakerOpened; BreakerOpened; BreakerOpened].
Proof. by vm_compute. Qed.

(** *** Witnesses *)

#[local] Instance plain_hash : Crypto := {| Sum256 := λ s, s |}.
#[local] Instance plain_numbers : JsonNumbers := {| float_literal := λ _, Some "1" |}.
#[local] Existing Instance binary_codec.

Definition hook (id typ : string) (on : bool) : Webhook :=
  {| w_ID := id; w_TenantID := "ten_1"; w_URL := "https://hook"; w_Secret := "secret"; w_Events := [typ];
     w_Enabled := on; w_CreatedAt := 0 |}.
Definition hooked : Memory :=
  set_webhooks (NewMemory false) {["ten_1" := [hook "a" BreakerOpened true; hook "b" BreakerOpened false;
                                               hook "c" BreakerClosed true]]}.
Definition brief : EventOptions :=
  {| eo_MaxAttempts := 2; eo_Timeout := 0; eo_BaseBackoff := Second; eo_Queue := 4; eo_Workers := 1 |}.
Definition two_tries : list ed_op :=
  [OpEmit "x" 7 "ten_1" BreakerOpened ∅; OpWork 0 MPick; OpWork 0 (MReply (Some 500)); OpWork 0 MWake;
   OpWork 0 (MReply (Some 204))].

Lemma deliveries_follow_the_schedule_witness :
  ∃ s d job, run_ed (hooked, NewED brief) two_tries = Some (s, d) ∧
    po_attempt <$> entries d 0 = [1; 2] ∧ dl_n job = 0%nat ∧
    ∃ k (ok : bool), entries d 0 = failures job k ++ (if ok then [post job (Z.of_nat k + 1) (Some 200)] else []).
Proof.
  destruct (run_ed (hooked, NewED brief) two_tries) as [[s d]|] eqn:E; [|by vm_compute in E].
  destruct (deliveries_follow_the_schedule brief two_tries hooked s d) as (_ & _ & Hd);
    [by vm_compute|done|].
  destruct (Hd 0%nat) as (job & k & ok & H1 & H2 & _); [vm_compute in E; injection E as <- <-; simpl; lia|].
  exists s, d, job. split_and!; [done| |done|eauto]. vm_compute in E. injection E as <- <-. by vm_compute.
Defined.

Lemma signature_binds_body_witness :
  Sign "k" "body" = Sign "k" "body" ∧ ("body" = "body" ∨ ∃ x y, x ≠ y ∧ Sum256 x = Sum256 y).
Proof. split; [done|]. by apply (signature_binds_body "k" "body" "body"). Defined.

Lemma subscriber_tracks_the_breaker_witness :
  let b := Breaker.run (NewBreaker 1 Minute Minute) [OpFailure (Key "t" "p" "m/1") Second] in
  last (published (b_changes b) (Key "t" "p" "m/1")) = Some BreakerOpened.
Proof.
  intros b. apply (subscriber_tracks_the_breaker 1 Minute Minute [OpFailure (Key "t" "p" "m/1") Second] "t" "p" "m/1");
    by vm_compute.
Defined.
End EventsFacts.
