(* ===== verification/Server.v ===== *)
(** * The server's state and its infrastructure routes (internal/server/server.go,
    params.go, data.go's report types, internal/httpx/httpx.go)

    One record for everything the handlers share. A handler is a function on
    that record, in the state and error monad [handler]: a handler that answers
    with an error through [Fail] is [Err], and the state it leaves stays. What a
    request brings is the record [HttpReq]; a handler that reads the clock or
    draws random bytes several times gets the successive values by index. Locks
    are held for the whole of each component call, so a handler's calls are
    atomic one by one; the log lines are not modelled. *)

From S2P Require Import Prelude GoStrings GoTime GoFloat ApiErr StoreTypes Keys Json Memory Provider Breaker Catalog Resolve Dispatch Diagnose Cache Config Limits Quota Middleware Capture Events.
From Stdlib Require Import Ascii.

#[local] Open Scope Z_scope.
#[local] Open Scope stdpp_scope.

(** ** Requests *)

Record HttpReq := {
  hr_key : option APIKey;
  hr_tenant : option Tenant;
  hr_id : string;
  hr_clientID : string;
  hr_method : string;
  hr_path : string;
  hr_param : string → string;
  hr_query : string → string;
  hr_header : string → string;
  hr_now : nat → Z;
  hr_rnd : nat → string
}.

(** [query(c, name, def)]: the default stands for an empty value too. *)
Definition query_or (r : HttpReq) (name def : string) : string :=
  if bool_decide (hr_query r name = "") then def else hr_query r name.

(** [httpx.TenantID] *)
Definition TenantID (r : HttpReq) : string :=
  match hr_tenant r with Some t => t_ID t | None => "" end.

Definition keyPrefix (r : HttpReq) : string :=
  match hr_key r with Some k => k_Prefix k | None => "" end.

(** ** The text of an error *)

Fixpoint count_byte (c : ascii) (s : string) : nat :=
  match s with
  | "" => O
  | String x s' => if bool_decide (x = c) then S (count_byte c s') else count_byte c s'
  end.

(** The first occurrence of [sep] in [s], cut out. *)
Fixpoint cut_at (sep s : string) : option (string * string) :=
  if HasPrefix s sep then Some ("", str_drop (String.length sep) s)
  else match s with
       | "" => None
       | String c s' => match cut_at sep s' with Some (a, b) => Some (String c a, b) | None => None end
       end.

(** [err.Error()], unrendered: a wrapped error's own format takes the place of
    the [%w] that names it. *)
Fixpoint error_text (err : error) : message :=
  match err with
  | ErrNotFound => text "store: not found"
  | ErrConflict => text "store: conflict"
  | ErrResponseTooLarge => text "upstream response exceeds the configured limit"
  | ErrText m => m
  | ErrWrap m inner =>
      match cut_at "%w" (msg_format m) with
      | Some (a, b) =>
          let n := count_byte "%"%char a in
          let i := error_text inner in
          Msgf (a +:+ msg_format i +:+ b) (firstn n (msg_args m) ++ msg_args i ++ skipn n (msg_args m))
      | None => m
      end
  | ErrApi e =>
      let own := Msgf (msg_format (err_Msg e) +:+ " (%d %s)")
                   (msg_args (err_Msg e) ++ [FInt (err_Status e); FStr (err_Code e)]) in
      match err_Wrapped e with
      | Some w => let i := error_text w in
                  Msgf (msg_format own +:+ ": " +:+ msg_format i) (msg_args own ++ msg_args i)
      | None => own
      end
  end.

(** ** The health report *)

Record gatewayHealth := { gh_Version : string; gh_UptimeSeconds : Z }.
Record componentHealth := { co_Kind : string; co_Reachable : bool; co_Error : option message }.
Record catalogHealth := {
  ch_Models : Z;
  ch_AgeSeconds : Z;
  ch_State : string;
  ch_Stale : bool;
  ch_FetchedAt : string;
  ch_Error : option message
}.
Record modelBreaker := { mb_Model : string; mb_Breaker : string; mb_BreakerUntil : string }.
Record catalogFreshness := { cf_AgeSeconds : Z; cf_State : string }.
Record providerHealth := {
  ph_Provider : string;
  ph_Enabled : bool;
  ph_Models : Z;
  ph_Breaker : string;
  ph_BreakerUntil : string;
  ph_Breakers : list modelBreaker;
  ph_Catalog : catalogFreshness;
  ph_Error : option message
}.
Record quotaHealth := { qh_State : string }.

Record healthReport := mkReport {
  hp_Status : string;
  hp_Gateway : gatewayHealth;
  hp_Store : componentHealth;
  hp_Catalog : catalogHealth;
  hp_Providers : list providerHealth;
  hp_Aliases : list NameState;
  hp_Rules : list NameState;
  hp_Quota : quotaHealth;
  hp_CheckedAt : string
}.

Record healthCacheEntry := { he_report : healthReport; he_expires : Z }.
Record healthCache := { hc_ttl : Z; hc_entries : gmap string healthCacheEntry }.

(** ** The server *)

Record Server (A : Type) := mkServer {
  sv_Config : Config;
  sv_Version : string;
  sv_Dev : bool;
  sv_Store : Memory;
  sv_Catalog : Catalog;
  sv_Resolver : Resolver;
  sv_Dispatcher : Dispatcher A;
  sv_Events : option EventDispatcher;
  sv_limits : LimitState;
  sv_health : healthCache;
  sv_quotas : QuotaState;
  sv_cache : option Cache;
  sv_captures : CapStore;
  sv_startedAt : Z;
  sv_draining : bool
}.
Arguments mkServer {A}.
Arguments sv_Config {A}.
Arguments sv_Version {A}.
Arguments sv_Dev {A}.
Arguments sv_Store {A}.
Arguments sv_Catalog {A}.
Arguments sv_Resolver {A}.
Arguments sv_Dispatcher {A}.
Arguments sv_Events {A}.
Arguments sv_limits {A}.
Arguments sv_health {A}.
Arguments sv_quotas {A}.
Arguments sv_cache {A}.
Arguments sv_captures {A}.
Arguments sv_startedAt {A}.
Arguments sv_draining {A}.

Section updates.
Context {A : Type} (s : Server A).
Definition set_store (x : Memory) : Server A :=
  mkServer (sv_Config s) (sv_Version s) (sv_Dev s) x (sv_Catalog s) (sv_Resolver s) (sv_Dispatcher s)
    (sv_Events s) (sv_limits s) (sv_health s) (sv_quotas s) (sv_cache s) (sv_captures s) (sv_startedAt s) (sv_draining s).
Definition set_catalog (x : Catalog) : Server A :=
  mkServer (sv_Config s) (sv_Version s) (sv_Dev s) (sv_Store s) x (sv_Resolver s) (sv_Dispatcher s)
    (sv_Events s) (sv_limits s) (sv_health s) (sv_quotas s) (sv_cache s) (sv_captures s) (sv_startedAt s) (sv_draining s).
Definition set_dispatcher (x : Dispatcher A) : Server A :=
  mkServer (sv_Config s) (sv_Version s) (sv_Dev s) (sv_Store s) (sv_Catalog s) (sv_Resolver s) x
    (sv_Events s) (sv_limits s) (sv_health s) (sv_quotas s) (sv_cache s) (sv_captures s) (sv_startedAt s) (sv_draining s).
Definition set_dispatch_events (x : option EventDispatcher) : Server A :=
  mkServer (sv_Config s) (sv_Version s) (sv_Dev s) (sv_Store s) (sv_Catalog s) (sv_Resolver s) (sv_Dispatcher s)
    x (sv_limits s) (sv_health s) (sv_quotas s) (sv_cache s) (sv_captures s) (sv_startedAt s) (sv_draining s).
Definition set_limits (x : LimitState) : Server A :=
  mkServer (sv_Config s) (sv_Version s) (sv_Dev s) (sv_Store s) (sv_Catalog s) (sv_Resolver s) (sv_Dispatcher s)
    (sv_Events s) x (sv_health s) (sv_quotas s) (sv_cache s) (sv_captures s) (sv_startedAt s) (sv_draining s).
Definition set_health (x : healthCache) : Server A :=
  mkServer (sv_Config s) (sv_Version s) (sv_Dev s) (sv_Store s) (sv_Catalog s) (sv_Resolver s) (sv_Dispatcher s)
    (sv_Events s) (sv_limits s) x (sv_quotas s) (sv_cache s) (sv_captures s) (sv_startedAt s) (sv_draining s).
Definition set_quota_state (x : QuotaState) : Server A :=
  mkServer (sv_Config s) (sv_Version s) (sv_Dev s) (sv_Store s) (sv_Catalog s) (sv_Resolver s) (sv_Dispatcher s)
    (sv_Events s) (sv_limits s) (sv_health s) x (sv_cache s) (sv_captures s) (sv_startedAt s) (sv_draining s).
Definition set_cache (x : option Cache) : Server A :=
  mkServer (sv_Config s) (sv_Version s) (sv_Dev s) (sv_Store s) (sv_Catalog s) (sv_Resolver s) (sv_Dispatcher s)
    (sv_Events s) (sv_limits s) (sv_health s) (sv_quotas s) x (sv_captures s) (sv_startedAt s) (sv_draining s).
Definition set_captures (x : CapStore) : Server A :=
  mkServer (sv_Config s) (sv_Version s) (sv_Dev s) (sv_Store s) (sv_Catalog s) (sv_Resolver s) (sv_Dispatcher s)
    (sv_Events s) (sv_limits s) (sv_health s) (sv_quotas s) (sv_cache s) x (sv_startedAt s) (sv_draining s).
Definition set_draining (x : bool) : Server A :=
  mkServer (sv_Config s) (sv_Version s) (sv_Dev s) (sv_Store s) (sv_Catalog s) (sv_Resolver s) (sv_Dispatcher s)
    (sv_Events s) (sv_limits s) (sv_health s) (sv_quotas s) (sv_cache s) (sv_captures s) (sv_startedAt s) x.
End updates.

(** [newResponseCache] and [newCaptureStore] *)
Definition newResponseCache (c : CacheCfg) : option Cache :=
  if negb (cc_Enabled c) then None else Some (NewCache (cc_MaxBytes c) (cc_MaxEntryBytes c)).
Definition newCaptureStore (d : DebugCfg) : CapStore := NewCapStore (db_MaxBytesPerTenant d).

(** [server.New] on its dependencies; the Fiber app is left out. *)
Definition NewServer {A} (cfg : Config) (version : string) (dev : bool) (store : Memory)
    (cat : Catalog) (resolver : Resolver) (d : Dispatcher A) (ev : option EventDispatcher) (now : Z) :
    Server A :=
  mkServer cfg version dev store cat resolver d ev
    {| ls_rates := newRateLimiter; ls_limiter := newConcurrencyLimiter (li_MaxConcurrentPerKey (cf_Limits cfg)) |}
    {| hc_ttl := cf_HealthCacheTTL cfg; hc_entries := ∅ |}
    {| qs_quotas := newQuotaCache quotaCacheTTL; qs_events := negb (is_None_b ev); qs_emitted := [] |}
    (newResponseCache (cf_Cache cfg)) (newCaptureStore (cf_Debug cfg)) now false.

(** ** Handlers *)

Definition handler (A X : Type) : Type := Server A → res error X * Server A.

Section monad.
Context {A : Type}.

Definition hret {X} (x : X) : handler A X := λ s, (Ok x, s).
Definition hfail {X} (e : error) : handler A X := λ s, (Err e, s).
Definition hbind {X Y} (m : handler A X) (k : X → handler A Y) : handler A Y := λ s,
  match m s with
  | (Ok x, s') => k x s'
  | (Err e, s') => (Err e, s')
  end.
Definition of_res {X} (r : res error X) : handler A X := λ s, (r, s).
(** A read of the server, and a change of it that cannot fail. *)
Definition asks {X} (f : Server A → X) : handler A X := λ s, (Ok (f s), s).
Definition modify (f : Server A → Server A) : handler A () := λ s, (Ok (), f s).
(** A store operation. *)
Definition in_store {X} (f : Memory → res error X * Memory) : handler A X := λ s,
  let '(r, m) := f (sv_Store s) in (r, set_store s m).
(** The same with the store's error translated. *)
Definition map_err {X} (f : error → error) (m : handler A X) : handler A X := λ s,
  match m s with
  | (Err e, s') => (Err (f e), s')
  | done => done
  end.
(** [if bad { return Fail(e) }] *)
Definition guard (bad : bool) (e : Error) : handler A () :=
  if bad then hfail (ErrApi e) else hret ().
(** [if err := validate(); err != nil { return Fail(err) }] *)
Definition refuse (e : option Error) : handler A () :=
  match e with Some e => hfail (ErrApi e) | None => hret () end.
End monad.

Notation "'let*' x := m 'in' k" := (hbind m (λ x, k))
  (at level 10, x pattern, m at level 100, k at level 200) : gate_scope.
Notation "'do*' m 'in' k" := (hbind m (λ _, k))
  (at level 10, m at level 100, k at level 200) : gate_scope.

(** ** Infrastructure routes *)

(** [version] *)
Definition version {A} (s : Server A) : string :=
  if bool_decide (sv_Version s = "") then "0.0.0-dev" else sv_Version s.

(** [handleHealthz]: status and the body's one field. *)
Definition handleHealthz {A} (s : Server A) : Z * string :=
  if sv_draining s then (503, "draining") else (200, "ok").

(** [metricsAuth], given the Authorization header *)
Definition metricsAuth `{Unicode} {A} (s : Server A) (authorization : string) : res error () :=
  let want := me_Token (cf_Metrics (sv_Config s)) in
  if bool_decide (want = "") then Ok ()
  else if negb (ConstantTimeEqual (bearer authorization) want) then Err (ErrApi InvalidAPIKey)
  else Ok ().

(** [translateFiberError]; [fiber] is the code of the framework's error in the
    chain of [err], if there is one. *)
Definition translateFiberError (err : error) (fiber : option Z) (limits : LimitsCfg) : error :=
  match as_api err with
  | Some _ => err
  | None =>
      match fiber with
      | None => err
      | Some code =>
          if code =? 413 then ErrApi (WithCause (RequestTooLarge (li_MaxRequestBytes limits)) err)
          else if (code =? 404) || (code =? 405)
          then ErrApi (WithCause (NotSupported "the requested route") err)
          else if code =? 408
          then ErrApi (WithCause (GatewayTimeout (Seconds (li_RequestTimeout limits))) err)
          else err
      end
  end.

(** [recover]: the error a panicking handler is answered with. *)
Definition recovered (panic : message) : error :=
  ErrApi (From (ErrText (Msgf ("panic: " +:+ msg_format panic) (msg_args panic)))).

(** Whether an error is one of those. *)
Definition panicked (e : error) : bool :=
  match e with
  | ErrApi a => match err_Wrapped a with Some (ErrText m) => HasPrefix (msg_format m) "panic: " | _ => false end
  | _ => false
  end.

Lemma recovered_panicked m : panicked (recovered m) = true.
Proof. unfold panicked, recovered. simpl. apply HasPrefix_app. Qed.

(** [Shutdown] up to the framework's own: the drain flag and how long in-flight
    requests are given. [deadline] is the caller's, if any. *)
Definition Shutdown {A} (s : Server A) (deadline : option Z) (now : Z) : Z * Server A :=
  let timeout := cf_DrainTimeout (sv_Config s) in
  let timeout := match deadline with
                 | Some d => let remaining := Sub d now in if remaining <? timeout then remaining else timeout
                 | None => timeout
                 end in
  (if timeout <=? 0 then Second else timeout, set_draining s true).
