(* ===== verification/Data.v ===== *)
(** * The data plane's reads (internal/server/data.go, config.go's TenantCost)

    The model list, the usage reports, the health report and the meta document.
    Every catalog read of a handler is numbered: [poll_now i] are the clock
    readings of the [i]-th one and [answers i] what the providers would answer
    to it. *)

From S2P Require Import Prelude GoStrings GoTime GoFloat Calendar GoFormat ApiErr StoreTypes Keys Memory Provider Breaker Catalog Resolve Dispatch Diagnose Config Limits Quota Capture Events Server.
From Stdlib Require Import Ascii.

#[local] Open Scope Z_scope.
#[local] Open Scope stdpp_scope.
#[local] Open Scope gate_scope.

(** ** Models *)

Record modelExtensions := {
  mx_Provider : string;
  mx_ContextWindow : Z;
  mx_MaxOutputTokens : Z;
  mx_Capabilities : list string;
  mx_InputCostPerMTok : f64;
  mx_OutputCostPerMTok : f64;
  mx_Deprecated : bool;
  mx_DiscoveredAt : string;
  mx_Alias : bool;
  mx_ResolvesTo : string
}.

Record modelObject := {
  mo_ID : string;
  mo_Object : string;
  mo_Created : Z;
  mo_OwnedBy : string;
  mo_CogniGate : modelExtensions
}.

(** [t.Unix()]; the epoch is so many seconds after the zero time. *)
Definition Unix (t : Z) : Z := t / Second - 62135596800.

Definition timestamp (t : Z) : string := if IsZero t then "" else RFC3339 t.

Definition entryObject (e : Entry) (fetchedAt : Z) : modelObject :=
  let m := en_Model e in
  {| mo_ID := m_ID m; mo_Object := "model"; mo_Created := Unix fetchedAt; mo_OwnedBy := m_Provider m;
     mo_CogniGate :=
       {| mx_Provider := m_Provider m; mx_ContextWindow := m_ContextWindow m;
          mx_MaxOutputTokens := m_MaxOutputTokens m; mx_Capabilities := m_Capabilities m;
          mx_InputCostPerMTok := m_InputCostPerMTok m; mx_OutputCostPerMTok := m_OutputCostPerMTok m;
          mx_Deprecated := m_Deprecated m; mx_DiscoveredAt := timestamp fetchedAt;
          mx_Alias := false; mx_ResolvesTo := "" |} |}.

Definition alias_only : modelExtensions :=
  {| mx_Provider := ""; mx_ContextWindow := 0; mx_MaxOutputTokens := 0; mx_Capabilities := [];
     mx_InputCostPerMTok := fzero; mx_OutputCostPerMTok := fzero; mx_Deprecated := false;
     mx_DiscoveredAt := ""; mx_Alias := true; mx_ResolvesTo := "" |}.

(** One row of [aliasObjects], on the outcome of the alias's resolution. *)
Definition aliasObject (a : Alias) (resolved : res error (list Candidate)) (snap : Snapshot) : modelObject :=
  {| mo_ID := al_Name a; mo_Object := "model"; mo_Created := Unix (al_CreatedAt a);
     mo_OwnedBy := "cognigate";
     mo_CogniGate :=
       match resolved with
       | Ok (c :: _) =>
           let m := en_Model (cd_Entry c) in
           {| mx_Provider := m_Provider m; mx_ContextWindow := m_ContextWindow m;
              mx_MaxOutputTokens := m_MaxOutputTokens m; mx_Capabilities := m_Capabilities m;
              mx_InputCostPerMTok := m_InputCostPerMTok m; mx_OutputCostPerMTok := m_OutputCostPerMTok m;
              mx_Deprecated := false; mx_DiscoveredAt := timestamp (sn_FetchedAt snap);
              mx_Alias := true; mx_ResolvesTo := m_ID m |}
       | _ => alias_only
       end |}.

(** [strings.Trim(s, cut)] for a one-byte cutset *)
Definition Trim (s : string) (c : ascii) : string := TrimRight (trim_left_byte c s) c.

Definition hex_value (c : ascii) : option nat :=
  let n := nat_of_ascii c in
  if ((48 <=? n) && (n <=? 57))%nat then Some (n - 48)%nat
  else if ((97 <=? n) && (n <=? 102))%nat then Some (n - 87)%nat
  else if ((65 <=? n) && (n <=? 70))%nat then Some (n - 55)%nat
  else None.

(** [url.PathUnescape]; [None] for a malformed escape. *)
Fixpoint PathUnescape (s : string) : option string :=
  match s with
  | "" => Some ""
  | String "%" rest =>
      match rest with
      | String h (String l rest') =>
          match hex_value h, hex_value l with
          | Some a, Some b => String (ascii_of_nat (16 * a + b)) <$> PathUnescape rest'
          | _, _ => None
          end
      | _ => None
      end
  | String c rest => String c <$> PathUnescape rest
  end.

Definition catalog_unavailable (e : error) : error :=
  ErrApi (WithCause (Unavailable (text "The model catalog is unavailable.")) e).

Section plane.
Context `{Unicode} `{Crypto} {A : Type} (adapters : gmap string A).
Context (poll_now : nat → Z * Z) (answers : nat → nat → A → Credential → res message (list Model)).

(** [s.Catalog.Get], as the [i]-th catalog read of the request *)
Definition catalog_get (i : nat) (tenantID : string) : handler A Snapshot := λ s,
  let '(got, c) := Get adapters (answers i) (sv_Catalog s) tenantID
                     (Ok (ListProviders (sv_Store s) tenantID)) (poll_now i).1 (poll_now i).2 in
  (got, set_catalog s c).

(** [s.Resolver.Resolve], likewise *)
Definition resolve_at (i : nat) (tenantID requested : string) : handler A (list Candidate) := λ s,
  let '(got, _, c) := Resolve adapters (answers i) (sv_Resolver s) (sv_Store s) (sv_Catalog s)
                        (poll_now i).1 (poll_now i).2 tenantID requested in
  (got, set_catalog s c).

(** The loop of [aliasObjects]. *)
Fixpoint alias_rows (i : nat) (tenantID : string) (snap : Snapshot) (aliases : list Alias)
    (s : Server A) : list modelObject * Server A :=
  match aliases with
  | [] => ([], s)
  | a :: aliases' =>
      let '(resolved, s) := resolve_at i tenantID (al_Name a) s in
      let '(rows, s) := alias_rows (S i) tenantID snap aliases' s in
      (aliasObject a resolved snap :: rows, s)
  end.

Definition aliasObjects (i : nat) (tenantID : string) (snap : Snapshot) : handler A (list modelObject) := λ s,
  let '(rows, s) := alias_rows i tenantID snap (ListAliases (sv_Store s) tenantID) s in (Ok rows, s).

Definition handleListModels (r : HttpReq) : handler A (list modelObject) :=
  let* snap := map_err catalog_unavailable (catalog_get 0 (TenantID r)) in
  let* aliases := aliasObjects 1 (TenantID r) snap in
  hret (sort_slice (λ a b, String.ltb (mo_ID a) (mo_ID b))
          (((λ e, entryObject e (sn_FetchedAt snap)) <$> sn_Models snap) ++ aliases)).

(** The id a path names. *)
Definition path_model (raw : string) : string := Trim (default raw (PathUnescape raw)) "/"%char.

Definition handleGetModel (r : HttpReq) : handler A modelObject :=
  let id := path_model (hr_param r "*") in
  do* guard (bool_decide (id = "")) (ModelNotFound "") in
  let* snap := map_err catalog_unavailable (catalog_get 0 (TenantID r)) in
  match Lookup (Some snap) id with
  | Some e => hret (entryObject e (sn_FetchedAt snap))
  | None =>
      let* aliases := aliasObjects 1 (TenantID r) snap in
      match List.find (λ o, bool_decide (mo_ID o = id)) aliases with
      | Some o => hret o
      | None => hfail (ErrApi (ModelNotFound id))
      end
  end.

End plane.

(** ** Usage *)

Record usageLimit := {
  ul_Scope : string;
  ul_Window : string;
  ul_Unit : string;
  ul_Cap : f64;
  ul_SoftThresholdPct : Z;
  ul_Consumed : f64;
  ul_Remaining : f64;
  ul_ResetsAt : string;
  ul_State : string
}.

Record usageResponse := {
  ur_Object : string;
  ur_Window : string;
  ur_Since : string;
  ur_Until : string;
  ur_Totals : UsageTotals;
  ur_CostUSD : option f64;
  ur_State : string;
  ur_Limits : list usageLimit
}.

(** [Billing.TenantCost] *)
Definition TenantCost (b : Billing) (cost : f64) : f64 :=
  if negb (bool_decide (bl_CostVisibility b = CostHint)) || fleb cost fzero then cost
  else default cost (reparse_e 0 cost).

Definition tenantCost (cfg : Config) (v : f64) : option f64 :=
  if HidesCost (cf_Billing cfg) then None else Some (TenantCost (cf_Billing cfg) v).

(** [slotPosition.limited] *)
Definition limited (p : slotPosition) : bool := fltb fzero (sp_cap p).

(** [usageWindow]: the name and the period. *)
Definition usageWindow (r : HttpReq) : res error (string * Z * Z) :=
  let window := TrimSpace (query_or r "window" "day") in
  if negb (one_of window ["day"; "month"]) then
    Err (ErrApi (WithParam (InvalidRequest (Msgf "window must be %q or %q." [FStr "day"; FStr "month"])) "window"))
  else
    let '(since, until) := periodWindow window (hr_now r 0) in Ok (window, since, until).

(** The loop of [handleUsage] over the slots: the overall state and the rows. *)
Definition usage_row (cfg : Config) (acc : string * list usageLimit) (p : slotPosition) :
    string * list usageLimit :=
  let '(st, rows) := acc in
  if negb (limited p) then (st, rows)
  else
    let cost := bool_decide (sp_unit p = unitCost) in
    if cost && HidesCost (cf_Billing cfg) then (worse st (sp_state p), rows)
    else
      let used := if cost then TenantCost (cf_Billing cfg) (sp_used p) else sp_used p in
      let remaining := fsub (sp_cap p) used in
      let remaining := if fltb remaining fzero then fzero else remaining in
      (worse st (sp_state p),
       rows ++ [{| ul_Scope := if sp_keyLevel p then "key" else "tenant"; ul_Window := sp_window p;
                   ul_Unit := sp_unit p; ul_Cap := sp_cap p; ul_SoftThresholdPct := sp_softPct p;
                   ul_Consumed := used; ul_Remaining := remaining;
                   ul_ResetsAt := RFC3339 (sp_resetsAt p); ul_State := sp_state p |}]).

Definition handleUsage {A} (r : HttpReq) : handler A usageResponse :=
  let* w := of_res (usageWindow r) in
  let '(window, since, until) := w in
  let* totals := asks (λ s, Memory.Usage (sv_Store s) (TenantID r) since until) in
  let* slots := map_err (λ e, ErrApi (From e)) (λ s, (quotaSlots (sv_Config s) (sv_Store s) (hr_now r 1)
                         (requestScope (TenantID r) (hr_key r)), s)) in
  let* cfg := asks sv_Config in
  let '(st, rows) := foldl (usage_row cfg) (QuotaOK, []) slots in
  hret {| ur_Object := "usage"; ur_Window := window; ur_Since := RFC3339 since;
          ur_Until := RFC3339 until; ur_Totals := totals;
          ur_CostUSD := tenantCost cfg (ut_CostUSD totals); ur_State := st; ur_Limits := rows |}.

Record bucketView := { bv_Bucket : UsageBucket; bv_CostUSD : option f64 }.

Record breakdownResponse := {
  bd_Object : string;
  bd_Window : string;
  bd_GroupBy : string;
  bd_Since : string;
  bd_Until : string;
  bd_Data : list bucketView;
  bd_Truncated : bool
}.

Definition maxBreakdownBuckets : nat := 200.

Definition bad_group (known : list string) (format : string) : error :=
  ErrApi (WithParam (InvalidRequest (Msgf format (FStr <$> known))) "group_by").

Definition handleUsageBreakdown {A} (r : HttpReq) : handler A breakdownResponse :=
  let* w := of_res (usageWindow r) in
  let '(window, since, until) := w in
  let groupBy := TrimSpace (query_or r "group_by" "model") in
  let known := ["model"; "provider"; "key"; "client_request_id"] in
  do* (if negb (one_of groupBy known)
       then hfail (bad_group known "group_by must be one of %q, %q, %q, %q.") else hret ()) in
  let* buckets := map_err (λ e, ErrApi (From e))
                    (λ s, (UsageBreakdown (sv_Store s) (TenantID r) since until groupBy, s)) in
  let* cfg := asks sv_Config in
  let truncated := (maxBreakdownBuckets <? length buckets)%nat in
  let buckets := if truncated then firstn maxBreakdownBuckets buckets else buckets in
  hret {| bd_Object := "usage_breakdown"; bd_Window := window; bd_GroupBy := groupBy;
          bd_Since := RFC3339 since; bd_Until := RFC3339 until;
          bd_Data := (λ b, {| bv_Bucket := b; bv_CostUSD := tenantCost cfg (ut_CostUSD (ub_Totals b)) |})
                     <$> buckets;
          bd_Truncated := truncated |}.

(** ** Health *)

Definition healthOK : string := "ok".
Definition healthDegraded : string := "degraded".
Definition healthUnavailable : string := "unavailable".

Definition degrade (status to : string) : string := if bool_decide (status = healthOK) then to else status.
Definition freshness (stale : bool) : string := if stale then "stale" else "fresh".

(** [healthCache.get] and [healthCache.put] *)
Definition hc_get (h : healthCache) (tenantID : string) (now : Z) : option healthReport :=
  if hc_ttl h <=? 0 then None
  else match hc_entries h !! tenantID with
       | None => None
       | Some e => if After now (he_expires e) then None else Some (he_report e)
       end.

Definition hc_put (h : healthCache) (tenantID : string) (rep : healthReport) (now : Z) : healthCache :=
  if hc_ttl h <=? 0 then h
  else {| hc_ttl := hc_ttl h;
          hc_entries := <[tenantID := {| he_report := rep; he_expires := Add now (hc_ttl h) |}]> (hc_entries h) |}.

(** [reachable] *)
Definition reachable (provider : string) (snap : option Snapshot) (open : gset string) : bool :=
  match snap with
  | None => false
  | Some snap =>
      existsb (λ e, bool_decide (en_Provider e = provider)
                    && negb (bool_decide ((ProviderOf (en_ID e)).2 ∈ open))) (sn_Models snap)
  end.

(** What the walk over the breaker's snapshot collects of one tenant. *)
Record breakerView := {
  bw_blocked : gmap string (gset string);
  bw_byProvider : gmap string (list modelBreaker);
  bw_worst : gmap string Status
}.

Definition note_breaker (tenantID : string) (v : breakerView) (ks : string * Status) : breakerView :=
  let '(key, st) := ks in
  let '(owner, provider, model) := SplitKey key in
  if negb (bool_decide (owner = tenantID)) then v
  else
    {| bw_byProvider :=
         <[provider := default [] (bw_byProvider v !! provider) ++
             [{| mb_Model := model; mb_Breaker := Health (st_State st);
                 mb_BreakerUntil := timestamp (st_Until st) |}]]> (bw_byProvider v);
       bw_blocked :=
         if bool_decide (st_State st = StateOpen)
         then <[provider := {[model]} ∪ default ∅ (bw_blocked v !! provider)]> (bw_blocked v)
         else bw_blocked v;
       bw_worst :=
         let replace := match bw_worst v !! provider with
                        | None => true
                        | Some prev =>
                            (BlockRank (st_State prev) <? BlockRank (st_State st))
                            || (bool_decide (st_State st = st_State prev) && After (st_Until st) (st_Until prev))
                        end in
         if replace then <[provider := st]> (bw_worst v) else bw_worst v |}.

(** The walk, and the sort of each provider's rows. *)
Definition view_breakers (tenantID : string) (snapshot : gmap string Status) : breakerView :=
  let v := foldl (note_breaker tenantID) {| bw_blocked := ∅; bw_byProvider := ∅; bw_worst := ∅ |}
             (map_to_list snapshot) in
  {| bw_blocked := bw_blocked v;
     bw_byProvider := sort_slice (λ a b, String.ltb (mb_Model a) (mb_Model b)) <$> bw_byProvider v;
     bw_worst := bw_worst v |}.

Definition blocked_models (v : breakerView) (provider : string) : gset string :=
  default ∅ (bw_blocked v !! provider).

Definition closed_status : Status := {| st_State := StateClosed; st_Until := 0 |}.

(** [modelsByProvider] *)
Definition models_of (snap : option Snapshot) (provider : string) : Z :=
  match snap with
  | None => 0
  | Some snap => Z.of_nat (length (List.filter (λ e, bool_decide (en_Provider e = provider)) (sn_Models snap)))
  end.

(** The body of the loop over the providers: the row, and whether it degrades
    the report. *)
Definition provider_row (cat : catalogHealth) (snap : option Snapshot) (v : breakerView) (p : Provider) :
    providerHealth * bool :=
  let st := default closed_status (bw_worst v !! p_Name p) in
  let failure := match snap with Some snap => sn_Errors snap !! p_Name p | None => None end in
  ({| ph_Provider := p_Name p; ph_Enabled := p_Enabled p; ph_Models := models_of snap (p_Name p);
      ph_Breaker := Health (st_State st); ph_BreakerUntil := timestamp (st_Until st);
      ph_Breakers := default [] (bw_byProvider v !! p_Name p);
      ph_Catalog := {| cf_AgeSeconds := ch_AgeSeconds cat;
                       cf_State := if is_None_b failure then ch_State cat else freshness true |};
      ph_Error := failure |},
   negb (bool_decide (st_State st = StateClosed)) || negb (is_None_b failure)).

(** Whether traffic could still reach the provider. *)
Definition usable (snap : option Snapshot) (v : breakerView) (p : Provider) : bool :=
  p_Enabled p && reachable (p_Name p) snap (blocked_models v (p_Name p)).

Definition catalog_health (cfg : Config) (got : res error Snapshot) (now : Z) : catalogHealth * bool :=
  match got with
  | Err err =>
      ({| ch_Models := 0; ch_AgeSeconds := 0; ch_State := ""; ch_Stale := false; ch_FetchedAt := "";
          ch_Error := Some (error_text err) |}, true)
  | Ok snap =>
      let stale := sn_Stale snap || (cg_StaleWarnAfter (cf_Catalog cfg) <? Age (Some snap) now) in
      ({| ch_Models := Z.of_nat (length (sn_Models snap));
          ch_AgeSeconds := f_trunc (Seconds (Age (Some snap) now)); ch_State := freshness stale;
          ch_Stale := sn_Stale snap; ch_FetchedAt := timestamp (sn_FetchedAt snap); ch_Error := None |}, stale)
  end.

(** [Memory.Ping] *)
Definition Ping (m : Memory) : res error () := Ok ().

Definition degrade_if (b : bool) (status : string) : string := if b then degrade status healthDegraded else status.

Section health.
Context `{Unicode} `{Crypto} {A : Type} (adapters : gmap string A).
Context (poll_now : nat → Z * Z) (answers : nat → nat → A → Credential → res message (list Model)).

(** [buildHealth]. Its own clock reading is [hr_now r 1], the breaker's
    [hr_now r 2], the quota's [hr_now r 3]. *)
Definition buildHealth (r : HttpReq) (tenantID : string) (s : Server A) : healthReport * Server A :=
  let cfg := sv_Config s in
  let now := hr_now r 1 in
  let ping := Ping (sv_Store s) in
  let status := match ping with Ok _ => healthOK | Err _ => healthUnavailable end in
  let providers := ListProviders (sv_Store s) tenantID in
  let '(got, s) := catalog_get adapters poll_now answers 0 tenantID s in
  let snap := match got with Ok snap => Some snap | Err _ => None end in
  let '(cat, stale) := catalog_health cfg got now in
  let status := degrade_if stale status in
  let v := view_breakers tenantID (Breaker.Snapshot (d_breaker (sv_Dispatcher s)) (hr_now r 2)) in
  let rows := provider_row cat snap v <$> providers in
  let status := degrade_if (existsb snd rows) status in
  let status := if negb (is_None_b snap) && negb (bool_decide (providers = []))
                   && negb (existsb (usable snap v) providers)
                then healthUnavailable else status in
  let '(got', s) := catalog_get adapters poll_now answers 1 tenantID s in
  let diag := Diagnose (sv_Store s) tenantID got' in
  let status := match diag with Ok d => degrade_if (Degraded d) status | Err _ => status end in
  let '(verdict, q) := evaluateQuota cfg (sv_Store s) (hr_now r 3)
                         {| sc_tenantID := tenantID; sc_keyID := ""; sc_keyPrefix := "" |} (sv_quotas s) in
  let status := degrade_if (bool_decide (v_State verdict = QuotaHardExceeded)) status in
  (mkReport status
     {| gh_Version := version s; gh_UptimeSeconds := f_trunc (Seconds (Sub now (sv_startedAt s))) |}
     {| co_Kind := Kind (sv_Store s); co_Reachable := is_ok ping;
        co_Error := match ping with Ok _ => None | Err e => Some (error_text e) end |}
     cat rows.*1
     (match diag with Ok d => dg_Aliases d | Err _ => [] end)
     (match diag with Ok d => dg_Rules d | Err _ => [] end)
     {| qh_State := v_State verdict |} (RFC3339 now),
   set_quota_state s q).

(** [sendHealth] *)
Definition sendHealth (rep : healthReport) : Z * healthReport :=
  (if bool_decide (hp_Status rep = healthUnavailable) then 503 else 200, rep).

Definition handleHealth (r : HttpReq) (s : Server A) : (Z * healthReport) * Server A :=
  match hc_get (sv_health s) (TenantID r) (hr_now r 0) with
  | Some rep => (sendHealth rep, s)
  | None =>
      let '(rep, s) := buildHealth r (TenantID r) s in
      (sendHealth rep, set_health s (hc_put (sv_health s) (TenantID r) rep (hr_now r 4)))
  end.
End health.

(** ** Meta *)

Definition apiVersion : string := "v1".

Record metaLimits := {
  ml_MaxRequestBytes : Z;
  ml_MaxResponseBytes : Z;
  ml_RequestTimeoutSec : Z;
  ml_StreamIdleTimeout : Z;
  ml_MaxConcurrentPerKey : Z;
  ml_MaxFallbackDepth : Z;
  ml_RequestsPerSecond : Z;
  ml_BurstCapacity : Z;
  ml_RequestsPerMinute : Z
}.

Record metaResponse := {
  mt_Name : string;
  mt_Version : string;
  mt_APIVersion : string;
  mt_Capabilities : list string;
  mt_Endpoints : list string;
  mt_Limits : metaLimits;
  mt_Object : string;
  mt_Mode : string;
  mt_Store : string;
  mt_Planes : list (string * string);
  mt_Features : list (string * bool)
}.

(** [metaLimits], with [s.limits(c)] the narrowing of [Limits] *)
Definition meta_limits {A} (s : Server A) (r : HttpReq) : metaLimits :=
  let lim := limitsFor (sv_Config s) (hr_tenant r) in
  {| ml_MaxRequestBytes := el_MaxRequestBytes lim;
     ml_MaxResponseBytes := li_MaxResponseBytes (cf_Limits (sv_Config s));
     ml_RequestTimeoutSec := f_trunc (Seconds (el_RequestTimeout lim));
     ml_StreamIdleTimeout := f_trunc (Seconds (el_StreamIdleTimeout lim));
     ml_MaxConcurrentPerKey := el_MaxConcurrentPerKey lim;
     ml_MaxFallbackDepth := ro_MaxFallbackDepth (cf_Routing (sv_Config s));
     ml_RequestsPerSecond := el_RequestsPerSecond lim;
     ml_BurstCapacity := el_BurstCapacity lim;
     ml_RequestsPerMinute := el_RequestsPerMinute lim |}.

Definition capabilities (cfg : Config) : list string :=
  ["gw-1"; "gw-2"; "gw-3"; "gw-4"; "gw-5"; "gw-6"; "gw-7"] ++
  (if me_Enabled (cf_Metrics cfg) then ["gw-8"] else []) ++ ["gw-9"] ++
  (if cc_Enabled (cf_Cache cfg) then ["gw-12"] else []) ++ ["gw-13"; "gw-14"].

Definition meta {A} (s : Server A) (r : HttpReq) : metaResponse :=
  let cfg := sv_Config s in
  {| mt_Name := "cognigate"; mt_Version := version s; mt_APIVersion := apiVersion;
     mt_Capabilities := capabilities cfg;
     mt_Endpoints := ["chat.completions"; "models"; "usage"; "usage.breakdown"; "health"; "meta"];
     mt_Limits := meta_limits s r; mt_Object := "meta"; mt_Mode := if sv_Dev s then "dev" else "server";
     mt_Store := Kind (sv_Store s);
     mt_Planes := [("data", DataKeyPrefix); ("admin", AdminKeyPrefix)];
     mt_Features :=
       [("streaming", true); ("aliases", true); ("fallback_chains", true); ("quotas", true);
        ("circuit_breaker", true); ("webhooks", negb (is_None_b (sv_Events s)));
        ("response_cache", cc_Enabled (cf_Cache cfg)); ("metrics", me_Enabled (cf_Metrics cfg));
        ("quota_enforcement", bool_decide (qc_Enforcement (cf_Quotas cfg) = "on"))] |}.

Definition handleMeta {A} (r : HttpReq) : handler A metaResponse := asks (λ s, meta s r).
