(* ===== verification/Admin.v ===== *)
(** * The control plane (internal/server/admin.go, audit.go, capture.go, cache.go)

    Every route of /admin/v1 as a handler on the server, and the audit
    middleware around them. Decoding a JSON body into a request struct is the
    framework's: a handler takes the decoded struct, or the decoder's error.
    Parsing a URL is the standard library's, behind the class [NetUrl]. A handler
    answers a status and a payload; a payload is the Go value handed to the JSON
    encoder. *)

From S2P Require Import Prelude GoStrings GoTime GoFloat Calendar GoFormat ApiErr StoreTypes Keys Json Memory Provider Breaker Catalog Resolve Dispatch Cache Config Limits Quota Middleware Page Capture Events Server Data.
From Stdlib Require Import Ascii.

#[local] Open Scope Z_scope.
#[local] Open Scope stdpp_scope.
#[local] Open Scope gate_scope.

(** [url.Parse]: the scheme and the host, or an error. *)
Class NetUrl := { url_Parse : string → option (string * string) }.

(** ** Request bodies *)

Record createTenantReq := { ct_Name : string }.

Record createKeyReq := {
  ck_Name : string;
  ck_Plane : string;
  ck_Scope : string;
  ck_ExpiresAt : option Z
}.

Record createAdminKeyReq := { ak_Name : string; ak_ExpiresAt : option Z }.

Record createProviderReq := {
  cp_Name : string;
  cp_Kind : string;
  cp_BaseURL : string;
  cp_Keys : list string;
  cp_Enabled : option bool;
  cp_KeyStrategy : string
}.

Record updateProviderReq := {
  up_BaseURL : option string;
  up_Enabled : option bool;
  up_Keys : option (list string);
  up_KeyStrategy : option string
}.

Record aliasReq := {
  ar_Pin : string;
  ar_Capabilities : list string;
  ar_MinContextWindow : Z;
  ar_ProviderPreference : list string;
  ar_CostTier : string
}.

Record routeReq := { rr_Match : string; rr_Chain : list string }.

(** Two [quotaWindowRequest]s, which mirror [QuotaWindow]. *)
Record quotaReq := { qr_Day : QuotaWindow; qr_Month : QuotaWindow }.

Record webhookReq := {
  wr_URL : string;
  wr_Secret : string;
  wr_Events : list string;
  wr_Enabled : option bool
}.

(** ** Payloads *)

Record refreshEntry := {
  re_tenant : string;
  re_ok : bool;
  re_error : option message;
  re_models : option Z;
  re_stale : option bool;
  re_errors : gmap string message
}.

Record adminUsageResponse := { au_Usage : usageResponse; au_MarginUSD : f64 }.
Record adminMetaResponse := { am_Meta : metaResponse; am_Scope : string; am_Events : list string }.

Inductive payload :=
  | NoContent
  | PTenant (t : Tenant)
  | PTenantUpdated (t : Tenant) (warnings : list message)
  | PMinted (k : APIKey) (secret : string)
  | PProvider (p : Provider)
  | PAlias (a : Alias)
  | PRoute (r : Route)
  | PQuota (q : Quota)
  | PWebhook (w : Webhook)
  | PTenants (l : ListPage Tenant)
  | PKeys (l : ListPage APIKey)
  | PProviders (l : ListPage Provider)
  | PAliases (l : ListPage Alias)
  | PRoutes (l : ListPage Route)
  | PWebhooks (l : ListPage Webhook)
  | PEvents (l : ListPage Event)
  | PAudit (l : ListPage AuditEntry)
  | PCaptures (l : ListPage CapEntry)
  | PRefreshed (l : list refreshEntry)
  | PFlushed (n : Z)
  | PUsage (u : adminUsageResponse)
  | PBreakdown (b : breakdownResponse)
  | PMeta (m : adminMetaResponse).

Record response := { rp_Status : Z; rp_Body : payload }.

Definition answer_json {A} (p : payload) : handler A response := hret {| rp_Status := 200; rp_Body := p |}.
Definition answer_created {A} (p : payload) : handler A response := hret {| rp_Status := 201; rp_Body := p |}.
Definition answer_none {A} : handler A response := hret {| rp_Status := 204; rp_Body := NoContent |}.

(** ** Authorisation *)

Definition tenant_scope_prefix : string := "tenant:".

Definition tenantScope (r : HttpReq) : res error string :=
  let id := TrimSpace (hr_param r "tenant") in
  if bool_decide (id = "") then
    Err (ErrApi (WithParam (InvalidRequest (text "A tenant id is required.")) "tenant"))
  else match hr_key r with
       | None => Err (ErrApi InvalidAPIKey)
       | Some key =>
           if bool_decide (k_Scope key = ScopeRoot) then Ok id
           else if bool_decide (TrimPrefix (k_Scope key) tenant_scope_prefix = id) then Ok id
           else Err (ErrApi (ResourceNotFound "tenant" id))
       end.

Definition requireRoot (r : HttpReq) : res error () :=
  match hr_key r with
  | Some key => if bool_decide (k_Scope key = ScopeRoot) then Ok () else Err (ErrApi InsufficientScope)
  | None => Err (ErrApi InsufficientScope)
  end.

Definition storeErr (kind id : string) (err : error) : error :=
  if is_not_found err then ErrApi (WithCause (ResourceNotFound kind id) err)
  else if is_conflict err then ErrApi (WithCause (Conflict (error_text err)) err)
  else err.

Definition parse {X} (body : res error X) : res error X :=
  match body with
  | Err err => Err (ErrApi (WithCause (InvalidRequest (text "Request body is not valid JSON.")) err))
  | Ok x => Ok x
  end.

(** [apierr.From] on an error about to be answered *)
Definition as_answer (err : error) : error := ErrApi (From err).

(** [sendPage] *)
Definition sendPage {A T} (r : HttpReq) (idOf : T → string) (wrap : ListPage T → payload)
    (items : list T) : handler A response :=
  match paginate idOf (hr_query r) items with
  | Err e => hfail (ErrApi e)
  | Ok page => answer_json (wrap page)
  end.

(** ** Validation *)

Definition absolute_http `{NetUrl} (raw : string) : bool :=
  match url_Parse raw with
  | None => false
  | Some (scheme, host) => negb (bool_decide (host = "")) && one_of scheme ["http"; "https"]
  end.

Definition validateBaseURL `{NetUrl} (raw : string) : option Error :=
  let raw := TrimSpace raw in
  if bool_decide (raw = "") then
    Some (WithParam (InvalidRequest (text "A provider base_url is required.")) "base_url")
  else if negb (absolute_http raw) then
    Some (WithParam (InvalidRequest (text "base_url must be an absolute http or https URL.")) "base_url")
  else None.

Definition validateWebhookURL `{NetUrl} (raw : string) : option Error :=
  let raw := TrimSpace raw in
  if bool_decide (raw = "") then
    Some (WithParam (InvalidRequest (text "A webhook url is required.")) "url")
  else if negb (absolute_http raw) then
    Some (WithParam (InvalidRequest (text "url must be an absolute http or https URL.")) "url")
  else None.

Definition nonEmpty (l : list string) : list string :=
  List.filter (λ v, negb (bool_decide (v = ""))) (TrimSpace <$> l).

Definition eventRegistry : list string := Registry.

Definition knownEvent (name : string) : bool := existsb (λ e, bool_decide (e = name)) eventRegistry.

(** [normaliseQuotaLimit]: the limit with its threshold filled in, or the refusal. *)
Definition normaliseQuotaLimit (cfg : Config) (param : string) (limit : option QuotaLimit) :
    res error (option QuotaLimit) :=
  match limit with
  | None => Ok None
  | Some l =>
      if fltb (ql_Cap l) fzero then
        Err (ErrApi (WithParam (InvalidRequest (text "A quota cap must not be negative.")) (param +:+ ".cap")))
      else
        let pct := if ql_SoftThresholdPct l =? 0 then qc_DefaultSoftThresholdPct (cf_Quotas cfg)
                   else ql_SoftThresholdPct l in
        if (pct <? 1) || (100 <? pct) then
          Err (ErrApi (WithParam (InvalidRequest (text "soft_threshold_pct must be between 1 and 100."))
                         (param +:+ ".soft_threshold_pct")))
        else Ok (Some {| ql_Cap := ql_Cap l; ql_SoftThresholdPct := pct |})
  end.

Definition normaliseWindow (cfg : Config) (name : string) (w : QuotaWindow) : res error QuotaWindow :=
  let! tokens := normaliseQuotaLimit cfg (name +:+ ".tokens") (qw_Tokens w) in
  let! cost := normaliseQuotaLimit cfg (name +:+ ".cost") (qw_Cost w) in
  let! requests := normaliseQuotaLimit cfg (name +:+ ".requests") (qw_Requests w) in
  Ok {| qw_Tokens := tokens; qw_Cost := cost; qw_Requests := requests |}.

(** [captureWarnings] *)
Definition captureWarnings (cfg : Config) (p : TenantDebugCapture) : list message :=
  if negb (dc_Enabled p) || fltb (dc_SampleRate p) (f_of_Z 1) then []
  else [Msgf "debug_capture.sample_rate is 1.0: every request and response body for this tenant will be retained for %s and readable through the admin plane. Prefer a sample below 1.0 unless a specific investigation needs all of it."
          [FInt (captureTTL cfg (Some {| t_ID := ""; t_Name := ""; t_Status := ""; t_CreatedAt := 0;
             t_Limits := no_limits; t_Cache := no_cache; t_DebugCapture := p; t_SystemInstruction := "" |}))]].

(** [margin] *)
Definition margin (charge cost : f64) : f64 :=
  default (fsub charge cost) (reparse_f 8 (fsub charge cost)).

(** ** Handlers *)

Section handlers.
Context `{Unicode} `{Crypto} `{JsonCodec} `{JsonNumbers} `{NetUrl}.
Context {A : Type} (adapters : gmap string A).
Context (poll_now : nat → Z * Z) (answers : nat → nat → A → Credential → res message (list Model)).
Context (r : HttpReq).

(** *** Meta and catalog *)

Definition adminMeta : handler A response :=
  let* m := asks (λ s, meta s r) in
  answer_json (PMeta
    {| am_Meta :=
         {| mt_Name := mt_Name m; mt_Version := mt_Version m; mt_APIVersion := mt_APIVersion m;
            mt_Capabilities := mt_Capabilities m; mt_Endpoints := mt_Endpoints m;
            mt_Limits := mt_Limits m; mt_Object := "admin_meta"; mt_Mode := mt_Mode m;
            mt_Store := mt_Store m; mt_Planes := mt_Planes m; mt_Features := mt_Features m |};
       am_Scope := match hr_key r with Some k => k_Scope k | None => "" end;
       am_Events := eventRegistry |}).

(** [s.Catalog.Refresh], as the [i]-th of the request; an entry of the answer. *)
Definition refresh_one (i : nat) (id : string) (s : Server A) : refreshEntry * Server A :=
  let '(got, c) := Refresh adapters (answers i) (sv_Catalog s) id
                     (Ok (ListProviders (sv_Store s) id)) (poll_now i).2 in
  (match got with
   | Err err => {| re_tenant := id; re_ok := false; re_error := Some (error_text err); re_models := None;
                   re_stale := None; re_errors := ∅ |}
   | Ok snap => {| re_tenant := id; re_ok := negb (sn_Stale snap); re_error := None;
                   re_models := Some (Z.of_nat (length (sn_Models snap))); re_stale := Some (sn_Stale snap);
                   re_errors := sn_Errors snap |}
   end, set_catalog s c).

Fixpoint refresh_all (i : nat) (targets : list string) (s : Server A) : list refreshEntry * Server A :=
  match targets with
  | [] => ([], s)
  | id :: targets' =>
      let '(entry, s) := refresh_one i id s in
      let '(entries, s) := refresh_all (S i) targets' s in (entry :: entries, s)
  end.

(** The tenants a refresh covers. *)
Definition refresh_targets (named : string) (m : Memory) : res error (list string) :=
  match hr_key r with
  | None => Err (ErrApi InvalidAPIKey)
  | Some key =>
      if bool_decide (k_Scope key = ScopeRoot) then
        Ok (if negb (bool_decide (named = "")) then [named] else t_ID <$> ListTenants m)
      else
        let own := TrimPrefix (k_Scope key) tenant_scope_prefix in
        if negb (bool_decide (named = "")) && negb (bool_decide (named = own))
        then Err (ErrApi (ResourceNotFound "tenant" named)) else Ok [own]
  end.

(** [body] is [None] when the request has none. *)
Definition refreshCatalog (body : option (res error string)) : handler A response :=
  let* named := of_res (match body with None => Ok "" | Some b => parse b end) in
  let named := TrimSpace named in
  let* targets := (λ s, (refresh_targets named (sv_Store s), s)) in
  do* (if bool_decide (named = "") then hret ()
       else map_err (storeErr "tenant" named)
              (let* _ := (λ s, (GetTenant (sv_Store s) named, s)) in hret ())) in
  let* entries := (λ s, let '(l, s) := refresh_all 0 targets s in (Ok l, s)) in
  answer_json (PRefreshed entries).

(** *** Tenants *)

(** The loop of [seedAliases]; a failed write is logged and passed over. *)
Fixpoint seedAliases (i : nat) (tenantID : string) (seeds : list Alias) (m : Memory) : Memory :=
  match seeds with
  | [] => m
  | seed :: seeds' =>
      let a := {| al_ID := al_ID seed; al_TenantID := tenantID; al_Name := al_Name seed;
                  al_Pin := al_Pin seed; al_Capabilities := al_Capabilities seed;
                  al_MinContextWindow := al_MinContextWindow seed;
                  al_ProviderPreference := al_ProviderPreference seed; al_CostTier := al_CostTier seed;
                  al_CreatedAt := al_CreatedAt seed |} in
      seedAliases (S i) tenantID seeds' (UpsertAlias m (hr_rnd r i) (hr_now r i) a).2
  end.

Definition createTenant (body : res error createTenantReq) : handler A response :=
  do* of_res (requireRoot r) in
  let* req := of_res (parse body) in
  do* guard (bool_decide (TrimSpace (ct_Name req) = ""))
    (WithParam (InvalidRequest (text "A tenant name is required.")) "name") in
  let* tenant := map_err (storeErr "tenant" (ct_Name req))
    (in_store (λ m, CreateTenant m (hr_rnd r 0) (hr_now r 0) (ct_Name req))) in
  do* modify (λ s, set_store s (seedAliases 1 (t_ID tenant) SeededAliases (sv_Store s))) in
  answer_created (PTenant tenant).

Definition listTenants : handler A response :=
  do* of_res (requireRoot r) in
  let* tenants := asks (λ s, ListTenants (sv_Store s)) in
  sendPage r t_ID PTenants tenants.

Definition getTenant : handler A response :=
  let* id := of_res (tenantScope r) in
  let* tenant := map_err (storeErr "tenant" id) (λ s, (GetTenant (sv_Store s) id, s)) in
  answer_json (PTenant tenant).

(** [emitCaptureChange] *)
Definition capture_payload (cfg : Config) (t : Tenant) : string * gmap string datum :=
  if dc_Enabled (t_DebugCapture t) then
    (DebugCaptureEnabled,
     <["sample_rate" := DFloat (captureSampleRate cfg (Some t))]>
       (<["ttl_seconds" := DInt (f_trunc (Seconds (captureTTL cfg (Some t))))]>
          {["tenant" := DStr (t_ID t)]}))
  else (DebugCaptureDisabled, {["tenant" := DStr (t_ID t)]}).

Definition emitCaptureChange (t : Tenant) (s : Server A) : Server A :=
  match sv_Events s with
  | None => s
  | Some d =>
      let '(typ, data) := capture_payload (sv_Config s) t in
      let '(m, d) := Emit (hr_rnd r 0) (hr_now r 0) (t_ID t) typ data (sv_Store s, d) in
      set_dispatch_events (set_store s m) (Some d)
  end.

Definition empty_patch (p : TenantPatch) : bool :=
  is_None_b (tp_Name p) && is_None_b (tp_Status p) && is_None_b (tp_Limits p) && is_None_b (tp_Cache p)
  && is_None_b (tp_DebugCapture p) && is_None_b (tp_SystemInstruction p).

(** The body mirrors [TenantPatch]. *)
Definition updateTenant (body : res error TenantPatch) : handler A response :=
  do* of_res (requireRoot r) in
  let id := hr_param r "tenant" in
  let* req := of_res (parse body) in
  let* cfg := asks sv_Config in
  do* guard (empty_patch req)
    (InvalidRequest (text "A tenant update must change name, status, limits, cache, debug_capture or system_instruction.")) in
  do* guard (match tp_Status req with Some st => negb (one_of st ["active"; "suspended"]) | None => false end)
    (WithParam (InvalidRequest (Msgf "status must be %q or %q." [FStr "active"; FStr "suspended"])) "status") in
  do* refuse (tp_Limits req ≫= validateTenantLimits cfg) in
  do* refuse (tp_Cache req ≫= validateTenantCache cfg) in
  do* refuse (tp_DebugCapture req ≫= validateTenantDebugCapture cfg) in
  let* was := asks (λ s, match tp_DebugCapture req, GetTenant (sv_Store s) id with
                         | Some _, Ok prev => dc_Enabled (t_DebugCapture prev)
                         | _, _ => false
                         end) in
  let* tenant := map_err (storeErr "tenant" id) (in_store (λ m, UpdateTenant m id req)) in
  do* modify (λ s, if negb (is_None_b (tp_DebugCapture req))
                      && negb (bool_decide (was = dc_Enabled (t_DebugCapture tenant)))
                   then emitCaptureChange tenant s else s) in
  answer_json (PTenantUpdated tenant (captureWarnings cfg (t_DebugCapture tenant))).

Definition deleteTenant : handler A response :=
  do* of_res (requireRoot r) in
  let id := hr_param r "tenant" in
  do* guard (negb (bool_decide (hr_query r "confirm" = id)))
    (WithParam (InvalidRequest (text "deleting a tenant requires ?confirm=<id> matching the tenant in the path.")) "confirm") in
  do* map_err (storeErr "tenant" id) (in_store (λ m, DeleteTenant m id)) in
  do* modify (λ s, set_catalog s (Invalidate (sv_Catalog s) id)) in
  do* modify (λ s, set_quota_state s {| qs_quotas := invalidate id (qs_quotas (sv_quotas s));
                                        qs_events := qs_events (sv_quotas s);
                                        qs_emitted := qs_emitted (sv_quotas s) |}) in
  do* modify (λ s, set_cache s (CFlush (sv_cache s) id).2) in
  do* modify (λ s, set_captures s (CapFlush id (sv_captures s)).2) in
  answer_none.

(** *** Keys *)

Definition mint (tenantID : string) (plane : Plane) (name scope : string) (expiresAt : option Z) :
    handler A (APIKey * string) :=
  in_store (λ m, match CreateAPIKey m (hr_rnd r 0) (hr_rnd r 1) (hr_now r 1) tenantID plane name scope expiresAt with
                 | Some out => out
                 | None => (Err (recovered (text "slice bounds out of range")), m)
                 end).

Definition past_expiry (expiresAt : option Z) : bool :=
  match expiresAt with Some e => negb (After e (hr_now r 0)) | None => false end.

Definition expiry_refusal : Error :=
  WithParam (InvalidRequest (text "expires_at must be in the future.")) "expires_at".

(** The scope a key gets, or the refusal. *)
Definition key_scope (tenantID : string) (plane : Plane) (asked : string) : res error string :=
  let own := match plane with PlaneAdmin => tenant_scope_prefix +:+ tenantID | PlaneData => "" end in
  if bool_decide (asked = ScopeRoot) then
    if negb (bool_decide (plane = PlaneAdmin)) then
      Err (ErrApi (WithParam (InvalidRequest
        (Msgf "Only an admin-plane key can carry the %q scope." [FStr "root"])) "scope"))
    else if negb (match hr_key r with Some k => bool_decide (k_Scope k = ScopeRoot) | None => false end)
    then Err (ErrApi InsufficientScope)
    else Ok ScopeRoot
  else if negb (bool_decide (asked = "")) && negb (bool_decide (asked = own)) then
    Err (ErrApi (WithParam (InvalidRequest
      (Msgf "scope must be %q or omitted; a tenant key's scope is derived from its tenant." [FStr "root"])) "scope"))
  else Ok own.

Definition parse_plane (raw : string) : res error Plane :=
  let raw := TrimSpace raw in
  if bool_decide (raw = "") || bool_decide (raw = "data") then Ok PlaneData
  else if bool_decide (raw = "admin") then Ok PlaneAdmin
  else Err (ErrApi (WithParam (InvalidRequest (Msgf "plane must be %q or %q." [FStr "data"; FStr "admin"])) "plane")).

(** [mintedKey] *)
Definition mintedKey (ks : APIKey * string) : handler A response := answer_created (PMinted ks.1 ks.2).

Definition createKey (body : res error createKeyReq) : handler A response :=
  let* tenantID := of_res (tenantScope r) in
  let* req := of_res (parse body) in
  let* plane := of_res (parse_plane (ck_Plane req)) in
  let* scope := of_res (key_scope tenantID plane (ck_Scope req)) in
  do* guard (past_expiry (ck_ExpiresAt req)) expiry_refusal in
  let* ks := map_err (storeErr "tenant" tenantID) (mint tenantID plane (ck_Name req) scope (ck_ExpiresAt req)) in
  mintedKey ks.

Definition createAdminKey (body : res error createAdminKeyReq) : handler A response :=
  do* of_res (requireRoot r) in
  let* req := of_res (parse body) in
  let name := TrimSpace (ak_Name req) in
  do* guard (bool_decide (name = "")) (WithParam (InvalidRequest (text "A key name is required.")) "name") in
  do* guard (past_expiry (ak_ExpiresAt req)) expiry_refusal in
  let* ks := map_err as_answer (mint "" PlaneAdmin name ScopeRoot (ak_ExpiresAt req)) in
  mintedKey ks.

Definition listAdminKeys : handler A response :=
  do* of_res (requireRoot r) in
  let* keys := asks (λ s, ListAPIKeys (sv_Store s) "") in
  sendPage r k_ID PKeys keys.

Definition revokeAdminKey : handler A response :=
  do* of_res (requireRoot r) in
  let id := hr_param r "id" in
  do* map_err (storeErr "key" id) (in_store (λ m, RevokeAPIKey m (hr_now r 0) "" id)) in
  answer_none.

Definition listKeys : handler A response :=
  let* tenantID := of_res (tenantScope r) in
  let* keys := asks (λ s, ListAPIKeys (sv_Store s) tenantID) in
  sendPage r k_ID PKeys keys.

Definition revokeKey : handler A response :=
  let* tenantID := of_res (tenantScope r) in
  let id := hr_param r "id" in
  do* map_err (storeErr "key" id) (in_store (λ m, RevokeAPIKey m (hr_now r 0) tenantID id)) in
  answer_none.

(** *** Providers *)

Definition drop_catalog (tenantID : string) : handler A () :=
  modify (λ s, set_catalog s (Invalidate (sv_Catalog s) tenantID)).

Definition keys_refusal : Error :=
  WithParam (InvalidRequest (text "At least one provider API key is required.")) "keys".
Definition strategy_refusal : Error :=
  WithParam (InvalidRequest (Msgf "key_strategy must be %q or %q." [FStr "round_robin"; FStr "failover"])) "key_strategy".

Definition stored_strategy (s : string) : string := if bool_decide (s = "") then KeyStrategyRoundRobin else s.

Definition createProvider (body : res error createProviderReq) : handler A response :=
  let* tenantID := of_res (tenantScope r) in
  let* req := of_res (parse body) in
  let name := TrimSpace (cp_Name req) in
  do* guard (bool_decide (name = "")) (WithParam (InvalidRequest (text "A provider name is required.")) "name") in
  let kind := ToLower (TrimSpace (cp_Kind req)) in
  let kind := if bool_decide (kind = "") then KindOpenAI else kind in
  let baseURL := if bool_decide (TrimSpace (cp_BaseURL req) = "")
                 then default (cp_BaseURL req) (DefaultBaseURL kind) else cp_BaseURL req in
  do* refuse (validateBaseURL baseURL) in
  do* guard (negb (ValidKeyStrategy (cp_KeyStrategy req))) strategy_refusal in
  let keys := nonEmpty (cp_Keys req) in
  do* guard (bool_decide (keys = [])) keys_refusal in
  let* p := map_err (storeErr "provider" name) (in_store (λ m, CreateProvider m (hr_rnd r 0) (hr_now r 0)
    {| p_ID := ""; p_TenantID := tenantID; p_Name := name; p_Kind := kind;
       p_BaseURL := TrimRight baseURL "/"; p_Enabled := default true (cp_Enabled req);
       p_KeyStrategy := stored_strategy (cp_KeyStrategy req); p_Keys := keys; p_KeyPrefixes := [];
       p_CreatedAt := 0 |})) in
  do* drop_catalog tenantID in
  answer_created (PProvider p).

Definition listProviders : handler A response :=
  let* tenantID := of_res (tenantScope r) in
  let* providers := asks (λ s, ListProviders (sv_Store s) tenantID) in
  sendPage r p_ID PProviders providers.

Definition updateProvider (body : res error updateProviderReq) : handler A response :=
  let* tenantID := of_res (tenantScope r) in
  let id := hr_param r "id" in
  let* req := of_res (parse body) in
  do* guard (is_None_b (up_BaseURL req) && is_None_b (up_Enabled req) && is_None_b (up_Keys req)
             && is_None_b (up_KeyStrategy req))
    (InvalidRequest (text "A provider update must change base_url, enabled, keys or key_strategy.")) in
  do* guard (match up_KeyStrategy req with Some st => negb (ValidKeyStrategy st) | None => false end)
    strategy_refusal in
  do* refuse (up_BaseURL req ≫= validateBaseURL) in
  do* guard (match up_Keys req with Some keys => bool_decide (nonEmpty keys = []) | None => false end)
    keys_refusal in
  let* p := map_err (storeErr "provider" id) (in_store (λ m, UpdateProvider m tenantID id
    {| pp_BaseURL := up_BaseURL req; pp_Enabled := up_Enabled req;
       pp_KeyStrategy := stored_strategy <$> up_KeyStrategy req; pp_Keys := nonEmpty <$> up_Keys req |})) in
  do* drop_catalog tenantID in
  answer_json (PProvider p).

Definition deleteProvider : handler A response :=
  let* tenantID := of_res (tenantScope r) in
  let id := hr_param r "id" in
  do* map_err (storeErr "provider" id) (in_store (λ m, DeleteProvider m tenantID id)) in
  do* drop_catalog tenantID in
  answer_none.

(** *** Aliases and routes *)

Definition alias_pattern_text : string := "^[a-z][a-z0-9_-]{1,63}$".

(** The catalog clash check of [upsertAlias]: an unreadable catalog skips it. *)
Definition alias_clash (tenantID name : string) : handler A bool := λ s,
  let '(got, s) := catalog_get adapters poll_now answers 0 tenantID s in
  (Ok (match got with Ok snap => negb (is_None_b (Lookup (Some snap) name)) | Err _ => false end), s).

Definition upsertAlias (body : res error aliasReq) : handler A response :=
  let* tenantID := of_res (tenantScope r) in
  let name := TrimSpace (hr_param r "name") in
  do* guard (negb (AliasNamePattern name))
    (WithParam (InvalidRequest (Msgf "An alias name must match %s." [FStr alias_pattern_text])) "name") in
  let* req := of_res (parse body) in
  do* guard (negb (one_of (ar_CostTier req) [""; "cheapest"; "balanced"; "best"]))
    (WithParam (InvalidRequest (Msgf "cost_tier must be one of %q, %q, %q."
       [FStr "cheapest"; FStr "balanced"; FStr "best"])) "cost_tier") in
  let* clash := alias_clash tenantID name in
  do* guard clash (AliasCollides name) in
  let* a := map_err (storeErr "alias" name) (in_store (λ m, UpsertAlias m (hr_rnd r 0) (hr_now r 0)
    {| al_ID := ""; al_TenantID := tenantID; al_Name := name; al_Pin := TrimSpace (ar_Pin req);
       al_Capabilities := ar_Capabilities req; al_MinContextWindow := ar_MinContextWindow req;
       al_ProviderPreference := ar_ProviderPreference req; al_CostTier := ar_CostTier req;
       al_CreatedAt := 0 |})) in
  answer_json (PAlias a).

Definition listAliases : handler A response :=
  let* tenantID := of_res (tenantScope r) in
  let* aliases := asks (λ s, ListAliases (sv_Store s) tenantID) in
  sendPage r al_ID PAliases aliases.

Definition deleteAlias : handler A response :=
  let* tenantID := of_res (tenantScope r) in
  let name := hr_param r "name" in
  do* map_err (storeErr "alias" name) (in_store (λ m, DeleteAlias m tenantID name)) in
  answer_none.

Definition upsertRoute (body : res error routeReq) : handler A response :=
  let* tenantID := of_res (tenantScope r) in
  let* req := of_res (parse body) in
  let match_ := TrimSpace (rr_Match req) in
  do* guard (bool_decide (match_ = "")) (WithParam (InvalidRequest (text "A route match is required.")) "match") in
  let chain := nonEmpty (rr_Chain req) in
  do* guard (bool_decide (chain = []))
    (WithParam (InvalidRequest (text "A fallback chain needs at least one entry.")) "chain") in
  let* cfg := asks sv_Config in
  do* guard (ro_MaxFallbackDepth (cf_Routing cfg) <? Z.of_nat (length chain))
    (WithParam (InvalidRequest (text "The fallback chain is longer than the configured max_fallback_depth.")) "chain") in
  do* of_res (ValidateChain chain) in
  let* rt := map_err (storeErr "route" match_) (in_store (λ m, UpsertRoute m (hr_rnd r 0) (hr_now r 0)
    {| r_ID := ""; r_TenantID := tenantID; r_Match := match_; r_Chain := chain; r_CreatedAt := 0 |})) in
  answer_json (PRoute rt).

Definition listRoutes : handler A response :=
  let* tenantID := of_res (tenantScope r) in
  let* routes := asks (λ s, ListRoutes (sv_Store s) tenantID) in
  sendPage r r_ID PRoutes routes.

Definition deleteRoute : handler A response :=
  let* tenantID := of_res (tenantScope r) in
  let id := hr_param r "id" in
  do* map_err (storeErr "route" id) (in_store (λ m, DeleteRoute m tenantID id)) in
  answer_none.

(** *** Quotas *)

(** [quotaTarget]: the tenant, and the key or the empty string. *)
Definition quotaTarget : handler A (string * string) :=
  let* tenantID := of_res (tenantScope r) in
  let keyID := TrimSpace (hr_param r "id") in
  if bool_decide (keyID = "") then hret (tenantID, "")
  else
    let* keys := asks (λ s, ListAPIKeys (sv_Store s) tenantID) in
    if existsb (λ k, bool_decide (k_ID k = keyID)) keys then hret (tenantID, keyID)
    else hfail (ErrApi (ResourceNotFound "key" keyID)).

Definition drop_quota (tenantID : string) : handler A () :=
  modify (λ s, set_quota_state s {| qs_quotas := invalidate tenantID (qs_quotas (sv_quotas s));
                                    qs_events := qs_events (sv_quotas s);
                                    qs_emitted := qs_emitted (sv_quotas s) |}).

Definition setQuota (body : res error quotaReq) : handler A response :=
  let* target := quotaTarget in
  let '(tenantID, keyID) := target in
  let* req := of_res (parse body) in
  let* cfg := asks sv_Config in
  let* day := of_res (normaliseWindow cfg "day" (qr_Day req)) in
  let* month := of_res (normaliseWindow cfg "month" (qr_Month req)) in
  let q := {| q_TenantID := tenantID; q_KeyID := keyID; q_Day := day; q_Month := month; q_UpdatedAt := 0 |} in
  do* guard (Empty q)
    (InvalidRequest (text "A quota must configure at least one cap: day or month, in tokens, cost or requests.")) in
  let* saved := map_err (storeErr "tenant" tenantID) (in_store (λ m, SetQuota m (hr_now r 0) q)) in
  do* drop_quota tenantID in
  answer_json (PQuota saved).

Definition getQuota : handler A response :=
  let* target := quotaTarget in
  let '(tenantID, keyID) := target in
  let* q := map_err (storeErr "quota" tenantID) (λ s, (GetQuota (sv_Store s) tenantID keyID, s)) in
  answer_json (PQuota q).

Definition deleteQuota : handler A response :=
  let* target := quotaTarget in
  let '(tenantID, keyID) := target in
  do* map_err (storeErr "quota" tenantID) (in_store (λ m, DeleteQuota m tenantID keyID)) in
  do* drop_quota tenantID in
  answer_none.

(** *** Webhooks and events *)

Definition createWebhook (body : res error webhookReq) : handler A response :=
  let* tenantID := of_res (tenantScope r) in
  let* req := of_res (parse body) in
  do* refuse (validateWebhookURL (wr_URL req)) in
  do* guard (String.length (wr_Secret req) <? 16)%nat
    (WithParam (InvalidRequest (text "A webhook secret of at least 16 characters is required to sign deliveries.")) "secret") in
  let events := nonEmpty (wr_Events req) in
  do* guard (bool_decide (events = []))
    (WithParam (InvalidRequest (text "Subscribe to at least one event type.")) "events") in
  do* refuse ((λ e, WithParam (InvalidRequest (Msgf "Unknown event type %s." [FStr e])) "events")
              <$> List.find (λ e, negb (knownEvent e)) events) in
  let* w := map_err (storeErr "tenant" tenantID) (in_store (λ m, CreateWebhook m (hr_rnd r 0) (hr_now r 0)
    {| w_ID := ""; w_TenantID := tenantID; w_URL := wr_URL req; w_Secret := wr_Secret req;
       w_Events := events; w_Enabled := default true (wr_Enabled req); w_CreatedAt := 0 |})) in
  answer_created (PWebhook w).

Definition listWebhooks : handler A response :=
  let* tenantID := of_res (tenantScope r) in
  let* hooks := asks (λ s, ListWebhooks (sv_Store s) tenantID) in
  sendPage r w_ID PWebhooks hooks.

Definition deleteWebhook : handler A response :=
  let* tenantID := of_res (tenantScope r) in
  let id := hr_param r "id" in
  do* map_err (storeErr "webhook" id) (in_store (λ m, DeleteWebhook m tenantID id)) in
  answer_none.

Definition listEvents : handler A response :=
  let* tenantID := of_res (tenantScope r) in
  let* events := asks (λ s, ListEvents (sv_Store s) tenantID) in
  sendPage r e_ID PEvents events.

(** *** Cache and captures *)

Definition flushTenantCache : handler A response :=
  let* id := of_res (tenantScope r) in
  do* map_err (storeErr "tenant" id) (λ s, (GetTenant (sv_Store s) id, s)) in
  let* n := (λ s, let '(n, c) := CFlush (sv_cache s) id in (Ok n, set_cache s c)) in
  answer_json (PFlushed n).

Definition listCaptures : handler A response :=
  let* id := of_res (tenantScope r) in
  do* map_err (storeErr "tenant" id) (λ s, (GetTenant (sv_Store s) id, s)) in
  let* entries := asks (λ s, CapList id (hr_now r 0) (sv_captures s)) in
  sendPage r cx_ID PCaptures entries.

(** *** Usage *)

Definition adminUsage : handler A response :=
  let* tenantID := of_res (tenantScope r) in
  let* w := of_res (usageWindow r) in
  let '(window, since, until) := w in
  let* totals := asks (λ s, Memory.Usage (sv_Store s) tenantID since until) in
  answer_json (PUsage
    {| au_Usage := {| ur_Object := "usage"; ur_Window := window; ur_Since := RFC3339 since;
                      ur_Until := RFC3339 until; ur_Totals := totals;
                      ur_CostUSD := Some (ut_CostUSD totals); ur_State := ""; ur_Limits := [] |};
       au_MarginUSD := margin (ut_ChargeUSD totals) (ut_CostUSD totals) |}).

Definition adminUsageBreakdown : handler A response :=
  let* tenantID := of_res (tenantScope r) in
  let* w := of_res (usageWindow r) in
  let '(window, since, until) := w in
  let groupBy := TrimSpace (query_or r "group_by" "model") in
  let known := ["model"; "provider"; "key"] in
  do* (if negb (one_of groupBy known) then hfail (bad_group known "group_by must be one of %q, %q, %q.")
       else hret ()) in
  let* buckets := map_err as_answer (λ s, (UsageBreakdown (sv_Store s) tenantID since until groupBy, s)) in
  answer_json (PBreakdown
    {| bd_Object := "usage_breakdown"; bd_Window := window; bd_GroupBy := groupBy;
       bd_Since := RFC3339 since; bd_Until := RFC3339 until;
       bd_Data := (λ b, {| bv_Bucket := b; bv_CostUSD := Some (ut_CostUSD (ub_Totals b)) |}) <$> buckets;
       bd_Truncated := false |}).

(** *** Audit *)

Definition listAudit : handler A response :=
  do* of_res (requireRoot r) in
  let* entries := asks (λ s, ListAudit (sv_Store s)) in
  sendPage r a_ID PAudit entries.

Definition auditAction (method : string) : option string :=
  if bool_decide (method = "POST") then Some "create"
  else if bool_decide (method = "PUT") then Some "upsert"
  else if bool_decide (method = "PATCH") then Some "update"
  else if bool_decide (method = "DELETE") then Some "delete"
  else None.

(** What the response carries once [Fail] or the handler has answered. *)
Definition status_of (out : res error response) : Z :=
  match out with Ok p => rp_Status p | Err e => err_Status (From e) end.

Definition audit_entry (key : APIKey) (action : string) (status : Z) : AuditEntry :=
  {| a_ID := ""; a_At := 0; a_Actor := k_Prefix key; a_ActorKeyID := k_ID key; a_ActorScope := k_Scope key;
     a_Action := action; a_Resource := hr_path r; a_TenantID := hr_param r "tenant"; a_Status := status;
     a_RequestID := hr_id r |}.

(** [auditMutations] around a handler; [rnd] and [at_] are those of the entry. *)
Definition auditMutations (rnd : string) (at_ : Z) (next : handler A response) : handler A response := λ s,
  let '(out, s) := next s in
  match auditAction (hr_method r), hr_key r with
  | Some action, Some key =>
      (out, set_store s (RecordAudit (sv_Store s) rnd at_ (audit_entry key action (status_of out))))
  | _, _ => (out, s)
  end.
End handlers.

(** ** Routes *)

(** [adminRoutes]: a matched route with its decoded body, or none. *)
Inductive route :=
  | RMeta | RRefresh (body : option (res error string)) | RAudit
  | RCreateAdminKey (body : res error createAdminKeyReq) | RListAdminKeys | RRevokeAdminKey
  | RCreateTenant (body : res error createTenantReq) | RListTenants | RGetTenant
  | RUpdateTenant (body : res error TenantPatch) | RDeleteTenant
  | RCreateKey (body : res error createKeyReq) | RListKeys | RRevokeKey
  | RCreateProvider (body : res error createProviderReq) | RListProviders
  | RUpdateProvider (body : res error updateProviderReq) | RDeleteProvider
  | RUpsertAlias (body : res error aliasReq) | RListAliases | RDeleteAlias
  | RUpsertRoute (body : res error routeReq) | RListRoutes | RDeleteRoute
  | RSetQuota (body : res error quotaReq) | RGetQuota | RDeleteQuota
  | RFlushCache | RListCaptures
  | RCreateWebhook (body : res error webhookReq) | RListWebhooks | RDeleteWebhook
  | RListEvents | RUsage | RUsageBreakdown
  | RUnmatched.

(** The method a route is registered for; an unmatched request has any. *)
Definition route_method (rt : route) : option string :=
  match rt with
  | RRefresh _ | RCreateAdminKey _ | RCreateTenant _ | RCreateKey _ | RCreateProvider _ | RFlushCache
  | RCreateWebhook _ => Some "POST"
  | RUpsertAlias _ | RUpsertRoute _ | RSetQuota _ => Some "PUT"
  | RUpdateTenant _ | RUpdateProvider _ => Some "PATCH"
  | RRevokeAdminKey | RDeleteTenant | RRevokeKey | RDeleteProvider | RDeleteAlias | RDeleteRoute
  | RDeleteQuota | RDeleteWebhook => Some "DELETE"
  | RUnmatched => None
  | _ => Some "GET"
  end.

Section api.
Context `{Unicode} `{Crypto} `{JsonCodec} `{JsonNumbers} `{NetUrl}.
Context {A : Type} (adapters : gmap string A).
Context (poll_now : nat → Z * Z) (answers : nat → nat → A → Credential → res message (list Model)).

Definition handle (r : HttpReq) (rt : route) : handler A response :=
  match rt with
  | RMeta => adminMeta r
  | RRefresh b => refreshCatalog adapters poll_now answers r b
  | RAudit => listAudit r
  | RCreateAdminKey b => createAdminKey r b
  | RListAdminKeys => listAdminKeys r
  | RRevokeAdminKey => revokeAdminKey r
  | RCreateTenant b => createTenant r b
  | RListTenants => listTenants r
  | RGetTenant => getTenant r
  | RUpdateTenant b => updateTenant r b
  | RDeleteTenant => deleteTenant r
  | RCreateKey b => createKey r b
  | RListKeys => listKeys r
  | RRevokeKey => revokeKey r
  | RCreateProvider b => createProvider r b
  | RListProviders => listProviders r
  | RUpdateProvider b => updateProvider r b
  | RDeleteProvider => deleteProvider r
  | RUpsertAlias b => upsertAlias adapters poll_now answers r b
  | RListAliases => listAliases r
  | RDeleteAlias => deleteAlias r
  | RUpsertRoute b => upsertRoute r b
  | RListRoutes => listRoutes r
  | RDeleteRoute => deleteRoute r
  | RSetQuota b => setQuota r b
  | RGetQuota => getQuota r
  | RDeleteQuota => deleteQuota r
  | RFlushCache => flushTenantCache r
  | RListCaptures => listCaptures r
  | RCreateWebhook b => createWebhook r b
  | RListWebhooks => listWebhooks r
  | RDeleteWebhook => deleteWebhook r
  | RListEvents => listEvents r
  | RUsage => adminUsage r
  | RUsageBreakdown => adminUsageBreakdown r
  | RUnmatched => hfail (ErrApi (NotSupported (hr_method r +:+ " " +:+ hr_path r)))
  end.

Definition with_auth (r : HttpReq) (kt : APIKey * option Tenant) : HttpReq :=
  {| hr_key := Some kt.1; hr_tenant := kt.2; hr_id := hr_id r; hr_clientID := hr_clientID r;
     hr_method := hr_method r; hr_path := hr_path r; hr_param := hr_param r; hr_query := hr_query r;
     hr_header := hr_header r; hr_now := hr_now r; hr_rnd := hr_rnd r |}.

(** A request under /admin/v1: authentication, then the audit middleware around
    the route. *)
Definition serve_admin (r : HttpReq) (rt : route) (auth_now : Z) (audit_rnd : string) (audit_at : Z) :
    handler A response := λ s,
  match auth (sv_Config s) (sv_Store s) auth_now PlaneAdmin (hr_header r "Authorization") with
  | Err e => (Err (ErrApi e), s)
  | Ok kt => auditMutations (with_auth r kt) audit_rnd audit_at (handle (with_auth r kt) rt) s
  end.
End api.
