(* ===== verification/AdminFacts.v ===== *)
(** * The control plane: what a request can change

    Everything an admin request does to the server is a sequence of atomic
    operations ([sop]); [effects] says which ones a handler may perform, and is
    proved for every route at once ([handle_effects]). The theorems are read
    off that: the audit log, isolation, privilege and validation. *)

From S2P Require Import Prelude GoStrings GoTime GoFloat Calendar GoFormat ApiErr StoreTypes Keys Json Memory MemoryFacts MemoryProps Provider Breaker Catalog Resolve Dispatch Cache Config Limits Quota Middleware Page Capture Events Server Data Admin.
From Stdlib Require Import Ascii.

#[local] Open Scope Z_scope.
#[local] Open Scope stdpp_scope.

(** ** Atomic operations *)

Inductive sop :=
  | SStore (o : mop)
  | SCatalog (tenantID : string) (snap : option Snapshot) (log : list catalog_change) (polls : list listing_call)
  | SQuota (tenantID : string)
  | SCache (tenantID : string)
  | SCapture (tenantID : string)
  | SQueue (d : EventDispatcher).

Section effects.
Context `{Unicode} `{Crypto} {A : Type}.

(** Listing calls made, on the catalog's log. *)
Definition add_polls (c : Catalog) (polls : list listing_call) : Catalog :=
  mkCatalog (cat_opts c) (cat_perTenant c) (cat_changes c) (cat_polls c ++ polls).

Definition apply_sop (s : Server A) (o : sop) : Server A :=
  match o with
  | SStore o => set_store s (apply_mop (sv_Store s) o)
  | SCatalog t snap log polls => set_catalog s (set_state (add_polls (sv_Catalog s) polls) t snap log)
  | SQuota t => set_quota_state s {| qs_quotas := invalidate t (qs_quotas (sv_quotas s));
                                     qs_events := qs_events (sv_quotas s);
                                     qs_emitted := qs_emitted (sv_quotas s) |}
  | SCache t => set_cache s (CFlush (sv_cache s) t).2
  | SCapture t => set_captures s (CapFlush t (sv_captures s)).2
  | SQueue d => set_dispatch_events s (Some d)
  end.
Definition run_sop (s : Server A) (ops : list sop) : Server A := foldl apply_sop s ops.

Definition store_op (o : sop) : option mop := match o with SStore o => Some o | _ => None end.

Lemma run_sop_store s ops : sv_Store (run_sop s ops) = run_mem (sv_Store s) (omap store_op ops).
Proof.
  revert s. induction ops as [|o ops IH]; intros s; [done|]. simpl. rewrite IH.
  by destruct o.
Qed.

Lemma run_sop_config s ops : sv_Config (run_sop s ops) = sv_Config s.
Proof. revert s. induction ops as [|o ops IH]; intros s; [done|]. simpl. rewrite IH. by destruct o. Qed.

(** [effects cfg P h]: on a server configured by [cfg], [h] performs a sequence
    of operations of [P]. *)
Definition effects (cfg : Config) (P : sop → Prop) {X} (h : handler A X) : Prop :=
  ∀ s, sv_Config s = cfg → ∃ ops, Forall P ops ∧ (h s).2 = run_sop s ops.

Section rules.
Context (cfg : Config) (P : sop → Prop).

Lemma effects_pure {X} (h : handler A X) : (∀ s, (h s).2 = s) → effects cfg P h.
Proof. intros E s _. exists []. by rewrite E. Qed.

Lemma effects_bind {X Y} (m : handler A X) (k : X → handler A Y) :
  effects cfg P m → (∀ x, effects cfg P (k x)) → effects cfg P (hbind m k).
Proof.
  intros Hm Hk s Hs. destruct (Hm s Hs) as (ops & HP & E). unfold hbind.
  destruct (m s) as [[x|e] s']; simpl in *; subst s'; [|by exists ops].
  destruct (Hk x (run_sop s ops)) as (ops' & HP' & ->); [by rewrite run_sop_config|].
  exists (ops ++ ops'). split; [by apply Forall_app|]. unfold run_sop. by rewrite foldl_app.
Qed.

Lemma effects_of_res {X Y} (v : res error X) (k : X → handler A Y) :
  (∀ x, v = Ok x → effects cfg P (k x)) → effects cfg P (hbind (of_res v) k).
Proof.
  intros Hk s Hs. unfold hbind, of_res. destruct v as [x|e]; [by apply Hk|by exists []].
Qed.

Lemma effects_asks {X Y} (f : Server A → X) (k : X → handler A Y) :
  (∀ s, sv_Config s = cfg → effects cfg P (k (f s))) → effects cfg P (hbind (asks f) k).
Proof. intros Hk s Hs. unfold hbind, asks. by apply Hk. Qed.

Lemma effects_config {Y} (k : Config → handler A Y) :
  effects cfg P (k cfg) → effects cfg P (hbind (asks sv_Config) k).
Proof. intros Hk s <-. unfold hbind, asks. by apply Hk. Qed.

Lemma effects_guard {Y} b e (k : () → handler A Y) :
  (b = false → effects cfg P (k ())) → effects cfg P (hbind (guard b e) k).
Proof. intros Hk s Hs. unfold hbind, guard. destruct b; [by exists []|by apply Hk]. Qed.

Lemma effects_refuse {Y} e (k : () → handler A Y) :
  (e = None → effects cfg P (k ())) → effects cfg P (hbind (refuse e) k).
Proof. intros Hk s Hs. unfold hbind, refuse. destruct e; [by exists []|by apply Hk]. Qed.

Lemma effects_map_err {X} f (m : handler A X) : effects cfg P m → effects cfg P (map_err f m).
Proof.
  intros Hm s Hs. destruct (Hm s Hs) as (ops & HP & E). exists ops. split; [done|].
  rewrite <-E. unfold map_err. by destruct (m s) as [[x|e] s'].
Qed.

Lemma effects_op {X} (h : handler A X) (o : Server A → sop) :
  (∀ s, P (o s)) → (∀ s, (h s).2 = apply_sop s (o s)) → effects cfg P h.
Proof. intros HP E s _. exists [o s]. split; [by constructor|]. apply E. Qed.

Lemma effects_store {X} (f : Memory → res error X * Memory) o :
  P (SStore o) → (∀ m, (f m).2 = apply_mop m o) → effects cfg P (in_store f).
Proof.
  intros HP E. apply (effects_op _ (λ _, SStore o)); [done|]. intros s. unfold in_store. simpl.
  rewrite <-E. by destruct (f (sv_Store s)).
Qed.

Lemma effects_modify f : (∀ s, sv_Config s = cfg → ∃ ops, Forall P ops ∧ f s = run_sop s ops) →
  effects cfg P (modify f).
Proof. intros E s Hs. by apply E. Qed.
End rules.

Lemma effects_weaken cfg (P Q : sop → Prop) {X} (h : handler A X) :
  (∀ o, P o → Q o) → effects cfg P h → effects cfg Q h.
Proof.
  intros HPQ Hh s Hs. destruct (Hh s Hs) as (ops & HP & E). exists ops. split; [|done].
  by eapply Forall_impl.
Qed.
End effects.

(** ** What a caller may do *)

Definition is_root (r : HttpReq) : bool :=
  match hr_key r with Some k => bool_decide (k_Scope k = ScopeRoot) | None => false end.
(** The tenant a tenant-scoped key is good for. *)
Definition own_tenant (r : HttpReq) : string :=
  match hr_key r with Some k => TrimPrefix (k_Scope k) tenant_scope_prefix | None => "" end.
Definition may_touch (r : HttpReq) (t : string) : Prop := is_root r = true ∨ t = own_tenant r.

(** Configuration the API lets in. *)
Definition limit_valid (l : option QuotaLimit) : Prop :=
  match l with
  | Some l => fltb (ql_Cap l) fzero = false ∧ 1 ≤ ql_SoftThresholdPct l ≤ 100
  | None => True
  end.
Definition window_valid (w : QuotaWindow) : Prop :=
  limit_valid (qw_Tokens w) ∧ limit_valid (qw_Cost w) ∧ limit_valid (qw_Requests w).
Definition quota_valid (q : Quota) : Prop :=
  window_valid (q_Day q) ∧ window_valid (q_Month q) ∧ Empty q = false.
Definition strategy_valid (s : string) : Prop := s = KeyStrategyRoundRobin ∨ s = KeyStrategyFailover.
Definition strings_valid (l : list string) : Prop := l ≠ [] ∧ Forall (λ s, s ≠ "") l.
Definition url_valid `{NetUrl} (stored : string) : Prop :=
  ∃ raw, validateBaseURL raw = None ∧ stored = TrimRight raw "/".
Definition provider_valid `{NetUrl} (p : Provider) : Prop :=
  url_valid (p_BaseURL p) ∧ strategy_valid (p_KeyStrategy p) ∧ strings_valid (p_Keys p).
Definition alias_valid (a : Alias) : Prop :=
  AliasNamePattern (al_Name a) = true ∧ al_CostTier a ∈ [""; "cheapest"; "balanced"; "best"].
Definition route_valid (cfg : Config) (rt : Route) : Prop :=
  r_Match rt ≠ "" ∧ strings_valid (r_Chain rt) ∧
  Z.of_nat (length (r_Chain rt)) ≤ ro_MaxFallbackDepth (cf_Routing cfg) ∧ NoDup (r_Chain rt).
Definition webhook_valid `{NetUrl} (w : Webhook) : Prop :=
  validateWebhookURL (w_URL w) = None ∧ (16 ≤ String.length (w_Secret w))%nat ∧
  w_Events w ≠ [] ∧ Forall (λ e, e ∈ Registry) (w_Events w).
Definition tenant_valid (cfg : Config) (t : Tenant) : Prop :=
  t_Status t ∈ ["active"; "suspended"] ∧
  (t_Limits t = no_limits ∨ validateTenantLimits cfg (t_Limits t) = None) ∧
  (t_Cache t = no_cache ∨ validateTenantCache cfg (t_Cache t) = None) ∧
  (t_DebugCapture t = no_capture ∨ validateTenantDebugCapture cfg (t_DebugCapture t) = None).

Definition patch_valid (cfg : Config) (p : TenantPatch) : Prop :=
  (∀ st, tp_Status p = Some st → st ∈ ["active"; "suspended"]) ∧
  (∀ l, tp_Limits p = Some l → validateTenantLimits cfg l = None) ∧
  (∀ c, tp_Cache p = Some c → validateTenantCache cfg c = None) ∧
  (∀ c, tp_DebugCapture p = Some c → validateTenantDebugCapture cfg c = None).
Definition provider_patch_valid `{NetUrl} (p : ProviderPatch) : Prop :=
  (∀ u, pp_BaseURL p = Some u → validateBaseURL u = None) ∧
  (∀ st, pp_KeyStrategy p = Some st → strategy_valid st) ∧
  (∀ ks, pp_Keys p = Some ks → strings_valid ks).

(** What a route may do beyond writing configuration: mint a key, or ask
    providers for their models. *)
Inductive licence := Minting | Polling | Plain.

#[export] Instance licence_eq_dec : EqDecision licence.
Proof. solve_decision. Defined.

(** The store operations the control plane may perform for a request. *)
Definition admin_op `{NetUrl} (mints : licence) (cfg : Config) (r : HttpReq) (o : mop) : Prop :=
  match o with
  | OpCreateTenant _ _ _ | OpDeleteTenant _ | OpRecordEvent _ => is_root r = true
  | OpUpdateTenant _ patch => is_root r = true ∧ patch_valid cfg patch
  | OpCreateAPIKey rk ri _ t plane _ sc ex =>
      mints = Minting ∧ rk = hr_rnd r 0 ∧ ri = hr_rnd r 1 ∧ may_touch r t ∧
      (sc = ScopeRoot ∧ is_root r = true ∨
       sc = match plane with PlaneAdmin => tenant_scope_prefix +:+ t | PlaneData => "" end) ∧
      match ex with Some e => hr_now r 0 < e | None => True end
  | OpRevokeAPIKey _ t _ | OpDeleteProvider t _ | OpDeleteAlias t _ | OpDeleteRoute t _
  | OpDeleteQuota t _ | OpDeleteWebhook t _ => may_touch r t
  | OpCreateProvider _ _ p => may_touch r (p_TenantID p) ∧ provider_valid p
  | OpUpdateProvider t _ patch => may_touch r t ∧ provider_patch_valid patch
  | OpUpsertAlias _ _ a => may_touch r (al_TenantID a) ∧ alias_valid a
  | OpUpsertRoute _ _ rt => may_touch r (r_TenantID rt) ∧ route_valid cfg rt
  | OpSetQuota _ q => may_touch r (q_TenantID q) ∧ quota_valid q
  | OpCreateWebhook _ _ w => may_touch r (w_TenantID w) ∧ webhook_valid w
  | OpRecordAudit _ _ _ | OpRecordUsage _ => False
  end.

Definition allowed `{NetUrl} (mints : licence) (cfg : Config) (r : HttpReq) (o : sop) : Prop :=
  match o with
  | SStore o => admin_op mints cfg r o
  | SCatalog t _ _ polls => may_touch r t ∧ (polls = [] ∨ mints = Polling)
  | SQuota t | SCache t | SCapture t => may_touch r t
  | SQueue _ => is_root r = true
  end.

(** ** Guards *)

Lemma requireRoot_ok r x : requireRoot r = Ok x → is_root r = true.
Proof. unfold requireRoot, is_root. by repeat case_match. Qed.

Lemma requireRoot_touch r x t : requireRoot r = Ok x → may_touch r t.
Proof. left. by eapply requireRoot_ok. Qed.

Lemma tenantScope_ok r id : tenantScope r = Ok id → may_touch r id.
Proof.
  unfold tenantScope, may_touch, is_root, own_tenant.
  repeat case_match; intros; simplify_eq; repeat case_bool_decide; simplify_eq; auto.
Qed.

Lemma strings_valid_nonEmpty l : bool_decide (nonEmpty l = []) = false → strings_valid (nonEmpty l).
Proof.
  intros Hne%bool_decide_eq_false. split; [done|]. apply Forall_forall. intros s.
  unfold nonEmpty. rewrite elem_of_filter_bool. intros [_ Hs%negb_true_false].
  by apply bool_decide_eq_false in Hs.
Qed.

Lemma stored_strategy_valid s : ValidKeyStrategy s = true → strategy_valid (stored_strategy s).
Proof.
  unfold ValidKeyStrategy, stored_strategy, strategy_valid. repeat case_bool_decide; simpl; auto.
  by intros.
Qed.

Lemma one_of_spec s l : one_of s l = true ↔ s ∈ l.
Proof.
  unfold one_of. rewrite existsb_exists. setoid_rewrite bool_decide_eq_true.
  split; [intros (x & Hx & ->)|intros Hs; exists s]; rewrite ?list_elem_of_In in *; done.
Qed.

Lemma normaliseQuotaLimit_valid cfg p l l' : normaliseQuotaLimit cfg p l = Ok l' → limit_valid l'.
Proof.
  unfold normaliseQuotaLimit. destruct l as [l|]; [|intros [= <-]; done].
  destruct (fltb _ _) eqn:E; [done|]. set (pct := if _ =? _ then _ else _).
  destruct (Z.ltb_spec pct 1), (Z.ltb_spec 100 pct); simpl; intros; simplify_eq.
  simpl. split; [done|lia].
Qed.

Lemma normaliseWindow_valid cfg p w w' : normaliseWindow cfg p w = Ok w' → window_valid w'.
Proof.
  unfold normaliseWindow, res_bind.
  destruct (normaliseQuotaLimit cfg _ (qw_Tokens w)) eqn:E1; [|done].
  destruct (normaliseQuotaLimit cfg _ (qw_Cost w)) eqn:E2; [|done].
  destruct (normaliseQuotaLimit cfg _ (qw_Requests w)) eqn:E3; [|done].
  intros [= <-]. split_and!; by eapply normaliseQuotaLimit_valid.
Qed.

Lemma find_unknown_None l : List.find (λ e, negb (knownEvent e)) l = None → Forall (λ e, e ∈ Registry) l.
Proof.
  intros Hf. apply Forall_forall. intros e He. apply list_elem_of_In in He.
  pose proof (List.find_none _ _ Hf e He) as Hk. apply negb_false_iff in Hk.
  unfold knownEvent, eventRegistry in Hk. apply existsb_exists in Hk as (x & Hx & Hb).
  apply bool_decide_eq_true in Hb as ->. by apply list_elem_of_In.
Qed.

(** ** The routes *)

(** One step through a handler: read the next statement. *)
Ltac handler_step :=
  lazymatch goal with
  | |- effects _ _ (hbind (of_res _) _) => apply effects_of_res; intros ? ?
  | |- effects _ _ (hbind (guard _ _) _) => apply effects_guard; intros ?
  | |- effects _ _ (hbind (refuse _) _) => apply effects_refuse; intros ?
  | |- effects _ _ (hbind (asks sv_Config) _) => apply effects_config
  | |- effects _ _ (hbind (asks _) _) => apply effects_asks; intros ? ?
  | |- effects _ _ (hbind _ _) => apply effects_bind; [|intros ?]
  | |- effects _ _ (map_err _ _) => apply effects_map_err
  | |- effects _ _ (in_store _) => fail
  | |- effects _ _ (modify _) => fail
  | |- effects _ _ (sendPage _ _ _ _) => unfold sendPage
  | |- effects _ _ (match ?x with _ => _ end) => destruct x eqn:?
  | |- effects _ _ _ => apply effects_pure; intros ?; by repeat case_match
  end.

(** The store operation a handler performs is one of [apply_mop]'s. *)
Ltac store_step :=
  first
    [ eapply (effects_store _ _ _ (OpCreateTenant _ _ _)); [|intros ?; reflexivity]
    | eapply (effects_store _ _ _ (OpUpdateTenant _ _)); [|intros ?; reflexivity]
    | eapply (effects_store _ _ _ (OpDeleteTenant _)); [|intros ?; reflexivity]
    | eapply (effects_store _ _ _ (OpRevokeAPIKey _ _ _)); [|intros ?; reflexivity]
    | eapply (effects_store _ _ _ (OpCreateProvider _ _ _)); [|intros ?; reflexivity]
    | eapply (effects_store _ _ _ (OpUpdateProvider _ _ _)); [|intros ?; reflexivity]
    | eapply (effects_store _ _ _ (OpDeleteProvider _ _)); [|intros ?; reflexivity]
    | eapply (effects_store _ _ _ (OpUpsertAlias _ _ _)); [|intros ?; reflexivity]
    | eapply (effects_store _ _ _ (OpDeleteAlias _ _)); [|intros ?; reflexivity]
    | eapply (effects_store _ _ _ (OpUpsertRoute _ _ _)); [|intros ?; reflexivity]
    | eapply (effects_store _ _ _ (OpDeleteRoute _ _)); [|intros ?; reflexivity]
    | eapply (effects_store _ _ _ (OpSetQuota _ _)); [|intros ?; reflexivity]
    | eapply (effects_store _ _ _ (OpDeleteQuota _ _)); [|intros ?; reflexivity]
    | eapply (effects_store _ _ _ (OpCreateWebhook _ _ _)); [|intros ?; reflexivity]
    | eapply (effects_store _ _ _ (OpDeleteWebhook _ _)); [|intros ?; reflexivity] ].

#[export] Hint Resolve requireRoot_ok requireRoot_touch tenantScope_ok strings_valid_nonEmpty normaliseWindow_valid
  find_unknown_None : gate.

Section routes.
Context `{Unicode} `{Crypto} `{JsonCodec} `{JsonNumbers} `{NetUrl}.
Context {A : Type} (adapters : gmap string A).
Context (poll_now : nat → Z * Z) (answers : nat → nat → A → Credential → res message (list Model)).
Context (mints : licence) (cfg : Config) (r : HttpReq).

Abbreviation eff := (effects (A := A) cfg (allowed mints cfg r)).

Lemma add_no_polls c : add_polls c [] = c.
Proof. unfold add_polls. rewrite app_nil_r. by destruct c. Qed.

Lemma eff_drop_catalog t : may_touch r t → eff (drop_catalog t).
Proof.
  intros Ht. apply (effects_op _ _ _ (λ s, SCatalog t None (cat_changes (sv_Catalog s)) [])); [by split; [|left]|].
  intros s. simpl. by rewrite add_no_polls.
Qed.

Lemma eff_drop_quota t : may_touch r t → eff (drop_quota t).
Proof. intros Ht. by apply (effects_op _ _ _ (λ _, SQuota t)). Qed.

(** A reload is one change of the tenant's state, with the calls it makes. *)
Lemma reload_step ads ans c t listing now :
  ∃ snap log polls, (reload (A := A) ads ans c t listing now).2 = set_state (add_polls c polls) t snap log.
Proof. unfold reload, polled. repeat case_match; simpl; unfold set_state, add_polls; simpl; eauto. Qed.

Lemma Get_step ads ans c t listing n n' :
  ∃ snap log polls, (Get (A := A) ads ans c t listing n n').2 = set_state (add_polls c polls) t snap log.
Proof.
  unfold Get. repeat case_match; try apply reload_step. eexists _, _, []. simpl. by rewrite add_no_polls.
Qed.

Lemma eff_alias_clash t name : mints = Polling → may_touch r t → eff (alias_clash adapters poll_now answers t name).
Proof.
  intros Hm Ht s _. unfold alias_clash, catalog_get.
  destruct (Get_step adapters (answers 0%nat) (sv_Catalog s) t (Ok (ListProviders (sv_Store s) t))
    (poll_now 0%nat).1 (poll_now 0%nat).2) as (snap & log & polls & E).
  destruct (Get _ _ _ _ _ _ _) as [got c]. simpl in *.
  exists [SCatalog t snap log polls]. split; [constructor; [by split; [|right]|constructor]|]. simpl. by rewrite <-E.
Qed.

Lemma refresh_effects i targets s : mints = Polling → Forall (may_touch r) targets →
  ∃ ops, Forall (allowed mints cfg r) ops ∧ (refresh_all adapters poll_now answers i targets s).2 = run_sop s ops.
Proof.
  intros Hm HF. revert i s. induction HF as [|t targets Ht HF IH]; intros i s; [by exists []|]. simpl.
  unfold refresh_one, Refresh.
  destruct (reload_step adapters (answers i) (sv_Catalog s) t (Ok (ListProviders (sv_Store s) t)) (poll_now i).2)
    as (snap & log & polls & Ec).
  destruct (reload _ _ _ _ _ _) as [got c] eqn:Eg. simpl in Ec.
  destruct (IH (S i) (set_catalog s c)) as (ops & HP & Eo).
  destruct (refresh_all _ _ _ _ _ _) as [entries s'] eqn:Er. simpl in *. subst.
  exists (SCatalog t snap log polls :: ops). split; [by constructor; [split; [|right]|]|done].
Qed.

Lemma seeds_valid : Forall alias_valid SeededAliases.
Proof. repeat constructor; try (by vm_compute); simpl; set_solver. Qed.

Lemma seed_effects i t seeds (s : Server A) : is_root r = true → Forall alias_valid seeds →
  ∃ ops, Forall (allowed mints cfg r) ops ∧
    set_store s (seedAliases r i t seeds (sv_Store s)) = run_sop s ops.
Proof.
  intros Hr HF. revert i s. induction HF as [|a seeds Ha HF IH]; intros i s; simpl.
  { exists []. split; [constructor|]. by destruct s. }
  lazymatch goal with |- context [UpsertAlias _ ?x ?n ?al] => set (o := OpUpsertAlias x n al) end.
  destruct (IH (S i) (set_store s (apply_mop (sv_Store s) o))) as (ops & HP & E).
  exists (SStore o :: ops). split; [|done]. constructor; [|done]. split; [by left|]. exact Ha.
Qed.

Lemma Emit_store rnd now t typ data (m : Memory) d :
  ∃ d', Emit rnd now t typ data (m, d) =
    (RecordEvent m {| e_ID := NewID IDEvent rnd; e_Type := typ; e_Created := now; e_TenantID := t;
                      e_Data := data |}, d').
Proof.
  unfold Emit. cbn [evs_RecordEvent evs_ListWebhooks memory_event_store].
  destruct (encode_envelope _); eauto.
Qed.

Lemma emit_effects t (s : Server A) : is_root r = true →
  ∃ ops, Forall (allowed mints cfg r) ops ∧ emitCaptureChange r t s = run_sop s ops.
Proof.
  intros Hr. unfold emitCaptureChange. destruct (sv_Events s) as [d|]; [|by exists []].
  destruct (capture_payload _ _) as [typ data].
  destruct (Emit_store (hr_rnd r 0%nat) (hr_now r 0%nat) (t_ID t) typ data (sv_Store s) d) as [d' ->].
  eexists [SStore (OpRecordEvent _); SQueue d']. split; [by do 2 (constructor; [done|])|]. reflexivity.
Qed.

Lemma key_scope_ok t plane asked sc : key_scope r t plane asked = Ok sc →
  sc = ScopeRoot ∧ is_root r = true ∨
  sc = match plane with PlaneAdmin => tenant_scope_prefix +:+ t | PlaneData => "" end.
Proof.
  unfold key_scope, is_root. repeat case_match; intros; simplify_eq; try tauto;
    repeat case_bool_decide; simplify_eq/=; auto.
Qed.

Lemma expiry_ok ex : past_expiry r ex = false → match ex with Some e => hr_now r 0%nat < e | None => True end.
Proof. unfold past_expiry, After. destruct ex; [|done]. rewrite negb_false_iff, Z.ltb_lt. done. Qed.

Lemma effects_post {X Y} (m : handler A X) (k : X → handler A Y) :
  eff m → (∀ s x, (m s).1 = Ok x → eff (k x)) → eff (hbind m k).
Proof.
  intros Hm Hk s Hs. destruct (Hm s Hs) as (ops & HP & E). unfold hbind.
  specialize (Hk s). destruct (m s) as [[x|e] s']; simpl in *; subst s'; [|by exists ops].
  destruct (Hk x eq_refl (run_sop s ops)) as (ops' & HP' & ->); [by rewrite run_sop_config|].
  exists (ops ++ ops'). split; [by apply Forall_app|]. unfold run_sop. by rewrite foldl_app.
Qed.

Lemma quotaTarget_ok (s : Server A) t k : (quotaTarget r s).1 = Ok (t, k) → may_touch r t.
Proof.
  unfold quotaTarget, hbind, of_res, asks. destruct (tenantScope r) as [id|] eqn:E; [|done].
  apply tenantScope_ok in E. repeat case_match; simpl; intros; simplify_eq; done.
Qed.

Lemma eff_quotaTarget : eff (quotaTarget r).
Proof. apply effects_pure. intros s. unfold quotaTarget, hbind, of_res, asks. by repeat case_match. Qed.

Lemma eff_createTenant b : eff (createTenant r b).
Proof.
  unfold createTenant. repeat handler_step.
  - store_step. simpl. eauto with gate.
  - apply effects_modify. intros s Hs. eapply seed_effects; [by eapply requireRoot_ok|apply seeds_valid].
Qed.

Lemma patch_ok p :
  match tp_Status p with Some st => negb (one_of st ["active"; "suspended"]) | None => false end = false →
  tp_Limits p ≫= validateTenantLimits cfg = None → tp_Cache p ≫= validateTenantCache cfg = None →
  tp_DebugCapture p ≫= validateTenantDebugCapture cfg = None → patch_valid cfg p.
Proof.
  intros Hst Hl Hc Hd. split_and!; intros x Hx; rewrite Hx in *; try done.
  apply one_of_spec. by apply negb_false_iff in Hst.
Qed.

Lemma eff_updateTenant b : eff (updateTenant r b).
Proof.
  unfold updateTenant. repeat handler_step.
  - store_step. split; [by eapply requireRoot_ok|]. by apply patch_ok.
  - apply effects_modify. intros s' Hs'. destruct (_ && _); [|by exists []].
    apply emit_effects. by eapply requireRoot_ok.
Qed.

Lemma eff_deleteTenant : eff (deleteTenant r).
Proof.
  unfold deleteTenant. apply effects_of_res. intros x Hr%requireRoot_ok.
  assert (may_touch r (hr_param r "tenant")) as Ht by by left.
  repeat handler_step.
  - by store_step.
  - by apply eff_drop_catalog.
  - by apply eff_drop_quota.
  - by apply (effects_op _ _ _ (λ _, SCache (hr_param r "tenant"))).
  - by apply (effects_op _ _ _ (λ _, SCapture (hr_param r "tenant"))).
Qed.

(** A minting route performs at most one operation, and answers with the key. *)
Definition at_most_mint (h : handler A response) : Prop := ∀ s,
  (∃ e, h s = (Err e, s)) ∨
  ∃ t plane n sc ex,
    let o := OpCreateAPIKey (hr_rnd r 0%nat) (hr_rnd r 1%nat) (hr_now r 1%nat) t plane n sc ex in
    admin_op Minting cfg r o ∧ (h s).2 = set_store s (apply_mop (sv_Store s) o) ∧
    ∀ resp, (h s).1 = Ok resp → ∃ k secret,
      CreateAPIKey (sv_Store s) (hr_rnd r 0%nat) (hr_rnd r 1%nat) (hr_now r 1%nat) t plane n sc ex
        = Some (Ok (k, secret), sv_Store (h s).2) ∧
      resp = {| rp_Status := 201; rp_Body := PMinted k secret |}.

Lemma mint_then_pure f t plane n sc ex :
  admin_op Minting cfg r (OpCreateAPIKey (hr_rnd r 0%nat) (hr_rnd r 1%nat) (hr_now r 1%nat) t plane n sc ex) →
  at_most_mint (hbind (map_err f (mint r t plane n sc ex)) mintedKey).
Proof.
  intros Ho s. right. exists t, plane, n, sc, ex. split; [done|].
  unfold hbind, map_err, mint, in_store. simpl.
  destruct (CreateAPIKey _ _ _ _ _ _ _ _ _) as [[[[k secret]|e] m]|]; simpl; (split; [done|]); try done.
  intros resp [= <-]. by exists k, secret.
Qed.

Lemma mint_after_res {X} (v : res error X) (k : X → handler A response) :
  (∀ x, v = Ok x → at_most_mint (k x)) → at_most_mint (hbind (of_res v) k).
Proof. intros Hk s. unfold hbind, of_res. destruct v; [by apply Hk|left; eauto]. Qed.

Lemma mint_after_guard b e (k : () → handler A response) :
  (b = false → at_most_mint (k ())) → at_most_mint (hbind (guard b e) k).
Proof. intros Hk s. unfold hbind, guard. destruct b; [left; unfold hfail; eauto|by apply Hk]. Qed.

Lemma createKey_mints b : at_most_mint (createKey r b).
Proof.
  unfold createKey.
  repeat first [apply mint_after_res; intros ? ? | apply mint_after_guard; intros ?]. apply mint_then_pure.
  split_and!; try done; [by eapply tenantScope_ok|by eapply key_scope_ok|by apply expiry_ok].
Qed.

Lemma createAdminKey_mints b : at_most_mint (createAdminKey r b).
Proof.
  unfold createAdminKey.
  repeat first [apply mint_after_res; intros ? ? | apply mint_after_guard; intros ?]. apply mint_then_pure.
  assert (is_root r = true) as Hr by (by eapply requireRoot_ok).
  split_and!; try done; [by left|by left|by apply expiry_ok].
Qed.

Lemma at_most_mint_effects (h : handler A response) : mints = Minting → at_most_mint h → eff h.
Proof.
  intros -> Hh s _. destruct (Hh s) as [[e ->]|(t & plane & n & sc & ex & Ho & -> & _)]; [by exists []|].
  exists [SStore (OpCreateAPIKey (hr_rnd r 0%nat) (hr_rnd r 1%nat) (hr_now r 1%nat) t plane n sc ex)].
  split; [by apply Forall_singleton|done].
Qed.

Lemma eff_createProvider b : eff (createProvider r b).
Proof.
  unfold createProvider. repeat handler_step; [store_step|by apply eff_drop_catalog; eauto with gate].
  split; [by eapply tenantScope_ok|]. split_and!; simpl.
  - eexists. split; [eassumption|done].
  - apply stored_strategy_valid. by apply negb_false_iff.
  - by apply strings_valid_nonEmpty.
Qed.

Lemma eff_updateProvider b : eff (updateProvider r b).
Proof.
  unfold updateProvider. repeat handler_step; [store_step|by apply eff_drop_catalog; eauto with gate].
  split; [by eapply tenantScope_ok|]. split_and!; simpl.
  - intros u Hu. by rewrite Hu in *.
  - intros st. destruct (up_KeyStrategy _) as [st'|]; [|done]. intros [= <-].
    apply stored_strategy_valid. by apply negb_false_iff.
  - intros ks. destruct (up_Keys _) as [ks'|]; [|done]. intros [= <-]. by apply strings_valid_nonEmpty.
Qed.

Lemma eff_upsertAlias b : mints = Polling → eff (upsertAlias adapters poll_now answers r b).
Proof.
  intros Hm. unfold upsertAlias. apply effects_of_res. intros t Ht%tenantScope_ok.
  do 3 handler_step. apply effects_bind; [by apply eff_alias_clash|]. intros clash.
  repeat handler_step. store_step. split; [done|]. split; simpl.
  - by apply negb_false_iff.
  - apply one_of_spec. by apply negb_false_iff.
Qed.

Lemma eff_upsertRoute b : eff (upsertRoute r b).
Proof.
  unfold upsertRoute. repeat handler_step. store_step. split; [by eapply tenantScope_ok|]. simpl in *.
  split_and!; simpl.
  - by eapply bool_decide_eq_false.
  - by apply strings_valid_nonEmpty.
  - by apply Z.ltb_ge.
  - lazymatch goal with Hv : ValidateChain ?c = _ |- _ =>
      pose proof (ResolveFacts.chain_validation c) as Hc; by rewrite Hv in Hc end.
Qed.

Lemma eff_setQuota b : eff (setQuota r b).
Proof.
  unfold setQuota. apply effects_post; [apply eff_quotaTarget|]. intros s [t k] Ht%quotaTarget_ok.
  repeat handler_step; [store_step|by apply eff_drop_quota].
  split; [done|]. split_and!; simpl; [by eapply normaliseWindow_valid..|done].
Qed.

Lemma eff_deleteQuota : eff (deleteQuota r).
Proof.
  unfold deleteQuota. apply effects_post; [apply eff_quotaTarget|]. intros s [t k] Ht%quotaTarget_ok.
  repeat handler_step; [by store_step|by apply eff_drop_quota].
Qed.

Lemma eff_createWebhook b : eff (createWebhook r b).
Proof.
  unfold createWebhook. repeat handler_step. store_step. split; [by eapply tenantScope_ok|].
  split_and!; simpl; [done|by apply Nat.ltb_ge|by eapply bool_decide_eq_false|].
  apply find_unknown_None. by eapply fmap_None.
Qed.

Lemma eff_refreshCatalog b : mints = Polling → eff (refreshCatalog adapters poll_now answers r b).
Proof.
  intros Hm. unfold refreshCatalog. handler_step. apply effects_post; [by apply effects_pure|].
  intros s targets Ht. simpl in Ht. repeat handler_step.
  intros s' Hs'. destruct (refresh_effects 0 targets s' Hm) as (ops & HP & E).
  { revert Ht. unfold refresh_targets, may_touch, is_root, own_tenant.
    destruct (hr_key r) as [key|]; [|done]. case_bool_decide; intros; simplify_eq.
    - apply Forall_forall. by left.
    - destruct (_ && _); simplify_eq. apply Forall_singleton. by right. }
  exists ops. split; [done|]. by destruct (refresh_all _ _ _ _ _ _).
Qed.

Lemma eff_flushTenantCache : eff (flushTenantCache r).
Proof.
  unfold flushTenantCache. repeat handler_step.
  apply (effects_op _ _ _ (λ _, SCache x)); [intros ?; by eapply tenantScope_ok|]. intros s. simpl. by destruct (CFlush _ _).
Qed.

End routes.

(** The routes that mint a key, and those that read the catalog. *)
Definition route_licence (rt : route) : licence :=
  match rt with
  | RCreateKey _ | RCreateAdminKey _ => Minting
  | RRefresh _ | RUpsertAlias _ => Polling
  | _ => Plain
  end.

Section handle.
Context `{Unicode} `{Crypto} `{JsonCodec} `{JsonNumbers} `{NetUrl}.
Context {A : Type} (adapters : gmap string A).
Context (poll_now : nat → Z * Z) (answers : nat → nat → A → Credential → res message (list Model)).

(** Every route performs only allowed operations. *)
Lemma handle_effects cfg r rt :
  effects (A := A) cfg (allowed (route_licence rt) cfg r) (handle adapters poll_now answers r rt).
Proof.
  destruct rt; simpl;
    first
      [ apply eff_createTenant | apply eff_updateTenant | apply eff_deleteTenant
      | apply at_most_mint_effects; [done|first [apply createKey_mints | apply createAdminKey_mints]]
      | apply eff_createProvider | apply eff_updateProvider
      | by apply eff_upsertAlias | apply eff_upsertRoute | apply eff_setQuota | apply eff_deleteQuota
      | apply eff_createWebhook | by apply eff_refreshCatalog | apply eff_flushTenantCache
      | unfold adminMeta, listAudit, listAdminKeys, revokeAdminKey, listTenants, getTenant, listKeys,
          revokeKey, listProviders, deleteProvider, listAliases, deleteAlias, listRoutes, deleteRoute,
          getQuota, listCaptures, listWebhooks, deleteWebhook, listEvents, adminUsage,
          adminUsageBreakdown; repeat handler_step; try store_step; simpl ];
    eauto using eff_drop_catalog, eff_quotaTarget with gate.
Qed.


(** The draws of a request repeat neither a key id nor a credential. *)
Definition fresh_draws (r : HttpReq) (m : Memory) : Prop :=
  mem_keys m !! NewID IDKey (hr_rnd r 1%nat) = None ∧
  ∀ p x, GenerateAPIKey p (mem_dev m) (hr_rnd r 0%nat) = Some x → mem_keysByHash m !! x.2 = None.

(** None of them is of this hash. *)
Definition draws_other (r : HttpReq) (m : Memory) (h : string) : Prop :=
  ∀ p x, GenerateAPIKey p (mem_dev m) (hr_rnd r 0%nat) = Some x → x.2 ≠ h.

Lemma not_minting_fresh mints cfg r m ops :
  mints ≠ Minting → Forall (allowed mints cfg r) ops → fresh_ops m (omap store_op ops).
Proof.
  intros Hn HF. revert m. induction HF as [|o ops Ho HF IH]; intros m; simpl; [done|].
  destruct o as [o| | | | |]; simpl; try apply IH. split; [|apply IH].
  destruct o; try done. by destruct Ho as [Hb _].
Qed.

Lemma not_minting_never mints cfg r m h ops :
  mints ≠ Minting → Forall (allowed mints cfg r) ops → never_minted h m (omap store_op ops).
Proof.
  intros Hn HF. revert m. induction HF as [|o ops Ho HF IH]; intros m; simpl; [done|].
  destruct o as [o| | | | |]; simpl; try apply IH. split; [|apply IH].
  destruct o; try done. by destruct Ho as [Hb _].
Qed.

(** What a request does, as a sequence of allowed operations that repeats no
    draw. *)
Lemma handle_ops r rt s :
  ∃ ops, Forall (allowed (route_licence rt) (sv_Config s) r) ops ∧
    (fresh_draws r (sv_Store s) → fresh_ops (sv_Store s) (omap store_op ops)) ∧
    (∀ h, draws_other r (sv_Store s) h → never_minted h (sv_Store s) (omap store_op ops)) ∧
    (handle adapters poll_now answers r rt s).2 = run_sop s ops.
Proof.
  destruct (decide (route_licence rt = Minting)) as [Em|Em].
  - rewrite Em. assert (at_most_mint (sv_Config s) r (handle adapters poll_now answers r rt)) as Hm
      by (destruct rt; try done; [apply createAdminKey_mints|apply createKey_mints]).
    destruct (Hm s) as [[e ->]|(t & plane & n & sc & ex & Ho & -> & _)]; [by exists []|].
    exists [SStore (OpCreateAPIKey (hr_rnd r 0%nat) (hr_rnd r 1%nat) (hr_now r 1%nat) t plane n sc ex)].
    split_and!; [by apply Forall_singleton| | |done].
    + intros [Hk Hg]. simpl. split; [|done]. split; [done|]. intros h.
      destruct (GenerateAPIKey _ _ _) as [x|] eqn:E; [|done]. simpl. intros [= <-]. by eapply Hg.
    + intros h Hh. simpl. split; [|done]. destruct (GenerateAPIKey _ _ _) as [x|] eqn:E; [|done].
      simpl. intros [= Ex]. by eapply Hh.
  - destruct (handle_effects (sv_Config s) r rt s eq_refl) as (ops & HF & E).
    exists ops. split_and!; [done|..|done]; intros; [by eapply not_minting_fresh|by eapply not_minting_never].
Qed.

(** *** What a request asks of providers *)

Abbreviation asked s := (cat_polls (sv_Catalog s)).

(** The listing calls between two servers: of tenants the caller may touch, each
    to an enabled provider of its tenant with its first key. *)
Definition lists_own (r : HttpReq) (s s' : Server A) : Prop :=
  ∃ ps, asked s' = asked s ++ ps ∧
    Forall (λ l, may_touch r (lc_Tenant l) ∧ own_listing adapters (ListProviders (sv_Store s) (lc_Tenant l)) l) ps.

Lemma lists_nothing r s s' : asked s' = asked s → lists_own r s s'.
Proof. intros E. exists []. by rewrite E, app_nil_r. Qed.

Lemma lists_trans r s1 s2 s3 : lists_own r s1 s2 → sv_Store s2 = sv_Store s1 → lists_own r s2 s3 → lists_own r s1 s3.
Proof.
  intros (p1 & E1 & F1) Es (p2 & E2 & F2). exists (p1 ++ p2). rewrite E2, E1, app_assoc. split; [done|].
  apply Forall_app. rewrite Es in F2. done.
Qed.

(** A read or refresh of a tenant's catalog. *)
Lemma lists_tenant r t (s : Server A) c ps :
  may_touch r t → cat_polls c = asked s ++ ps →
  Forall (λ l, lc_Tenant l = t ∧ own_listing adapters (ListProviders (sv_Store s) t) l) ps →
  lists_own r s (set_catalog s c).
Proof.
  intros Ht E HF. exists ps. split; [done|]. eapply Forall_impl; [exact HF|]. by intros l [-> ?].
Qed.

Lemma not_polling_lists lic cfg r (s : Server A) ops :
  lic ≠ Polling → Forall (allowed lic cfg r) ops → asked (run_sop s ops) = asked s.
Proof.
  intros Hn HF. revert s. induction HF as [|o ops Ho HF IH]; intros s; [done|]. simpl. rewrite IH.
  destruct o as [| t snap log polls| | | |]; try done. destruct Ho as [_ [->|?]]; [|done]. simpl. by rewrite app_nil_r.
Qed.

Lemma refresh_all_lists r i targets s : Forall (may_touch r) targets →
  lists_own r s (refresh_all adapters poll_now answers i targets s).2 ∧
  sv_Store (refresh_all adapters poll_now answers i targets s).2 = sv_Store s.
Proof.
  intros HF. revert i s. induction HF as [|t targets Ht HF IH]; intros i s; [split; [by apply lists_nothing|done]|]. simpl.
  unfold refresh_one, Refresh.
  destruct (reload_own adapters (answers i) (sv_Catalog s) t (ListProviders (sv_Store s) t) (poll_now i).2) as (ps & E & Hps).
  destruct (reload _ _ _ _ _ _) as [got c]. simpl in E. destruct (IH (S i) (set_catalog s c)) as [L1 L2].
  destruct (refresh_all _ _ _ _ _ _) as [entries s']. simpl in *. split; [|done].
  eapply lists_trans; [by eapply lists_tenant|done|done].
Qed.

Lemma targets_touched r named m targets : refresh_targets r named m = Ok targets → Forall (may_touch r) targets.
Proof.
  unfold refresh_targets, may_touch, is_root, own_tenant.
  destruct (hr_key r) as [key|]; [|done]. case_bool_decide; intros; simplify_eq.
  - apply Forall_forall. by left.
  - destruct (_ && _); simplify_eq. apply Forall_singleton. by right.
Qed.

Lemma alias_clash_lists r t name (s : Server A) : may_touch r t →
  lists_own r s (alias_clash adapters poll_now answers t name s).2.
Proof.
  intros Ht. unfold alias_clash, catalog_get.
  destruct (Get_own adapters (answers 0%nat) (sv_Catalog s) t (ListProviders (sv_Store s) t)
    (poll_now 0%nat).1 (poll_now 0%nat).2) as (ps & E & HF).
  destruct (Get _ _ _ _ _ _ _) as [got c]. simpl in *. by eapply lists_tenant.
Qed.

(** After the listing the handler asks nothing more. *)
Lemma lists_then r {X Y} (m : handler A X) (k : X → handler A Y) s :
  lists_own r s (m s).2 → (∀ x s', asked (k x s').2 = asked s') → lists_own r s (hbind m k s).2.
Proof.
  intros Hm Hk. unfold hbind. destruct (m s) as [[x|e] s'] eqn:E; simpl in *; [|done].
  destruct Hm as (ps & Ep & HF). exists ps. by rewrite Hk.
Qed.

Lemma upsertAlias_lists r b s : lists_own r s (upsertAlias adapters poll_now answers r b s).2.
Proof.
  assert (∀ {X Y} (v : res error X) (k : X → handler A Y), (∀ x, v = Ok x → lists_own r s (k x s).2) →
    lists_own r s (hbind (of_res v) k s).2) as Hres.
  { intros X Y v k Hk. unfold hbind, of_res. destruct v; [by apply Hk|by apply lists_nothing]. }
  assert (∀ {Y} c e (k : () → handler A Y), lists_own r s (k () s).2 → lists_own r s (hbind (guard c e) k s).2) as Hguard.
  { intros Y c e k Hk. unfold hbind, guard. destruct c; [by apply lists_nothing|done]. }
  unfold upsertAlias. apply Hres. intros t Ht%tenantScope_ok. apply Hguard, Hres. intros req _. apply Hguard, lists_then.
  - by apply alias_clash_lists.
  - intros x s'. unfold hbind, guard, map_err, in_store. destruct x; [done|]. simpl.
    by destruct (UpsertAlias _ _ _ _) as [[a|e] m].
Qed.

Lemma refreshCatalog_lists r b s : lists_own r s (refreshCatalog adapters poll_now answers r b s).2.
Proof.
  unfold refreshCatalog. unfold hbind at 1, of_res. destruct (match b with None => _ | Some _ => _ end) as [named|];
    [|by apply lists_nothing].
  unfold hbind at 1. destruct (refresh_targets _ _ _) as [targets|] eqn:Et; [|by apply lists_nothing].
  apply targets_touched in Et. unfold hbind at 1.
  assert (∀ h : handler A (), (∀ s, (h s).2 = s) → ∀ k : handler A response, lists_own r s (k s).2 →
    lists_own r s (let '(x, s') := h s in match x with Ok _ => k s' | Err e => (Err e, s') end).2) as Hpure.
  { intros h Hh k Hk. specialize (Hh s). destruct (h s) as [[x|e] s']; simpl in *; subst; [done|by apply lists_nothing]. }
  apply Hpure.
  - intros s'. destruct (bool_decide _); [done|]. unfold map_err, hbind. by destruct (GetTenant _ _).
  - pose proof (refresh_all_lists r 0 targets s Et) as [Hl _]. unfold hbind. by destruct (refresh_all _ _ _ _ _ _).
Qed.

(** Every route asks only for tenants its caller may touch. *)
Lemma handle_lists r rt s : lists_own r s (handle adapters poll_now answers r rt s).2.
Proof.
  destruct (decide (route_licence rt = Polling)) as [El|El].
  - destruct rt; try done; [apply refreshCatalog_lists|apply upsertAlias_lists].
  - destruct (handle_ops r rt s) as (ops & HF & _ & _ & ->). apply lists_nothing. by eapply not_polling_lists.
Qed.
End handle.
