(* ===== verification/AdminProps.v ===== *)
(** * The control plane: its theorems

    The audit log is complete; a tenant-scoped key neither changes nor learns
    anything of another tenant and cannot mint more than it has; the stored
    configuration is valid; a deleted tenant leaves nothing behind; a minted
    secret authenticates. *)

From S2P Require Import Prelude GoStrings GoTime GoFloat Calendar GoFormat ApiErr StoreTypes Keys Json Memory MemoryFacts MemoryProps Provider Breaker Catalog Resolve Dispatch Cache Config Limits Quota Middleware Page Capture Events Server Data Admin AdminFacts.
From Stdlib Require Import Ascii.

#[local] Open Scope Z_scope.
#[local] Open Scope stdpp_scope.

(** ** Invariants and views *)

Section views.
Context `{Unicode} `{Crypto} {A : Type}.

Definition cache_fine (c : option Cache) : Prop :=
  match c with Some c => cache_ok c ∧ bounded c | None => True end.

Record server_ok (s : Server A) : Prop := {
  so_store : mem_ok (sv_Store s);
  so_cache : cache_fine (sv_cache s)
}.

(** What the store holds about a tenant. *)
Record store_same (t : string) (m m' : Memory) : Prop := {
  ss_tenant : GetTenant m' t = GetTenant m t;
  ss_keys : ListAPIKeys m' t = ListAPIKeys m t;
  ss_providers : ListProviders m' t = ListProviders m t;
  ss_aliases : ListAliases m' t = ListAliases m t;
  ss_routes : ListRoutes m' t = ListRoutes m t;
  ss_webhooks : ListWebhooks m' t = ListWebhooks m t;
  ss_events : ListEvents m' t = ListEvents m t;
  ss_quotas k : GetQuota m' t k = GetQuota m t k;
  ss_usage since until : Memory.Usage m' t since until = Memory.Usage m t since until
}.

(** The cached answers of a tenant. *)
Definition cached (t : string) (c : option Cache) : list item :=
  match c with Some c => List.filter (λ it, bool_decide (it_tenant it = t)) (c_order c) | None => [] end.

(** What the server holds about it: its data, its catalog, its cached answers, its
    captures and its quota positions. The breaker, the limiter, the webhook queue
    and the audit log, which is one for all tenants, are not part of it. *)
Record same_view (t : string) (s s' : Server A) : Prop := {
  sv_same_store : store_same t (sv_Store s) (sv_Store s');
  sv_same_catalog : state (sv_Catalog s') t = state (sv_Catalog s) t;
  sv_same_cache : cached t (sv_cache s') = cached t (sv_cache s);
  sv_same_captures : cs_byTenant (sv_captures s') !! t = cs_byTenant (sv_captures s) !! t;
  sv_same_quotas scope : sc_tenantID scope = t →
    qc_entries (qs_quotas (sv_quotas s')) !! cacheKey scope
    = qc_entries (qs_quotas (sv_quotas s)) !! cacheKey scope
}.

#[export] Instance store_same_pre t : PreOrder (store_same t).
Proof.
  split; [by split|]. intros m1 m2 m3 [] []. split; intros; etrans; eauto.
Qed.

#[export] Instance same_view_pre t : PreOrder (same_view t).
Proof.
  split; [by split|]. intros s1 s2 s3 [S1 C1 K1 P1 Q1] [S2 C2 K2 P2 Q2]. split.
  - by trans (sv_Store s2).
  - congruence.
  - congruence.
  - congruence.
  - intros scope E. by rewrite Q2, Q1.
Qed.

Lemma CFlush_cached c t t' : cache_fine c →
  cache_fine (CFlush c t).2 ∧ cached t (CFlush c t).2 = [] ∧
  (t' ≠ t → cached t' (CFlush c t).2 = cached t' c).
Proof.
  destruct c as [c|]; [|done]. intros [Hok Hb].
  destruct (CFlush_ok c t Hok Hb) as (c' & -> & H1 & H2 & _ & _ & Ho). simpl. rewrite Ho. clear Ho Hok Hb.
  split; [done|split].
  - induction (c_order c) as [|x l IH]; simpl; [done|].
    destruct (decide (it_tenant x = t)) as [E|E].
    + rewrite (bool_decide_eq_true_2 _ E). exact IH.
    + rewrite (bool_decide_eq_false_2 _ E). simpl. by rewrite (bool_decide_eq_false_2 _ E).
  - intros Hne. induction (c_order c) as [|x l IH]; simpl; [done|].
    destruct (decide (it_tenant x = t)) as [E|E].
    + rewrite (bool_decide_eq_true_2 _ E), bool_decide_eq_false_2 by congruence. exact (IH).
    + rewrite (bool_decide_eq_false_2 _ E). simpl. by rewrite IH.
Qed.

Lemma step_ok s o : server_ok s → (∀ m, store_op o = Some m → fresh_op (sv_Store s) m) →
  server_ok (apply_sop s o).
Proof.
  intros [Hm Hc] Hf. destruct o; split; simpl; try done; [by apply apply_mop_ok; auto|].
  by apply (CFlush_cached (sv_cache s) tenantID "").
Qed.

(** An operation about one tenant does not touch another. *)
Definition sop_tenant (o : sop) : option string :=
  match o with
  | SStore o => op_tenant o
  | SCatalog t _ _ _ | SQuota t | SCache t | SCapture t => Some t
  | SQueue _ => None
  end.

Lemma step_same s o t u : server_ok s → (∀ m, store_op o = Some m → fresh_op (sv_Store s) m) →
  sop_tenant o = Some u → t ≠ u → str_has zero t = false → str_has zero u = false →
  same_view t s (apply_sop s o).
Proof.
  intros [Hm Hc] Hf Ho Hne Ht Hu.
  destruct o as [o|t' snap log polls|t'|t'|t'|d]; simpl in Ho; simplify_eq; split; simpl; try done.
  - assert (op_tenant o ≠ Some t) as Hno by congruence.
    assert (∀ t', op_tenant o = Some t' → str_has zero t' = false) as Hz by (intros; congruence).
    destruct (fields_frame (sv_Store s) o t Hno) as (E1 & E2 & E3 & E4 & E5 & E6 & E7).
    pose proof (apply_mop_ok _ o Hm (Hf _ eq_refl)) as Hm'.
    split; intros; unfold GetTenant, ListProviders, ListAliases, ListRoutes, ListWebhooks, ListEvents,
      GetQuota, Memory.Usage, at_key; rewrite ?E1, ?E2, ?E3, ?E4, ?E5, ?E6, ?E7; try done.
    + apply ListAPIKeys_ext; [apply Hm'|apply Hm|]. intros k Hk. symmetry.
      apply live_iff; [done|by apply Hf|congruence].
    + by rewrite (quotas_frame (sv_Store s) o t k).
  - unfold state. simpl. by rewrite lookup_insert_ne.
  - intros scope E. by apply QuotaFacts.invalidate_drops_the_tenant; rewrite ?E.
  - by apply (CFlush_cached (sv_cache s) u t).
  - unfold CapFlush. destruct (cs_byTenant _ !! u); simpl; [by rewrite lookup_delete_ne|done].
Qed.

Lemma run_same s ops t u : server_ok s → fresh_ops (sv_Store s) (omap store_op ops) →
  Forall (λ o, sop_tenant o = Some u) ops → t ≠ u → str_has zero t = false → str_has zero u = false →
  same_view t s (run_sop s ops) ∧ server_ok (run_sop s ops).
Proof.
  intros Hs Hf HF Hne Ht Hu. revert s Hs Hf.
  induction HF as [|o ops Ho HF IH]; intros s Hs Hf; simpl; [done|].
  assert (∀ m, store_op o = Some m → fresh_op (sv_Store s) m) as Hfo.
  { intros m E. simpl in Hf. rewrite E in Hf. by destruct Hf. }
  destruct (IH (apply_sop s o)) as [Hv Hok].
  - by apply step_ok.
  - simpl in Hf. destruct o; simpl in *; try done. by destruct Hf.
  - split; [|done]. etrans; [by eapply step_same|done].
Qed.

Lemma run_ok s ops : server_ok s → fresh_ops (sv_Store s) (omap store_op ops) → server_ok (run_sop s ops).
Proof.
  revert s. induction ops as [|o ops IH]; intros s Hs Hf; [done|].
  apply (IH (apply_sop s o)).
  - apply step_ok; [done|]. intros m E. simpl in Hf. rewrite E in Hf. by destruct Hf.
  - simpl in Hf. destruct o; simpl in *; try done. by destruct Hf.
Qed.
End views.

(** ** Lemmas *)

Section lemmas.
Context `{Unicode} `{Crypto} `{JsonCodec} `{JsonNumbers} `{NetUrl}.
Context {A : Type} (adapters : gmap string A).
Context (poll_now : nat → Z * Z) (answers : nat → nat → A → Credential → res message (list Model)).

Lemma tenant_only mints cfg r o : is_root r = false → allowed mints cfg r o →
  sop_tenant o = Some (own_tenant r).
Proof.
  intros Hr Ho. unfold allowed, admin_op, may_touch in Ho. rewrite Hr in Ho.
  destruct o as [o| | | | |]; simpl; [destruct o|..]; simpl in *; destruct_and?; destruct_or?; try done; congruence.
Qed.

Lemma audit_frame m o : (∀ rnd now e, o ≠ OpRecordAudit rnd now e) → mem_audit (apply_mop m o) = mem_audit m.
Proof.
  intros Hn. destruct o as [| | |rk ri now t p n sc ex| | | | | | | | | | | | | |rnd now e|]; simpl.
  4: { destruct (CreateAPIKey_spec m rk ri now t p n sc ex) as [_ Hc].
    destruct (CreateAPIKey m rk ri now t p n sc ex) as [[r m']|]; [|done].
    specialize (Hc r m' eq_refl). destruct r as [[k pt]|e]; [|by subst].
    by destruct Hc as (_ & _ & _ & _ & _ & _ & _ & _ & _ & _ & _ & _ & ->). }
  all: try (by destruct (Hn rnd now e)).
  all: unfold CreateTenant, UpdateTenant, DeleteTenant, RevokeAPIKey, CreateProvider,
      UpdateProvider, DeleteProvider, UpsertAlias, DeleteAlias, UpsertRoute, DeleteRoute, SetQuota,
      DeleteQuota, CreateWebhook, DeleteWebhook; by repeat (case_match; simpl).
Qed.

Lemma handle_keeps_audit r rt s :
  mem_audit (sv_Store (handle adapters poll_now answers r rt s).2) = mem_audit (sv_Store s).
Proof.
  destruct (handle_ops adapters poll_now answers r rt s) as (ops & HF & _ & _ & ->).
  rewrite run_sop_store. generalize (sv_Store s). induction HF as [|o ops Ho HF IH]; [done|].
  intros m. simpl. destruct o as [o| | | | |]; simpl; try apply IH. rewrite (IH (apply_mop m o)).
  apply audit_frame. intros rnd now e ->. done.
Qed.

(** A read performs no store operation. *)
Lemma reads_keep_store r rt s : default "GET" (route_method rt) = "GET" →
  sv_Store (handle adapters poll_now answers r rt s).2 = sv_Store s.
Proof.
  intros Hg.
  assert (effects (A := A) (sv_Config s) (λ _, False) (handle adapters poll_now answers r rt)) as He.
  { destruct rt; try discriminate; simpl;
      unfold adminMeta, listAudit, listAdminKeys, listTenants, getTenant, listKeys,
          listProviders, listAliases, listRoutes, getQuota, quotaTarget, listCaptures, listWebhooks, listEvents, adminUsage,
          adminUsageBreakdown; repeat handler_step. }
  destruct (He s eq_refl) as ([|o ops] & HF & ->); [done|]. by apply Forall_cons in HF as [[] _].
Qed.

End lemmas.

(** ** Key records *)

Section grants.
Context `{Unicode} `{Crypto}.

(** [k'] is [k], revoked or not. *)
Definition same_grant (k k' : APIKey) : Prop :=
  k_TenantID k' = k_TenantID k ∧ k_Plane k' = k_Plane k ∧ k_Scope k' = k_Scope k ∧
  k_Hash k' = k_Hash k ∧ k_ExpiresAt k' = k_ExpiresAt k ∧ (k_RevokedAt k ≠ None → k_RevokedAt k' ≠ None).

#[export] Instance same_grant_pre : PreOrder same_grant.
Proof. split; [by split|]. unfold same_grant. intros k1 k2 k3 ? ?. destruct_and!. split_and!; try congruence. auto. Qed.

Lemma grant_kept m ptr k : mem_heap m !! ptr = Some k → ∃ k0, mem_heap m !! ptr = Some k0 ∧ same_grant k0 k.
Proof. intros E. by exists k. Qed.

(** What an operation does to the records: it keeps the grant of each, and adds
    at most one. *)
Lemma heap_step m o ptr k' : mem_heap (apply_mop m o) !! ptr = Some k' →
  (∃ k, mem_heap m !! ptr = Some k ∧ same_grant k k') ∨
  ∃ rk ri now t p n sc ex, o = OpCreateAPIKey rk ri now t p n sc ex ∧
    k_TenantID k' = t ∧ k_Plane k' = p ∧ k_Scope k' = sc.
Proof.
  destruct (touches_keys o) eqn:Et.
  2: { destruct (keys_frame m o Et) as (-> & _). intros Hk. left. eauto using grant_kept. }
  destruct o as [| |id|rk ri now t p n sc ex|now t id| | | | | | | | | | | | | |]; try done; simpl.
  - unfold DeleteTenant. destruct (negb _); [|destruct (foldl _ _ _)]; simpl; intros; left; eauto using grant_kept.
  - destruct (CreateAPIKey_spec m rk ri now t p n sc ex) as [_ Hc].
    destruct (CreateAPIKey m rk ri now t p n sc ex) as [[r m']|]; simpl; [|intros; left; eauto using grant_kept].
    specialize (Hc r m' eq_refl). destruct r as [[k pt]|e]; [|subst; intros; left; eauto using grant_kept].
    destruct Hc as (_ & Ekt & Ep & Es & _ & _ & _ & _ & _ & _ & _ & _ & ->). simpl.
    intros [Hh|[_ Hh]]%lookup_app_Some; [left; eauto using grant_kept|].
    apply list_lookup_singleton_Some in Hh as [_ ->]. right. naive_solver.
  - unfold RevokeAPIKey. destruct (mem_keys m !! id) as [ptr'|]; [|intros; left; eauto using grant_kept].
    destruct (deref m ptr') as [k|] eqn:Ek; [|intros; left; eauto using grant_kept].
    destruct (negb _); [intros; left; eauto using grant_kept|].
    destruct (k_RevokedAt k) eqn:Er; [intros; left; eauto using grant_kept|]. simpl.
    rewrite list_lookup_insert. case_decide as Ed; [|intros; left; eauto using grant_kept].
    intros [= <-]. left. destruct Ed as [-> _]. exists k. split; [done|]. by split_and!.
Qed.
End grants.


(** ** Secrets *)

Lemma CreateAPIKey_graphic `{Crypto} m rk ri now t p n sc ex k secret m' :
  CreateAPIKey m rk ri now t p n sc ex = Some (Ok (k, secret), m') → all_graphic secret = true.
Proof.
  unfold CreateAPIKey. destruct (if negb _ then _ else _); [done|].
  destruct (GenerateAPIKey _ _ _) as [[[pt pre] h]|] eqn:E; [|done]. simpl. intros [= _ <- _].
  by eapply GenerateAPIKey_graphic.
Qed.

Lemma bearer_of_secret `{Unicode} secret : all_graphic secret = true → secret ≠ "" →
  bearer ("Bearer " +:+ secret) = secret.
Proof.
  intros Hg Hne. unfold bearer. rewrite bool_decide_eq_false_2 by done.
  assert (0 < String.length secret)%nat by (destruct secret; simpl; [done|lia]).
  rewrite (proj2 (Nat.ltb_lt _ _)) by (rewrite str_length_app; simpl; lia).
  change (str_take (String.length bearer_scheme) ("Bearer " +:+ secret)) with "Bearer ".
  change (str_drop (String.length bearer_scheme) ("Bearer " +:+ secret)) with secret.
  by rewrite TrimSpace_graphic.
Qed.

(** A minted secret presented on its key's plane. *)
Lemma secret_authenticates `{Unicode} `{Crypto} cfg m rk ri now t plane n sc ex k secret m' ops now' :
  mem_ok m → fresh_op m (OpCreateAPIKey rk ri now t plane n sc ex) →
  CreateAPIKey m rk ri now t plane n sc ex = Some (Ok (k, secret), m') →
  fresh_ops m' ops → Forall (spares k) ops →
  match k_ExpiresAt k with Some e => now' <= e | None => True end →
  bootstrapMatches cfg secret = false →
  let m2 := run_mem m' ops in
  let tenant := if decide (k_TenantID k = "") then None else mem_tenants m2 !! k_TenantID k in
  suspended tenant = false → auth cfg m2 now' plane ("Bearer " +:+ secret) = Ok (k, tenant).
Proof.
  intros Hm Hfo Ec Hfr Hsp Hexp Hboot m2 tenant Hsus.
  destruct (CreateAPIKey_spec m rk ri now t plane n sc ex) as [_ Hs].
  destruct (Hs _ _ Ec) as (_ & Et & Ep & _ & Ex & _ & _ & _ & Epl & _). clear Hs.
  pose proof (MemoryProps.Store.minted_key_resolves _ _ _ _ _ _ _ _ _ _ _ _ ops now' Hm Hfo Ec Hfr Hsp) as Hres.
  assert (bearer ("Bearer " +:+ secret) = secret) as Hb.
  { apply bearer_of_secret; [by eapply CreateAPIKey_graphic|by intros ->]. }
  unfold auth. rewrite Hb, bool_decide_eq_false_2, Hboot, Epl by (intros ->; done).
  rewrite (bool_decide_eq_true_2 (plane = plane)) by done. cbn [negb].
  cbv zeta in Hres. fold m2 in Hres. unfold ks_ResolveKey, memory_key_store. rewrite Hres.
  rewrite Ex in Hexp. replace (match ex with Some e => _ | None => true end) with true
    by (destruct ex; [symmetry; by apply Z.leb_le|done]).
  rewrite Ep, (bool_decide_eq_true_2 (plane = plane)) by done. cbn [negb].
  unfold tenant in *. rewrite Et in *. by rewrite Hsus.
Qed.

(** ** Stored configuration *)

Section stored.
Context `{Unicode} `{Crypto} `{NetUrl} (cfg : Config).

Record stored_ok (m : Memory) : Prop := {
  sk_tenants id t : mem_tenants m !! id = Some t → tenant_valid cfg t;
  sk_providers t : Forall provider_valid (at_key (mem_providers m) t);
  sk_aliases t : Forall alias_valid (at_key (mem_aliases m) t);
  sk_routes t : Forall (route_valid cfg) (at_key (mem_routes m) t);
  sk_webhooks t : Forall webhook_valid (at_key (mem_webhooks m) t);
  sk_quotas k q : mem_quotas m !! k = Some q → quota_valid q
}.

Lemma NewMemory_stored dev : stored_ok (NewMemory dev).
Proof. split; intros; simplify_map_eq; constructor. Qed.

Section collections.
Context {B} (P : B → Prop) (c : gmap string (list B)).
Hypothesis all : ∀ t, Forall P (at_key c t).

Lemma all_insert t l : Forall P l → ∀ t', Forall P (at_key (<[t := l]> c) t').
Proof. intros Hl t'. rewrite at_key_insert. by case_decide. Qed.
Lemma all_delete t t' : Forall P (at_key (delete t c) t').
Proof. rewrite at_key_delete. case_decide; [constructor|done]. Qed.
Lemma all_snoc t x : P x → ∀ t', Forall P (at_key (<[t := at_key c t ++ [x]]> c) t').
Proof. intros Hx. apply all_insert, Forall_app_2; [done|by apply Forall_singleton]. Qed.
Lemma all_replace t i x : P x → ∀ t', Forall P (at_key (<[t := <[i := x]> (at_key c t)]> c) t').
Proof. intros Hx. apply all_insert. by apply Forall_insert. Qed.
Lemma all_remove t i t' : Forall P (at_key (<[t := remove_at i (at_key c t)]> c) t').
Proof. apply all_insert. by apply Forall_remove_at. Qed.
Lemma all_hit t f i x : find_idx f (at_key c t) = Some (i, x) → P x.
Proof.
  intros (Hi & _)%find_idx_Some. eapply Forall_forall; [apply all|].
  by eapply list_elem_of_lookup_2.
Qed.
End collections.

Lemma patched_provider p patch : provider_valid p → provider_patch_valid patch →
  provider_valid (patch_provider p patch).
Proof.
  intros (Hu & Hs & Hk) (Pu & Ps & Pk). split_and!; simpl.
  - destruct (pp_BaseURL patch) as [u|] eqn:E; [|done]. exists u. eauto.
  - destruct (pp_KeyStrategy patch) as [st|] eqn:E; simpl; eauto.
  - destruct (pp_Keys patch) as [ks|] eqn:E; simpl; eauto.
Qed.

Lemma patched_tenant t p name : tenant_valid cfg t → patch_valid cfg p →
  tenant_valid cfg
    {| t_ID := t_ID t; t_Name := name; t_Status := default (t_Status t) (tp_Status p);
       t_CreatedAt := t_CreatedAt t; t_Limits := default (t_Limits t) (tp_Limits p);
       t_Cache := default (t_Cache t) (tp_Cache p);
       t_DebugCapture := default (t_DebugCapture t) (tp_DebugCapture p);
       t_SystemInstruction := default (t_SystemInstruction t) (tp_SystemInstruction p) |}.
Proof.
  intros (T1 & T2 & T3 & T4) (P1 & P2 & P3 & P4). split_and!; simpl.
  - destruct (tp_Status p); simpl; auto.
  - destruct (tp_Limits p); simpl; auto.
  - destruct (tp_Cache p); simpl; auto.
  - destruct (tp_DebugCapture p); simpl; auto.
Qed.

Lemma stored_step mints r m o : admin_op mints cfg r o → stored_ok m → stored_ok (apply_mop m o).
Proof.
  intros Ho [H1' H2' H3' H4' H5' H6'].
  destruct o as [| | |rk ri now t p n sc ex| | | | | | | | | | | | | | |]; simpl in Ho |- *.
  4: { destruct (CreateAPIKey_spec m rk ri now t p n sc ex) as [_ Hc].
    destruct (CreateAPIKey m rk ri now t p n sc ex) as [[v m']|]; [|done].
    specialize (Hc v m' eq_refl). destruct v as [[k pt]|e]; [|by subst].
    by destruct Hc as (_ & _ & _ & _ & _ & _ & _ & _ & _ & _ & _ & _ & ->). }
  all: destruct_and?; try done.
  all: unfold CreateTenant, UpdateTenant, DeleteTenant, RevokeAPIKey, CreateProvider,
      UpdateProvider, DeleteProvider, UpsertAlias, DeleteAlias, UpsertRoute, DeleteRoute, SetQuota,
      DeleteQuota, CreateWebhook, DeleteWebhook; repeat (case_match; try done); simplify_eq/=;
    split; simpl; try done;
    first
      [ by apply all_delete | by apply all_remove | apply all_snoc; done | apply all_replace; done
      | intros ? ? [_ Hl]%lookup_delete_Some; eauto
      | intros ? ? [[_ <-]|[_ Hl]]%lookup_insert_Some; [|by eauto] | idtac ].
  - split_and!; simpl; auto. left.
  - apply patched_tenant; eauto.
  - apply patched_tenant; eauto.
  - apply all_replace; [done|]. apply patched_provider; [|done]. by eapply all_hit.
  - done.
Qed.
End stored.

(** ** Theorems *)

Module ControlPlane.
Section theorems.
Context `{Unicode} `{Crypto} `{JsonCodec} `{JsonNumbers} `{NetUrl}.
Context {A : Type} (adapters : gmap string A).
Context (poll_now : nat → Z * Z) (answers : nat → nat → A → Credential → res message (list Model)).

(** C19: The audit log is complete: every authenticated POST, PUT, PATCH or DELETE,
    refused or not, matched by a route or not, appends exactly one entry, which
    names the credential, its scope, the verb, the path and the status
    answered; no handler writes to the log otherwise; and a request that is
    not audited leaves the store as it was. *)
Theorem mutations_are_audited r rt auth_now rnd at_ s :
  let '(out, s') := serve_admin adapters poll_now answers r rt auth_now rnd at_ s in
  match auth (sv_Config s) (sv_Store s) auth_now PlaneAdmin (hr_header r "Authorization") with
  | Err e => out = Err (ErrApi e) ∧ s' = s
  | Ok (key, _) =>
      match auditAction (hr_method r) with
      | Some action =>
          mem_audit (sv_Store s') = push_bounded maxMemoryAuditEntries (mem_audit (sv_Store s))
            {| a_ID := NewID IDAudit rnd; a_At := at_; a_Actor := k_Prefix key; a_ActorKeyID := k_ID key;
               a_ActorScope := k_Scope key; a_Action := action; a_Resource := hr_path r;
               a_TenantID := hr_param r "tenant"; a_Status := status_of out; a_RequestID := hr_id r |}
      | None => default (hr_method r) (route_method rt) = hr_method r → sv_Store s' = sv_Store s
      end
  end.
Proof.
  unfold serve_admin. destruct (auth _ _ _ _ _) as [[key tn]|e]; [|done].
  unfold auditMutations. cbn [with_auth hr_method hr_key fst].
  pose proof (handle_keeps_audit adapters poll_now answers (with_auth r (key, tn)) rt s) as Ha.
  pose proof (reads_keep_store adapters poll_now answers (with_auth r (key, tn)) rt s) as Hr.
  destruct (handle _ _ _ _ _ s) as [out s']. simpl in *.
  destruct (auditAction (hr_method r)) as [action|] eqn:Ea; simpl; [by rewrite Ha|].
  intros E. apply Hr. destruct rt; simpl in *; try done; rewrite <-E in Ea; done.
Qed.

(** C16: A tenant-scoped key is confined: whatever request it makes, nothing the
    server holds about another tenant changes, in the store, the catalog, the
    quota positions, the response cache or the captures. *)
Theorem tenant_key_is_confined r rt s t :
  server_ok s → fresh_draws r (sv_Store s) → is_root r = false →
  t ≠ own_tenant r → str_has zero t = false → str_has zero (own_tenant r) = false →
  same_view t s (handle adapters poll_now answers r rt s).2.
Proof.
  intros Hs Hf Hr Hne Ht Ho.
  destruct (handle_ops adapters poll_now answers r rt s) as (ops & HF & Hfr & _ & ->).
  eapply run_same; [done|by apply Hfr| |done..].
  eapply Forall_impl; [exact HF|]. intros o. by apply tenant_only.
Qed.

(** The routes under /tenants/:tenant, less the two that are root only. *)
Definition under_tenant (rt : route) : bool :=
  match rt with
  | RMeta | RRefresh _ | RAudit | RCreateAdminKey _ | RListAdminKeys | RRevokeAdminKey
  | RCreateTenant _ | RListTenants | RUpdateTenant _ | RDeleteTenant | RUnmatched => false
  | _ => true
  end.

(** Another tenant is indistinguishable from a missing one: every request a
    tenant-scoped key addresses to it changes nothing and is answered, to the
    byte, as a root key is told that a tenant does not exist. *)
Theorem foreign_tenant_looks_missing r rt s key :
  hr_key r = Some key → is_root r = false → under_tenant rt = true →
  let id := TrimSpace (hr_param r "tenant") in
  id ≠ "" → id ≠ own_tenant r →
  handle adapters poll_now answers r rt s = (Err (ErrApi (ResourceNotFound "tenant" id)), s) ∧
  ∀ root s', is_root root = true → TrimSpace (hr_param root "tenant") = id →
    mem_tenants (sv_Store s') !! id = None →
    ∃ e, handle adapters poll_now answers root RGetTenant s' = (Err e, s') ∧
      ∀ rid, Middleware.Fail rid "" e = Middleware.Fail rid "" (ErrApi (ResourceNotFound "tenant" id)).
Proof.
  intros Hk Hr Hu id Hid Hne.
  assert (tenantScope r = Err (ErrApi (ResourceNotFound "tenant" id))) as Hts.
  { unfold tenantScope. fold id. rewrite (bool_decide_eq_false_2 _ Hid), Hk.
    unfold is_root, own_tenant in Hr, Hne. rewrite Hk in Hr, Hne. rewrite Hr.
    by rewrite bool_decide_eq_false_2. }
  split.
  - destruct rt; try discriminate; simpl;
      unfold getTenant, createKey, listKeys, revokeKey, createProvider, listProviders, updateProvider,
        deleteProvider, upsertAlias, listAliases, deleteAlias, upsertRoute, listRoutes, deleteRoute,
        setQuota, getQuota, deleteQuota, quotaTarget, flushTenantCache, listCaptures, createWebhook,
        listWebhooks, deleteWebhook, listEvents, adminUsage, adminUsageBreakdown, hbind, of_res;
      by rewrite Hts.
  - intros root s' Hroot Eid Hnone. simpl. unfold getTenant, hbind, of_res, tenantScope.
    rewrite Eid, (bool_decide_eq_false_2 _ Hid). unfold is_root in Hroot.
    destruct (hr_key root) as [k|]; [|done]. rewrite Hroot. unfold map_err, GetTenant. rewrite Hnone.
    eexists. split; [reflexivity|]. done.
Qed.

(** C17: No escalation: after any request of a tenant-scoped key, every key record is
    one that was there, with the same grant and at most revoked, or a new one of
    the caller's own tenant whose scope is that tenant's or, on the data
    plane, none. *)
Theorem no_privilege_escalation r rt s ptr k' :
  is_root r = false →
  mem_heap (sv_Store (handle adapters poll_now answers r rt s).2) !! ptr = Some k' →
  (∃ k, mem_heap (sv_Store s) !! ptr = Some k ∧ same_grant k k') ∨
  (k_TenantID k' = own_tenant r ∧
   k_Scope k' = match k_Plane k' with
                | PlaneAdmin => tenant_scope_prefix +:+ own_tenant r | PlaneData => "" end).
Proof.
  intros Hr. destruct (handle_ops adapters poll_now answers r rt s) as (ops & HF & _ & _ & ->).
  rewrite run_sop_store. revert k'. induction ops as [|o ops IH] using rev_ind;
    [simpl; intros k' Hk; left; by apply grant_kept|]. intros k'.
  apply Forall_app in HF as [HF [Ho _]%Forall_cons]. specialize (IH HF).
  rewrite omap_app. unfold run_mem in *. rewrite foldl_app. simpl.
  destruct o as [o| | | | |]; simpl; try exact (IH k').
  intros [(k & Hk & Hg)|(rk & ri & now & t & p & n & sc & ex & -> & <- & <- & <-)]%heap_step.
  - destruct (IH k Hk) as [(k0 & Hk0 & Hg0)|[Et Es]]; [left; exists k0; split; [done|by trans k]|right].
    destruct Hg as (-> & -> & -> & _). done.
  - right. destruct Ho as (_ & _ & _ & [Hroot|Ht] & Hsc & _); [congruence|]. split; [done|].
    destruct Hsc as [[_ Hroot]|Hsc]; [congruence|]. by rewrite <-Ht.
Qed.

(** A request, as the whole admin plane sees it. *)
Record admin_call := {
  ac_req : HttpReq;
  ac_route : route;
  ac_auth : Z;
  ac_rnd : string;
  ac_at : Z
}.
Definition serve_all (s : Server A) (calls : list admin_call) : Server A :=
  foldl (λ s c, (serve_admin adapters poll_now answers (ac_req c) (ac_route c) (ac_auth c) (ac_rnd c)
                   (ac_at c) s).2) s calls.

Lemma stored_after_calls s calls :
  stored_ok (sv_Config s) (sv_Store s) →
  sv_Config (serve_all s calls) = sv_Config s ∧ stored_ok (sv_Config s) (sv_Store (serve_all s calls)).
Proof.
  intros Hs.
  induction calls as [|c calls IH] using rev_ind; [done|]. unfold serve_all in *. rewrite foldl_app. simpl.
  destruct IH as [<- IH]. set (s' := foldl _ _ _) in *. unfold serve_admin, auditMutations.
  destruct (auth _ _ _ _ _) as [kt|]; [|done].
  destruct (handle_ops adapters poll_now answers (with_auth (ac_req c) kt) (ac_route c) s') as (ops & HF & _ & _ & Eo).
  destruct (handle _ _ _ _ _ s') as [out s'']. simpl in Eo. subst s''.
  assert (stored_ok (sv_Config s') (sv_Store (run_sop s' ops))) as Hok.
  { rewrite run_sop_store. revert IH. generalize (sv_Store s').
    induction HF as [|o ops Ho HF IHo]; intros m Hm; [done|]. simpl.
    destruct o; simpl; apply IHo; try done. by eapply stored_step. }
  destruct (auditAction _); simpl; rewrite run_sop_config; (split; [done|]); [|done].
  destruct Hok. by split.
Qed.

(** C18: What the control plane stores is valid, whoever calls and in whatever order:
    quota caps are not negative and their thresholds lie in 1..100, a quota caps
    something, chains are nonempty, free of duplicates and within the configured
    depth, alias names match the pattern and tiers are known, webhooks have an
    accepted address, a secret of sixteen bytes or more and only registered
    events, providers an accepted address, a known strategy and at least one
    key, and tenants a known status and overrides the deployment accepts. *)
Theorem stored_configuration_is_valid s calls :
  stored_ok (sv_Config s) (sv_Store s) → stored_ok (sv_Config s) (sv_Store (serve_all s calls)).
Proof. intros Hs. by apply stored_after_calls. Qed.

(** A tenant deleted through the API is gone from the whole server, and only a
    root caller who repeats its id can do it: no credential of it resolves,
    nothing it configured is listed, and neither the catalog, the quota cache,
    the response cache nor the captures keep anything of it. *)
Theorem deletion_leaves_nothing r (s : Server A) resp s' :
  let id := hr_param r "tenant" in
  server_ok s → str_has zero id = false → deleteTenant r s = (Ok resp, s') →
  is_root r = true ∧ hr_query r "confirm" = id ∧ rp_Status resp = 204 ∧
  GetTenant (sv_Store s') id = Err ErrNotFound ∧
  (∀ now plaintext k tn, ResolveKey (sv_Store s') now plaintext = Ok (k, tn) → k_TenantID k ≠ id) ∧
  ListAPIKeys (sv_Store s') id = [] ∧ ListProviders (sv_Store s') id = [] ∧
  ListAliases (sv_Store s') id = [] ∧ ListRoutes (sv_Store s') id = [] ∧
  ListWebhooks (sv_Store s') id = [] ∧ state (sv_Catalog s') id = None ∧
  cached id (sv_cache s') = [] ∧ cs_byTenant (sv_captures s') !! id = None ∧
  (∀ scope, sc_tenantID scope = id → qc_entries (qs_quotas (sv_quotas s')) !! cacheKey scope = None).
Proof.
  cbv zeta. intros [Hm Hc] Hz. unfold deleteTenant, hbind, of_res, guard, map_err, in_store, modify, answer_none, hret.
  destruct (requireRoot r) eqn:Hr; [|done]. apply requireRoot_ok in Hr.
  destruct (negb _) eqn:Eq; [done|]. apply negb_false_iff, bool_decide_eq_true in Eq.
  destruct (DeleteTenant _ _) as [[[]|e] m'] eqn:Ed; [|done]. intros [= <- <-]. simpl.
  destruct (MemoryProps.Store.deleted_tenant_is_gone _ _ _ Hm Ed) as (D1 & D2 & D3 & D4 & D5 & D6 & _ & D7).
  split_and!; try done.
  - unfold state. simpl. by rewrite lookup_insert_eq.
  - by apply (CFlush_cached (sv_cache s) _ "").
  - unfold CapFlush. destruct (cs_byTenant (sv_captures s) !! _) eqn:E; simpl; [apply lookup_delete_eq|done].
  - by apply QuotaFacts.invalidate_drops_the_tenant.
Qed.

(** C20: The secret shown once is the credential: whatever happens to the store
    after a key is minted, as long as the key is not revoked nor its tenant
    deleted or suspended and its expiry has not passed, presenting the secret on
    the key's plane authenticates as that key; and the key is of the plane,
    tenant and scope the request was entitled to. *)
Theorem minted_secret_authenticates r rt s resp s' :
  route_licence rt = Minting → mem_ok (sv_Store s) → fresh_draws r (sv_Store s) →
  handle adapters poll_now answers r rt s = (Ok resp, s') →
  ∃ k secret, resp = {| rp_Status := 201; rp_Body := PMinted k secret |} ∧
    may_touch r (k_TenantID k) ∧ (k_Scope k = ScopeRoot → is_root r = true) ∧
    ∀ ops now', fresh_ops (sv_Store s') ops → Forall (spares k) ops →
      let m := run_mem (sv_Store s') ops in
      let tenant := if decide (k_TenantID k = "") then None else mem_tenants m !! k_TenantID k in
      match k_ExpiresAt k with Some e => now' <= e | None => True end →
      bootstrapMatches (sv_Config s) secret = false → suspended tenant = false →
      auth (sv_Config s) m now' (k_Plane k) ("Bearer " +:+ secret) = Ok (k, tenant).
Proof.
  intros Hmt Hm Hf Eh.
  assert (at_most_mint (sv_Config s) r (handle adapters poll_now answers r rt)) as Hone
    by (destruct rt; try done; [apply createAdminKey_mints|apply createKey_mints]).
  destruct (Hone s) as [[e Ee]|(t & plane & n & sc & ex & Ho & _ & Hk)]; [congruence|].
  rewrite Eh in Hk. destruct (Hk resp eq_refl) as (k & secret & Ec & ->). clear Hk. simpl in Ec.
  assert (fresh_op (sv_Store s) (OpCreateAPIKey (hr_rnd r 0%nat) (hr_rnd r 1%nat) (hr_now r 1%nat) t plane n sc ex)) as Hfo.
  { destruct Hf as [Hf1 Hf2]. split; [done|]. intros h. simpl.
    destruct (GenerateAPIKey _ _ _) as [x|] eqn:E; [|done]. intros [= <-]. by eapply Hf2. }
  destruct (CreateAPIKey_spec (sv_Store s) (hr_rnd r 0%nat) (hr_rnd r 1%nat) (hr_now r 1%nat) t plane n sc ex) as [_ Hs].
  destruct (Hs _ _ Ec) as (_ & Et & Ep & Es & Ex & _ & _ & _ & Epl & _). clear Hs.
  destruct Ho as (_ & _ & _ & Htouch & Hsc & _).
  exists k, secret. rewrite Et, Ep, Es, Ex. split_and!; [done..| |].
  { intros ->. destruct Hsc as [[_ ?]|Hsc]; [done|by destruct plane]. }
  intros ops now' Hfr Hsp m tenant Hexp Hboot Hsus.
  rewrite <-Ex in Hexp. unfold tenant in *. rewrite <-Et in *.
  by eapply (secret_authenticates (sv_Config s) _ _ _ _ _ _ _ _ _ _ _ _ ops).
Qed.
End theorems.

(** ** Worked examples

    Two tenants, one data key, and the admin keys that call. The address parser
    splits at the first "://". *)

#[local] Existing Instance ascii_only.
#[local] Existing Instance MemoryProps.Store.toy_hash.
#[local] Existing Instance binary_codec.
#[local] Instance plain_numbers : JsonNumbers := {| float_literal := λ _, Some "1" |}.
#[local] Instance split_url : NetUrl := {| url_Parse := cut_at "://" |}.

Import MemoryProps.Store.

Definition demo_server (m : Memory) : Server () :=
  NewServer Default "" false m (New {| op_TTL := Hour; op_StaleWarnAfter := Hour; op_ProviderTimeout := Second;
      op_Prices := ∅; op_OnChange := false |}) (NewResolver 5) (NewDispatcher (NewBreaker 5 Minute Minute)) None 0.

Definition admin_key (scope : string) : APIKey :=
  {| k_ID := "key_admin"; k_TenantID := ""; k_Plane := PlaneAdmin; k_Name := "ops"; k_Prefix := "cga-ops";
     k_Hash := ""; k_Scope := scope; k_CreatedAt := 0; k_ExpiresAt := None; k_RevokedAt := None |}.

Definition demo_req (scope tenant id : string) : HttpReq :=
  {| hr_key := Some (admin_key scope); hr_tenant := None; hr_id := "req_1"; hr_clientID := "";
     hr_method := "POST"; hr_path := "/admin/v1"; hr_param q := if bool_decide (q = "tenant") then tenant else id;
     hr_query q := if bool_decide (q = "confirm") then tenant else ""; hr_header _ := "";
     hr_now n := Z.of_nat n; hr_rnd n := match n with O => "xyz" | _ => "k2" end |}.

Definition no_polls (_ : nat) : Z * Z := (0, 0).
Definition silent (_ _ : nat) (_ : ()) (_ : Credential) : res message (list Model) := Ok [].
Definition call_demo (m : Memory) (r : HttpReq) (rt : route) := handle ∅ no_polls silent r rt (demo_server m).

Definition acme_req : HttpReq := demo_req (tenant_scope_prefix +:+ acme) acme (k_ID demo_key).
Definition root_req : HttpReq := demo_req ScopeRoot acme "".

Lemma demo_server_ok : server_ok (demo_server demo).
Proof. split; [apply demo_ok|exact I]. Qed.

Lemma demo_draws scope t id : fresh_draws (demo_req scope t id) demo.
Proof.
  split; [by vm_compute|]. intros p x E. assert (x.2 = HashAPIKey (scheme_of p +:+ randomToken "xyz")) as ->.
  { destruct p; vm_compute in E; injection E as <-; by vm_compute. }
  destruct p; by vm_compute.
Qed.

(** A tenant's admin revokes its data key; the other tenant notices nothing. *)
Lemma tenant_key_is_confined_witness :
  ListAPIKeys (sv_Store (call_demo demo acme_req RRevokeKey).2) acme ≠ ListAPIKeys demo acme ∧
  same_view globex (demo_server demo) (call_demo demo acme_req RRevokeKey).2.
Proof.
  split; [by vm_compute|].
  apply (tenant_key_is_confined ∅ no_polls silent acme_req RRevokeKey (demo_server demo) globex);
    [apply demo_server_ok|apply demo_draws|by vm_compute..].
Defined.

Lemma foreign_tenant_looks_missing_witness :
  (call_demo demo (demo_req (tenant_scope_prefix +:+ acme) globex "") RListKeys).1
    = Err (ErrApi (ResourceNotFound "tenant" globex)).
Proof.
  assert (under_tenant RListKeys = true) as Hu by reflexivity.
  pose proof (foreign_tenant_looks_missing ∅ no_polls silent
    (demo_req (tenant_scope_prefix +:+ acme) globex "") RListKeys (demo_server demo)
    (admin_key (tenant_scope_prefix +:+ acme)) eq_refl ltac:(by vm_compute) Hu ltac:(by vm_compute) ltac:(by vm_compute))
    as [E _].
  unfold call_demo. by rewrite E.
Defined.

Definition admin_body (scope : string) : res error createKeyReq :=
  Ok {| ck_Name := "ci"; ck_Plane := "admin"; ck_Scope := scope; ck_ExpiresAt := None |}.

(** A tenant's admin mints an admin key: it is confined to the tenant. *)
Lemma no_privilege_escalation_witness :
  ∃ k', mem_heap (sv_Store (call_demo demo acme_req (RCreateKey (admin_body ""))).2) !! 1%nat = Some k' ∧
    k_Plane k' = PlaneAdmin ∧ k_Scope k' = tenant_scope_prefix +:+ acme ∧
    (call_demo demo acme_req (RCreateKey (admin_body "root"))).1 = Err (ErrApi InsufficientScope).
Proof.
  destruct (mem_heap (sv_Store (call_demo demo acme_req (RCreateKey (admin_body ""))).2) !! 1%nat) as [k'|] eqn:E;
    [|by vm_compute in E].
  unfold call_demo in E. exists k'. pose proof (no_privilege_escalation ∅ no_polls silent acme_req (RCreateKey (admin_body ""))
    (demo_server demo) 1 k' eq_refl E) as [(k & Hk & _)|[_ Hs]]; [by vm_compute in Hk|].
  vm_compute in E. injection E as <-. split_and!; [done..|by vm_compute].
Defined.

Definition demo_call (r : HttpReq) (rt : route) : admin_call :=
  {| ac_req := r; ac_route := rt; ac_auth := 0; ac_rnd := "a"; ac_at := 1 |}.

Lemma stored_configuration_is_valid_witness :
  stored_ok Default (sv_Store (serve_all ∅ no_polls silent (demo_server (NewMemory false))
    [demo_call root_req (RCreateTenant (Ok {| ct_Name := "Acme" |}))])).
Proof.
  apply (stored_configuration_is_valid ∅ no_polls silent (demo_server (NewMemory false))
    [demo_call root_req (RCreateTenant (Ok {| ct_Name := "Acme" |}))]).
  apply NewMemory_stored.
Defined.

Lemma deletion_leaves_nothing_witness :
  GetTenant (sv_Store (call_demo demo root_req RDeleteTenant).2) acme = Err ErrNotFound.
Proof.
  destruct (deletion_leaves_nothing root_req (demo_server demo) {| rp_Status := 204; rp_Body := NoContent |}
    (call_demo demo root_req RDeleteTenant).2) as (_ & _ & _ & Hg & _);
    [apply demo_server_ok|by vm_compute|by vm_compute|exact Hg].
Defined.

Lemma minted_secret_authenticates_witness :
  ∃ k, auth Default (sv_Store (call_demo demo acme_req (RCreateKey (admin_body ""))).2) 7 PlaneAdmin
      "Bearer cga-eHl6" = Ok (k, mem_tenants demo !! acme).
Proof.
  destruct (call_demo demo acme_req (RCreateKey (admin_body ""))) as [[resp|e] s'] eqn:E;
    [|by vm_compute in E].
  unfold call_demo in E. destruct (minted_secret_authenticates ∅ no_polls silent acme_req (RCreateKey (admin_body "")) (demo_server demo)
    resp s' eq_refl demo_ok (demo_draws _ _ _) E) as (k & secret & -> & _ & _ & Ha).
  exists k. specialize (Ha [] 7 I ltac:(constructor)).
  vm_compute in E. injection E as <- <- <-. by apply Ha.
Defined.

(** An address is validated with its surrounding blanks removed and stored with
    them: a provider is accepted at an address the parser refuses. *)
Theorem stored_address_is_not_the_validated_one :
  let body := Ok {| cp_Name := "up"; cp_Kind := ""; cp_BaseURL := " https://up"; cp_Keys := ["k"];
                    cp_Enabled := None; cp_KeyStrategy := "" |} in
  p_BaseURL <$> ListProviders (sv_Store (call_demo demo acme_req (RCreateProvider body)).2) acme = [" https://up"] ∧
  absolute_http "https://up" = true ∧ absolute_http " https://up" = false.
Proof. by vm_compute. Qed.
End ControlPlane.
