(* ===== verification/Chat.v ===== *)
(** * Chat completions (internal/server/chat.go, cache.go, httpx.go's Outcome)

    A completion from its bytes to the answer: the envelope the gateway reads,
    the system instruction it may put in front, the response cache, the cascade,
    the relay of a stream and the usage record. The handler's effects on the
    response are the record [chatCtx]: headers, the outcome left for the access
    log, the usage records handed to telemetry and the hops counted. A stream's
    writer runs after the handler has returned and is a function of its own
    ([stream_writer]); what its reads return, whether the client still takes
    bytes and whether the watchdog fired are arguments. Log lines and the
    latency histogram are not modelled. *)

From S2P Require Import Prelude GoStrings GoTime GoFloat GoFormat ApiErr StoreTypes Keys Json Memory Provider Breaker Catalog Resolve Dispatch Cache Config Limits Quota Capture Events Server Data.
From Stdlib Require Import Ascii.

#[local] Open Scope Z_scope.
#[local] Open Scope stdpp_scope.

(** ** The envelope *)

Record chatEnvelope := mkEnv {
  env_Model : string;
  env_Stream : bool;
  env_Temperature : option json;
  env_TopP : option json;
  env_N : option json
}.

(** [lenientBool.UnmarshalJSON] *)
Definition lenientBool (raw : json) : option bool :=
  match raw with
  | JBool b => Some b
  | JNum lit => if bool_decide (lit = "1") then Some true else if bool_decide (lit = "0") then Some false else None
  | JNull => Some false
  | _ => None
  end.

Section envelope.
Context `{Unicode} `{JsonCodec}.

(** One field of the body into the struct, and whether decoding is still fine.
    Names are matched without regard to case, the last one wins. *)
Definition env_field (acc : chatEnvelope * bool) (kv : string * json) : chatEnvelope * bool :=
  let '(e, ok) := acc in
  let '(k, v) := kv in
  if EqualFold k "model" then
    let '(m, fine) := decode_string (env_Model e) v in
    (mkEnv m (env_Stream e) (env_Temperature e) (env_TopP e) (env_N e), ok && fine)
  else if EqualFold k "stream" then
    match lenientBool v with
    | Some b => (mkEnv (env_Model e) b (env_Temperature e) (env_TopP e) (env_N e), ok)
    | None => (e, false)
    end
  else if EqualFold k "temperature" then
    (mkEnv (env_Model e) (env_Stream e) (Some v) (env_TopP e) (env_N e), ok)
  else if EqualFold k "top_p" then
    (mkEnv (env_Model e) (env_Stream e) (env_Temperature e) (Some v) (env_N e), ok)
  else if EqualFold k "n" then
    (mkEnv (env_Model e) (env_Stream e) (env_Temperature e) (env_TopP e) (Some v), ok)
  else (e, ok).

Definition no_env : chatEnvelope := mkEnv "" false None None None.

(** [json.Unmarshal(body, &env)] *)
Definition decode_env (body : string) : res error chatEnvelope :=
  match Unmarshal body with
  | Some (JObj fields) =>
      let '(e, ok) := foldl env_field (no_env, true) fields in if ok then Ok e else Err bad_json
  | Some JNull => Ok no_env
  | _ => Err bad_json
  end.
End envelope.

(** [sampled]: absent and null are both absent; what is not a number is NaN. *)
Definition sampled (raw : option json) : option f64 :=
  match raw with
  | None | Some JNull => None
  | Some (JNum lit) => Some (default S754_nan (ParseFloat lit))
  | Some _ => Some S754_nan
  end.

Definition deterministic (e : chatEnvelope) : bool :=
  match sampled (env_Temperature e) with
  | Some t => feqb t fzero
  | None =>
      match sampled (env_TopP e) with None => true | Some p => feqb p (f_of_Z 1) end
      && match sampled (env_N e) with None => true | Some n => feqb n (f_of_Z 1) end
  end.

(** ** The system instruction *)

Definition newline : string := byte_str [10%nat].

Definition systemInstruction (cfg : Config) (tenant : option Tenant) : string :=
  let dep := cf_SystemInstruction cfg in
  let own := match tenant with Some t => t_SystemInstruction t | None => "" end in
  if bool_decide (dep = "") then own
  else if bool_decide (own = "") then dep
  else dep +:+ newline +:+ newline +:+ own.

Definition system_message (text : string) : json := JObj [("role", JStr "system"); ("content", JStr text)].

(** [prependSystem]; [None] is nil, "send what arrived". *)
Definition prependSystem `{JsonCodec} (body text : string) : option string :=
  if bool_decide (text = "") then None
  else match Unmarshal body with
       | Some (JObj fields) =>
           let doc := fields_map fields in
           let joined l := Some (Marshal (JObj (map_fields
             (<["messages" := JArr (system_message text :: l)]> doc)))) in
           match doc !! "messages" with
           | Some (JArr msgs) => joined msgs
           | Some JNull => joined []
           | _ => None
           end
       | _ => None
       end.

(** ** Caching policy *)

Definition HeaderRequestID : string := "X-CogniGate-Request-Id".
Definition HeaderServedBy : string := "X-CogniGate-Served-By".
Definition HeaderFallbackDepth : string := "X-CogniGate-Fallback-Depth".
Definition HeaderQuotaState : string := "X-CogniGate-Quota-State".
Definition HeaderCache : string := "X-CogniGate-Cache".
Definition HeaderDeprecation : string := "X-CogniGate-Deprecation".
Definition cacheHit : string := "hit".
Definition cacheMiss : string := "miss".
Definition cacheBypass : string := "bypass".

Record cachePlan := { pl_lookup : bool; pl_header : string; pl_ttl : Z }.

Definition planCache `{Unicode} {A} (s : Server A) (r : HttpReq) (env : chatEnvelope) : cachePlan :=
  let silent := {| pl_lookup := false; pl_header := ""; pl_ttl := 0 |} in
  let bypass := {| pl_lookup := false; pl_header := cacheBypass; pl_ttl := 0 |} in
  if negb (cc_Enabled (cf_Cache (sv_Config s))) || is_None_b (sv_cache s) then silent
  else
    let asked := ToLower (TrimSpace (hr_header r HeaderCache)) in
    let opted := match hr_tenant r with Some t => tc_Enabled (t_Cache t) | None => false end in
    if bool_decide (asked = "bypass") then bypass
    else if negb (bool_decide (asked = "prefer")) && negb opted then silent
    else if env_Stream env || negb (deterministic env) then bypass
    else {| pl_lookup := true; pl_header := ""; pl_ttl := cacheTTL (sv_Config s) (hr_tenant r) |}.

(** ** What a request leaves behind *)

Record Outcome := mkOutcome {
  ou_Provider : string;
  ou_Model : string;
  ou_Alias : string;
  ou_FallbackDepth : Z;
  ou_PromptTokens : Z;
  ou_CompletionTokens : Z;
  ou_UpstreamMS : Z;
  ou_CacheStatus : string
}.
Definition no_outcome : Outcome := mkOutcome "" "" "" 0 0 0 0 "".

(** One row of the cascade counter: tenant, from, to, reason. *)
Abbreviation hop := (string * string * string * string)%type.

Record chatCtx (A : Type) := mkCtx {
  cx_srv : Server A;
  cx_headers : gmap string string;
  cx_outcome : Outcome;
  cx_recorded : list UsageRecord;
  cx_hops : list hop
}.
Arguments mkCtx {A}.
Arguments cx_srv {A}.
Arguments cx_headers {A}.
Arguments cx_outcome {A}.
Arguments cx_recorded {A}.
Arguments cx_hops {A}.

Definition new_ctx {A} (s : Server A) : chatCtx A := mkCtx s ∅ no_outcome [] [].

Section context.
Context {A : Type} (c : chatCtx A).
Definition with_srv (s : Server A) : chatCtx A := mkCtx s (cx_headers c) (cx_outcome c) (cx_recorded c) (cx_hops c).
Definition set_header (k v : string) : chatCtx A :=
  mkCtx (cx_srv c) (<[k := v]> (cx_headers c)) (cx_outcome c) (cx_recorded c) (cx_hops c).
Definition set_outcome (o : Outcome) : chatCtx A :=
  mkCtx (cx_srv c) (cx_headers c) o (cx_recorded c) (cx_hops c).
Definition add_record (rec : UsageRecord) (hops : list hop) : chatCtx A :=
  mkCtx (cx_srv c) (cx_headers c) (cx_outcome c) (cx_recorded c ++ [rec]) (cx_hops c ++ hops).
End context.

Definition setCacheStatus {A} (c : chatCtx A) (status : string) : chatCtx A :=
  let o := cx_outcome c in
  set_outcome (set_header c HeaderCache status)
    (mkOutcome (ou_Provider o) (ou_Model o) (ou_Alias o) (ou_FallbackDepth o) (ou_PromptTokens o)
       (ou_CompletionTokens o) (ou_UpstreamMS o) status).

Definition applyRoutingHeaders {A} (c : chatCtx A) (result : Result) : chatCtx A :=
  let c := set_header c HeaderServedBy (ServedBy (res_Candidate result)) in
  let c := set_header c HeaderFallbackDepth (Itoa (res_Depth result)) in
  if m_Deprecated (en_Model (cd_Entry (res_Candidate result))) then set_header c HeaderDeprecation "true" else c.

Definition Milliseconds (d : Z) : Z := Z.quot d Millisecond.

Definition reportOutcome {A} (c : chatCtx A) (result : Result) (requested : string) (usage : option Usage) : chatCtx A :=
  let o := cx_outcome c in
  let cand := res_Candidate result in
  set_outcome c (mkOutcome (cd_Provider cand) (cd_Model cand)
    (if negb (bool_decide (requested = cd_Model cand)) then requested else ou_Alias o)
    (res_Depth result)
    (match usage with Some u => us_PromptTokens u | None => ou_PromptTokens o end)
    (match usage with Some u => us_CompletionTokens u | None => ou_CompletionTokens o end)
    (Milliseconds (rs_Latency (res_Response result))) (ou_CacheStatus o)).

(** [recordRejection] less its log line *)
Definition recordRejection {A} (c : chatCtx A) (requested : string) : chatCtx A :=
  let o := cx_outcome c in
  set_outcome c (mkOutcome (ou_Provider o) (ou_Model o) requested (ou_FallbackDepth o) (ou_PromptTokens o)
    (ou_CompletionTokens o) (ou_UpstreamMS o) (ou_CacheStatus o)).

(** ** Metering *)

Definition cascadeReason (a : Attempt) : string :=
  if at_Skipped a then "breaker_open" else Failure_String (at_Failure a).

(** The hops between consecutive attempts. *)
Fixpoint hops_between (tenantID : string) (attempts : list Attempt) : list hop :=
  match attempts with
  | from :: ((to :: _) as rest) =>
      (tenantID, cd_Model (at_Candidate from), cd_Model (at_Candidate to), cascadeReason from)
      :: hops_between tenantID rest
  | _ => []
  end.

Definition meterCascade (tenantID : string) (result : Result) : list hop :=
  if (res_Depth result =? 0) || (length (res_Attempts result) <? 2)%nat then []
  else hops_between tenantID (res_Attempts result).

(** What the token counters of the metrics accept: [prometheus.Counter.Add]
    panics on a negative number. *)
Definition countable (usage : option Usage) : bool :=
  match usage with Some u => (0 <=? us_PromptTokens u) && (0 <=? us_CompletionTokens u) | None => true end.

(** Who a request is, as the usage row names it. *)
Record identity := { id_request : string; id_client : string; id_tenant : string; id_prefix : string }.
Definition identity_of (r : HttpReq) : identity :=
  {| id_request := hr_id r; id_client := hr_clientID r; id_tenant := TenantID r; id_prefix := keyPrefix r |}.

(** The row [record] hands to telemetry. *)
Definition record_row (cfg : Config) (i : identity) (result : Result) (requested : string)
    (usage : option Usage) (streamed : bool) (status elapsed now : Z) : UsageRecord :=
  let cand := res_Candidate result in
  let cost := CostUSD cand usage in
  {| u_RequestID := id_request i; u_ClientRequestID := id_client i; u_TenantID := id_tenant i;
     u_KeyPrefix := id_prefix i; u_Provider := cd_Provider cand; u_Model := cd_Model cand;
     u_RequestedModel := requested; u_FallbackDepth := res_Depth result;
     u_PromptTokens := match usage with Some u => us_PromptTokens u | None => 0 end;
     u_CompletionToken := match usage with Some u => us_CompletionTokens u | None => 0 end;
     u_TotalTokens := match usage with Some u => us_TotalTokens u | None => 0 end;
     u_CostUSD := cost; u_ChargeUSD := Charge (cf_Billing cfg) cost;
     u_BillingMode := bl_Mode (cf_Billing cfg); u_Cached := false; u_Streamed := streamed;
     u_StatusCode := status; u_DurationMS := Milliseconds elapsed; u_RecordedAt := now |}.

(** The row of a replayed answer. *)
Definition cached_row (i : identity) (e : CacheEntry) (requested : string) (elapsed now : Z) : UsageRecord :=
  {| u_RequestID := id_request i; u_ClientRequestID := id_client i; u_TenantID := id_tenant i;
     u_KeyPrefix := id_prefix i; u_Provider := ce_Provider e; u_Model := ce_Model e;
     u_RequestedModel := requested; u_FallbackDepth := 0; u_PromptTokens := 0; u_CompletionToken := 0;
     u_TotalTokens := 0; u_CostUSD := fzero; u_ChargeUSD := fzero; u_BillingMode := ""; u_Cached := true;
     u_Streamed := false; u_StatusCode := 200; u_DurationMS := Milliseconds elapsed; u_RecordedAt := now |}.

(** [timeoutAware]; [expired] is whether the request's own deadline has passed. *)
Definition timeoutAware (expired : bool) (budget : Z) (err : error) : error :=
  if negb expired then err
  else match as_api err with
       | Some e => if negb (err_Status e =? 502) then err
                   else ErrApi (WithCause (GatewayTimeout (Seconds budget)) err)
       | None => ErrApi (WithCause (GatewayTimeout (Seconds budget)) err)
       end.

(** ** The handler *)

(** A stream the handler has opened and left to its writer: everything the
    writer carries. *)
Record stream := mkStream {
  st_identity : identity;
  st_result : Result;
  st_requested : string;
  st_idle : Z;
  st_started : Z
}.

Inductive chat_body :=
  | CBytes (status : Z) (body : string)
  | CStream (st : stream).

(** A handler on the request's context. *)
Abbreviation chat A X := (chatCtx A → res error X * chatCtx A).

(** The text of a panic, as [recover] reports it. *)
Definition nil_map : message := text "assignment to entry in nil map".
Definition counter_decreased : message := text "counter cannot decrease in value".
Definition no_candidate : message := text "index out of range [0] with length 0".

Definition chatPath : string := "/chat/completions".
Definition HeaderContentType : string := "Content-Type".

Section handlers.
Context `{Unicode} `{JsonStream} `{Crypto} `{HttpDates}.
Context {A : Type} (adapters : gmap string A).
Context (poll_now : nat → Z * Z) (answers : nat → nat → A → Credential → res message (list Model)).
Context (upstream : list (call A) → call A → DoResult) (clock : nat → Z).
(** Whether metrics and telemetry are configured, and whether the deadline of
    the request has passed when a dispatch has failed. *)
Context (metrics telemetry expired : bool).

(** [Dispatcher.Dispatch] on the server, with the [i]th read of the catalog *)
Definition dispatch_at (i : nat) (tenantID requested body : string) (streaming : bool) (s : Server A) :
    option (res error Result) * Server A :=
  let '(got, snap, cat) := Resolve adapters (answers i) (sv_Resolver s) (sv_Store s) (sv_Catalog s)
                             (poll_now i).1 (poll_now i).2 tenantID requested in
  let s := set_catalog s cat in
  let '(out, d) := Dispatch upstream clock adapters (sv_Dispatcher s) (got, snap)
                     (Ok (ListProviders (sv_Store s) tenantID)) body streaming chatPath in
  (out, set_dispatcher s d).

(** [cacheKeyFor]: the key and the model it names; the outer [None] is the
    panic of [Primary]. *)
Definition cacheKeyFor (plan : cachePlan) (tenantID requested body : string) (s : Server A) :
    option (option (string * string)) * Server A :=
  if negb (pl_lookup plan) then (Some None, s)
  else
    let '(resolved, s) := resolve_at adapters poll_now answers 0 tenantID requested s in
    match Primary resolved with
    | None => (None, s)
    | Some (Err _) => (Some None, s)
    | Some (Ok p) => (Some (k ← CKey tenantID (ServedBy p) body; Some (k, ServedBy p)), s)
    end.

(** [serveFromCache] *)
Definition serveFromCache (r : HttpReq) (entry : CacheEntry) (requested : string) (started : Z)
    (c : chatCtx A) : res error chat_body * chatCtx A :=
  let c := setCacheStatus c cacheHit in
  let c := set_header c HeaderServedBy (ce_ServedBy entry) in
  let c := set_header c HeaderFallbackDepth "0" in
  let o := cx_outcome c in
  let c := set_outcome c (mkOutcome (ce_Provider entry) (ce_Model entry)
             (if negb (bool_decide (requested = ce_Model entry)) then requested else ou_Alias o)
             (ou_FallbackDepth o) (ou_PromptTokens o) (ou_CompletionTokens o) (ou_UpstreamMS o)
             (ou_CacheStatus o)) in
  let c := if telemetry
           then add_record c (cached_row (identity_of r) entry requested (Sub (hr_now r 3) started) (hr_now r 4)) []
           else c in
  (Ok (CBytes 200 (ce_Body entry)), set_header c HeaderContentType "application/json").

(** [record] past the token counters *)
Definition record_row_of (i : identity) (result : Result) (requested : string) (usage : option Usage)
    (streamed : bool) (status elapsed now : Z) (c : chatCtx A) : chatCtx A :=
  let c := mkCtx (cx_srv c) (cx_headers c) (cx_outcome c) (cx_recorded c)
             (cx_hops c ++ if metrics then meterCascade (id_tenant i) result else []) in
  if telemetry
  then add_record c (record_row (sv_Config (cx_srv c)) i result requested usage streamed status elapsed now) []
  else c.

(** [record]; a [None] is the panic of a counter that is asked to go down. *)
Definition record (i : identity) (result : Result) (requested : string) (usage : option Usage)
    (streamed : bool) (status elapsed now : Z) (c : chatCtx A) : option (chatCtx A) :=
  if metrics && negb (countable usage) then None
  else Some (record_row_of i result requested usage streamed status elapsed now c).

(** [meter]: the context as [reportOutcome] leaves it, and what [record] makes
    of it. *)
Definition meter (r : HttpReq) (result : Result) (requested : string) (usage : option Usage)
    (streamed : bool) (status elapsed now : Z) (c : chatCtx A) : chatCtx A * option (chatCtx A) :=
  let c := reportOutcome c result requested usage in
  (c, record (identity_of r) result requested usage streamed status elapsed now c).

(** The failure of a dispatch; [late] is whether its context's deadline passed. *)
Definition chat_fail {X} (late : bool) (r : HttpReq) (requested : string) (err : error) (c : chatCtx A) :
    res error X * chatCtx A :=
  (Err (timeoutAware late (el_RequestTimeout (limitsFor (sv_Config (cx_srv c)) (hr_tenant r))) err),
   recordRejection c requested).

(** What [completion] does with an answer when it has a key. *)
Definition store_answer (tenantID key servedBy : string) (result : Result) (ttl now : Z) (c : chatCtx A) :
    chatCtx A :=
  let c := setCacheStatus c cacheMiss in
  if bool_decide (ServedBy (res_Candidate result) = servedBy)
  then with_srv c (set_cache (cx_srv c) (CPut (sv_cache (cx_srv c)) now tenantID key
         {| ce_Body := rs_Body (res_Response result); ce_Provider := cd_Provider (res_Candidate result);
            ce_Model := cd_Model (res_Candidate result) |} ttl))
  else c.

(** [completion] past the lookup *)
Definition complete (r : HttpReq) (tenantID requested body : string) (plan : cachePlan)
    (key : option (string * string)) (started : Z) (c : chatCtx A) : res error chat_body * chatCtx A :=
  let '(out, s) := dispatch_at 1 tenantID requested body false (cx_srv c) in
  let c := with_srv c s in
  match out with
  | None => (Err (recovered nil_map), c)
  | Some (Err err) => chat_fail expired r requested err c
  | Some (Ok result) =>
      let c := applyRoutingHeaders c result in
      let '(c, metered) := meter r result requested (rs_Usage (res_Response result)) false 200
                             (Sub (hr_now r 3) started) (hr_now r 4) c in
      match metered with
      | None => (Err (recovered counter_decreased), c)
      | Some c =>
          let c := match key with
                   | Some (k, servedBy) => store_answer tenantID k servedBy result (pl_ttl plan) (hr_now r 5) c
                   | None => c
                   end in
          (Ok (CBytes 200 (rs_Body (res_Response result))), set_header c HeaderContentType "application/json")
      end
  end.

(** [completion] *)
Definition completion (r : HttpReq) (tenantID requested body : string) (plan : cachePlan)
    (c : chatCtx A) : res error chat_body * chatCtx A :=
  let started := hr_now r 1 in
  let '(key, s) := cacheKeyFor plan tenantID requested body (cx_srv c) in
  let c := with_srv c s in
  match key with
  | None => (Err (recovered no_candidate), c)
  | Some None => complete r tenantID requested body plan None started c
  | Some (Some (k, servedBy)) =>
      let '(hit, cache) := CGet (sv_cache (cx_srv c)) (hr_now r 2) k in
      let c := with_srv c (set_cache (cx_srv c) cache) in
      match hit with
      | Some entry => serveFromCache r entry requested started c
      | None => complete r tenantID requested body plan (Some (k, servedBy)) started c
      end
  end.

(** [streamCompletion] up to the writer it leaves behind. Its context has no
    deadline. *)
Definition streamCompletion (r : HttpReq) (tenantID requested body : string) (c : chatCtx A) :
    res error chat_body * chatCtx A :=
  let started := hr_now r 1 in
  let '(out, s) := dispatch_at 0 tenantID requested body true (cx_srv c) in
  let c := with_srv c s in
  match out with
  | None => (Err (recovered nil_map), c)
  | Some (Err err) => chat_fail false r requested err c
  | Some (Ok result) =>
      let c := applyRoutingHeaders c result in
      let c := reportOutcome c result requested None in
      let c := set_header c HeaderContentType "text/event-stream" in
      let c := set_header c "Cache-Control" "no-cache" in
      let c := set_header c "Connection" "keep-alive" in
      let c := set_header c "X-Accel-Buffering" "no" in
      (Ok (CStream (mkStream (identity_of r) result requested
             (el_StreamIdleTimeout (limitsFor (sv_Config (cx_srv c)) (hr_tenant r))) started)), c)
  end.

(** [handleChatCompletions] *)
Definition handleChatCompletions (r : HttpReq) (body : string) (c : chatCtx A) :
    res error chat_body * chatCtx A :=
  if bool_decide (body = "")
  then (Err (ErrApi (InvalidRequest (text "A JSON request body is required."))), c)
  else
    match decode_env body with
    | Err e => (Err (ErrApi (WithCause (InvalidRequest (text "Request body is not valid JSON.")) e)), c)
    | Ok env =>
        if bool_decide (env_Model env = "")
        then (Err (ErrApi (WithParam (InvalidRequest (Msgf "The %q field is required." [FStr "model"])) "model")), c)
        else
          let s := cx_srv c in
          let '(quota, q) := evaluateQuota (sv_Config s) (sv_Store s) (hr_now r 0)
                               (requestScope (TenantID r) (hr_key r)) (sv_quotas s) in
          let c := set_header (with_srv c (set_quota_state s q)) HeaderQuotaState (v_State quota) in
          match v_Reject quota with
          | Some e => (Err (ErrApi e), recordRejection c (env_Model env))
          | None =>
              let payload := default body
                (prependSystem body (systemInstruction (sv_Config s) (hr_tenant r))) in
              let plan := planCache (cx_srv c) r env in
              let c := if bool_decide (pl_header plan = "") then c else setCacheStatus c (pl_header plan) in
              if env_Stream env then streamCompletion r (TenantID r) (env_Model env) payload c
              else completion r (TenantID r) (env_Model env) payload plan c
          end
    end.
End handlers.

(** ** The relay *)

(** What one [ReadBytes] returned, and when: the line, and what ended the read. *)
Inductive read_end := REOF | RBroken (why : message).
Record read := { rd_at : Z; rd_line : string; rd_err : option read_end }.

(** Why a relay that did not reach the end stopped. *)
Inductive relay_error := RRead (e : read_end) | RWrite.

Section relay.
Context `{Unicode} `{JsonCodec}.

(** Decoding a number into an [int] field. *)
Definition decode_int (cur : Z) (v : json) : Z * bool :=
  match v with
  | JNum lit => match Atoi lit with Some z => (z, true) | None => (cur, false) end
  | JNull => (cur, true)
  | _ => (cur, false)
  end.

Definition no_usage : Usage := {| us_PromptTokens := 0; us_CompletionTokens := 0; us_TotalTokens := 0 |}.

(** [provider.Usage], field by field *)
Definition usage_field (acc : Usage * bool) (kv : string * json) : Usage * bool :=
  let '(u, ok) := acc in
  let '(k, v) := kv in
  if EqualFold k "prompt_tokens" then
    let '(n, fine) := decode_int (us_PromptTokens u) v in
    ({| us_PromptTokens := n; us_CompletionTokens := us_CompletionTokens u; us_TotalTokens := us_TotalTokens u |},
     ok && fine)
  else if EqualFold k "completion_tokens" then
    let '(n, fine) := decode_int (us_CompletionTokens u) v in
    ({| us_PromptTokens := us_PromptTokens u; us_CompletionTokens := n; us_TotalTokens := us_TotalTokens u |},
     ok && fine)
  else if EqualFold k "total_tokens" then
    let '(n, fine) := decode_int (us_TotalTokens u) v in
    ({| us_PromptTokens := us_PromptTokens u; us_CompletionTokens := us_CompletionTokens u; us_TotalTokens := n |},
     ok && fine)
  else (u, ok).

(** [sseUsage]: null clears the pointer, an object is decoded into what it
    points to. *)
Definition sse_field (acc : option Usage * bool) (kv : string * json) : option Usage * bool :=
  let '(u, ok) := acc in
  if EqualFold kv.1 "usage" then
    match kv.2 with
    | JNull => (None, ok)
    | JObj inner => let '(v, fine) := foldl usage_field (default no_usage u, ok) inner in (Some v, fine)
    | _ => (Some (default no_usage u), false)
    end
  else acc.

Definition data_prefix : string := "data: ".

(** [usageFromEvent] *)
Definition usageFromEvent (line : string) : option Usage :=
  let trimmed := TrimSpace line in
  if negb (HasPrefix trimmed data_prefix) then None
  else
    let payload := TrimSpace (str_drop (String.length data_prefix) trimmed) in
    if bool_decide (payload = "") || bool_decide (payload = "[DONE]") then None
    else match Unmarshal payload with
         | Some (JObj fields) =>
             match foldl sse_field (None, true) fields with
             | (Some u, true) => if us_TotalTokens u =? 0 then None else Some u
             | _ => None
             end
         | _ => None
         end.

(** The loop of [relaySSE]: what was written, the usage seen, whether it
    stalled and the error. [armed] is when the watchdog was last set, [fired]
    whether it has gone off, [n] the lines written. [accepts] says which writes
    the client takes. [None] is a relay still waiting for a read. *)
Fixpoint relay_loop (idle : Z) (accepts : nat → bool) (armed : Z) (fired : bool) (n : nat)
    (usage : option Usage) (reads : list read) :
    option (list string * option Usage * bool * option relay_error) :=
  match reads with
  | [] => None
  | rd :: reads' =>
      let fired := fired || (armed + idle <=? rd_at rd) in
      let has := negb (bool_decide (rd_line rd = "")) in
      let usage := if has then match usageFromEvent (rd_line rd) with Some u => Some u | None => usage end
                   else usage in
      if has && negb (accepts n) then Some ([], usage, false, Some RWrite)
      else
        let line := if has then [rd_line rd] else [] in
        match rd_err rd with
        | Some e =>
            Some (line, usage, fired,
                  if fired then Some (RRead e) else match e with REOF => None | RBroken _ => Some (RRead e) end)
        | None =>
            match relay_loop idle accepts (if has then rd_at rd else armed) fired
                    (if has then S n else n) usage reads' with
            | Some (out, u, st, e) => Some (line ++ out, u, st, e)
            | None => None
            end
        end
  end.

(** [relaySSE], called at [now] *)
Definition relaySSE (accepts : nat → bool) (idle now : Z) (reads : list read) :
    option (list string * option Usage * bool * option relay_error) :=
  let idle := if idle <=? 0 then 60 * Second else idle in
  relay_loop idle accepts now false 0 None reads.

(** [writeStreamError]; the messages it is given have no arguments. *)
Definition writeStreamError (e : Error) (code requestID : string) : list string :=
  let b := ApiErr.Envelope e requestID in
  let payload := Marshal (JObj [("error", JObj (
       [("message", JStr (msg_format (body_Message b))); ("type", JStr (body_Type b)); ("code", JStr code);
        ("param", match body_Param b with Some p => JStr p | None => JNull end)]
       ++ (if bool_decide (requestID = "") then [] else [("request_id", JStr requestID)])))]) in
  ["event: error" +:+ newline +:+ "data: " +:+ payload +:+ newline +:+ newline;
   "data: [DONE]" +:+ newline +:+ newline].

Definition stalled_message : Error := UpstreamError (text "The upstream stopped sending data.").
Definition truncated_message : Error :=
  UpstreamError (text "The upstream ended the stream before it completed.").

(** The body of the stream writer: what reaches the client's connection and what
    the context records. It starts at [now]; [done_at] and [recorded_at] are the
    clock at the end. A write after one that failed goes nowhere. A [None] for
    the context is a panic: the writer runs on a goroutine of the framework's,
    which recovers nothing, so it takes the process with it. *)
Definition stream_writer {A} (metrics telemetry : bool) (st : stream) (accepts : nat → bool)
    (now done_at recorded_at : Z) (reads : list read) (c : chatCtx A) : option (list string * option (chatCtx A)) :=
  match relaySSE accepts (st_idle st) now reads with
  | None => None
  | Some (out, usage, stalled, err) =>
      let rid := id_request (st_identity st) in
      let tail :=
        if stalled then writeStreamError stalled_message CodeUpstreamStreamStalled rid
        else match err with
             | Some (RRead _) => writeStreamError truncated_message CodeUpstreamError rid
             | Some RWrite | None => []
             end in
      Some (out ++ tail,
            record metrics telemetry (st_identity st) (st_result st) (st_requested st) usage true 200
              (Sub done_at (st_started st)) recorded_at c)
  end.
End relay.
