(* ===== verification/ChatProps.v ===== *)
(** * Theorems about chat completions (internal/server/chat.go)

    The relay against a declarative reading of what it was sent, the rewriting
    of the body, and the handler end to end: what the caller gets, what is
    recorded, what is stored. *)

From S2P Require Import Prelude GoStrings GoTime GoFloat GoFormat ApiErr StoreTypes Keys Json Memory Middleware Provider Breaker Catalog Resolve Dispatch DispatchFacts Cache Config Limits Quota Capture Events Server Data Chat.
From Stdlib Require Import Ascii.

#[local] Open Scope Z_scope.
#[local] Open Scope stdpp_scope.

(** ** The relay *)

Section relay.
Context `{Unicode} `{JsonCodec}.

(** The lines a sequence of reads carries. *)
Definition lines (reads : list read) : list string :=
  List.filter (λ l, negb (bool_decide (l = ""))) (rd_line <$> reads).

(** The last usage block among them. *)
Definition last_usage (reads : list read) : option Usage :=
  last (omap (λ rd, usageFromEvent (rd_line rd)) reads).

(** Whether some line kept the relay waiting for [idle] or longer. *)
Definition silent (idle now : Z) (reads : list read) : bool :=
  existsb (λ gap, gap.1 + idle <=? gap.2) (zip (now :: (rd_at <$> reads)) (rd_at <$> reads)).

(** The stall budget in force. *)
Definition budget (idle : Z) : Z := if idle <=? 0 then 60 * Second else idle.

(** A read that delivered a line. *)
Definition delivers (rd : read) : Prop := rd_err rd = None ∧ rd_line rd ≠ "".

Lemma usageFromEvent_empty : usageFromEvent "" = None.
Proof. done. Qed.

Definition or_usage (u : option Usage) (reads : list read) : option Usage :=
  match last_usage reads with Some v => Some v | None => u end.

Lemma or_usage_cons u rd reads :
  or_usage u (rd :: reads) =
  or_usage (match usageFromEvent (rd_line rd) with Some v => Some v | None => u end) reads.
Proof.
  unfold or_usage, last_usage. simpl. destruct (usageFromEvent _) as [v|]; [|done].
  rewrite last_cons. by destruct (last _).
Qed.

Lemma usage_step rd (u : option Usage) :
  (if negb (bool_decide (rd_line rd = ""))
   then match usageFromEvent (rd_line rd) with Some v => Some v | None => u end else u) =
  match usageFromEvent (rd_line rd) with Some v => Some v | None => u end.
Proof. case_bool_decide as E; simpl; [by rewrite E|done]. Qed.

Lemma lines_cons rd reads :
  lines (rd :: reads) = (if negb (bool_decide (rd_line rd = "")) then [rd_line rd] else []) ++ lines reads.
Proof. unfold lines. simpl. by destruct (negb _). Qed.

(** What the loop returns at the read that ended the source. *)
Definition verdict_of (fired : bool) (e : read_end) : option relay_error :=
  if fired then Some (RRead e) else match e with REOF => None | RBroken _ => Some (RRead e) end.

Lemma relay_loop_accepts idle accepts armed fired n u pre fin rest e :
  Forall delivers pre → rd_err fin = Some e →
  (∀ m, (m < n + length (lines (pre ++ [fin])))%nat → accepts m = true) →
  let reads := pre ++ [fin] in
  let fired' := fired || silent idle armed reads in
  relay_loop idle accepts armed fired n u (reads ++ rest) =
  Some (lines reads, or_usage u reads, fired', verdict_of fired' e).
Proof.
  simpl. revert armed fired n u.
  induction pre as [|rd pre IH]; intros armed fired n u HF He Ha.
  - simpl. rewrite He, usage_step, or_usage_cons, lines_cons. unfold silent. simpl. rewrite orb_false_r.
    replace (or_usage _ []) with (match usageFromEvent (rd_line fin) with Some v => Some v | None => u end)
      by done.
    change (lines []) with (@nil string). rewrite app_nil_r. unfold verdict_of.
    case_bool_decide as E; simpl; [done|]. rewrite Ha; [done|].
    simpl. rewrite lines_cons. rewrite bool_decide_eq_false_2 by done. simpl. lia.
  - apply Forall_cons in HF as [[Hn Hl] HF]. simpl in Ha |- *.
    rewrite lines_cons in Ha |- *. rewrite Hn, usage_step, or_usage_cons.
    rewrite bool_decide_eq_false_2 in Ha |- * by done. simpl in Ha |- *.
    rewrite Ha by lia. simpl. rewrite IH; [|done..|intros m Hm; apply Ha; lia].
    unfold silent. simpl. by rewrite orb_assoc.
Qed.

Lemma relay_loop_refused idle accepts armed fired n u k reads :
  Forall delivers (firstn k reads) →
  (∀ m, (m < k)%nat → accepts (n + m)%nat = true) → accepts (n + k)%nat = false →
  (∃ rd, reads !! k = Some rd ∧ rd_line rd ≠ "") →
  relay_loop idle accepts armed fired n u reads =
  Some (lines (firstn k reads), or_usage u (firstn (S k) reads), false, Some RWrite).
Proof.
  revert armed fired n u reads.
  induction k as [|k IH]; intros armed fired n u reads HF Ha Hk (rd & Hrd & Hl).
  - destruct reads as [|x reads]; [done|]. simpl in Hrd. injection Hrd as ->. simpl.
    rewrite usage_step, or_usage_cons, bool_decide_eq_false_2 by done.
    rewrite Nat.add_0_r in Hk. rewrite Hk. done.
  - destruct reads as [|x reads]; [done|]. simpl in HF, Hrd |- *.
    apply Forall_cons in HF as [[Hn Hx] HF].
    rewrite Hn, usage_step, or_usage_cons, lines_cons, bool_decide_eq_false_2 by done. simpl.
    pose proof (Ha 0%nat ltac:(lia)) as Hz. rewrite Nat.add_0_r in Hz. rewrite Hz. simpl.
    rewrite IH; [done|done| | |by exists rd].
    + intros m Hm. rewrite <-(Ha (S m) ltac:(lia)). f_equal. lia.
    + rewrite <-Hk. f_equal. lia.
Qed.
End relay.

(** ** The handler's parts *)

Section handlers.
Context `{Unicode} `{JsonStream} `{Crypto} `{HttpDates}.
Context {A : Type} (adapters : gmap string A).
Context (poll_now : nat → Z * Z) (answers : nat → nat → A → Credential → res message (list Model)).
Context (upstream : list (call A) → call A → DoResult) (clock : nat → Z).
Context (metrics telemetry expired : bool).

Abbreviation sent s := (d_calls (sv_Dispatcher s)).

(** A call that is the tenant's to make: to an enabled provider of its own, with
    one of that provider's keys. *)
Definition own_call (t : string) (streaming : bool) (m : Memory) (c : call A) : Prop :=
  rq_Stream (call_req c) = streaming ∧
  ∃ p, p ∈ ListProviders m t ∧ p_Enabled p = true ∧ Registry_Get adapters (p_Kind p) = Some (call_adapter c) ∧
    cr_APIKey (call_cred c) ∈ p_Keys p ∧ cr_BaseURL (call_cred c) = p_BaseURL p.

(** A call made for the candidate [cand]: to the provider it names among the
    tenant's, and for its model, with the payload rewritten to name it. *)
Definition call_for (t payload : string) (m : Memory) (cand : Candidate) (c : call A) : Prop :=
  ∃ p, providersByID (ListProviders m t) !! cd_ProviderID cand = Some p ∧
    Registry_Get adapters (p_Kind p) = Some (call_adapter c) ∧
    cr_APIKey (call_cred c) ∈ p_Keys p ∧ cr_BaseURL (call_cred c) = p_BaseURL p ∧
    rq_Model (call_req c) = cd_Model cand ∧
    withModel payload (cd_Model cand) = Some (Ok (rq_Body (call_req c))).

(** The candidate of [result] is one the model resolved to, at its depth. *)
Definition resolved_to (t model : string) (s : Server A) (result : Result) : Prop :=
  ∃ snap cands n, res_Snapshot result = Some snap ∧
    resolve_in (sv_Resolver s) (sv_Store s) t model snap = Ok cands ∧
    cands !! n = Some (res_Candidate result) ∧ res_Depth result = Z.of_nat n.

(** What [result] rests on: the calls made between [s] and [s'], the last of
    which was made for its candidate and answered by the upstream with it. *)
Definition answered_by (t model payload : string) (streaming : bool) (s s' : Server A) (result : Result) : Prop :=
  (∃ pre c, sent s' = sent s ++ pre ++ [c] ∧ own_call t streaming (sv_Store s) c ∧
    call_for t payload (sv_Store s) (res_Candidate result) c ∧
    judge (upstream (sent s ++ pre) c) = Serve (res_Response result)) ∧
  resolved_to t model s result.

(** A step that left the configuration, the data, the quotas and the cache alone. *)
Definition routed (s s' : Server A) : Prop :=
  sv_Config s' = sv_Config s ∧ (sv_Store s' = sv_Store s ∧ sv_Resolver s' = sv_Resolver s) ∧
  sv_cache s' = sv_cache s.

Lemma providersByID_elem ps id p : providersByID ps !! id = Some p → p ∈ ps.
Proof.
  unfold providersByID. enough (∀ m, foldl (λ m p, <[p_ID p := p]> m) m ps !! id = Some p → p ∈ ps ∨ m !! id = Some p)
    as Hall by (intros [?|Hm]%Hall; [done|by rewrite lookup_empty in Hm]).
  induction ps as [|q ps IH]; intros m; simpl; [by right|]. intros [Hp|Hm]%IH; [by left; right|].
  apply lookup_insert_Some in Hm as [[_ ->]|[_ Hm]]; [left; by left|by right].
Qed.

Lemma dispatch_at_spec i t m body streaming s out s' :
  dispatch_at adapters poll_now answers upstream clock i t m body streaming s = (out, s') →
  routed s s' ∧ (∃ cs, sent s' = sent s ++ cs) ∧
  ∀ result, out = Some (Ok result) → answered_by t m body streaming s s' result.
Proof.
  unfold dispatch_at. destruct (Resolve _ _ _ _ _ _ _ _ _) as [[got snap] cat] eqn:Er.
  destruct (Dispatch _ _ _ _ _ _ _ _ _) as [o d] eqn:Ed. intros [= <- <-].
  split; [done|]. unfold Dispatch in Ed. simpl in Ed |- *. destruct got as [cands|e].
  - apply cascade_spec in Ed as (cs & E & Hall & _ & He). simpl in E, He. split; [by exists cs|].
    intros result ->. destruct He as ((pre & c & -> & Hj & Hc) & Hsnap & n & Hn & Hd & _).
    destruct Hc as (cand & p & ->%list_elem_of_singleton & Hp & ? & ? & ? & ? & ? & ? & _ & ?). split.
    + exists pre, c. split_and!; [done| | |done].
      * split; [done|]. exists p. split_and!; try done. by eapply providersByID_elem.
      * exists p. by split_and!.
    + revert Er. unfold Resolve. destruct (Get _ _ _ _ _ _ _) as [[sn|e] c2]; [|done]. intros [= Eg Es _].
      exists sn, cands, n. rewrite Hsnap, Es, Hd. by split_and!.
  - injection Ed as <- <-. simpl. split; [exists []; by rewrite app_nil_r|done].
Qed.

Lemma cacheKeyFor_spec plan t m body s key s' :
  cacheKeyFor adapters poll_now answers plan t m body s = (key, s') →
  routed s s' ∧ sv_Dispatcher s' = sv_Dispatcher s ∧
  ∀ k servedBy, key = Some (Some (k, servedBy)) → pl_lookup plan = true ∧ CKey t servedBy body = Some k ∧
    ∃ p rest, (resolve_at adapters poll_now answers 0 t m s).1 = Ok (p :: rest) ∧ servedBy = ServedBy p.
Proof.
  unfold cacheKeyFor. destruct (pl_lookup plan); simpl; [|by intros [= <- <-]].
  unfold resolve_at. destruct (Resolve _ _ _ _ _ _ _ _ _) as [[got snap] cat].
  destruct (Primary got) as [[p|e]|] eqn:Ep; intros [= <- <-]; (split; [done|]); (split; [done|]); try done.
  intros k sb. destruct (CKey t (ServedBy p) body) as [k'|] eqn:Ek; [|done]. simpl. intros [= <- <-].
  destruct got as [[|c rest]|]; [done| |done]. injection Ep as <-. split_and!; [done..|]. by exists c, rest.
Qed.

(** The row a served request leaves. *)
Definition served_row (cfg : Config) (r : HttpReq) (result : Result) (m : string) : list UsageRecord :=
  if telemetry
  then [record_row cfg (identity_of r) result m (rs_Usage (res_Response result)) false 200
          (Sub (hr_now r 3) (hr_now r 1)) (hr_now r 4)]
  else [].
Definition replayed_row (r : HttpReq) (e : CacheEntry) (m : string) : list UsageRecord :=
  if telemetry then [cached_row (identity_of r) e m (Sub (hr_now r 3) (hr_now r 1)) (hr_now r 4)] else [].

Lemma record_recorded i result m u streamed st el now (c : chatCtx A) :
  let c' := record_row_of metrics telemetry i result m u streamed st el now c in
  cx_recorded c' = cx_recorded c ++
    (if telemetry then [record_row (sv_Config (cx_srv c)) i result m u streamed st el now] else []) ∧
  cx_hops c' = cx_hops c ++ (if metrics then meterCascade (id_tenant i) result else []) ∧
  cx_headers c' = cx_headers c ∧ cx_srv c' = cx_srv c.
Proof. unfold record_row_of. destruct telemetry; simpl; by rewrite ?app_nil_r. Qed.

Lemma headers_applied (c : chatCtx A) result :
  let h := cx_headers (applyRoutingHeaders c result) in
  h !! HeaderServedBy = Some (ServedBy (res_Candidate result)) ∧
  h !! HeaderFallbackDepth = Some (Itoa (res_Depth result)) ∧
  h !! HeaderCache = cx_headers c !! HeaderCache.
Proof. unfold applyRoutingHeaders. destruct (m_Deprecated _); simpl; by simplify_map_eq. Qed.

(** Outcome of the buffered path past the lookup. *)
Definition completes (r : HttpReq) (t m body : string) (key : option (string * string)) (ttl : Z)
    (c : chatCtx A) (out : res error chat_body) (c' : chatCtx A) : Prop :=
  match out with
  | Ok (CBytes st b) => ∃ result, st = 200 ∧ b = rs_Body (res_Response result) ∧
      answered_by t m body false (cx_srv c) (cx_srv c') result ∧
      cx_recorded c' = cx_recorded c ++ served_row (sv_Config (cx_srv c)) r result m ∧
      cx_headers c' !! HeaderServedBy = Some (ServedBy (res_Candidate result)) ∧
      cx_headers c' !! HeaderFallbackDepth = Some (Itoa (res_Depth result)) ∧
      (cx_headers c' !! HeaderCache = cx_headers c !! HeaderCache ∨ cx_headers c' !! HeaderCache = Some cacheMiss) ∧
      (sv_cache (cx_srv c') = sv_cache (cx_srv c) ∨
       ∃ k, key = Some (k, ServedBy (res_Candidate result)) ∧
         sv_cache (cx_srv c') = CPut (sv_cache (cx_srv c)) (hr_now r 5) t k
           {| ce_Body := b; ce_Provider := cd_Provider (res_Candidate result);
              ce_Model := cd_Model (res_Candidate result) |} ttl)
  | Ok (CStream _) => False
  | Err _ => cx_recorded c' = cx_recorded c ∧ cx_hops c' = cx_hops c ∧
      cx_headers c' !! HeaderCache = cx_headers c !! HeaderCache ∧ sv_cache (cx_srv c') = sv_cache (cx_srv c)
  end.

Lemma complete_spec r t m body plan key c out c' :
  complete adapters poll_now answers upstream clock metrics telemetry expired
    r t m body plan key (hr_now r 1) c = (out, c') →
  completes r t m body key (pl_ttl plan) c out c'.
Proof.
  unfold complete. destruct (dispatch_at _ _ _ _ _ _ _ _ _ _ _) as [o s] eqn:Ed.
  apply dispatch_at_spec in Ed as ((Ec & _ & Eca) & _ & Hr).
  destruct o as [[result|e]|]; [|by intros [= <- <-]..].
  destruct (headers_applied (with_srv c s) result) as (Hs & Hd & Hc).
  set (c1 := applyRoutingHeaders (with_srv c s) result) in *.
  assert (cx_srv c1 = s ∧ cx_recorded c1 = cx_recorded c ∧ cx_hops c1 = cx_hops c) as (Es & Er & Eh).
  { subst c1. unfold applyRoutingHeaders. by destruct (m_Deprecated _). }
  unfold meter, record. destruct (metrics && _); intros [= <- <-]; [simpl; by rewrite Es, Er, Eh, Hc|]. exists result.
  match goal with |- context [record_row_of metrics telemetry ?i ?re ?mm ?u ?st ?q ?el ?n ?cc] =>
    destruct (record_recorded i re mm u st q el n cc) as (R1 & _ & R3 & R4);
    set (c2 := record_row_of metrics telemetry i re mm u st q el n cc) in * end.
  simpl in R1, R3, R4. rewrite Er, Es, Ec in R1. rewrite Es in R4.
  assert (∀ x, answered_by t m body false (cx_srv c) (set_cache s x) result) as Hans by (intros x; by apply Hr).
  destruct key as [[k sb]|]; [unfold store_answer; case_bool_decide as Eb|]; simpl;
    rewrite ?R1, ?R3, ?R4; simplify_map_eq; split_and!; try done; auto; try (by apply Hr).
  right. exists k. rewrite Eca. done.
Qed.

(** An answer replayed from an entry of the cache. *)
Definition replayed (r : HttpReq) (t m body : string) (c : chatCtx A) (out : res error chat_body)
    (c' : chatCtx A) : Prop :=
  ∃ cache it k servedBy, out = Ok (CBytes 200 (ce_Body (it_entry it))) ∧
    sv_cache (cx_srv c) = Some cache ∧ c_items cache !! k = Some it ∧
    Before (hr_now r 2) (it_expires it) = true ∧
    (CKey t servedBy body = Some k ∧
     ∃ p rest, (resolve_at adapters poll_now answers 0 t m (cx_srv c)).1 = Ok (p :: rest) ∧ servedBy = ServedBy p) ∧
    sent (cx_srv c') = sent (cx_srv c) ∧ cx_hops c' = cx_hops c ∧
    cx_recorded c' = cx_recorded c ++ replayed_row r (it_entry it) m ∧
    cx_headers c' !! HeaderCache = Some cacheHit ∧
    cx_headers c' !! HeaderServedBy = Some (ce_ServedBy (it_entry it)) ∧
    sv_cache (cx_srv c') = (CGet (Some cache) (hr_now r 2) k).2.

(** Outcome of the buffered path. *)
Definition buffered (r : HttpReq) (t m body : string) (plan : cachePlan) (c : chatCtx A)
    (out : res error chat_body) (c' : chatCtx A) : Prop :=
  (pl_lookup plan = true ∧ replayed r t m body c out c') ∨
  ∃ key c1, completes r t m body key (pl_ttl plan) c1 out c' ∧
    cx_recorded c1 = cx_recorded c ∧ cx_hops c1 = cx_hops c ∧ cx_headers c1 = cx_headers c ∧
    sent (cx_srv c1) = sent (cx_srv c) ∧ sv_Config (cx_srv c1) = sv_Config (cx_srv c) ∧
    (sv_Store (cx_srv c1) = sv_Store (cx_srv c) ∧ sv_Resolver (cx_srv c1) = sv_Resolver (cx_srv c)) ∧
    match key with
    | None => sv_cache (cx_srv c1) = sv_cache (cx_srv c)
    | Some (k, servedBy) => pl_lookup plan = true ∧ CKey t servedBy body = Some k ∧
        sv_cache (cx_srv c1) = (CGet (sv_cache (cx_srv c)) (hr_now r 2) k).2
    end.

Lemma CGet_hit (cache : option Cache) now k e :
  (CGet cache now k).1 = Some e →
  ∃ c0 it, cache = Some c0 ∧ c_items c0 !! k = Some it ∧ it_entry it = e ∧ Before now (it_expires it) = true.
Proof.
  destruct cache as [c0|]; [|done]. simpl. destruct (c_items c0 !! k) as [it|] eqn:Ek; [|done].
  destruct (Before now (it_expires it)) eqn:Eb; simpl; [|done]. intros [= <-]. by exists c0, it.
Qed.

Lemma completion_spec r t m body plan c out c' :
  completion adapters poll_now answers upstream clock metrics telemetry expired r t m body plan c = (out, c') →
  buffered r t m body plan c out c'.
Proof.
  unfold completion. destruct (cacheKeyFor _ _ _ _ _ _ _ _) as [key s] eqn:Ek.
  apply cacheKeyFor_spec in Ek as ((Ec & [Est Erv] & Eca) & Ed & Hk).
  destruct key as [[[k sb]|]|].
  - destruct (Hk k sb eq_refl) as (Hp & HK & Hres). simpl. rewrite Eca.
    destruct (CGet (sv_cache (cx_srv c)) (hr_now r 2) k) as [hit cache] eqn:Eg.
    destruct hit as [e|].
    + destruct (CGet_hit (sv_cache (cx_srv c)) (hr_now r 2) k e) as (c0 & it & E0 & Hi & He & Hb);
        [by rewrite Eg|].
      intros Ecall. left. split; [done|]. exists c0, it, k, sb. rewrite E0 in Eg. rewrite Eg, He.
      revert Ecall. unfold serveFromCache, replayed_row. destruct telemetry; intros [= <- <-]; simpl;
        rewrite Ed, ?app_nil_r; simplify_map_eq; done.
    + intros Hc%complete_spec. right.
      exists (Some (k, sb)), (with_srv (with_srv c s) (set_cache s cache)). split; [done|]. simpl.
      rewrite Ed, Eg, Ec, Est, Erv. done.
  - intros Hc%complete_spec. right. exists None, (with_srv c s). split; [done|]. simpl. by rewrite Ed, Ec, Est, Erv, Eca.
  - intros [= <- <-]. right. exists None, (with_srv c s). simpl. by rewrite Ed, Ec, Est, Erv, Eca.
Qed.

(** Outcome of the streaming path. *)
Lemma streamCompletion_spec r t m body c out c' :
  streamCompletion adapters poll_now answers upstream clock r t m body c = (out, c') →
  cx_recorded c' = cx_recorded c ∧ cx_hops c' = cx_hops c ∧ sv_cache (cx_srv c') = sv_cache (cx_srv c) ∧
  cx_headers c' !! HeaderCache = cx_headers c !! HeaderCache ∧
  match out with
  | Ok (CStream st) => answered_by t m body true (cx_srv c) (cx_srv c') (st_result st) ∧ st_identity st = identity_of r ∧
      st_requested st = m ∧
      cx_headers c' !! HeaderServedBy = Some (ServedBy (res_Candidate (st_result st)))
  | Ok (CBytes _ _) => False
  | Err _ => True
  end.
Proof.
  unfold streamCompletion. destruct (dispatch_at _ _ _ _ _ _ _ _ _ _ _) as [o s] eqn:Ed.
  apply dispatch_at_spec in Ed as ((_ & _ & Eca) & _ & Hr).
  destruct o as [[result|e]|]; [|by intros [= <- <-]..]. intros [= <- <-].
  destruct (headers_applied (with_srv c s) result) as (Hs & _ & Hc).
  set (c1 := applyRoutingHeaders (with_srv c s) result) in *.
  assert (cx_srv c1 = s ∧ cx_recorded c1 = cx_recorded c ∧ cx_hops c1 = cx_hops c) as (Es & Er & Eh).
  { subst c1. unfold applyRoutingHeaders. by destruct (m_Deprecated _). }
  simpl. rewrite Es, Er, Eh. simplify_map_eq. split_and!; try done. by apply Hr.
Qed.

(** ** The handler *)

Abbreviation handle_chat := (handleChatCompletions adapters poll_now answers upstream clock metrics telemetry expired).

(** What the handler forwards, and the plan it follows. *)
Definition payload_of (s : Server A) (r : HttpReq) (body : string) : string :=
  default body (prependSystem body (systemInstruction (sv_Config s) (hr_tenant r))).

(** A context the handler has prepared for a path: nothing sent or recorded. *)
Definition prepared (s : Server A) (c : chatCtx A) : Prop :=
  cx_recorded c = [] ∧ cx_hops c = [] ∧ sent (cx_srv c) = sent s ∧ sv_cache (cx_srv c) = sv_cache s ∧
  sv_Config (cx_srv c) = sv_Config s ∧
  (sv_Store (cx_srv c) = sv_Store s ∧ sv_Resolver (cx_srv c) = sv_Resolver s) ∧
  (cx_headers c !! HeaderCache = None ∨ cx_headers c !! HeaderCache = Some cacheBypass).

Lemma plan_header (s : Server A) r env :
  pl_header (planCache s r env) = "" ∨ pl_header (planCache s r env) = cacheBypass.
Proof. unfold planCache. repeat (case_match || destruct (_ || _)); auto. Qed.

Lemma handle_from r body c0 out c' :
  prepared (cx_srv c0) c0 → handle_chat r body c0 = (out, c') →
  let s := cx_srv c0 in
  (∃ e, out = Err e ∧ prepared s c') ∨
  ∃ env c1, decode_env body = Ok env ∧ prepared s c1 ∧ (∃ q, cx_srv c1 = set_quota_state s q) ∧
    (if env_Stream env
     then streamCompletion adapters poll_now answers upstream clock r (TenantID r) (env_Model env)
            (payload_of s r body) c1
     else completion adapters poll_now answers upstream clock metrics telemetry expired r (TenantID r)
            (env_Model env) (payload_of s r body) (planCache s r env) c1) = (out, c').
Proof.
  intros Hp. unfold handleChatCompletions. case_bool_decide; [intros [= <- <-]; eauto|].
  destruct (decode_env body) as [env|e] eqn:Ed; [|intros [= <- <-]; eauto].
  case_bool_decide; [intros [= <- <-]; eauto|].
  destruct (evaluateQuota _ _ _ _ _) as [quota q]. simpl.
  destruct Hp as (P1 & P2 & _ & _ & _ & _ & P6). destruct (v_Reject quota) as [e|].
  { intros [= <- <-]. left. exists (ErrApi e). split; [done|]. unfold prepared. simpl. simplify_map_eq. auto 10. }
  intros Hrun. right. do 2 eexists. split; [done|]. split; [|split; [|exact Hrun]]; clear Hrun;
    change (planCache (set_quota_state (cx_srv c0) q) r env) with (planCache (cx_srv c0) r env);
    destruct (plan_header (cx_srv c0) r env) as [->| ->]; simpl; eauto;
    unfold prepared; simpl; simplify_map_eq; auto 10.
Qed.

Lemma handle_cases r body s out c' :
  handle_chat r body (new_ctx s) = (out, c') →
  (∃ e, out = Err e ∧ prepared s c') ∨
  ∃ env c1, decode_env body = Ok env ∧ prepared s c1 ∧ (∃ q, cx_srv c1 = set_quota_state s q) ∧
    (if env_Stream env
     then streamCompletion adapters poll_now answers upstream clock r (TenantID r) (env_Model env)
            (payload_of s r body) c1
     else completion adapters poll_now answers upstream clock metrics telemetry expired r (TenantID r)
            (env_Model env) (payload_of s r body) (planCache s r env) c1) = (out, c').
Proof. apply (handle_from r body (new_ctx s)). unfold prepared. simpl. auto 10. Qed.

(** A usage row under the caller's identity. *)
Definition row_of_caller (r : HttpReq) (row : UsageRecord) : Prop :=
  u_RequestID row = hr_id r ∧ u_ClientRequestID row = hr_clientID r ∧ u_TenantID row = TenantID r ∧
  u_KeyPrefix row = keyPrefix r.

Lemma rows_are_the_callers r body c0 out c' :
  prepared (cx_srv c0) c0 → handle_chat r body c0 = (out, c') →
  Forall (row_of_caller r) (cx_recorded c') ∧
  match out with Ok (CStream st) => st_identity st = identity_of r | _ => True end.
Proof.
  intros Hp Hrun. destruct (handle_from _ _ _ _ _ Hp Hrun) as [(e & -> & Hq)|(env & c1 & _ & Hq & _ & Hc)].
  { destruct Hq as (-> & _). by split. }
  destruct Hq as (P1 & _). destruct (env_Stream env).
  - apply streamCompletion_spec in Hc as (S1 & _ & _ & _ & S5). rewrite S1, P1. split; [done|].
    destruct out as [[|st]|]; [done|by destruct S5 as (_ & ? & _)|done].
  - apply completion_spec in Hc as [(_ & Hr)|(key & c2 & Hc & Q1 & _)].
    + destruct Hr as (cache & it & k & sb & -> & _ & _ & _ & _ & _ & _ & R8 & _). rewrite R8, P1. split; [|done].
      unfold replayed_row. destruct telemetry; simpl; [by repeat constructor|done].
    + destruct out as [[st b|st]|e]; simpl in Hc; [|done|].
      * destruct Hc as (result & _ & _ & _ & -> & _). rewrite Q1, P1. split; [|done].
        unfold served_row. destruct telemetry; simpl; [by repeat constructor|done].
      * destruct Hc as (-> & _). by rewrite Q1, P1.
Qed.

(** A completion leaves one row or one stream at most. *)
Lemma one_row_at_most r body c0 out c' :
  prepared (cx_srv c0) c0 → handle_chat r body c0 = (out, c') →
  (length (cx_recorded c') + match out with Ok (CStream _) => 1 | _ => 0 end ≤ 1)%nat.
Proof.
  intros Hp Hrun. destruct (handle_from _ _ _ _ _ Hp Hrun) as [(e & -> & Hq)|(env & c1 & _ & Hq & _ & Hc)].
  { destruct Hq as (-> & _). simpl. lia. }
  destruct Hq as (P1 & _). destruct (env_Stream env).
  - apply streamCompletion_spec in Hc as (S1 & _). rewrite S1, P1. destruct out as [[]|]; simpl; lia.
  - apply completion_spec in Hc as [(_ & Hr)|(key & c2 & Hc & Q1 & _)].
    + destruct Hr as (cache & it & k & sb & -> & _ & _ & _ & _ & _ & _ & R8 & _). rewrite R8, P1.
      unfold replayed_row. destruct telemetry; simpl; lia.
    + destruct out as [[st b|st]|e]; simpl in Hc; [|done|].
      * destruct Hc as (result & _ & _ & _ & -> & _). rewrite Q1, P1. unfold served_row. destruct telemetry; simpl; lia.
      * destruct Hc as (-> & _). rewrite Q1, P1. simpl. lia.
Qed.

(** Nothing of the cache but what was there, less what a lookup dropped. *)
Definition shrunk (before after : option Cache) : Prop :=
  ∀ c k it, after = Some c → c_items c !! k = Some it → ∃ c0, before = Some c0 ∧ c_items c0 !! k = Some it.

Lemma CGet_shrunk (cache : option Cache) now k : shrunk cache (CGet cache now k).2.
Proof.
  intros c k' it. destruct cache as [c0|]; simpl; [|done]. destruct (c_items c0 !! k) as [x|] eqn:Ek.
  - destruct (negb _); simpl; intros [= <-]; [intros [? _]%removeElement_items|simpl]; eauto.
  - simpl. intros [= <-]. eauto.
Qed.

Lemma CPut_items (cache : option Cache) now t k e ttl c k' it :
  CPut cache now t k e ttl = Some c → c_items c !! k' = Some it →
  (k' = k ∧ it_tenant it = t ∧ it_entry it = e) ∨ ∃ c0, cache = Some c0 ∧ c_items c0 !! k' = Some it.
Proof.
  destruct cache as [c0|]; [|done]. unfold CPut. destruct (ttl <=? 0); [intros [= <-]; eauto|].
  destruct (_ <? _); [intros [= <-]; eauto|]. intros <-%(inj Some) Hi%evict_items. revert Hi. simpl.
  rewrite lookup_insert_Some. intros [[<- <-]|[_ Hi]]; [by left|right].
  exists c0. split; [done|]. destruct (c_items c0 !! k) as [old|]; [|done].
  by apply removeElement_items in Hi as [? _].
Qed.
End handlers.

(** ** Component theorems *)

Module ChatFacts.

Section relay_props.
Context `{Unicode} `{JsonCodec}.

(** C12: A stream is relayed line for line. Once the upstream has ended it, the
    client has every line it sent, in order and unchanged; the only bytes the
    gateway adds are one error event and the end marker, and exactly when a line
    was overdue or the upstream broke off. One usage row is recorded, with the
    last usage block the stream carried, unless that block counts negative tokens
    and metrics are on, when the writer panics. *)
Theorem stream_is_relayed {A} metrics (st : stream) accepts now done_at recorded_at pre fin rest e
    (c : chatCtx A) :
  Forall delivers pre → rd_err fin = Some e → (∀ m, accepts m = true) →
  let reads := pre ++ [fin] in
  let rid := id_request (st_identity st) in
  ∃ c', stream_writer metrics true st accepts now done_at recorded_at (reads ++ rest) c =
      Some (lines reads ++
        (if silent (budget (st_idle st)) now reads
         then writeStreamError stalled_message CodeUpstreamStreamStalled rid
         else match e with
              | REOF => []
              | RBroken _ => writeStreamError truncated_message CodeUpstreamError rid
              end), if metrics && negb (countable (last_usage reads)) then None else Some c') ∧
    cx_recorded c' = cx_recorded c ++
      [record_row (sv_Config (cx_srv c)) (st_identity st) (st_result st) (st_requested st)
         (last_usage reads) true 200 (Sub done_at (st_started st)) recorded_at] ∧
    cx_srv c' = cx_srv c.
Proof.
  intros HF He Ha reads rid. unfold stream_writer, relaySSE. fold (budget (st_idle st)). subst reads.
  rewrite (relay_loop_accepts _ _ _ _ _ _ _ _ _ e) by done. simpl. unfold record.
  replace (or_usage None (pre ++ [fin])) with (last_usage (pre ++ [fin]))
    by (unfold or_usage; by destruct (last_usage _)).
  eexists. split; [|by split; [apply (record_recorded metrics true)|apply (record_recorded metrics true)]].
  do 3 f_equal. unfold verdict_of. destruct (silent _ _ _); [done|]. by destruct e.
Qed.

(** A client that hangs up ends the relay there. It got the lines before the
    refused one and nothing else, no error event is made up, and what the
    upstream had reported by then is still recorded. *)
Theorem hangup_ends_the_relay {A} metrics (st : stream) accepts now done_at recorded_at n reads
    (c : chatCtx A) :
  Forall delivers (firstn n reads) → (∀ m, (m < n)%nat → accepts m = true) → accepts n = false →
  (∃ rd, reads !! n = Some rd ∧ rd_line rd ≠ "") →
  ∃ c', stream_writer metrics true st accepts now done_at recorded_at reads c =
      Some (rd_line <$> firstn n reads,
            if metrics && negb (countable (last_usage (firstn (S n) reads))) then None else Some c') ∧
    cx_recorded c' = cx_recorded c ++
      [record_row (sv_Config (cx_srv c)) (st_identity st) (st_result st) (st_requested st)
         (last_usage (firstn (S n) reads)) true 200 (Sub done_at (st_started st)) recorded_at].
Proof.
  intros HF Ha Hn Hrd. unfold stream_writer, relaySSE. rewrite (relay_loop_refused _ _ _ _ _ _ n) by done.
  unfold record. replace (or_usage None (firstn (S n) reads)) with (last_usage (firstn (S n) reads))
    by (unfold or_usage; by destruct (last_usage _)).
  eexists. split; [|apply (record_recorded metrics true)]. do 2 f_equal.
  rewrite app_nil_r. clear -HF. induction HF as [|rd l [_ Hl] _ IH]; [done|].
  rewrite lines_cons, bool_decide_eq_false_2, IH by done. done.
Qed.

(** The relay ends with its source: it is still running exactly when no read so
    far has reported an end and the client has taken every line. *)
Theorem relay_ends_with_its_source accepts idle now reads :
  relaySSE accepts idle now reads = None ↔
  Forall (λ rd, rd_err rd = None) reads ∧ ∀ m, (m < length (lines reads))%nat → accepts m = true.
Proof.
  unfold relaySSE. fold (budget idle).
  assert (∀ armed fired n u, relay_loop (budget idle) accepts armed fired n u reads = None ↔
    Forall (λ rd, rd_err rd = None) reads ∧
    ∀ m, (n ≤ m < n + length (lines reads))%nat → accepts m = true) as Hgen.
  { induction reads as [|rd reads IH]; intros armed fired n u; simpl.
    { split; [intros _; split; [done|]; simpl; lia|done]. }
    rewrite lines_cons, Forall_cons. case_bool_decide as El; simpl.
    - destruct (rd_err rd) as [e|]; [split; [done|by intros [[? _] _]]|].
      specialize (IH armed (fired || (armed + budget idle <=? rd_at rd)) n u).
      destruct (relay_loop _ _ _ _ _ _ reads) as [[[[] ?] ?]|]; rewrite <-?IH; naive_solver.
    - destruct (accepts n) eqn:En; simpl; [|split; [done|]; intros [_ Hm]; rewrite Hm in En; [done|lia]].
      destruct (rd_err rd) as [e|]; [split; [done|by intros [[? _] _]]|].
      set (u' := match usageFromEvent _ with Some _ => _ | None => _ end).
      specialize (IH (rd_at rd) (fired || (armed + budget idle <=? rd_at rd)) (S n) u').
      assert ((∀ m, (S n ≤ m < S n + length (lines reads))%nat → accepts m = true) ↔
              ∀ m, (n ≤ m < n + S (length (lines reads)))%nat → accepts m = true) as Hm.
      { split; intros Hm m Hlt; [|apply Hm; lia].
        destruct (decide (m = n)) as [->|]; [done|apply Hm; lia]. }
      rewrite Hm in IH. destruct (relay_loop _ _ _ _ _ _ reads) as [[[[] ?] ?]|]; rewrite <-?IH; naive_solver. }
  rewrite Hgen. simpl. split; intros [? Hm]; (split; [done|]); intros m Hlt; apply Hm; lia.
Qed.
End relay_props.

(** ** Bodies *)

Section bodies.
Context `{JsonCodec}.

(** Of a caller's request only two fields change on the way out: "model" names
    the destination, and the operator's instruction is one more message in front
    of the caller's. Every other field and every message arrives as it was sent. *)
Theorem only_model_and_messages_change body fields msgs text model :
  Unmarshal body = Some (JObj fields) → fields_map fields !! "messages" = Some (JArr msgs) → text ≠ "" →
  ∃ out sent fields', prependSystem body text = Some out ∧ withModel out model = Some (Ok sent) ∧
    Unmarshal sent = Some (JObj fields') ∧
    fields_map fields' = <["model" := JStr model]>
      (<["messages" := JArr (system_message text :: msgs)]> (fields_map fields)).
Proof.
  intros E Em Ht. unfold prependSystem. rewrite bool_decide_eq_false_2, E, Em by done.
  do 3 eexists. split; [done|]. unfold withModel. rewrite Unmarshal_Marshal_map. split; [done|].
  rewrite Unmarshal_Marshal_map. split; [done|]. by rewrite !fields_map_map_fields.
Qed.

(** A request whose "messages" is null is rewritten too: it leaves the gateway
    with the instruction as its only message. *)
Theorem null_messages_are_filled_in body fields text :
  Unmarshal body = Some (JObj fields) → fields_map fields !! "messages" = Some JNull → text ≠ "" →
  ∃ out fields', prependSystem body text = Some out ∧ Unmarshal out = Some (JObj fields') ∧
    fields_map fields' !! "messages" = Some (JArr [system_message text]).
Proof.
  intros E Em Ht. unfold prependSystem. rewrite bool_decide_eq_false_2, E, Em by done.
  do 2 eexists. split; [done|]. rewrite Unmarshal_Marshal_map. split; [done|].
  rewrite fields_map_map_fields. by simplify_map_eq.
Qed.
End bodies.

(** ** The cache

    [keyed] is what its entries say by themselves; [history] ties them to the
    answers that were given. *)

Section cache_props.
Context `{Unicode} `{JsonStream} `{Crypto} `{HttpDates}.

(** Every entry of the cache is filed under the key of its own tenant and model. *)
Definition keyed (cache : option Cache) : Prop :=
  ∀ c k it, cache = Some c → c_items c !! k = Some it →
    str_has zero (it_tenant it) = false ∧
    ∃ payload, CKey (it_tenant it) (ce_ServedBy (it_entry it)) payload = Some k.

Lemma keyed_shrunk before after : shrunk before after → keyed before → keyed after.
Proof. intros Hs Hk c k it -> Hi. destruct (Hs c k it eq_refl Hi) as (c0 & -> & ?). by eapply Hk. Qed.

Lemma keyed_put cache now t k payload b cand ttl :
  str_has zero t = false → CKey t (ServedBy cand) payload = Some k → keyed cache →
  keyed (CPut cache now t k {| ce_Body := b; ce_Provider := cd_Provider cand; ce_Model := cd_Model cand |} ttl).
Proof.
  intros Ht Hkey Hk c k' it Ec Hi.
  destruct (CPut_items _ _ _ _ _ _ _ _ _ Ec Hi) as [(-> & -> & ->)|(c0 & -> & Hi0)]; [|by eapply Hk].
  split; [done|]. by exists payload.
Qed.

(** Equal keys of two tenants whose ids hold no zero byte. *)
Lemma CKey_tenant t sb body t' sb' body' k :
  str_has zero t = false → str_has zero t' = false →
  CKey t sb body = Some k → CKey t' sb' body' = Some k →
  t = t' ∨ ∃ x y, x ≠ y ∧ Sum256 x = Sum256 y.
Proof.
  intros Ht Ht'. unfold CKey.
  destruct (canonicalize body) as [c|]; [|done]. destruct (canonicalize body') as [c'|]; [|done].
  simpl. intros [= E1] [= E2]. rewrite <-E2 in E1. apply hex_encode_inj in E1.
  destruct (decide (key_input t sb c = key_input t' sb' c')) as [E|Hne]; [left|right; eauto].
  by apply cut_inj in E as [-> _].
Qed.

(** *** What the cache holds *)

Section histories.
Context {A : Type}.

(** An answer an upstream gave: for whom, by which model, to what payload. *)
Record given := mkGiven { gv_tenant : string; gv_servedBy : string; gv_payload : string; gv_body : string }.

(** What a completion adds: its answer, unless it is a replay. *)
Definition gave (s : Server A) (r : HttpReq) (body : string) (out : res error chat_body) (c' : chatCtx A) : list given :=
  match out with
  | Ok (CBytes _ b) =>
      if bool_decide (cx_headers c' !! HeaderCache = Some cacheHit) then []
      else [mkGiven (TenantID r) (default "" (cx_headers c' !! HeaderServedBy)) (payload_of s r body) b]
  | _ => []
  end.

(** The answers given since the server started with an empty cache, whatever else
    has happened to it that put nothing in the cache. *)
Inductive history : list given → Server A → Prop :=
  | his_start s : (∀ c, sv_cache s = Some c → c_items c = ∅) → history [] s
  | his_chat log adapters poll_now answers upstream clock metrics telemetry expired r body c0 out c' :
      history log (cx_srv c0) → prepared (cx_srv c0) c0 → str_has zero (TenantID r) = false →
      handleChatCompletions adapters poll_now answers upstream clock metrics telemetry expired r body c0 = (out, c') →
      history (log ++ gave (cx_srv c0) r body out c') (cx_srv c')
  | his_other log s s' : history log s → shrunk (sv_cache s) (sv_cache s') → history log s'.

(** An entry of the cache is one of the answers, under that answer's key. *)
Definition filed_from (log : list given) (k : string) (it : item) : Prop :=
  ∃ g, g ∈ log ∧ str_has zero (gv_tenant g) = false ∧ it_tenant it = gv_tenant g ∧
    ce_ServedBy (it_entry it) = gv_servedBy g ∧ ce_Body (it_entry it) = gv_body g ∧
    CKey (gv_tenant g) (gv_servedBy g) (gv_payload g) = Some k.

Lemma filed_more log more k it : filed_from log k it → filed_from (log ++ more) k it.
Proof. intros (g & Hg & Hr). exists g. split; [apply elem_of_app; by left|done]. Qed.

(** An entry after a completion is an old one, or the answer it gave. *)
Lemma chat_files adapters poll_now answers upstream clock metrics telemetry expired r body (c0 : chatCtx A) out c' c k it :
  prepared (cx_srv c0) c0 → str_has zero (TenantID r) = false →
  handleChatCompletions adapters poll_now answers upstream clock metrics telemetry expired r body c0 = (out, c') →
  sv_cache (cx_srv c') = Some c → c_items c !! k = Some it →
  (∃ c1, sv_cache (cx_srv c0) = Some c1 ∧ c_items c1 !! k = Some it) ∨ filed_from (gave (cx_srv c0) r body out c') k it.
Proof.
  intros Hp0 Ht Hrun Ec Hi.
  destruct (handle_from _ _ _ _ _ _ _ _ _ _ _ _ _ Hp0 Hrun) as [(e & -> & Hp)|(env & c1 & Ed & Hp & _ & Hc)].
  { destruct Hp as (_ & _ & _ & E & _). rewrite E in Ec. eauto. }
  destruct Hp as (_ & _ & _ & P4 & _ & _ & P6). destruct (env_Stream env).
  { apply streamCompletion_spec in Hc as (_ & _ & E & _). rewrite E, P4 in Ec. eauto. }
  apply completion_spec in Hc as [(_ & Hr)|(key & c2 & Hc & _ & _ & Q3 & _ & _ & _ & Q6)].
  { destruct Hr as (cache & it' & k' & sb & _ & R2 & _ & _ & _ & _ & _ & _ & _ & _ & R11). left.
    rewrite <-P4, R2. rewrite R11 in Ec. by apply (CGet_shrunk _ _ _ _ _ _ Ec). }
  assert (shrunk (sv_cache (cx_srv c0)) (sv_cache (cx_srv c2))) as Hsh.
  { rewrite <-P4. destruct key as [[k' sb]|]; [destruct Q6 as (_ & _ & ->); apply CGet_shrunk|rewrite Q6; intros ???; eauto]. }
  destruct out as [[st b|st]|e]; simpl in Hc; [|done|].
  - destruct Hc as (result & -> & -> & _ & _ & C3 & _ & C5 & C6).
    destruct C6 as [E|(k' & -> & E)]; rewrite E in Ec; [left; by eapply Hsh|].
    destruct (CPut_items _ _ _ _ _ _ _ _ _ Ec Hi) as [(-> & E1 & E2)|(c3 & E3 & Hi3)]; [|left; by eapply Hsh].
    right. destruct Q6 as (_ & Q6 & _). simpl. rewrite Q3 in C5. rewrite bool_decide_eq_false_2.
    + eexists. split; [by apply list_elem_of_singleton|]. rewrite C3, E1, E2. simpl. by split_and!.
    + destruct C5 as [->| ->]; [by destruct P6 as [->| ->]|done].
  - destruct Hc as (_ & _ & _ & E). rewrite E in Ec. left. by eapply Hsh.
Qed.

Lemma history_filed log s : history log s → ∀ c k it, sv_cache s = Some c → c_items c !! k = Some it → filed_from log k it.
Proof.
  induction 1 as [s Hs|log ? ? ? ? ? ? ? ? r body c0 out c' Hh IH Hp Ht Hrun|log s s' Hh IH Hsh]; intros c k it Ec Hi.
  - rewrite (Hs c Ec) in Hi. by rewrite lookup_empty in Hi.
  - destruct (chat_files _ _ _ _ _ _ _ _ _ _ _ _ _ _ _ _ Hp Ht Hrun Ec Hi) as [(c1 & E1 & Hi1)|(g & Hg & Hr)].
    + by eapply filed_more, IH.
    + exists g. split; [apply elem_of_app; by right|done].
  - destruct (Hsh c k it Ec Hi) as (c1 & E1 & Hi1). by eapply IH.
Qed.

(** Where a hit comes from: an entry under the key of the caller's tenant, the
    first model its own resolves to, and its payload. *)
Lemma hit_comes_from adapters poll_now answers upstream clock metrics telemetry expired r body (s : Server A) out c' :
  handleChatCompletions adapters poll_now answers upstream clock metrics telemetry expired r body (new_ctx s) = (out, c') →
  cx_headers c' !! HeaderCache = Some cacheHit →
  ∃ env cache it k p rest, decode_env body = Ok env ∧ out = Ok (CBytes 200 (ce_Body (it_entry it))) ∧
    cx_headers c' !! HeaderServedBy = Some (ce_ServedBy (it_entry it)) ∧
    sv_cache s = Some cache ∧ c_items cache !! k = Some it ∧
    (resolve_at adapters poll_now answers 0 (TenantID r) (env_Model env) s).1 = Ok (p :: rest) ∧
    CKey (TenantID r) (ServedBy p) (payload_of s r body) = Some k.
Proof.
  intros Hrun Hhit. apply handle_cases in Hrun as [(e & -> & Hp)|(env & c1 & Ed & Hp & [q Hq] & Hrun)].
  { destruct Hp as (_ & _ & _ & _ & _ & _ & Hh). by destruct Hh as [Hh|Hh]; rewrite Hh in Hhit. }
  destruct Hp as (_ & _ & _ & P4 & _ & _ & P6). destruct (env_Stream env).
  { apply streamCompletion_spec in Hrun as (_ & _ & _ & Hh & _). rewrite Hh in Hhit.
    by destruct P6 as [E|E]; rewrite E in Hhit. }
  apply completion_spec in Hrun as [(_ & Hr)|(key & c2 & Hc & _ & _ & Q3 & _)].
  - destruct Hr as (cache & it & k & sb & -> & R2 & R3 & _ & (R5 & p & rest & Hres & ->) & _ & _ & _ & _ & R10 & _).
    exists env, cache, it, k, p, rest. rewrite P4 in R2. rewrite <-Hres, Hq. split_and!; try done.
    unfold resolve_at. simpl. by destruct (Resolve _ _ _ _ _ _ _ _ _) as [[got snap] cat].
  - exfalso. destruct out as [[st b|st]|e]; simpl in Hc; [|done|].
    + destruct Hc as (result & _ & _ & _ & _ & _ & _ & C5 & _). rewrite Q3, Hhit in C5.
      destruct C5 as [C5|C5]; [by destruct P6 as [E|E]; rewrite E in C5|done].
    + destruct Hc as (_ & _ & C3 & _). rewrite C3, Q3 in Hhit. by destruct P6 as [E|E]; rewrite E in Hhit.
Qed.
End histories.

End cache_props.

(** ** The handler *)

Section handler_props.
Context `{Unicode} `{JsonStream} `{Crypto} `{HttpDates}.
Context {A : Type} (adapters : gmap string A).
Context (poll_now : nat → Z * Z) (answers : nat → nat → A → Credential → res message (list Model)).
Context (upstream : list (call A) → call A → DoResult) (clock : nat → Z).
Context (metrics expired : bool).

Abbreviation serve := (handleChatCompletions adapters poll_now answers upstream clock metrics true expired).
Abbreviation sent s := (d_calls (sv_Dispatcher s)).

(** Where a buffered answer comes from. *)
Lemma buffered_answer r body s status b c' :
  serve r body (new_ctx s) = (Ok (CBytes status b), c') →
  status = 200 ∧ ∃ env, decode_env body = Ok env ∧ env_Stream env = false ∧
  ((∃ result, b = rs_Body (res_Response result) ∧ answered_by adapters upstream (TenantID r) (env_Model env) (payload_of s r body) false s (cx_srv c') result ∧
      cx_recorded c' = served_row true (sv_Config s) r result (env_Model env) ∧
      cx_headers c' !! HeaderServedBy = Some (ServedBy (res_Candidate result)) ∧
      cx_headers c' !! HeaderFallbackDepth = Some (Itoa (res_Depth result)) ∧
      cx_headers c' !! HeaderCache ≠ Some cacheHit) ∨
   (∃ cache k it, sv_cache s = Some cache ∧ c_items cache !! k = Some it ∧
      Before (hr_now r 2) (it_expires it) = true ∧ b = ce_Body (it_entry it) ∧
      sent (cx_srv c') = sent s ∧
      cx_recorded c' = replayed_row true r (it_entry it) (env_Model env) ∧
      cx_headers c' !! HeaderServedBy = Some (ce_ServedBy (it_entry it)) ∧
      cx_headers c' !! HeaderCache = Some cacheHit)).
Proof.
  intros [(e & [=] & _)|(env & c1 & Ed & Hp & _ & Hrun)]%handle_cases.
  destruct Hp as (P1 & P2 & P3 & P4 & P5 & [Ps Pr] & P6). destruct (env_Stream env) eqn:Es.
  { by apply streamCompletion_spec in Hrun as (_ & _ & _ & _ & ?). }
  apply completion_spec in Hrun as [(_ & Hr)|(key & c2 & Hc & Q1 & Q2 & Q3 & Q4 & Q5 & [Qs Qr] & _)].
  - destruct Hr as (cache & it & k & sb & [= -> ->] & R2 & R3 & R4 & _ & R6 & _ & R8 & R9 & R10 & _).
    split; [done|]. exists env. split_and!; [done..|]. right. exists cache, k, it.
    rewrite R6, R8, <-P4, P3, P1. done.
  - destruct Hc as (result & -> & -> & ((pre & c & S1) & S2) & C2 & C3 & C4 & C5 & _).
    split; [done|]. exists env. split_and!; [done..|]. left. exists result.
    rewrite C2, Q1, P1, Q5, P5. split_and!; try done.
    + unfold answered_by, resolved_to. rewrite <-P3, <-Q4, <-Ps, <-Qs, <-Pr, <-Qr. eauto.
    + rewrite Q3 in C5. destruct C5 as [->| ->]; [by destruct P6 as [->| ->]|done].
Qed.

(** C1: The caller gets the answer of a model, and is told of which. A buffered 200
    is either the body of the upstream's last reply, byte for byte, to a call on
    an enabled provider of the caller's own tenant with one of its keys, or a
    stored body replayed. In the first case the candidate named by the headers is
    the one that call was made for (its provider, its model, the caller's payload
    naming that model) and one the requested model resolves to, at the depth the
    header gives; in the second the headers name the model the entry was stored
    under, the answer is marked as a hit and no completion is sent upstream. *)
Theorem caller_gets_the_upstreams_answer r body s status b c' :
  serve r body (new_ctx s) = (Ok (CBytes status b), c') →
  status = 200 ∧ ∃ env, decode_env body = Ok env ∧ env_Stream env = false ∧
  ((∃ result, b = rs_Body (res_Response result) ∧ answered_by adapters upstream (TenantID r) (env_Model env) (payload_of s r body) false s (cx_srv c') result ∧
      cx_recorded c' = served_row true (sv_Config s) r result (env_Model env) ∧
      cx_headers c' !! HeaderServedBy = Some (ServedBy (res_Candidate result)) ∧
      cx_headers c' !! HeaderFallbackDepth = Some (Itoa (res_Depth result)) ∧
      cx_headers c' !! HeaderCache ≠ Some cacheHit) ∨
   (∃ cache k it, sv_cache s = Some cache ∧ c_items cache !! k = Some it ∧
      Before (hr_now r 2) (it_expires it) = true ∧ b = ce_Body (it_entry it) ∧
      sent (cx_srv c') = sent s ∧
      cx_recorded c' = replayed_row true r (it_entry it) (env_Model env) ∧
      cx_headers c' !! HeaderServedBy = Some (ce_ServedBy (it_entry it)) ∧
      cx_headers c' !! HeaderCache = Some cacheHit)).
Proof. apply buffered_answer. Qed.

(** C5: Every answer is metered once and no refusal is. A buffered 200 leaves
    exactly one usage row under the caller's identity; an error leaves none and
    counts no hop; a stream leaves none until its writer returns, and then exactly
    one. *)
Theorem metered_exactly_once r body s out c' :
  serve r body (new_ctx s) = (out, c') →
  let mine row := u_RequestID row = hr_id r ∧ u_TenantID row = TenantID r ∧ u_KeyPrefix row = keyPrefix r ∧
                  u_StatusCode row = 200 in
  match out with
  | Err _ => cx_recorded c' = [] ∧ cx_hops c' = []
  | Ok (CBytes _ _) => ∃ row, cx_recorded c' = [row] ∧ mine row ∧ u_Streamed row = false
  | Ok (CStream st) => cx_recorded c' = [] ∧
      ∀ accepts now done_at recorded_at reads bytes c'',
        stream_writer metrics true st accepts now done_at recorded_at reads c' = Some (bytes, Some c'') →
        ∃ row, cx_recorded c'' = [row] ∧ mine row ∧ u_Streamed row = true
  end.
Proof.
  intros [(e & -> & Hp)|(env & c1 & Ed & Hp & _ & Hrun)]%handle_cases mine.
  { by destruct Hp as (-> & -> & _). }
  destruct Hp as (P1 & P2 & _). destruct (env_Stream env).
  - apply streamCompletion_spec in Hrun as (S1 & S2 & _ & _ & S5). rewrite S1, S2, P1, P2.
    destruct out as [[?|st]|]; [done| |done]. destruct S5 as (_ & Hi & _). split; [done|].
    intros accepts now d1 d2 reads bytes c''. unfold stream_writer.
    destruct (relaySSE _ _ _ _) as [[[[o u] stalled] err]|]; [|done]. unfold record.
    destruct (metrics && _); [done|]. intros [= _ <-]. simpl. rewrite S1, P1. eexists. split; [done|]. subst mine. simpl. by rewrite Hi.
  - apply completion_spec in Hrun as [(_ & Hr)|(key & c2 & Hc & Q1 & Q2 & Q3 & Q4 & Q5 & Qs & _)].
    + destruct Hr as (cache & it & k & sb & -> & _ & _ & _ & _ & _ & _ & R8 & _). rewrite R8, P1.
      by eexists.
    + destruct out as [[st b|st]|e]; simpl in Hc; [|done|].
      * destruct Hc as (result & -> & -> & _ & -> & _). rewrite Q1, P1. by eexists.
      * destruct Hc as (-> & -> & _). by rewrite Q1, Q2.
Qed.

(** C8: A replayed answer is the caller's own. After any history of completions and
    of other changes that put nothing in the cache, an answer marked as a hit is
    byte for byte one an upstream gave earlier to a request of the same tenant,
    and names the model that gave it; where neither that model's name nor the
    name this request resolves to first holds a NUL byte, they are the same and
    the two requests have the same canonical body. The one exception is a
    collision of SHA-256. *)
Theorem replay_is_the_callers_own log r body s out c' :
  history log s → serve r body (new_ctx s) = (out, c') → str_has zero (TenantID r) = false →
  cx_headers c' !! HeaderCache = Some cacheHit →
  ∃ g env p rest, g ∈ log ∧ out = Ok (CBytes 200 (gv_body g)) ∧
    cx_headers c' !! HeaderServedBy = Some (gv_servedBy g) ∧ decode_env body = Ok env ∧
    (resolve_at adapters poll_now answers 0 (TenantID r) (env_Model env) s).1 = Ok (p :: rest) ∧
    (gv_tenant g = TenantID r ∨ ∃ x y, x ≠ y ∧ Sum256 x = Sum256 y) ∧
    (str_has zero (ServedBy p) = false → str_has zero (gv_servedBy g) = false →
     (gv_servedBy g = ServedBy p ∧ canonicalize (gv_payload g) = canonicalize (payload_of s r body)) ∨
     ∃ x y, x ≠ y ∧ Sum256 x = Sum256 y).
Proof.
  intros Hh Hrun Ht Hhit.
  destruct (hit_comes_from _ _ _ _ _ _ _ _ _ _ _ _ _ Hrun Hhit)
    as (env & cache & it & k & p & rest & Ed & -> & Hs & Hc & Hi & Hres & HK).
  destruct (history_filed _ _ Hh cache k it Hc Hi) as (g & Hg & Hz & E1 & E2 & E3 & HK').
  exists g, env, p, rest. rewrite Hs, E2, E3. split_and!; try done.
  - destruct (CKey_tenant _ _ _ _ _ _ _ Hz Ht HK' HK); auto.
  - intros Hs1 Hs2.
    destruct (CacheFacts.keys_never_cross_tenants _ _ _ _ _ _ _ Ht Hz Hs1 Hs2 HK HK') as [(_ & ? & ?)|?]; auto.
Qed.

(** Caching is opt in. The response cache is read or written only for a request
    that asks for it or whose tenant opted in, that did not ask to bypass it, on
    a deployment that enables it, and only when the answer is buffered and the
    request as written asks for no randomness. *)
Theorem caching_is_opt_in r body s out c' :
  serve r body (new_ctx s) = (out, c') →
  sv_cache (cx_srv c') ≠ sv_cache s ∨ cx_headers c' !! HeaderCache = Some cacheHit →
  let asked := ToLower (TrimSpace (hr_header r HeaderCache)) in
  ∃ env, decode_env body = Ok env ∧ cc_Enabled (cf_Cache (sv_Config s)) = true ∧ asked ≠ "bypass" ∧
    (asked = "prefer" ∨ ∃ t, hr_tenant r = Some t ∧ tc_Enabled (t_Cache t) = true) ∧
    env_Stream env = false ∧ deterministic env = true.
Proof.
  intros Hrun Huse asked.
  apply handle_cases in Hrun as [(e & -> & Hp)|(env & c1 & Ed & Hp & [q Hq] & Hrun)].
  { destruct Hp as (_ & _ & _ & E & _ & _ & Hh). destruct Huse as [?|Hx]; [done|].
    by destruct Hh as [Hh|Hh]; rewrite Hh in Hx. }
  destruct Hp as (P1 & P2 & P3 & P4 & P5 & Ps & P6). destruct (env_Stream env) eqn:Es.
  { apply streamCompletion_spec in Hrun as (_ & _ & E & Hh & _). rewrite E, P4, Hh in Huse.
    destruct Huse as [?|Hx]; [done|]. by destruct P6 as [E6|E6]; rewrite E6 in Hx. }
  assert (pl_lookup (planCache s r env) = true) as Hl.
  { apply completion_spec in Hrun as [(? & _)|(key & c2 & Hc & Q1 & Q2 & Q3 & Q4 & Q5 & Qs & Q6)]; [done|].
    destruct key as [[k sb]|]; [by destruct Q6 as (? & _)|]. exfalso.
    assert (sv_cache (cx_srv c') = sv_cache s ∧ cx_headers c' !! HeaderCache ≠ Some cacheHit) as [? ?];
      [|by destruct Huse].
    destruct out as [[st b|st]|e]; simpl in Hc; [|done|].
    - destruct Hc as (result & -> & -> & _ & _ & _ & _ & C5 & C6).
      destruct C6 as [->|(k & ? & _)]; [|done]. rewrite Q6, P4, <-Q3 in *. split; [done|].
      destruct C5 as [->| ->]; [by destruct P6 as [->| ->]|done].
    - destruct Hc as (_ & _ & -> & ->). rewrite Q6, P4, Q3. split; [done|]. by destruct P6 as [->| ->]. }
  exists env. split; [done|]. revert Hl. unfold planCache. fold asked. rewrite Es.
  destruct (cc_Enabled _); [|done]. destruct (is_None_b _); [done|]. simpl.
  case_bool_decide; [done|]. destruct (deterministic env); [|by destruct (_ && _)].
  case_bool_decide; simpl; [auto 10|].
  destruct (hr_tenant r) as [t|]; [|done]. destruct (tc_Enabled (t_Cache t)) eqn:Et; [|done].
  intros _. split_and!; eauto.
Qed.

(** No body makes a completion panic. Once a body has passed the checks it is a JSON
    object, and stays one when the instruction is put in front, so substituting
    the model never meets the nil map that decoding [null] leaves; and resolution
    never yields the empty list the cache key would index. *)
Theorem no_body_makes_a_completion_panic r body (s : Server A) env :
  decode_env body = Ok env → env_Model env ≠ "" →
  (∀ i t m streaming s0,
     (dispatch_at adapters poll_now answers upstream clock i t m (payload_of s r body) streaming s0).1 ≠ None) ∧
  (∀ plan t m s0, (cacheKeyFor adapters poll_now answers plan t m (payload_of s r body) s0).1 ≠ None).
Proof.
  intros Hd Hm.
  assert (∃ fields, Unmarshal body = Some (JObj fields)) as [fields Hb].
  { unfold decode_env in Hd. destruct (Unmarshal body) as [[]|]; try done; [by injection Hd as <-|eauto]. }
  assert (∃ fields', Unmarshal (payload_of s r body) = Some (JObj fields')) as [fields' Hp].
  { unfold payload_of, prependSystem. case_bool_decide; simpl; [eauto|]. rewrite Hb.
    destruct (fields_map fields !! "messages") as [[]|]; simpl; eauto; rewrite Unmarshal_Marshal_map; eauto. }
  split.
  - intros i t m st s0. unfold dispatch_at. destruct (Resolve _ _ _ _ _ _ _ _ _) as [[got snap] cat].
    destruct (Dispatch _ _ _ _ _ _ _ _ _) as [o d] eqn:Ed. simpl. intros ->.
    unfold Dispatch in Ed. simpl in Ed. destruct got as [cands|e]; [|done].
    apply cascade_spec in Ed as (cs & _ & _ & _ & He). simpl in He. congruence.
  - intros plan t m s0. unfold cacheKeyFor. destruct (pl_lookup plan); simpl; [|done].
    unfold resolve_at, Resolve. destruct (Get _ _ _ _ _ _ _) as [[snap|e] cat]; simpl; [|done].
    unfold resolve_in. destruct (rst_ListAliases _ _); [|done]. destruct (chainFor _ _); [|done].
    destruct (walk _ _ _ _ _ _ _) as [|c l]; simpl; [by destruct (is_None_b _)|done].
Qed.

(** C13: A caller over its cap reaches no provider. Where enforcement is on, a cap of
    the tenant or of the key is used up in the store and no position of the
    caller is cached that is still good, a well-formed completion is refused with
    429, told its quota state, no completion is sent upstream, no provider is
    asked for its models and no usage row is recorded. The response carries a
    Retry-After of at least a second, unless the request brought a Retry-After
    header of its own. *)
Theorem over_cap_sends_nothing r body s env out c' :
  let scope := requestScope (TenantID r) (hr_key r) in
  serve r body (new_ctx s) = (out, c') → decode_env body = Ok env → env_Model env ≠ "" → body ≠ "" →
  qc_Enforcement (cf_Quotas (sv_Config s)) = "on" → sc_tenantID scope ≠ "" →
  QuotaFacts.not_cached (hr_now r 0) scope (sv_quotas s) →
  QuotaFacts.cap_reached (sv_Store s) (hr_now r 0) scope →
  ∃ e, out = Err (ErrApi e) ∧ sent (cx_srv c') = sent s ∧ sv_Catalog (cx_srv c') = sv_Catalog s ∧
    cx_recorded c' = [] ∧ cx_headers c' !! HeaderQuotaState = Some QuotaHardExceeded ∧
    let resp := Fail (hr_id r) (hr_header r "Retry-After") (ErrApi e) in
    rs_Status resp = 429 ∧
    (hr_header r "Retry-After" = "" → rs_RetryAfter resp = Some (err_RetryAfterSeconds e) ∧ 1 ≤ err_RetryAfterSeconds e).
Proof.
  intros scope Hrun Hd Hm Hb Hon Ht Hcold Hcap. revert Hrun. unfold handleChatCompletions.
  rewrite bool_decide_eq_false_2, Hd, bool_decide_eq_false_2 by done. simpl. fold scope.
  destruct (QuotaFacts.quotaSlots_memory (sv_Config s) (sv_Store s) (hr_now r 0) scope) as (slots & Hs & Hc).
  pose proof (QuotaFacts.evaluate_uncached (sv_Config s) (sv_Store s) (hr_now r 0) scope (sv_quotas s) slots Ht Hcold Hs) as Ev.
  destruct (evaluateQuota _ _ _ _ _) as [quota q]. simpl in Ev. subst quota. simpl.
  rewrite (proj2 (QuotaFacts.hard_iff slots) (proj2 Hc Hcap)), Hon. cbn [andb bool_decide].
  match goal with |- context [WithRetryAfter ?e ?d] => set (ee := WithRetryAfter e d) end.
  assert (err_Status ee = 429 ∧ 1 ≤ err_RetryAfterSeconds ee) as [Hst Hpos]
    by (split; [subst ee; by case_bool_decide|apply WithRetryAfter_pos]). clearbody ee. simpl.
  intros [= <- <-]. exists ee. split; [done|]. simpl. simplify_map_eq. do 4 (split; [done|]).
  unfold Fail. cbn [rs_Status rs_RetryAfter]. change (From (ErrApi ee)) with ee. rewrite Hst. split; [done|].
  intros ->. rewrite bool_decide_eq_true_2 by done. cbn [Z.eqb andb].
  destruct (Z.ltb_spec (err_RetryAfterSeconds ee) 1); [lia|done].
Qed.

(** A provider that reports a negative count of tokens makes its answers
    worthless. With metrics on, a buffered answer it gave is thrown away for a
    500 and never metered, though it was paid for; and a stream, once relayed,
    ends in a panic nobody recovers from. *)
Theorem negative_usage_panics r t m body plan key started c result s :
  dispatch_at adapters poll_now answers upstream clock 1 t m body false (cx_srv c) = (Some (Ok result), s) →
  countable (rs_Usage (res_Response result)) = false →
  (∃ c', complete adapters poll_now answers upstream clock true true expired r t m body plan key started c
           = (Err (recovered counter_decreased), c') ∧
     err_Status (From (recovered counter_decreased)) = 500 ∧ cx_recorded c' = cx_recorded c ∧
     sv_Dispatcher (cx_srv c') = sv_Dispatcher s) ∧
  ∀ st accepts now done_at recorded_at reads out u stalled err (c' : chatCtx A),
    relaySSE accepts (st_idle st) now reads = Some (out, u, stalled, err) → countable u = false →
    ∃ bytes, stream_writer true true st accepts now done_at recorded_at reads c' = Some (out ++ bytes, None).
Proof.
  intros Hd Hc. split.
  - unfold complete. rewrite Hd. unfold meter, record. rewrite Hc. cbn [negb andb]. eexists. split; [done|].
    split; [done|]. unfold applyRoutingHeaders. by destruct (m_Deprecated _).
  - intros st accepts now d1 d2 reads out u stalled err c' Hr Hu. unfold stream_writer, record. rewrite Hr, Hu. by eexists.
Qed.
End handler_props.

(** ** Worked examples

    One tenant, opted in to the cache, and one provider that answers. *)

#[local] Existing Instance ascii_only.
#[local] Existing Instance binary_codec.
#[local] Existing Instance DispatchProps.no_dates.
#[local] Existing Instance CacheFacts.one_document.
#[local] Existing Instance CacheFacts.identity_hash.

Definition cached_config : Config :=
  {| cf_Gateway := cf_Gateway Default; cf_BootstrapKey := ""; cf_Analytics := cf_Analytics Default;
     cf_Catalog := cf_Catalog Default; cf_Billing := cf_Billing Default; cf_SystemInstruction := "Be brief.";
     cf_Routing := cf_Routing Default; cf_Quotas := cf_Quotas Default; cf_Limits := cf_Limits Default;
     cf_RateLimit := cf_RateLimit Default;
     cf_Cache := {| cc_Enabled := true; cc_DefaultTTL := Minute; cc_MaxTTL := Hour;
                    cc_MaxEntryBytes := 1048576; cc_MaxBytes := 1048576 |};
     cf_Webhooks := cf_Webhooks Default; cf_TelemetryBuffer := 1000; cf_HealthCacheTTL := Second;
     cf_Metrics := cf_Metrics Default; cf_DrainTimeout := Second; cf_LogLevel := "info";
     cf_Debug := cf_Debug Default |}.

Definition chat_tenant : Tenant :=
  {| t_ID := "t"; t_Name := "acme"; t_Status := "active"; t_CreatedAt := 0; t_Limits := no_limits;
     t_Cache := {| tc_Enabled := true; tc_TTLSeconds := 0 |}; t_DebugCapture := no_capture;
     t_SystemInstruction := "" |}.

Definition one_model (_ _ : nat) (_ : ()) (_ : Credential) : res message (list Model) :=
  Ok [CatalogFacts.demo_model "m" 1].
Definition chat_upstream (_ : list (call ())) (_ : call ()) : DoResult :=
  (Some {| rs_StatusCode := 200; rs_Header := None; rs_Body := "answer";
           rs_Usage := Some {| us_PromptTokens := 10; us_CompletionTokens := 20; us_TotalTokens := 30 |};
           rs_Failure := FailNone; rs_Latency := 7 * Millisecond |}, None).

Definition chat_server (m : Memory) : Server () :=
  NewServer cached_config "" false (set_providers m {["t" := [DispatchProps.demo_pool "p1" "one" ["k"] ""]]})
    (New {| op_TTL := Hour; op_StaleWarnAfter := Hour; op_ProviderTimeout := Second;
            op_Prices := ∅; op_OnChange := false |})
    (NewResolver 5) (NewDispatcher (NewBreaker 5 Minute Minute)) None 0.

Definition chat_req : HttpReq :=
  {| hr_key := Some (LimitsFacts.narrow_key); hr_tenant := Some chat_tenant; hr_id := "req_1"; hr_clientID := "";
     hr_method := "POST"; hr_path := "/v1/chat/completions"; hr_param _ := ""; hr_query _ := "";
     hr_header _ := ""; hr_now n := QuotaFacts.today + Z.of_nat n; hr_rnd _ := "" |}.

Definition chat_fields (stream : bool) : list (string * json) :=
  [("messages", JArr [JStr "hi"]); ("model", JStr "m"); ("stream", JBool stream)].
Definition chat_text (stream : bool) : string := Marshal (JObj (chat_fields stream)).

Abbreviation chat_run := (handleChatCompletions {["openai" := ()]} (λ _, (0, 0)) one_model chat_upstream
  DispatchProps.demo_clock true true false).
Definition first_run := chat_run chat_req (chat_text false) (new_ctx (chat_server (NewMemory false))).
Definition second_run := chat_run chat_req (chat_text false) (new_ctx (cx_srv first_run.2)).

Lemma first_answer : first_run.1 = Ok (CBytes 200 "answer").
Proof. vm_compute. reflexivity. Qed.
Lemma second_answer : second_run.1 = Ok (CBytes 200 "answer").
Proof. vm_compute. reflexivity. Qed.
Lemma second_header : cx_headers second_run.2 !! HeaderCache = Some cacheHit.
Proof. vm_compute. reflexivity. Qed.

Lemma caller_gets_the_upstreams_answer_witness :
  ∃ env, decode_env (chat_text false) = Ok env ∧ env_Stream env = false.
Proof.
  destruct (caller_gets_the_upstreams_answer {["openai" := ()]} (λ _, (0, 0)) one_model chat_upstream
    DispatchProps.demo_clock true false chat_req (chat_text false) (chat_server (NewMemory false)) 200 "answer"
    first_run.2) as (_ & env & ? & ? & _); [|by exists env].
  rewrite <-first_answer. exact (surjective_pairing first_run).
Defined.

Lemma metered_exactly_once_witness : length (cx_recorded second_run.2) = 1%nat.
Proof.
  pose proof (metered_exactly_once {["openai" := ()]} (λ _, (0, 0)) one_model chat_upstream
    DispatchProps.demo_clock true false chat_req (chat_text false) (cx_srv first_run.2) _ _
    (surjective_pairing second_run)) as Hm.
  cbv zeta in Hm. rewrite second_answer in Hm. destruct Hm as (row & -> & _). reflexivity.
Defined.

Lemma chat_server_starts : history [] (chat_server (NewMemory false)).
Proof. apply his_start. intros c [= <-]. reflexivity. Qed.

Definition first_given : list given := gave (chat_server (NewMemory false)) chat_req (chat_text false) first_run.1 first_run.2.

Lemma after_first : history first_given (cx_srv first_run.2).
Proof.
  apply (his_chat [] {["openai" := ()]} (λ _, (0, 0)) one_model chat_upstream DispatchProps.demo_clock true true false
    chat_req (chat_text false) (new_ctx (chat_server (NewMemory false))) first_run.1 first_run.2 chat_server_starts);
    [|reflexivity|exact (surjective_pairing first_run)].
  unfold prepared. auto 10.
Qed.

Lemma replay_is_the_callers_own_witness :
  ∃ g, g ∈ first_given ∧ second_run.1 = Ok (CBytes 200 (gv_body g)) ∧ gv_body g = "answer".
Proof.
  pose proof (surjective_pairing second_run) as E. unfold second_run in E at 1.
  destruct (replay_is_the_callers_own {["openai" := ()]} (λ _, (0, 0)) one_model chat_upstream
      DispatchProps.demo_clock true false first_given chat_req (chat_text false) (cx_srv first_run.2)
      second_run.1 second_run.2 after_first E) as (g & env & p & rest & Hg & Hout & _);
    [reflexivity|exact second_header|].
  exists g. split; [exact Hg|]. split; [exact Hout|]. rewrite second_answer in Hout. by injection Hout.
Defined.

Lemma caching_is_opt_in_witness : tc_Enabled (t_Cache chat_tenant) = true.
Proof.
  destruct (caching_is_opt_in {["openai" := ()]} (λ _, (0, 0)) one_model chat_upstream
    DispatchProps.demo_clock true false chat_req (chat_text false) (cx_srv first_run.2) _ _
    (surjective_pairing second_run)) as (env & _ & _ & _ & Hor & _); [right; exact second_header|].
  destruct Hor as [Ha|(t & [= <-] & Ht)]; [discriminate Ha|exact Ht].
Defined.

Definition capped_server : Server () := chat_server (QuotaFacts.spent 50).
Definition capped_run := chat_run chat_req (chat_text false) (new_ctx capped_server).

Lemma no_body_makes_a_completion_panic_witness :
  (dispatch_at {["openai" := ()]} (λ _, (0, 0)) one_model chat_upstream DispatchProps.demo_clock 0 "t" "m"
     (payload_of (chat_server (NewMemory false)) chat_req (chat_text false)) false (chat_server (NewMemory false))).1
  ≠ None.
Proof.
  apply (no_body_makes_a_completion_panic {["openai" := ()]} (λ _, (0, 0)) one_model chat_upstream
    DispatchProps.demo_clock chat_req (chat_text false) (chat_server (NewMemory false))
    (mkEnv "m" false None None None)); [vm_compute; reflexivity|discriminate].
Defined.

Lemma over_cap_sends_nothing_witness :
  QuotaFacts.cap_reached (sv_Store capped_server) (hr_now chat_req 0) (requestScope "t" (hr_key chat_req)) ∧
  d_calls (sv_Dispatcher (cx_srv capped_run.2)) = [] ∧ cx_recorded capped_run.2 = [].
Proof.
  assert (QuotaFacts.cap_reached (sv_Store capped_server) (hr_now chat_req 0)
            (requestScope "t" (hr_key chat_req))) as Hc.
  { left. exists (QuotaFacts.caps "" 50), windowMonth, unitTokens, {| ql_Cap := f_of_Z 50; ql_SoftThresholdPct := 50 |}.
    by vm_compute. }
  split; [done|].
  destruct (over_cap_sends_nothing {["openai" := ()]} (λ _, (0, 0)) one_model chat_upstream
    DispatchProps.demo_clock true false chat_req (chat_text false) capped_server
    (mkEnv "m" false None None None) _ _ (surjective_pairing capped_run)) as (e & _ & -> & _ & -> & _);
    [vm_compute; reflexivity|discriminate|discriminate|reflexivity|discriminate|exact I|exact Hc|by split].
Defined.

Definition event (at_ : Z) (line : string) (e : option read_end) : read :=
  {| rd_at := at_; rd_line := line; rd_err := e |}.
Definition usage_line : string :=
  "data: " +:+ Marshal (JObj [("usage", JObj [("prompt_tokens", JNum "3"); ("completion_tokens", JNum "4");
                                               ("total_tokens", JNum "7")])]) +:+ newline.
Definition a_stream : stream :=
  {| st_identity := identity_of chat_req;
     st_result := {| res_Response := {| rs_StatusCode := 200; rs_Header := None; rs_Body := ""; rs_Usage := None;
                                        rs_Failure := FailNone; rs_Latency := 0 |};
                     res_Candidate := DispatchProps.demo_cand "p1" "one"; res_Depth := 0; res_Attempts := [];
                     res_Snapshot := None |};
     st_requested := "m"; st_idle := 10; st_started := 0 |}.
Definition idle_ctx : chatCtx () := new_ctx (chat_server (NewMemory false)).

(** A line, the usage, and the end: on time, and with the end overdue. *)
Lemma stream_is_relayed_witness :
  last_usage [event 1 ("data: x" +:+ newline) None; event 5 usage_line None] =
    Some {| us_PromptTokens := 3; us_CompletionTokens := 4; us_TotalTokens := 7 |} ∧
  (∃ c', stream_writer true true a_stream (λ _, true) 0 6 6
     [event 1 ("data: x" +:+ newline) None; event 5 usage_line None; event 6 "" (Some REOF)] idle_ctx =
     Some (["data: x" +:+ newline; usage_line], Some c')) ∧
  ∃ bytes c', stream_writer true true a_stream (λ _, true) 0 6 6
     [event 1 ("data: x" +:+ newline) None; event 11 "" (Some REOF)] idle_ctx = Some (bytes, Some c') ∧
     length bytes = 3%nat.
Proof.
  split; [by vm_compute|]. split.
  - destruct (stream_is_relayed true a_stream (λ _, true) 0 6 6
      [event 1 ("data: x" +:+ newline) None; event 5 usage_line None] (event 6 "" (Some REOF)) [] REOF idle_ctx)
      as (c' & E & _); [by repeat constructor|done|done|].
    exists c'. rewrite app_nil_r in E. refine (eq_trans E _). by vm_compute.
  - destruct (stream_is_relayed true a_stream (λ _, true) 0 6 6
      [event 1 ("data: x" +:+ newline) None] (event 11 "" (Some REOF)) [] REOF idle_ctx)
      as (c' & E & _); [by repeat constructor|done|done|].
    eexists _, c'. rewrite app_nil_r in E. split; [exact E|by vm_compute].
Defined.

Definition negative_line : string :=
  "data: " +:+ Marshal (JObj [("usage", JObj [("prompt_tokens", JNum "-1"); ("total_tokens", JNum "1")])]) +:+ newline.
Definition minus_one : Usage := {| us_PromptTokens := -1; us_CompletionTokens := 0; us_TotalTokens := 0 |}.
Definition owing (calls : list (call ())) (c : call ()) : DoResult :=
  (Some {| rs_StatusCode := 200; rs_Header := None; rs_Body := "{}"; rs_Usage := Some minus_one; rs_Failure := FailNone;
           rs_Latency := 0 |}, None).
Definition owed : option (res error Result) * Server () :=
  dispatch_at {["openai" := ()]} (λ _, (0, 0)) one_model owing DispatchProps.demo_clock 1 "t" "m"
    (chat_text false) false (chat_server (NewMemory false)).

Lemma negative_usage_panics_witness :
  ∃ bytes, stream_writer true true a_stream (λ _, true) 0 6 6
    [event 1 negative_line None; event 6 "" (Some REOF)] idle_ctx = Some ([negative_line] ++ bytes, None).
Proof.
  destruct owed as [[[result|e]|] s] eqn:E; [|by vm_compute in E..].
  assert (countable (rs_Usage (res_Response result)) = false) as Hc.
  { assert (match owed.1 with Some (Ok r) => countable (rs_Usage (res_Response r)) | _ => true end = false) as Ho
      by (vm_compute; reflexivity). by rewrite E in Ho. }
  destruct (negative_usage_panics {["openai" := ()]} (λ _, (0, 0)) one_model owing DispatchProps.demo_clock false chat_req
    "t" "m" (chat_text false) (planCache (chat_server (NewMemory false)) chat_req (mkEnv "m" false None None None)) None 0
    idle_ctx result s E Hc) as [_ Hs].
  destruct (relaySSE (λ _, true) 10 0 [event 1 negative_line None; event 6 "" (Some REOF)]) as [[[[out u] st] err]|] eqn:Er;
    [|by vm_compute in Er].
  assert (out = [negative_line] ∧ countable u = false) as [-> Hu] by
    (vm_compute in Er; injection Er as <- <- _ _; split; vm_compute; reflexivity).
  by apply (Hs a_stream (λ _, true) 0 6 6 _ _ u st err idle_ctx Er).
Defined.

Lemma hangup_ends_the_relay_witness :
  ∃ c', stream_writer true true a_stream (λ n, (n =? 0)%nat) 0 6 6
     [event 1 ("data: x" +:+ newline) None; event 5 usage_line None] idle_ctx = Some (["data: x" +:+ newline], Some c').
Proof.
  destruct (hangup_ends_the_relay true a_stream (λ n, (n =? 0)%nat) 0 6 6 1
    [event 1 ("data: x" +:+ newline) None; event 5 usage_line None] idle_ctx) as (c' & E & _).
  - by repeat constructor.
  - intros m Hm. by destruct m; [|lia].
  - done.
  - by eexists.
  - by exists c'.
Defined.

Lemma only_model_and_messages_change_witness :
  ∃ out sent, prependSystem (chat_text false) "Be brief." = Some out ∧ withModel out "m2" = Some (Ok sent).
Proof.
  destruct (only_model_and_messages_change (chat_text false) (chat_fields false) [JStr "hi"] "Be brief." "m2")
    as (out & sent & fs & ? & ? & _); [by vm_compute|by vm_compute|done|]. exists out, sent. split; assumption.
Defined.

Lemma null_messages_are_filled_in_witness :
  ∃ out, prependSystem (Marshal (JObj [("messages", JNull)])) "Be brief." = Some out.
Proof.
  destruct (null_messages_are_filled_in (Marshal (JObj [("messages", JNull)])) [("messages", JNull)] "Be brief.")
    as (out & fs & ? & _); [by vm_compute|by vm_compute|done|]. exists out. assumption.
Defined.
End ChatFacts.
