(* ===== verification/DataProps.v ===== *)
(** * Theorems about the data plane's reads (internal/server/data.go)

    What the health endpoint's verdict means for a request, that its breaker rows
    are the caller's own and do not depend on the order a Go map is walked in,
    and that the usage endpoint reports the state the quota enforces. *)

From S2P Require Import Prelude GoStrings GoTime GoFloat GoFormat ApiErr StoreTypes Keys Json Memory Provider Breaker Catalog Resolve Dispatch DispatchFacts Diagnose Cache Config Limits Quota Capture Events Server Data.
From Stdlib Require Import Ascii.

#[local] Open Scope Z_scope.
#[local] Open Scope stdpp_scope.

(** ** Breaker keys *)

Lemma SplitKey_inv key t p m : t ≠ "" → SplitKey key = (t, p, m) →
  key = Key t p m ∧ str_has slash t = false ∧ str_has slash p = false.
Proof.
  intros Ht. unfold SplitKey. cbn [SplitN].
  destruct (Cut key slash) as [[a rest]|] eqn:E1; [|by intros [= <- <- <-]].
  destruct (Cut rest slash) as [[b c]|] eqn:E2; [|by intros [= <- <- <-]].
  intros [= <- <- <-]. apply Cut_Some in E1 as [-> Ha], E2 as [-> Hb]. split; [|done].
  by rewrite Key_cons.
Qed.

(** ** The walk over the breaker's snapshot *)

Definition no_view : breakerView := {| bw_blocked := ∅; bw_byProvider := ∅; bw_worst := ∅ |}.

(** The rows of tenant [t] among [l], as triples. *)
Definition mine (t : string) (l : list (string * Status)) : list (string * string * Status) :=
  omap (λ ks, let '(o, p, m) := SplitKey ks.1 in if bool_decide (o = t) then Some (p, m, ks.2) else None) l.

(** [note_breaker] on a row of the tenant. *)
Definition note_row (v : breakerView) (row : string * string * Status) : breakerView :=
  let '(p, m, st) := row in
  {| bw_blocked := if bool_decide (st_State st = StateOpen)
                   then <[p := {[m]} ∪ default ∅ (bw_blocked v !! p)]> (bw_blocked v) else bw_blocked v;
     bw_byProvider := <[p := default [] (bw_byProvider v !! p) ++
             [{| mb_Model := m; mb_Breaker := Health (st_State st);
                 mb_BreakerUntil := timestamp (st_Until st) |}]]> (bw_byProvider v);
     bw_worst :=
         let replace := match bw_worst v !! p with
                        | None => true
                        | Some prev =>
                            (BlockRank (st_State prev) <? BlockRank (st_State st))
                            || (bool_decide (st_State st = st_State prev) && After (st_Until st) (st_Until prev))
                        end in
         if replace then <[p := st]> (bw_worst v) else bw_worst v |}.

Lemma note_mine t l v : foldl (note_breaker t) v l = foldl note_row v (mine t l).
Proof.
  revert v; induction l as [|[k st] l IH]; intros v; [done|]. simpl.
  destruct (SplitKey k) as [[o p] m] eqn:Es. case_bool_decide; simpl; apply IH.
Qed.

(** The model ids of [p] among the rows, open ones first of all. *)
Lemma blocked_rows rows v p m :
  m ∈ default ∅ (bw_blocked (foldl note_row v rows) !! p) ↔
  m ∈ default ∅ (bw_blocked v !! p) ∨ ∃ st, (p, m, st) ∈ rows ∧ st_State st = StateOpen.
Proof.
  revert v; induction rows as [|[[p' m'] st] rows IH]; intros v; simpl.
  { split; [auto|]. intros [?|(st & ?%not_elem_of_nil & _)]; done. }
  rewrite IH. simpl. setoid_rewrite elem_of_cons. case_bool_decide as Eo.
  - destruct (decide (p' = p)) as [->|Hp].
    + rewrite lookup_insert_eq. simpl. rewrite elem_of_union, elem_of_singleton. split.
      * intros [[->|?]|(x & ? & ?)]; [right; exists st|by left|right; exists x]; auto.
      * intros [?|(x & [[= <- <-]|?] & ?)]; [auto|auto|right; exists x; auto].
    + rewrite lookup_insert_ne by done. split; [naive_solver|].
      intros [?|(x & [[= <- <- <-]|?] & ?)]; [auto|done|right; exists x; auto].
  - split; [naive_solver|]. intros [?|(x & [[= <- <- <-]|?] & ?)]; [auto|done|right; exists x; auto].
Qed.

Lemma elem_of_mine t l p m st :
  (p, m, st) ∈ mine t l ↔ ∃ k, (k, st) ∈ l ∧ SplitKey k = (t, p, m).
Proof.
  unfold mine. rewrite list_elem_of_omap. split.
  - intros ([k st'] & Hin & E). simpl in E. destruct (SplitKey k) as [[o p'] m'] eqn:Es.
    case_bool_decide; [|done]. injection E as <- <- <-. subst o. by exists k.
  - intros (k & Hin & E). exists (k, st). split; [done|]. simpl. rewrite E.
    by rewrite bool_decide_eq_true_2.
Qed.

(** A model is blocked exactly when the dispatcher would refuse it. *)
Lemma blocked_is_open b now t p m : t ≠ "" → str_has slash t = false → str_has slash p = false →
  m ∈ blocked_models (view_breakers t (Breaker.Snapshot b now)) p ↔ StateOf b now (Key t p m) = StateOpen.
Proof.
  intros Ht Hst Hsp. unfold blocked_models, view_breakers. simpl. rewrite note_mine, blocked_rows.
  simpl. rewrite lookup_empty. simpl. setoid_rewrite elem_of_mine. setoid_rewrite elem_of_map_to_list.
  split.
  - intros [?%not_elem_of_empty|(st & (k & Hk & Es) & Ho)]; [done|].
    apply SplitKey_inv in Es as (-> & _); [|done].
    rewrite BreakerFacts.snapshot_agrees_with_state in Hk.
    destruct (StateOf b now (Key t p m)); [done|done|]. by injection Hk as <-.
  - intros Ho. right. eexists. split; [exists (Key t p m); split; [|by apply SplitKey_Key]|].
    + rewrite BreakerFacts.snapshot_agrees_with_state, Ho. done.
    + done.
Qed.

(** ** The walk does not depend on its order

    Two views are the same when they hold the same breakers, whatever the order
    each provider's rows were met in. *)

Definition same_rows (a b : breakerView) : Prop :=
  bw_blocked a = bw_blocked b ∧ bw_worst a = bw_worst b ∧
  ∀ p, default [] (bw_byProvider a !! p) ≡ₚ default [] (bw_byProvider b !! p) ∧
       (is_Some (bw_byProvider a !! p) ↔ is_Some (bw_byProvider b !! p)).

#[export] Instance same_rows_equiv : Equivalence same_rows.
Proof.
  unfold same_rows. split.
  - intros v. done.
  - intros a b (-> & -> & Hp). split_and!; [done..|]. intros p. destruct (Hp p) as [-> ->]. done.
  - intros a b c (-> & -> & Hp) (-> & -> & Hq). split_and!; [done..|]. intros p.
    destruct (Hp p) as [-> ->]. apply Hq.
Qed.

#[export] Instance note_row_proper : Proper (same_rows ==> eq ==> same_rows) note_row.
Proof.
  intros a b (Hb & Hw & Hr) ? [[p m] st] ->. unfold same_rows. simpl. rewrite Hb, Hw. split_and!; [done..|].
  intros q. destruct (decide (q = p)) as [->|Hq].
  - rewrite !lookup_insert_eq. simpl. split; [apply Permutation_app_tail, Hr|by split].
  - rewrite !lookup_insert_ne by done. apply Hr.
Qed.

(** The worse of two statuses: the later until of the higher rank. *)
Definition worst_of (prev st : Status) : Status :=
  if (BlockRank (st_State prev) <? BlockRank (st_State st))
     || (bool_decide (st_State st = st_State prev) && After (st_Until st) (st_Until prev))
  then st else prev.

Lemma worst_of_comm a b : worst_of a b = worst_of b a.
Proof.
  destruct a as [x u], b as [y w]. unfold worst_of, After. simpl.
  destruct x, y; simpl; try done;
    destruct (Z.ltb_spec u w), (Z.ltb_spec w u); try lia; try done; f_equal; lia.
Qed.

Lemma worst_of_swap a b c : worst_of (worst_of a b) c = worst_of (worst_of a c) b.
Proof.
  destruct a as [x u], b as [y w], c as [z t]. unfold worst_of, After.
  destruct x, y, z; simpl; repeat case_match; simpl in *; try done; try congruence;
    repeat match goal with H : (_ <? _) = _ |- _ => first [apply Z.ltb_lt in H|apply Z.ltb_ge in H] end;
    try lia; f_equal; lia.
Qed.

Lemma note_worst v p m st q :
  bw_worst (note_row v (p, m, st)) !! q =
  if decide (q = p) then Some (match bw_worst v !! p with Some prev => worst_of prev st | None => st end)
  else bw_worst v !! q.
Proof.
  simpl. unfold worst_of. destruct (decide (q = p)) as [->|Hq].
  - destruct (bw_worst v !! p) as [prev|] eqn:E; [|by rewrite lookup_insert_eq].
    destruct (_ || _); [by rewrite lookup_insert_eq|done].
  - destruct (match bw_worst v !! p with Some _ => _ | None => _ end); [by rewrite lookup_insert_ne|done].
Qed.

Lemma note_swap v a b : same_rows (note_row (note_row v a) b) (note_row (note_row v b) a).
Proof.
  destruct a as [[p m] st], b as [[q n] su]. unfold same_rows. split_and!.
  - simpl. repeat case_bool_decide; try done. apply map_eq. intros k.
    destruct (decide (p = q)) as [->|Hpq].
    + rewrite !lookup_insert_eq, !insert_insert_eq. simpl.
      destruct (decide (k = q)) as [->|]; [|by rewrite !lookup_insert_ne].
      rewrite !lookup_insert_eq. f_equal. set_solver.
    + rewrite (lookup_insert_ne _ p q), (lookup_insert_ne _ q p) by done. by rewrite insert_insert_ne.
  - apply map_eq. intros k. rewrite !note_worst. destruct (decide (p = q)) as [->|Hpq].
    + destruct (decide (k = q)); [|done]. rewrite decide_True by done. f_equal.
      destruct (bw_worst v !! q); [apply worst_of_swap|apply worst_of_comm].
    + rewrite (decide_False (P := q = p)) by congruence.
      destruct (decide (k = q)), (decide (k = p)); congruence.
  - intros k. simpl. destruct (decide (p = q)) as [->|Hpq].
    + rewrite !lookup_insert_eq, !insert_insert_eq. simpl.
      destruct (decide (k = q)) as [->|]; [|by rewrite !lookup_insert_ne].
      rewrite !lookup_insert_eq. simpl. split; [|by split]. rewrite <-!app_assoc. simpl.
      apply Permutation_app_head. constructor.
    + rewrite (lookup_insert_ne _ p q), (lookup_insert_ne _ q p) by done. by rewrite insert_insert_ne.
Qed.

Lemma note_rows_perm rows rows' v v' :
  rows ≡ₚ rows' → same_rows v v' → same_rows (foldl note_row v rows) (foldl note_row v' rows').
Proof.
  intros Hp. revert v v'. induction Hp as [|r l l' _ IH|a b l|l1 l2 l3 _ IH1 _ IH2]; intros v v' Hv; simpl.
  - done.
  - apply IH. by rewrite Hv.
  - assert (∀ l w w', same_rows w w' → same_rows (foldl note_row w l) (foldl note_row w' l)) as Hl.
    { clear. induction l as [|r l IH]; intros w w' Hw; simpl; [done|]. apply IH. by rewrite Hw. }
    apply Hl. rewrite note_swap. by rewrite Hv.
  - etrans; [by apply IH1|by apply IH2].
Qed.

(** The rows of one provider. *)
Definition row_of (row : string * string * Status) : modelBreaker :=
  {| mb_Model := row.1.2; mb_Breaker := Health (st_State row.2); mb_BreakerUntil := timestamp (st_Until row.2) |}.

Lemma note_rows_of rows v p :
  default [] (bw_byProvider (foldl note_row v rows) !! p) =
  default [] (bw_byProvider v !! p) ++ (row_of <$> List.filter (λ row, bool_decide (row.1.1 = p)) rows).
Proof.
  revert v; induction rows as [|[[q m] st] rows IH]; intros v; simpl; [by rewrite app_nil_r|].
  rewrite IH. simpl. case_bool_decide as E.
  - subst q. rewrite lookup_insert_eq. simpl. by rewrite <-app_assoc.
  - by rewrite lookup_insert_ne.
Qed.

Lemma mine_NoDup t l : t ≠ "" → NoDup l.*1 → NoDup (mine t l).*1.
Proof.
  intros Ht. induction l as [|[k st] l IH]; [constructor|]. rewrite fmap_cons, NoDup_cons. intros [Hk Hnd].
  unfold mine. simpl. fold (mine t l). destruct (SplitKey k) as [[o p] m] eqn:Es.
  case_bool_decide as Eo; [|by apply IH]. subst o. rewrite fmap_cons, NoDup_cons. split; [|by apply IH].
  intros ([[p' m'] st'] & [= <- <-] & Hin)%list_elem_of_fmap.
  apply elem_of_mine in Hin as (k' & Hin & Es').
  apply SplitKey_inv in Es as (-> & _), Es' as (-> & _); [|done..].
  apply Hk. by apply (list_elem_of_fmap_2 fst) in Hin.
Qed.

Lemma mine_agree t m1 m2 : t ≠ "" →
  (∀ key, (SplitKey key).1.1 = t → m1 !! key = m2 !! key) →
  mine t (map_to_list m1) ≡ₚ mine t (map_to_list m2).
Proof.
  intros Ht Hag. apply NoDup_Permutation.
  - apply NoDup_fmap_1 with fst. apply mine_NoDup; [done|]. apply NoDup_fst_map_to_list.
  - apply NoDup_fmap_1 with fst. apply mine_NoDup; [done|]. apply NoDup_fst_map_to_list.
  - intros [[p m] st]. rewrite !elem_of_mine. setoid_rewrite elem_of_map_to_list.
    split; intros (k & Hk & Es); exists k; (split; [|done]); rewrite <-Hk; [symmetry|];
      apply Hag; by rewrite Es.
Qed.

Lemma view_agree t m1 m2 : t ≠ "" →
  (∀ key, (SplitKey key).1.1 = t → m1 !! key = m2 !! key) → view_breakers t m1 = view_breakers t m2.
Proof.
  intros Ht Hag. unfold view_breakers. rewrite !note_mine. fold no_view.
  pose proof (note_rows_perm _ _ no_view no_view (mine_agree t m1 m2 Ht Hag) ltac:(done)) as (Hb & Hw & Hr).
  rewrite Hb, Hw. f_equal. apply map_eq. intros p. rewrite !lookup_fmap. destruct (Hr p) as [Hp Hs].
  pose proof (note_rows_of (mine t (map_to_list m1)) no_view p) as Hl.
  destruct (bw_byProvider (foldl note_row no_view (mine t (map_to_list m1))) !! p) as [l1|];
    destruct (bw_byProvider (foldl note_row no_view (mine t (map_to_list m2))) !! p) as [l2|]; try done.
  - simpl in Hp, Hl |- *. f_equal. apply (sort_slice_perm_eq _ (str_ltb_weak mb_Model (λ _, True)));
      [by apply Forall_forall| |done].
    intros x y Hx Hy Hxy Hyx.
    assert (mb_Model x = mb_Model y) as Hm by (by apply str_ltb_total).
    rewrite Hl in Hx, Hy. apply list_elem_of_fmap in Hx as (rx & -> & Hx), Hy as (ry & -> & Hy).
    apply elem_of_filter_bool in Hx as [Hx Ex%bool_decide_eq_true], Hy as [Hy Ey%bool_decide_eq_true].
    f_equal. apply (NoDup_fmap_eq fst (mine t (map_to_list m1))); [|done..|].
    { apply mine_NoDup; [done|apply NoDup_fst_map_to_list]. }
    destruct rx as [[px mx] sx], ry as [[py my] sy]. simpl in *. congruence.
  - by destruct (proj1 Hs ltac:(eauto)).
  - by destruct (proj2 Hs ltac:(eauto)).
Qed.

(** ** Status *)

Lemma degrade_if_unavailable b st : degrade_if b st = healthUnavailable ↔ st = healthUnavailable.
Proof.
  unfold degrade_if, degrade. destruct b; [|done]. case_bool_decide as E; [|done]. by subst.
Qed.

Lemma not_usable snap v p :
  usable (Some snap) v p = false ↔
  (p_Enabled p = true → ∀ e, e ∈ sn_Models snap → en_Provider e = p_Name p →
     (ProviderOf (en_ID e)).2 ∈ blocked_models v (p_Name p)).
Proof.
  unfold usable, reachable. destruct (p_Enabled p); simpl; [|done].
  rewrite <-not_true_iff_false, existsb_exists. split.
  - intros Hn _ e He Hp. destruct (decide ((ProviderOf (en_ID e)).2 ∈ blocked_models v (p_Name p))) as [|Hb]; [done|].
    destruct Hn. exists e. split; [by apply list_elem_of_In|].
    by rewrite bool_decide_eq_true_2, bool_decide_eq_false_2.
  - intros Hall (e & He%list_elem_of_In & [Hp%bool_decide_eq_true Hb%negb_true_iff%bool_decide_eq_false]%andb_true_iff).
    by apply Hb, Hall.
Qed.

Lemma none_usable snap v ps :
  existsb (usable (Some snap) v) ps = false ↔ ∀ p, p ∈ ps → usable (Some snap) v p = false.
Proof.
  rewrite <-not_true_iff_false, existsb_exists. split.
  - intros Hn p Hp. destruct (usable _ v p) eqn:E; [|done]. destruct Hn. exists p.
    by rewrite <-list_elem_of_In.
  - intros Hall (p & Hp%list_elem_of_In & E). by rewrite Hall in E.
Qed.

Section health.
Context `{Unicode} `{Crypto} {A : Type} (adapters : gmap string A).
Context (poll_now : nat → Z * Z) (answers : nat → nat → A → Credential → res message (list Model)).

Abbreviation report := (buildHealth adapters poll_now answers).
Abbreviation read_catalog := (catalog_get adapters poll_now answers).

Lemma catalog_get_frame i t (s : Server A) :
  let s' := (read_catalog i t s).2 in
  sv_Config s' = sv_Config s ∧ sv_Store s' = sv_Store s ∧ sv_Dispatcher s' = sv_Dispatcher s ∧
  sv_quotas s' = sv_quotas s ∧ sv_Version s' = sv_Version s ∧ sv_startedAt s' = sv_startedAt s.
Proof. unfold catalog_get. by destruct (Get _ _ _ _ _ _ _) as [got c]. Qed.

(** The status before the checks that can only degrade it. *)
Lemma unavailable_iff r t (s : Server A) :
  hp_Status (report r t s).1 = healthUnavailable ↔
  ∃ snap, (read_catalog 0 t s).1 = Ok snap ∧ ListProviders (sv_Store s) t ≠ [] ∧
    ∀ p, p ∈ ListProviders (sv_Store s) t →
      usable (Some snap) (view_breakers t (Breaker.Snapshot (d_breaker (sv_Dispatcher s)) (hr_now r 2))) p = false.
Proof.
  unfold buildHealth. pose proof (catalog_get_frame 0 t s) as (Ec & Es & Ed & _).
  destruct (read_catalog 0 t s) as [got s1]. simpl in Ec, Es, Ed.
  destruct (catalog_health (sv_Config s) got (hr_now r 1)) as [cat stale].
  destruct (read_catalog 1 t s1) as [got' s2]. rewrite Ed.
  set (v := view_breakers _ _). set (rows := _ <$> ListProviders _ _).
  set (base := degrade_if (existsb snd rows) _).
  assert (base ≠ healthUnavailable) as Hb.
  { subst base. rewrite !degrade_if_unavailable. simpl. discriminate. }
  destruct (evaluateQuota _ _ _ _ _) as [verdict q]. simpl. rewrite degrade_if_unavailable.
  assert (∀ st, match Diagnose (sv_Store s2) t got' with
                | Ok d => degrade_if (Degraded d) st | Err _ => st end = healthUnavailable ↔
                st = healthUnavailable) as Hd.
  { intros st. destruct (Diagnose _ _ _); [apply degrade_if_unavailable|done]. }
  rewrite Hd. clear Hd. destruct got as [snap|e]; simpl.
  - case_bool_decide as Ep; simpl.
    + split; [done|]. by intros (x & _ & ? & _).
    + destruct (existsb (usable (Some snap) v) _) eqn:Eu; simpl.
      * split; [done|]. intros (x & [= <-] & _ & Hx). by rewrite <-none_usable, Eu in Hx.
      * split; [|done]. intros _. exists snap. split_and!; [done..|]. by apply none_usable.
  - split; [done|]. by intros (x & ? & _).
Qed.
End health.

(** ** Component theorems *)

Module DataFacts.

Section health_props.
Context `{Unicode} `{Crypto} {A : Type} (adapters : gmap string A).
Context (poll_now : nat → Z * Z) (answers : nat → nat → A → Credential → res message (list Model)).

Abbreviation report := (buildHealth adapters poll_now answers).
Abbreviation read_catalog := (catalog_get adapters poll_now answers).

(** "Unavailable" means no path is left. The health endpoint gives that verdict,
    and so its 503, exactly when the catalog answered, the tenant has providers,
    and for every model an enabled one offers the breaker of the candidate a
    request would get stands open, so that the dispatcher refuses it. *)
Theorem unavailable_means_no_path r t (s : Server A) :
  t ≠ "" → str_has slash t = false →
  Forall (λ p, str_has slash (p_Name p) = false) (ListProviders (sv_Store s) t) →
  let b := d_breaker (sv_Dispatcher s) in
  let blocked e := let c := entryCandidate e in
    StateOf b (hr_now r 2) (Key t (cd_Provider c) (cd_Model c)) = StateOpen in
  (hp_Status (report r t s).1 = healthUnavailable ↔
   ∃ snap, (read_catalog 0 t s).1 = Ok snap ∧ ListProviders (sv_Store s) t ≠ [] ∧
     ∀ p e, p ∈ ListProviders (sv_Store s) t → p_Enabled p = true → e ∈ sn_Models snap →
       en_Provider e = p_Name p → blocked e) ∧
  ((sendHealth (report r t s).1).1 = 503 ↔ hp_Status (report r t s).1 = healthUnavailable) ∧
  ∀ e, blocked e → let c := entryCandidate e in
    Allow b (hr_now r 2) (Key t (cd_Provider c) (cd_Model c)) = (false, b).
Proof.
  intros Ht Hs HF b blocked. split_and!.
  - rewrite unavailable_iff. split; intros (snap & Hsn & Hne & Hall); exists snap; (split_and!; [done..|]).
    + intros p e Hp He Hin Hen. specialize (Hall p Hp). rewrite not_usable in Hall.
      specialize (Hall He e Hin Hen). rewrite Forall_forall in HF. specialize (HF p Hp).
      apply blocked_is_open in Hall; [|done..]. unfold blocked. simpl. by rewrite Hen.
    + intros p Hp. apply not_usable. intros He e Hin Hen. rewrite Forall_forall in HF. specialize (HF p Hp).
      apply blocked_is_open; [done..|]. specialize (Hall p e Hp He Hin Hen). unfold blocked in Hall. simpl in Hall.
      by rewrite <-Hen.
  - unfold sendHealth. case_bool_decide; simpl; done.
  - intros e He. unfold blocked in He. unfold StateOf in He. simpl in *. unfold Allow.
    destruct (b_entries b !! _) as [en|]; [|done].
    destruct (be_state en) eqn:Est; simpl in He |- *; try done.
    destruct (b_openFor b <=? Sub _ _) eqn:El; simpl in *; [done|].
    by destruct (Z.ltb_spec (Sub (hr_now r 2) (be_openedAt en)) (b_openFor b)); [|lia].
Qed.

(** A health report is the tenant's own. It depends on the breakers of its own
    providers only, and not on the order the breaker's map is walked in: two
    gateways that agree on the tenant's breakers give it the same report, whatever
    any other tenant's upstreams do. *)
Theorem health_report_is_the_tenants_own r t (s : Server A) (d1 d2 : Dispatcher A) :
  t ≠ "" → b_openFor (d_breaker d1) = b_openFor (d_breaker d2) →
  (∀ key, (SplitKey key).1.1 = t → b_entries (d_breaker d1) !! key = b_entries (d_breaker d2) !! key) →
  (report r t (set_dispatcher s d1)).1 = (report r t (set_dispatcher s d2)).1.
Proof.
  intros Ht Ho Hag.
  assert (view_breakers t (Breaker.Snapshot (d_breaker d1) (hr_now r 2)) =
          view_breakers t (Breaker.Snapshot (d_breaker d2) (hr_now r 2))) as Ev.
  { apply view_agree; [done|]. intros key Hk. unfold Breaker.Snapshot. rewrite !lookup_omap, Ho, Hag by done. done. }
  unfold buildHealth, catalog_get. simpl.
  destruct (Get _ _ _ _ _ _ _) as [got c]. simpl. rewrite Ev.
  destruct (catalog_health _ _ _) as [cat stale].
  destruct (Get _ _ _ _ _ _ _) as [got' c']. simpl.
  by destruct (evaluateQuota _ _ _ _ _) as [verdict q].
Qed.

(** A tenant whose providers are all disabled is answered with 503 as soon as
    its catalog can be read, like one whose upstreams are down. *)
Theorem disabled_providers_look_like_an_outage r t (s : Server A) snap :
  (read_catalog 0 t s).1 = Ok snap → ListProviders (sv_Store s) t ≠ [] →
  Forall (λ p, p_Enabled p = false) (ListProviders (sv_Store s) t) →
  (sendHealth (report r t s).1).1 = 503.
Proof.
  intros Hs Hne HF. unfold sendHealth. rewrite bool_decide_eq_true_2; [done|]. apply unavailable_iff.
  exists snap. split_and!; [done..|]. intros p Hp. unfold usable. rewrite Forall_forall in HF. by rewrite HF.
Qed.
End health_props.

(** ** Usage *)

(** A cap that is not limiting leaves its slot at ease. *)
Definition at_ease (p : slotPosition) : Prop := limited p = false → sp_state p = QuotaOK.

Lemma position_at_ease used lim soft : fltb fzero lim = false → position used lim soft = QuotaOK.
Proof.
  intros Hl. unfold position. destruct (decide (lim = S754_nan)) as [->|Hn]; [done|].
  rewrite fleb_not_fltb by (by destruct lim). by rewrite Hl.
Qed.

Lemma bind_slot_state st b p : (bind_slot (st, b) p).1 = worse st (sp_state p).
Proof.
  unfold bind_slot, worse. simpl.
  destruct (Z.ltb_spec (quotaGauge st) (quotaGauge (sp_state p))),
    (Z.leb_spec (quotaGauge (sp_state p)) (quotaGauge st)); try lia; [done|].
  by destruct (_ && _ && _).
Qed.

Lemma worse_ok st : worse st QuotaOK = st.
Proof.
  unfold worse. change (quotaGauge QuotaOK) with 0. pose proof (QuotaFacts.quotaGauge_range st).
  by destruct (Z.leb_spec 0 (quotaGauge st)); [|lia].
Qed.

Lemma usage_row_state cfg st rows p : at_ease p → (usage_row cfg (st, rows) p).1 = worse st (sp_state p).
Proof.
  intros Hp. unfold usage_row. destruct (limited p) eqn:El; simpl; [by destruct (_ && _)|].
  by rewrite (Hp El), worse_ok.
Qed.

Lemma usage_state cfg slots st rows b :
  Forall at_ease slots →
  (foldl (usage_row cfg) (st, rows) slots).1 = (foldl bind_slot (st, b) slots).1.
Proof.
  intros HF. revert st rows b. induction HF as [|p slots Hp _ IH]; intros st rows b; [done|]. cbn [foldl].
  pose proof (usage_row_state cfg st rows p Hp) as Hu. pose proof (bind_slot_state st b p) as Hb.
  destruct (usage_row cfg (st, rows) p) as [st1 rows1], (bind_slot (st, b) p) as [st2 b2].
  simpl in Hu, Hb. subst st1 st2. apply IH.
Qed.

Lemma slots_at_ease cfg (m : Memory) now scope slots :
  quotaSlots cfg m now scope = Ok slots → Forall at_ease slots.
Proof.
  assert (∀ t k prefix kl l, level_slots cfg m t k prefix kl now = Ok l → Forall at_ease l) as Hl.
  { intros t k prefix kl l E. destruct (QuotaFacts.level_slots_memory cfg m t k prefix kl now) as (l' & E' & Hsl).
    rewrite E in E'. injection E' as <-. apply Forall_forall. intros p Hp.
    apply Hsl in Hp as (q & w & u & lim & _ & _ & Ep). revert Ep. unfold add_position.
    destruct (periodWindow w now). intros [= <-] Hn. by apply position_at_ease. }
  unfold quotaSlots. destruct (level_slots _ _ _ _ _ false _) as [l1|] eqn:E1; [|done]. simpl.
  case_bool_decide; [intros [= <-]; by eapply Hl|].
  destruct (level_slots _ _ _ _ _ true _) as [l2|] eqn:E2; [|done]. simpl. intros [= <-].
  apply Forall_app. split; by eapply Hl.
Qed.

(** The usage endpoint reports the state the quota enforces: what it answers as
    the state is what an evaluation for a request of the same key at that moment
    would say, under any cost visibility. *)
Theorem usage_state_is_what_is_enforced {A} r (s : Server A) resp s' st :
  handleUsage r s = (Ok resp, s') → TenantID r ≠ "" →
  let scope := requestScope (TenantID r) (hr_key r) in
  qc_entries (qs_quotas st) !! cacheKey scope = None →
  ur_State resp = v_State (evaluateQuota (sv_Config s) (sv_Store s) (hr_now r 1) scope st).1.
Proof.
  intros Hu Ht scope Hc. revert Hu. unfold handleUsage, of_res, hbind, map_err.
  destruct (usageWindow r) as [[[window since] until]|e]; [|done]. simpl. fold scope.
  destruct (QuotaFacts.quotaSlots_memory (sv_Config s) (sv_Store s) (hr_now r 1) scope) as (slots & Hs & _).
  rewrite Hs. destruct (foldl (usage_row _) _ slots) as [state rows] eqn:Ef. intros [= <- _]. simpl.
  rewrite (QuotaFacts.evaluate_cold _ _ _ _ _ slots) by (done || by subst scope; destruct (hr_key r)). simpl.
  rewrite <-(usage_state (sv_Config s) slots QuotaOK [] no_slot), Ef by by eapply slots_at_ease. done.
Qed.

(** ** Worked examples

    One provider with one model, its breaker tripped or not, and the tenant of
    the quota examples. *)

#[local] Existing Instance ascii_only.
#[local] Existing Instance CacheFacts.identity_hash.

Definition one_model (_ _ : nat) (_ : ()) (_ : Credential) : res message (list Model) :=
  Ok [CatalogFacts.demo_model "m" 1].
Definition one_provider (enabled : bool) (m : Memory) : Memory :=
  set_providers m {["t" := [{| p_ID := "p1"; p_TenantID := "t"; p_Name := "one"; p_Kind := "openai";
    p_BaseURL := "http://u"; p_Enabled := enabled; p_KeyStrategy := ""; p_Keys := ["k"]; p_KeyPrefixes := [];
    p_CreatedAt := 0 |}]]}.
Definition tripped (keys : list string) : Breaker :=
  foldl (λ b key, Failure b 0 key) (NewBreaker 1 Minute Minute) keys.
Definition health_server (enabled : bool) (keys : list string) : Server () :=
  NewServer Default "" false (one_provider enabled (QuotaFacts.spent 50))
    (New {| op_TTL := Hour; op_StaleWarnAfter := Hour; op_ProviderTimeout := Second;
            op_Prices := ∅; op_OnChange := false |})
    (NewResolver 5) (NewDispatcher (tripped keys)) None 0.
Definition health_req : HttpReq :=
  {| hr_key := None; hr_tenant := Some (LimitsFacts.narrow_tenant); hr_id := "r"; hr_clientID := ""; hr_method := "GET";
     hr_path := "/v1/health"; hr_param _ := ""; hr_query _ := ""; hr_header _ := ""; hr_now n := Z.of_nat n;
     hr_rnd _ := "" |}.

Abbreviation health_demo enabled keys :=
  (buildHealth {["openai" := ()]} (λ _, (0, 0)) one_model health_req "t" (health_server enabled keys)).1.

Lemma unavailable_means_no_path_witness :
  hp_Status (health_demo true ["t/one/m"]) = healthUnavailable ∧
  hp_Status (health_demo true ["u/one/m"]) ≠ healthUnavailable ∧
  (Allow (tripped ["t/one/m"]) 2 "t/one/m").1 = false.
Proof.
  assert (hp_Status (health_demo true ["t/one/m"]) = healthUnavailable) as Hu by (by vm_compute).
  destruct (unavailable_means_no_path {["openai" := ()]} (λ _, (0, 0)) one_model health_req "t"
    (health_server true ["t/one/m"])) as (Hiff & _ & Hal); [done|done|by repeat constructor|].
  split; [done|]. split; [by vm_compute|].
  destruct (proj1 Hiff Hu) as (snap & Hs & _ & Hall).
  destruct (sn_Models snap) as [|e l] eqn:Em; [by vm_compute in Hs; injection Hs as <-; vm_compute in Em|].
  assert (entryCandidate e = {| cd_TenantID := ""; cd_Provider := "one"; cd_ProviderID := "p1"; cd_Model := "m";
                                cd_Entry := e |}) as Ee.
  { vm_compute in Hs. injection Hs as <-. simpl in Em. by injection Em as <- <-. }
  specialize (Hal e). rewrite Ee in Hal. simpl in Hal.
  exact (f_equal fst (Hal eq_refl)).
Defined.

(** Another tenant's open breaker leaves no mark. *)
Lemma health_report_is_the_tenants_own_witness :
  health_demo true ["t/one/m"; "u/one/m"] = health_demo true ["t/one/m"; "v/two/x"].
Proof.
  apply (health_report_is_the_tenants_own {["openai" := ()]} (λ _, (0, 0)) one_model health_req "t"
    (health_server true []) (NewDispatcher (tripped ["t/one/m"; "u/one/m"]))
    (NewDispatcher (tripped ["t/one/m"; "v/two/x"]))); [done|done|].
  intros key Hk. simpl. destruct (decide (key = "u/one/m")) as [->|Hu]; [discriminate Hk|].
  destruct (decide (key = "v/two/x")) as [->|Hv]; [discriminate Hk|].
  set (b := Failure (NewBreaker 1 Minute Minute) 0 "t/one/m").
  trans (b_entries b !! key); [|symmetry].
  - apply (apply_op_other b (OpFailure "u/one/m" 0)). simpl. congruence.
  - apply (apply_op_other b (OpFailure "v/two/x" 0)). simpl. congruence.
Defined.

Lemma disabled_providers_look_like_an_outage_witness : (sendHealth (health_demo false [])).1 = 503.
Proof.
  destruct (catalog_get {["openai" := ()]} (λ _, (0, 0)) one_model 0 "t" (health_server false [])).1 as [snap|e] eqn:E;
    [|by vm_compute in E].
  apply (disabled_providers_look_like_an_outage _ _ _ _ _ _ snap E); [done|by repeat constructor].
Defined.

Definition usage_demo := handleUsage health_req (health_server true []).

Lemma usage_state_is_what_is_enforced_witness :
  match usage_demo.1 with
  | Ok resp => ur_State resp =
      v_State (evaluateQuota Default (QuotaFacts.spent 50) 1 (requestScope "t" None) QuotaFacts.cold).1
  | Err _ => False
  end.
Proof.
  destruct usage_demo as [[resp|e] s'] eqn:E; simpl; [|by vm_compute in E].
  apply (usage_state_is_what_is_enforced health_req (health_server true []) resp s' QuotaFacts.cold E);
    [discriminate|reflexivity].
Defined.

(** Consumed and remaining do not add up to the cap once the cap is exceeded:
    sixty of fifty tokens used leaves nothing, not minus ten. *)
Theorem consumed_and_remaining_exceed_the_cap :
  (usage_row Default (QuotaOK, [])
     {| sp_window := windowMonth; sp_unit := unitTokens; sp_state := QuotaHardExceeded; sp_used := f_of_Z 60;
        sp_cap := f_of_Z 50; sp_softPct := 80; sp_since := 0; sp_resetsAt := 0; sp_keyLevel := false |}).2 ≫=
     (λ l, [(ul_Consumed l, ul_Remaining l, ul_Cap l)]) = [(f_of_Z 60, fzero, f_of_Z 50)] ∧
  feqb (fadd (f_of_Z 60) fzero) (f_of_Z 50) = false.
Proof. by vm_compute. Qed.
End DataFacts.
