(* ===== verification/Gateway.v ===== *)
(** * A data-plane request end to end (internal/server/server.go's routes,
    middleware.go, internal/httpx/httpx.go)

    The chain of middleware under /v1 around the handlers: the request's
    identity, the drain gate, the body ceiling, authentication, debug capture,
    the tenant's limits and the route, with the access line the chain leaves and
    the release of a stream's permit when its writer is done. What one arrival
    brings (header values, body, clock readings, random bytes) is the record
    [arrival]. The bodies the framework renders from structures and error
    envelopes are the parameter [render]; only a capture reads them. *)

From S2P Require Import Prelude GoStrings GoTime GoFloat GoFormat ApiErr StoreTypes Keys Json Memory Provider Breaker Catalog Resolve Dispatch Diagnose Cache Config Limits Quota Middleware Capture Events Server Data Admin Chat.
From Stdlib Require Import Ascii.

#[local] Open Scope Z_scope.
#[local] Open Scope stdpp_scope.
#[local] Open Scope gate_scope.

(** ** The caller's correlation id *)

Definition MaxClientRequestID : nat := 128.

Definition byte_of (c : ascii) : Z := Z.of_N (N_of_ascii c).
Definition between (lo hi : Z) (c : ascii) : bool := (lo <=? byte_of c) && (byte_of c <=? hi).
Definition continuation (c : ascii) : bool := between 128 191 c.

(** The width of the UTF-8 sequence a string starts with; [None] for a byte that
    starts none. *)
Definition rune_width (s : string) : option nat :=
  match s with
  | String a (String b (String c (String d _))) =>
      if byte_of a <? 128 then Some 1%nat
      else if between 194 223 a && continuation b then Some 2%nat
      else if between 224 239 a && between (if byte_of a =? 224 then 160 else 128) (if byte_of a =? 237 then 159 else 191) b
              && continuation c then Some 3%nat
      else if between 240 244 a && between (if byte_of a =? 240 then 144 else 128) (if byte_of a =? 244 then 143 else 191) b
              && continuation c && continuation d then Some 4%nat
      else None
  | String a (String b (String c "")) =>
      if byte_of a <? 128 then Some 1%nat
      else if between 194 223 a && continuation b then Some 2%nat
      else if between 224 239 a && between (if byte_of a =? 224 then 160 else 128) (if byte_of a =? 237 then 159 else 191) b
              && continuation c then Some 3%nat
      else None
  | String a (String b "") =>
      if byte_of a <? 128 then Some 1%nat
      else if between 194 223 a && continuation b then Some 2%nat else None
  | String a "" => if byte_of a <? 128 then Some 1%nat else None
  | "" => None
  end.

(** The encoding of U+FFFD, which [strings.Map] writes for an invalid byte. *)
Definition replacement : string := byte_str [239; 191; 189]%nat.

Definition control (c : ascii) : bool := (byte_of c <? 32) || (byte_of c =? 127).

(** [strings.Map] with the closure that drops control characters; each round
    consumes a byte, so the length is enough fuel. *)
Fixpoint drop_controls (fuel : nat) (s : string) : string :=
  match fuel, s with
  | S n, String a s' =>
      match rune_width s with
      | None => replacement +:+ drop_controls n s'
      | Some w =>
          if (w =? 1)%nat then if control a then drop_controls n s' else String a (drop_controls n s')
          else str_take w s +:+ drop_controls n (str_drop w s)
      end
  | _, _ => ""
  end.

Definition sanitizeCorrelationID (raw : string) : string :=
  let raw := TrimSpace raw in
  let raw := if (MaxClientRequestID <? String.length raw)%nat then str_take MaxClientRequestID raw else raw in
  drop_controls (String.length raw) raw.

(** ** Arrivals *)

Inductive data_route :=
  | PostChat | GetModels | GetModel | GetUsage | GetBreakdown | GetHealth | GetMeta | Unmatched.

Record arrival := {
  ar_req : HttpReq;
  ar_body : string;
  ar_length : Z;
  ar_route : data_route;
  ar_rnd : string;
  ar_auth : Z;
  ar_limit : Z;
  ar_capture : Z;
  ar_draw : f64;
  ar_capture_rnd : string
}.

Definition HeaderClientRequestID : string := "X-Client-Request-Id".
Definition HeaderDebugCapture : string := "X-CogniGate-Debug-Capture".

(** [identify]: the request with its ids *)
Definition identify (a : arrival) : HttpReq :=
  let r := ar_req a in
  {| hr_key := None; hr_tenant := None; hr_id := NewID IDRequest (ar_rnd a);
     hr_clientID := let v := hr_header r HeaderClientRequestID in
                    if bool_decide (v = "") then "" else sanitizeCorrelationID v;
     hr_method := hr_method r; hr_path := hr_path r; hr_param := hr_param r; hr_query := hr_query r;
     hr_header := hr_header r; hr_now := hr_now r; hr_rnd := hr_rnd r |}.

(** ** Routes *)

Inductive data_answer :=
  | AChat (b : chat_body)
  | AModels (l : list modelObject)
  | AModel (o : modelObject)
  | AUsage (u : usageResponse)
  | ABreakdown (b : breakdownResponse)
  | AHealth (status : Z) (rep : healthReport)
  | AMeta (m : metaResponse).

Definition answer_status (out : res error data_answer) : Z :=
  match out with
  | Err e => err_Status (From e)
  | Ok (AHealth st _) => st
  | Ok _ => 200
  end.

(** A handler on the server, as one on the request's context. *)
Definition lift {A X} (f : X → data_answer) (h : handler A X) : chat A data_answer := λ c,
  let '(out, s) := h (cx_srv c) in
  (match out with Ok x => Ok (f x) | Err e => Err e end, with_srv c s).

Section pipeline.
Context `{Unicode} `{JsonStream} `{Crypto} `{HttpDates}.
Context {A : Type} (adapters : gmap string A).
Context (poll_now : nat → Z * Z) (answers : nat → nat → A → Credential → res message (list Model)).
Context (upstream : list (call A) → call A → DoResult) (clock : nat → Z).
Context (metrics telemetry expired : bool).
Context (render : res error data_answer → string).

(** The routes of [/v1]. *)
Definition data_handler (r : HttpReq) (body : string) (rt : data_route) : chat A data_answer :=
  match rt with
  | PostChat => λ c,
      let '(out, c) := handleChatCompletions adapters poll_now answers upstream clock metrics telemetry expired
                         r body c in
      (match out with Ok b => Ok (AChat b) | Err e => Err e end, c)
  | GetModels => lift AModels (handleListModels adapters poll_now answers r)
  | GetModel => lift AModel (handleGetModel adapters poll_now answers r)
  | GetUsage => lift AUsage (handleUsage r)
  | GetBreakdown => lift ABreakdown (handleUsageBreakdown r)
  | GetHealth => lift (λ sr, AHealth sr.1 sr.2)
                   (λ s, let '(sr, s) := handleHealth adapters poll_now answers r s in (Ok sr, s))
  | GetMeta => lift AMeta (asks (λ s, meta s r))
  | Unmatched => λ c, (Err (ErrApi (NotSupported (hr_method r +:+ " " +:+ hr_path r))), c)
  end.

(** A stream adopts its request's slot. *)
Definition adopt (held : option slot) (out : res error data_answer) : option nat * option slot :=
  match held, out with
  | Some sl, Ok (AChat (CStream _)) => let '(p, sl) := slot_take sl in (Some p, Some sl)
  | _, _ => (None, held)
  end.

(** [limitTenant] around a route: the answer, and the permit a stream took with
    it. *)
Definition limitTenant (a : arrival) (r : HttpReq) (next : chat A data_answer) (c : chatCtx A) :
    res error data_answer * option nat * chatCtx A :=
  let s := cx_srv c in
  let '(got, st) := limitTenant_enter (sv_Config s) (ar_limit a) (hr_key r) (hr_tenant r)
                      {| rq_ContentLength := ar_length a; rq_BodyLen := Z.of_nat (String.length (ar_body a));
                         Limits.rq_Path := hr_path r |} (sv_limits s) in
  let c := with_srv c (set_limits s st) in
  match got with
  | Err e => (Err (ErrApi e), None, c)
  | Ok held =>
      let '(out, c) := next c in
      let '(permit, held) := adopt held out in
      (out, permit, with_srv c (set_limits (cx_srv c) (limitTenant_exit held (sv_limits (cx_srv c)))))
  end.

(** The bytes of a buffered response. *)
Definition response_bytes (out : res error data_answer) : string :=
  match out with
  | Ok (AChat (CBytes _ b)) => b
  | _ => render out
  end.

Definition is_stream (out : res error data_answer) : bool :=
  match out with Ok (AChat (CStream _)) => true | _ => false end.

(** [captureDebug] around the rest; a panic passes it by. *)
Definition capturing (a : arrival) (r : HttpReq)
    (next : chatCtx A → res error data_answer * option nat * chatCtx A) (c : chatCtx A) :
    res error data_answer * option nat * chatCtx A :=
  let on := match hr_tenant r with Some t => dc_Enabled (t_DebugCapture t) | None => false end in
  let c := if on then set_header c HeaderDebugCapture "on" else c in
  let '(out, permit, c) := next c in
  let s := cx_srv c in
  if match out with Err e => panicked e | Ok _ => false end then (out, permit, c) else
  let '(_, caps) := captureDebug (sv_Config s) (hr_tenant r) (ar_draw a) (ar_body a) (hr_id r)
                      {| aw_Status := answer_status out; aw_Err := None; aw_Streamed := is_stream out;
                         aw_Body := response_bytes out; aw_Model := ou_Model (cx_outcome c) |}
                      (ar_capture_rnd a) (ar_capture a) (sv_captures s) in
  (out, permit, with_srv c (set_captures s caps)).

(** The ids of a request, on its response. *)
Definition greeted (a : arrival) (s : Server A) : chatCtx A :=
  let r := identify a in
  let c := set_header (new_ctx s) HeaderRequestID (hr_id r) in
  if bool_decide (hr_clientID r = "") then c else set_header c HeaderClientRequestID (hr_clientID r).

(** The middleware every request passes before its plane: the drain gate and the
    body ceiling. *)
Definition front_gates (a : arrival) (s : Server A) : res Error () :=
  let! _ := refuseWhenDraining (sv_Config s) (sv_draining s) (hr_path (identify a)) in
  limitBody (sv_Config s) (ar_length a) (Z.of_nat (String.length (ar_body a))).

(** A request under [/v1] that the front gates let in, from authentication on. *)
Definition handle_v1 (a : arrival) (c : chatCtx A) : res error data_answer * option nat * chatCtx A :=
  let s := cx_srv c in
  let r := identify a in
  match auth (sv_Config s) (sv_Store s) (ar_auth a) PlaneData (hr_header r "Authorization") with
  | Err e => (Err (ErrApi e), None, c)
  | Ok kt =>
      let r := with_auth r kt in
      capturing a r (limitTenant a r (data_handler r (ar_body a) (ar_route a))) c
  end.

(** One request under [/v1], from the drain gate on. *)
Definition serve_v1 (a : arrival) (s : Server A) : res error data_answer * option nat * chatCtx A :=
  let c := greeted a s in
  match front_gates a s with
  | Ok _ => handle_v1 a c
  | Err e =>
      (Err (ErrApi e), None,
       if is_ok (refuseWhenDraining (sv_Config s) (sv_draining s) (hr_path (identify a))) then c
       else set_header c "Connection" "close")
  end.

(** The end of a stream: its writer, and the permit given back; a [None] for the
    context is the writer's panic. *)
Definition finish_stream (st : stream) (permit : option nat) (accepts : nat → bool)
    (now done_at recorded_at : Z) (reads : list read) (c : chatCtx A) :
    option (list string * option (chatCtx A)) :=
  match stream_writer metrics telemetry st accepts now done_at recorded_at reads c with
  | None => None
  | Some (out, None) => Some (out, None)
  | Some (out, Some c) =>
      let lim := sv_limits (cx_srv c) in
      Some (out, Some (match permit with
                 | Some p => with_srv c (set_limits (cx_srv c)
                     {| ls_rates := ls_rates lim; ls_limiter := release p (ls_limiter lim) |})
                 | None => c
                 end))
  end.

(** [observe]: the access line, less its level and the latency histogram. *)
Record access_line := {
  al_request_id : string;
  al_client_request_id : string;
  al_tenant : string;
  al_key_prefix : string;
  al_method : string;
  al_route : string;
  al_status : Z;
  al_error_code : string;
  al_outcome : Outcome;
  al_duration_ms : Z
}.

Definition observe (r : HttpReq) (route : string) (out : res error data_answer) (c : chatCtx A)
    (elapsed : Z) : access_line :=
  {| al_request_id := hr_id r; al_client_request_id := hr_clientID r; al_tenant := TenantID r;
     al_key_prefix := keyPrefix r; al_method := hr_method r;
     al_route := if bool_decide (route = "") then "unmatched" else route; al_status := answer_status out;
     al_error_code := match out with Err e => err_Code (From e) | Ok _ => "" end;
     al_outcome := cx_outcome c; al_duration_ms := Milliseconds elapsed |}.
End pipeline.
