(* ===== verification/GatewayProps.v ===== *)
(** * Theorems about a data-plane request end to end

    What the gatekeepers let through, who a usage row is charged to, and what a
    request holds of its key's concurrency while it runs. *)

From S2P Require Import Prelude GoStrings GoTime GoFloat GoFormat ApiErr StoreTypes Keys Json Memory MemoryFacts MemoryProps Provider Breaker Catalog Resolve Dispatch DispatchFacts Diagnose Cache Config Limits Quota Middleware Capture Events Server Data Admin Chat ChatProps Gateway.
From Stdlib Require Import Ascii.

#[local] Open Scope Z_scope.
#[local] Open Scope stdpp_scope.
#[local] Open Scope gate_scope.

(** ** What the routes leave alone *)

Section frames.
Context `{Unicode} `{JsonStream} `{Crypto} `{HttpDates}.
Context {A : Type} (adapters : gmap string A).
Context (poll_now : nat → Z * Z) (answers : nat → nat → A → Credential → res message (list Model)).
Context (upstream : list (call A) → call A → DoResult) (clock : nat → Z).
Context (metrics telemetry expired : bool).

Abbreviation lims c := (sv_limits (cx_srv c)).

Lemma resolve_at_limits i t m (s : Server A) :
  sv_limits (resolve_at adapters poll_now answers i t m s).2 = sv_limits s.
Proof. unfold resolve_at. by destruct (Resolve _ _ _ _ _ _ _ _ _) as [[got snap] cat]. Qed.

Lemma catalog_get_limits i t (s : Server A) :
  sv_limits (catalog_get adapters poll_now answers i t s).2 = sv_limits s.
Proof. unfold catalog_get. by destruct (Get _ _ _ _ _ _ _) as [got cat]. Qed.

Lemma dispatch_at_limits i t m body st (s : Server A) :
  sv_limits (dispatch_at adapters poll_now answers upstream clock i t m body st s).2 = sv_limits s.
Proof.
  unfold dispatch_at. destruct (Resolve _ _ _ _ _ _ _ _ _) as [[got snap] cat].
  by destruct (Dispatch _ _ _ _ _ _ _ _ _) as [o d].
Qed.

Lemma record_limits i result m u streamed st el now (c : chatCtx A) :
  lims (record_row_of metrics telemetry i result m u streamed st el now c) = lims c.
Proof. unfold record_row_of. by destruct telemetry. Qed.

Lemma routing_headers_srv (c : chatCtx A) result : cx_srv (applyRoutingHeaders c result) = cx_srv c.
Proof. unfold applyRoutingHeaders. by destruct (m_Deprecated _). Qed.

Lemma complete_limits r t m body plan key started (c : chatCtx A) :
  lims (complete adapters poll_now answers upstream clock metrics telemetry expired
          r t m body plan key started c).2 = lims c.
Proof.
  unfold complete. pose proof (dispatch_at_limits 1 t m body false (cx_srv c)) as Hd.
  destruct (dispatch_at _ _ _ _ _ _ _ _ _ _ _) as [[[result|e]|] s]; simpl in *; [|done..].
  unfold meter, record. destruct (metrics && _); simpl; [by rewrite routing_headers_srv|].
  destruct key as [[k sb]|]; [unfold store_answer; destruct (bool_decide _)|]; simpl;
    rewrite record_limits; simpl; by rewrite routing_headers_srv.
Qed.

Lemma completion_limits r t m body plan (c : chatCtx A) :
  lims (completion adapters poll_now answers upstream clock metrics telemetry expired r t m body plan c).2 = lims c.
Proof.
  unfold completion.
  assert (sv_limits (cacheKeyFor adapters poll_now answers plan t m body (cx_srv c)).2 = lims c) as Hk.
  { unfold cacheKeyFor. destruct (negb _); [done|].
    pose proof (resolve_at_limits 0 t m (cx_srv c)) as Hr.
    destruct (resolve_at _ _ _ _ _ _ _) as [got s]. by destruct (Primary got) as [[|]|]. }
  destruct (cacheKeyFor _ _ _ _ _ _ _ _) as [[[[k sb]|]|] s]; simpl in *.
  - destruct (CGet (sv_cache s) (hr_now r 2) k) as [[e|] cache].
    + unfold serveFromCache. by destruct telemetry.
    + by rewrite complete_limits.
  - by rewrite complete_limits.
  - done.
Qed.

Lemma stream_limits r t m body (c : chatCtx A) :
  lims (streamCompletion adapters poll_now answers upstream clock r t m body c).2 = lims c.
Proof.
  unfold streamCompletion. pose proof (dispatch_at_limits 0 t m body true (cx_srv c)) as Hd.
  destruct (dispatch_at _ _ _ _ _ _ _ _ _ _ _) as [[[result|e]|] s]; simpl in *; [|done..].
  by rewrite routing_headers_srv.
Qed.

Lemma chat_limits r body (c : chatCtx A) :
  lims (handleChatCompletions adapters poll_now answers upstream clock metrics telemetry expired r body c).2 = lims c.
Proof.
  unfold handleChatCompletions. case_bool_decide; [done|]. destruct (decode_env body) as [env|e]; [|done].
  case_bool_decide; [done|]. destruct (evaluateQuota _ _ _ _ _) as [quota q]. simpl.
  destruct (v_Reject quota); [done|]. destruct (env_Stream env).
  - rewrite stream_limits. by destruct (bool_decide _).
  - rewrite completion_limits. by destruct (bool_decide _).
Qed.

Lemma alias_rows_limits i t snap aliases (s : Server A) :
  sv_limits (alias_rows adapters poll_now answers i t snap aliases s).2 = sv_limits s.
Proof.
  revert i s; induction aliases as [|a aliases IH]; intros i s; simpl; [done|].
  pose proof (resolve_at_limits i t (al_Name a) s) as Hr. destruct (resolve_at _ _ _ _ _ _ _) as [got s1].
  pose proof (IH (S i) s1) as Hi. destruct (alias_rows _ _ _ _ _ _ _ s1) as [rows s2]. simpl in *. congruence.
Qed.

Lemma health_limits r (s : Server A) : sv_limits (handleHealth adapters poll_now answers r s).2 = sv_limits s.
Proof.
  unfold handleHealth. destruct (hc_get _ _ _); [done|]. unfold buildHealth.
  pose proof (catalog_get_limits 0 (TenantID r) s) as H0'. destruct (catalog_get _ _ _ 0 _ _) as [got s1].
  destruct (catalog_health _ _ _) as [cat stale].
  pose proof (catalog_get_limits 1 (TenantID r) s1) as H1'. destruct (catalog_get _ _ _ 1 _ _) as [got' s2].
  destruct (evaluateQuota _ _ _ _ _) as [v q]. simpl in *. congruence.
Qed.

Lemma stream_writer_limits st accepts now d1 d2 reads bytes (c c' : chatCtx A) :
  stream_writer metrics telemetry st accepts now d1 d2 reads c = Some (bytes, Some c') → lims c' = lims c.
Proof.
  unfold stream_writer, record. destruct (relaySSE _ _ _ _) as [[[[o u] stalled] err]|]; [|done].
  destruct (metrics && _); [done|]. intros [= _ <-]. apply record_limits.
Qed.

Lemma stream_writer_rows st accepts now d1 d2 reads bytes r (c c' : chatCtx A) :
  st_identity st = identity_of r → Forall (row_of_caller r) (cx_recorded c) →
  stream_writer metrics telemetry st accepts now d1 d2 reads c = Some (bytes, Some c') →
  Forall (row_of_caller r) (cx_recorded c').
Proof.
  intros Hi Hc. unfold stream_writer, record. destruct (relaySSE _ _ _ _) as [[[[o u] stalled] err]|]; [|done].
  destruct (metrics && _); [done|]. intros [= _ <-]. unfold record_row_of. destruct telemetry; [|done]. simpl. apply Forall_app. split; [done|].
  constructor; [|done]. unfold row_of_caller. simpl. by rewrite Hi.
Qed.

Lemma lift_rows {X} (f : X → data_answer) (h : handler A X) (c : chatCtx A) r :
  (∀ x, is_stream (Ok (f x)) = false) → cx_recorded c = [] →
  let '(out, c') := lift f h c in
  Forall (row_of_caller r) (cx_recorded c') ∧
  match out with Ok (AChat (CStream st)) => st_identity st = identity_of r | _ => True end.
Proof.
  intros Hf Hc. unfold lift. destruct (h (cx_srv c)) as [[x|e] s]; simpl; rewrite Hc; (split; [done|]); [|done].
  specialize (Hf x). by destruct (f x) as [[]| | | | | |].
Qed.

(** Only a completion is metered, under its caller's identity. *)
Lemma route_rows r body rt (c : chatCtx A) :
  prepared (cx_srv c) c →
  let '(out, c') := data_handler adapters poll_now answers upstream clock metrics telemetry expired r body rt c in
  Forall (row_of_caller r) (cx_recorded c') ∧
  match out with Ok (AChat (CStream st)) => st_identity st = identity_of r | _ => True end.
Proof.
  intros Hp. pose proof Hp as (Hr & _). destruct rt; cbn [data_handler]; try (by apply lift_rows).
  - destruct (handleChatCompletions _ _ _ _ _ _ _ _ _ _ _) as [out c'] eqn:E.
    apply rows_are_the_callers in E as [E1 E2]; [|done]. split; [done|]. by destruct out as [[|]|].
  - by rewrite Hr.
Qed.

Lemma route_one_row r body rt (c : chatCtx A) :
  prepared (cx_srv c) c →
  let '(out, c') := data_handler adapters poll_now answers upstream clock metrics telemetry expired r body rt c in
  (length (cx_recorded c') + (if is_stream out then 1 else 0) ≤ 1)%nat.
Proof.
  intros Hp. pose proof Hp as (Hr & _).
  assert (∀ {X} (f : X → data_answer) (h : handler A X), (∀ x, is_stream (Ok (f x)) = false) →
    let '(out, c') := lift f h c in (length (cx_recorded c') + (if is_stream out then 1 else 0) ≤ 1)%nat) as Hlift.
  { intros X f h Hf. unfold lift. destruct (h (cx_srv c)) as [[x|e] s]; cbn [cx_recorded with_srv]; rewrite Hr, ?Hf; simpl; lia. }
  destruct rt; cbn [data_handler]; try (by apply Hlift).
  - destruct (handleChatCompletions _ _ _ _ _ _ _ _ _ _ _) as [out c'] eqn:E.
    apply one_row_at_most in E; [|done]. by destruct out as [[|]|].
  - rewrite Hr. simpl. lia.
Qed.

(** No route touches the limiter. *)
Lemma route_limits r body rt (c : chatCtx A) :
  lims (data_handler adapters poll_now answers upstream clock metrics telemetry expired r body rt c).2 = lims c.
Proof.
  destruct rt; cbn [data_handler]; unfold lift.
  - pose proof (chat_limits r body c) as Hc. by destruct (handleChatCompletions _ _ _ _ _ _ _ _ _ _ _) as [out c'].
  - unfold handleListModels, hbind, map_err, aliasObjects.
    pose proof (catalog_get_limits 0 (TenantID r) (cx_srv c)) as Hc.
    destruct (catalog_get _ _ _ 0 _ _) as [[snap|e] s]; simpl in *; [|done].
    pose proof (alias_rows_limits 1 (TenantID r) snap (ListAliases (sv_Store s) (TenantID r)) s) as Ha.
    destruct (alias_rows _ _ _ _ _ _ _ _) as [rows s']. simpl in *. congruence.
  - unfold handleGetModel, hbind, map_err, aliasObjects, guard. case_bool_decide; simpl; [done|].
    pose proof (catalog_get_limits 0 (TenantID r) (cx_srv c)) as Hc.
    destruct (catalog_get _ _ _ 0 _ _) as [[snap|e] s]; simpl in *; [|done].
    destruct (sn_byID snap !! _); simpl; [done|].
    pose proof (alias_rows_limits 1 (TenantID r) snap (ListAliases (sv_Store s) (TenantID r)) s) as Ha.
    destruct (alias_rows _ _ _ _ _ _ _ _) as [rows s']. simpl in *.
    destruct (List.find _ _); simpl; congruence.
  - unfold handleUsage, hbind, of_res, asks, map_err. destruct (usageWindow r) as [[[w since] until]|e]; simpl; [|done].
    destruct (quotaSlots _ _ _ _); simpl; [|done]. by destruct (foldl _ _ _).
  - unfold handleUsageBreakdown, hbind, of_res, asks, map_err.
    destruct (usageWindow r) as [[[w since] until]|e]; simpl; [|done].
    destruct (negb _); simpl; [done|]. by destruct (UsageBreakdown _ _ _ _ _).
  - pose proof (health_limits r (cx_srv c)) as Hh. by destruct (handleHealth _ _ _ _ _) as [sr s].
  - done.
  - done.
Qed.
End frames.

(** ** The correlation id *)

Fixpoint all_bytes (P : ascii → bool) (s : string) : bool :=
  match s with "" => true | String c s' => P c && all_bytes P s' end.

Lemma all_bytes_app P s t : all_bytes P (s +:+ t) = all_bytes P s && all_bytes P t.
Proof. induction s as [|c s IH]; [done|]. rewrite str_app_cons. simpl. by rewrite IH, andb_assoc. Qed.

Definition printing (c : ascii) : bool := negb (control c).

Lemma high_byte_prints lo hi c : 128 ≤ lo → between lo hi c = true → printing c = true.
Proof.
  intros Hlo [Hc _]%andb_true_iff. unfold printing, control. apply Z.leb_le in Hc.
  destruct (Z.ltb_spec (byte_of c) 32), (Z.eqb_spec (byte_of c) 127); simpl; lia.
Qed.

(** A sequence of more than one byte holds no control character. *)
Lemma rune_prints s w : rune_width s = Some w → w ≠ 1%nat → all_bytes printing (str_take w s) = true.
Proof.
  destruct s as [|a [|b [|c [|d s]]]]; simpl; unfold continuation; intros Hw Hne;
    repeat match type of Hw with
      | (if ?x then _ else _) = _ => let E := fresh "E" in destruct x eqn:E; [try (injection Hw as <-; done)|]
      end; try done; injection Hw as <-; simpl;
    repeat match goal with
      | E : _ && _ = true |- _ => apply andb_true_iff in E as [? ?]
      | E : between _ _ _ = true |- _ => apply high_byte_prints in E; [|first [lia|case_match; lia]]
      end; repeat match goal with E : printing _ = true |- _ => rewrite E end; done.
Qed.

Lemma rune_width_pos s w : rune_width s = Some w → (1 ≤ w ≤ 4)%nat ∧ (w ≤ String.length s)%nat.
Proof.
  destruct s as [|a [|b [|c [|d s]]]]; simpl; intros Hw;
    repeat match type of Hw with (if ?x then _ else _) = _ => destruct x end; try done; injection Hw as <-; lia.
Qed.

Lemma drop_controls_clean fuel s : all_bytes printing (drop_controls fuel s) = true.
Proof.
  revert s; induction fuel as [|n IH]; intros s; [done|]. destruct s as [|a s]; [done|].
  cbn [drop_controls]. destruct (rune_width (String a s)) as [w|] eqn:Ew.
  - destruct (Nat.eqb_spec w 1) as [->|Hw].
    + destruct (control a) eqn:Ec; [apply IH|]. simpl. unfold printing at 1. by rewrite Ec, IH.
    + rewrite all_bytes_app, IH, andb_true_r. by apply rune_prints.
  - rewrite all_bytes_app, IH. done.
Qed.

Lemma drop_controls_length fuel s : (String.length s ≤ fuel)%nat →
  (String.length (drop_controls fuel s) ≤ 3 * String.length s)%nat.
Proof.
  revert s; induction fuel as [|n IH]; intros s Hf; [by destruct s; simpl in *; lia|].
  destruct s as [|a s]; [simpl; lia|]. cbn [drop_controls]. simpl in Hf.
  destruct (rune_width (String a s)) as [w|] eqn:Ew.
  - destruct (Nat.eqb_spec w 1) as [->|Hw].
    + pose proof (IH s ltac:(lia)). destruct (control a); simpl; lia.
    + apply rune_width_pos in Ew as [Hp Hl]. rewrite str_length_app.
      pose proof (IH (str_drop w (String a s))) as Hd. rewrite str_drop_length in Hd.
      pose proof (str_take_length w (String a s)) as Ht. simpl in Hd, Ht, Hl |- *. lia.
  - rewrite str_length_app. pose proof (IH s ltac:(lia)). simpl. lia.
Qed.

(** ** The permit of a request *)

Lemma enter_refused cfg now key tenant r st e st' :
  limitTenant_enter cfg now key tenant r st = (Err e, st') → ls_limiter st' = ls_limiter st.
Proof.
  unfold limitTenant_enter. destruct key as [key|]; [|done]. destruct tenant as [t|]; [|done].
  cbv zeta. set (lim := limitsFor _ _).
  destruct (_ <? rq_ContentLength r); [by intros [= _ <-]|].
  destruct (_ <? rq_BodyLen r); [by intros [= _ <-]|].
  destruct (if rateExempt _ then _ else _) as [[wait []] rates]; [|by intros [= _ <-]]. cbn [negb ls_limiter].
  by destruct (acquire _ _ _) as [[p|] l']; [|intros [= _ <-]].
Qed.

Lemma enter_ok cfg now key tenant r st held st' :
  limitTenant_enter cfg now key tenant r st = (Ok held, st') →
  (held = None ∧ st' = st) ∨
  ∃ p k, k_ID <$> key = Some k ∧ held = Some {| sl_adopted := false; sl_release := p |} ∧
    (∀ k', LimitsFacts.open (ls_limiter st') k' =
           LimitsFacts.open (ls_limiter st) k' + LimitsFacts.one (bool_decide (k = k'))) ∧
    permits (ls_limiter st') !! p = Some (k, false).
Proof.
  destruct key as [key|]; [|by intros [= <- <-]; left]. destruct tenant as [t|]; [|by intros [= <- <-]; left].
  intros (p & lim & -> & E)%LimitsFacts.enter_Ok. right. exists p, (k_ID key). do 2 (split; [done|]). split.
  - intros k'. by rewrite (LimitsFacts.open_acquire _ _ _ _ _ _ E).
  - by eapply LimitsFacts.acquired_permit.
Qed.

(** ** Component theorems *)

Module GatewayFacts.

Section props.
Context `{Unicode} `{JsonStream} `{Crypto} `{HttpDates}.
Context {A : Type} (adapters : gmap string A).
Context (poll_now : nat → Z * Z) (answers : nat → nat → A → Credential → res message (list Model)).
Context (upstream : list (call A) → call A → DoResult) (clock : nat → Z).
Context (metrics telemetry expired : bool).
Context (render : res error data_answer → string).

Abbreviation serve := (serve_v1 adapters poll_now answers upstream clock metrics telemetry expired render).
Abbreviation limiter s := (ls_limiter (sv_limits s)).

(** The credential an arrival presents, as the data plane judges it. *)
Definition credential (a : arrival) (s : Server A) : res Error (APIKey * option Tenant) :=
  auth (sv_Config s) (sv_Store s) (ar_auth a) PlaneData (hr_header (ar_req a) "Authorization").

(** The gates of an arrival: draining, the body ceiling, authentication. *)
Definition gate (a : arrival) (s : Server A) : res Error (APIKey * option Tenant) :=
  let! _ := front_gates a s in credential a s.

(** Past the gates. *)
Definition inside (a : arrival) (kt : APIKey * option Tenant) (c : chatCtx A) :
    res error data_answer * option nat * chatCtx A :=
  let r := with_auth (identify a) kt in
  capturing render a r (limitTenant a r
    (data_handler adapters poll_now answers upstream clock metrics telemetry expired r (ar_body a) (ar_route a))) c.

Lemma greeted_prepared a (s : Server A) :
  cx_srv (greeted a s) = s ∧ prepared s (greeted a s) ∧
  cx_headers (greeted a s) !! HeaderRequestID = Some (NewID IDRequest (ar_rnd a)).
Proof.
  unfold greeted. split; [by case_bool_decide|].
  split; [unfold prepared|]; case_bool_decide; simpl; simplify_map_eq; auto 10.
Qed.

Lemma handle_gate a c :
  handle_v1 adapters poll_now answers upstream clock metrics telemetry expired render a c =
    match credential a (cx_srv c) with Err e => (Err (ErrApi e), None, c) | Ok kt => inside a kt c end.
Proof. unfold handle_v1, credential, inside. by destruct (auth _ _ _ _ _). Qed.

Lemma serve_gate a s :
  ∃ c, cx_srv c = s ∧ prepared s c ∧ cx_headers c !! HeaderRequestID = Some (NewID IDRequest (ar_rnd a)) ∧
    serve a s = match gate a s with
                | Err e => (Err (ErrApi e), None,
                    if is_ok (refuseWhenDraining (sv_Config s) (sv_draining s) (hr_path (ar_req a)))
                    then c else set_header c "Connection" "close")
                | Ok kt => inside a kt c
                end.
Proof.
  destruct (greeted_prepared a s) as (E & Hp & Hh). exists (greeted a s). split_and!; [done..|].
  unfold serve_v1, gate. rewrite handle_gate, E. unfold front_gates.
  change (hr_path (identify a)) with (hr_path (ar_req a)).
  destruct (refuseWhenDraining _ _ _); simpl; [|done]. destruct (limitBody _ _ _); simpl; [|done].
  by destruct (credential a s).
Qed.

(** Whose credential the data plane takes. *)
Lemma credential_key a s kt :
  mem_ok (sv_Store s) → credential a s = Ok kt →
  k_Hash kt.1 = HashAPIKey (bearer (hr_header (ar_req a) "Authorization")) ∧
  (∃ ptr, live (sv_Store s) ptr kt.1) ∧ Active kt.1 (ar_auth a) = true ∧ k_Plane kt.1 = PlaneData ∧
  TenantID (with_auth (identify a) kt) = k_TenantID kt.1.
Proof.
  intros Hm. unfold credential, auth. set (raw := bearer _).
  case_bool_decide; [done|]. destruct (bootstrapMatches _ _); [done|].
  destruct (PlaneOf raw) as [plane|]; [|done]. case_bool_decide; simpl; [|done].
  unfold ResolveKey. destruct (mem_keysByHash _ !! HashAPIKey raw) as [ptr|] eqn:Eh; simpl; [|done].
  destruct (ko_hash _ (mo_keys _ Hm) _ _ Eh) as (k & Hk & Hh). unfold deref. rewrite (proj1 Hk).
  destruct (Active k (ar_auth a)) eqn:Ea; simpl; [|done].
  destruct (decide (k_TenantID k = "")) as [Et|Et];
    [rewrite bool_decide_eq_true_2 by done|rewrite bool_decide_eq_false_2 by done].
  - case_bool_decide; simpl; [|done]. intros [= <-]. split_and!; eauto.
  - destruct (mem_tenants _ !! k_TenantID k) as [t|] eqn:Eten; [|done].
    case_bool_decide; simpl; [|done]. destruct (bool_decide _); [done|]. intros [= <-].
    destruct (to_id _ (mo_tenants _ Hm) _ _ Eten) as [Ei _]. split_and!; eauto.
Qed.

(** Who gets past the gates on the data plane. *)
Lemma gate_credential a s kt : gate a s = Ok kt → credential a s = Ok kt.
Proof. unfold gate. by destruct (front_gates a s). Qed.

Lemma gate_key a s kt :
  mem_ok (sv_Store s) → gate a s = Ok kt →
  k_Hash kt.1 = HashAPIKey (bearer (hr_header (ar_req a) "Authorization")) ∧
  (∃ ptr, live (sv_Store s) ptr kt.1) ∧ Active kt.1 (ar_auth a) = true ∧ k_Plane kt.1 = PlaneData ∧
  TenantID (with_auth (identify a) kt) = k_TenantID kt.1.
Proof. intros Hm Hg%gate_credential. by apply credential_key. Qed.

Lemma inside_run a kt c0 out permit c :
  prepared (cx_srv c0) c0 → inside a kt c0 = (out, permit, c) →
  let r := with_auth (identify a) kt in
  let s := cx_srv c0 in
  ∃ got st, limitTenant_enter (sv_Config s) (ar_limit a) (hr_key r) (hr_tenant r)
      {| rq_ContentLength := ar_length a; rq_BodyLen := Z.of_nat (String.length (ar_body a));
         Limits.rq_Path := hr_path r |} (sv_limits s) = (got, st) ∧
    match got with
    | Err e => out = Err (ErrApi e) ∧ permit = None ∧ cx_recorded c = [] ∧ sv_limits (cx_srv c) = st
    | Ok held => ∃ c1 c2, prepared (cx_srv c1) c1 ∧ cx_srv c1 = set_limits s st ∧
        data_handler adapters poll_now answers upstream clock metrics telemetry expired r (ar_body a) (ar_route a) c1
          = (out, c2) ∧
        permit = (adopt held out).1 ∧ cx_recorded c = cx_recorded c2 ∧
        sv_limits (cx_srv c) = limitTenant_exit (adopt held out).2 (sv_limits (cx_srv c2))
    end.
Proof.
  intros Hp. unfold inside, capturing, limitTenant. set (r := with_auth (identify a) kt). cbv zeta.
  set (on := match hr_tenant r with Some t => dc_Enabled (t_DebugCapture t) | None => false end).
  set (c1 := if on then set_header c0 _ _ else c0).
  assert (cx_srv c1 = cx_srv c0 ∧ ∀ st, prepared (set_limits (cx_srv c0) st) (with_srv c1 (set_limits (cx_srv c0) st)))
    as [-> Hp1].
  { subst c1. destruct Hp as (P1 & P2 & _ & _ & _ & _ & P6).
    destruct on; (split; [done|]); intros st; unfold prepared; simpl; simplify_map_eq; auto 10. }
  destruct (limitTenant_enter _ _ _ _ _ _) as [got st]. specialize (Hp1 st).
  destruct got as [held|e].
  - set (c2 := with_srv c1 _) in *. destruct (data_handler _ _ _ _ _ _ _ _ _ _ _ c2) as [o c3] eqn:Eh.
    destruct (adopt held o) as [permit' held'] eqn:Ea.
    destruct (match o with Err e => panicked e | Ok _ => false end);
      [|destruct (captureDebug _ _ _ _ _ _ _ _ _) as [b caps]]; intros [= <- <- <-];
      (do 2 eexists; split; [done|]; exists c2, c3; rewrite Ea; done).
  - destruct (panicked _); [|destruct (captureDebug _ _ _ _ _ _ _ _ _) as [b caps]]; intros [= <- <- <-];
      (do 2 eexists; split; [done|]; simpl; by destruct Hp1 as (? & _)).
Qed.

(** Whoever is turned away changes nothing. A request the gateway refuses because
    it is draining, because the body is over the deployment's ceiling or because
    the credential does not stand is answered with that error, with its request
    id, and the server is left exactly as it was: no call, no usage row, no
    permit. *)
Theorem turned_away_changes_nothing a s e :
  gate a s = Err e →
  ∃ c, serve a s = (Err (ErrApi e), None, c) ∧ cx_srv c = s ∧ cx_recorded c = [] ∧
    cx_headers c !! HeaderRequestID = Some (NewID IDRequest (ar_rnd a)).
Proof.
  intros Hg. destruct (serve_gate a s) as (c & Ec & (Hr & _) & Hh & ->). rewrite Hg. eexists.
  split; [done|]. destruct (is_ok _); [done|]. simpl. by simplify_map_eq.
Qed.


(** C6: Usage is charged to the credential presented. Every usage row a request
    leaves, and every one its stream leaves when its writer is done, is of a key
    that is stored under the hash of the bearer token, was active when the
    request was authenticated and belongs to the data plane; it carries that
    key's prefix, its tenant and the request's own id. *)
Theorem usage_is_charged_to_the_credential a s out permit c :
  mem_ok (sv_Store s) → serve a s = (out, permit, c) →
  let charged row := ∃ key,
    k_Hash key = HashAPIKey (bearer (hr_header (ar_req a) "Authorization")) ∧
    (∃ ptr, live (sv_Store s) ptr key) ∧ Active key (ar_auth a) = true ∧ k_Plane key = PlaneData ∧
    u_KeyPrefix row = k_Prefix key ∧ u_TenantID row = k_TenantID key ∧
    u_RequestID row = NewID IDRequest (ar_rnd a) in
  Forall charged (cx_recorded c) ∧
  match out with
  | Ok (AChat (CStream st)) => ∀ accepts now d1 d2 reads bytes c',
      finish_stream metrics telemetry st permit accepts now d1 d2 reads c = Some (bytes, Some c') →
      Forall charged (cx_recorded c')
  | _ => True
  end.
Proof.
  intros Hm. destruct (serve_gate a s) as (c0 & <- & Hp & _ & ->). destruct (gate a _) as [kt|e] eqn:Eg.
  2:{ intros [= <- <- <-] charged. destruct Hp as (Hr & _). split; [|done]. destruct (is_ok _); simpl; by rewrite Hr. }
  intros Hrun charged.
  assert (∀ row, row_of_caller (with_auth (identify a) kt) row → charged row) as Hch.
  { intros row (R1 & _ & R3 & R4). destruct (gate_key _ _ _ Hm Eg) as (K1 & K2 & K3 & K4 & K5).
    exists kt.1. rewrite R1, R3, R4, K5. done. }
  apply inside_run in Hrun as (got & st & El & Hg); [|done].
  destruct got as [held|e]; [|destruct Hg as (-> & _ & -> & _); by split].
  destruct Hg as (c1 & c2 & Hp1 & E1 & Hh & _ & Er & _). rewrite Er.
  pose proof (route_rows adapters poll_now answers upstream clock metrics telemetry expired
    (with_auth (identify a) kt) (ar_body a) (ar_route a) c1 Hp1) as Hrows. rewrite Hh in Hrows.
  destruct Hrows as [H1' H2']. split; [by eapply Forall_impl|].
  destruct out as [[[|stm]| | | | | |]|]; try done.
  intros accepts now d1 d2 reads bytes c' Hfin. unfold finish_stream in Hfin.
  destruct (stream_writer _ _ _ _ _ _ _ _ c) as [[bs [c3|]]|] eqn:Ew; [|done..].
  rewrite <-Er in H1'. pose proof (stream_writer_rows _ _ _ _ _ _ _ _ _ _ _ _ H2' H1' Ew) as Hall.
  injection Hfin as _ <-. eapply Forall_impl; [|exact Hch]. by destruct permit.
Qed.
End props.

(** The caller's correlation id is safe to log and to echo: no byte of it is a
    control character, so it cannot break a log line or a header, and it has at
    most three bytes for each the deployment accepts. *)
Theorem client_id_is_one_clean_line `{Unicode} raw :
  all_bytes printing (sanitizeCorrelationID raw) = true ∧
  (String.length (sanitizeCorrelationID raw) ≤ 3 * MaxClientRequestID)%nat.
Proof.
  unfold sanitizeCorrelationID. set (cut := if (_ <? _)%nat then _ else _). split; [apply drop_controls_clean|].
  pose proof (drop_controls_length (String.length cut) cut ltac:(lia)) as Hl.
  assert (String.length cut ≤ MaxClientRequestID)%nat; [|lia]. subst cut.
  destruct (Nat.ltb_spec MaxClientRequestID (String.length (TrimSpace raw))); [rewrite str_take_length|]; lia.
Qed.

(** *** Witnesses *)

#[local] Existing Instance ascii_only.
#[local] Existing Instance binary_codec.
#[local] Existing Instance DispatchProps.no_dates.
#[local] Existing Instance CacheFacts.one_document.
#[local] Existing Instance MemoryProps.Store.toy_hash.

(** The ceiling is on the bytes that come in: an invalid byte is written back as
    three, and 128 of them leave an id of 384. *)
Theorem client_id_outgrows_its_ceiling :
  let raw := byte_str (replicate 128 255%nat) in
  String.length raw = MaxClientRequestID ∧
  String.length (sanitizeCorrelationID raw) = (3 * MaxClientRequestID)%nat.
Proof. by vm_compute. Qed.

Import MemoryProps.Store ChatFacts.

Definition acme_pool : mop := OpCreateProvider "p" 6
  {| p_ID := ""; p_TenantID := acme; p_Name := "one"; p_Kind := "openai"; p_BaseURL := "http://u";
     p_Enabled := true; p_KeyStrategy := ""; p_Keys := ["k"]; p_KeyPrefixes := []; p_CreatedAt := 0 |}.

Definition door_server : Server () := set_store (chat_server (NewMemory false)) (apply_mop demo acme_pool).

Definition at_the_door (stream : bool) (token : string) : arrival :=
  {| ar_req := {| hr_key := None; hr_tenant := None; hr_id := ""; hr_clientID := ""; hr_method := "POST";
                  hr_path := "/v1/chat/completions"; hr_param _ := ""; hr_query _ := "";
                  hr_header h := if bool_decide (h = "Authorization") then "Bearer " +:+ token else "";
                  hr_now n := 50 + Z.of_nat n; hr_rnd _ := "" |};
     ar_body := chat_text stream; ar_length := Z.of_nat (String.length (chat_text stream)); ar_route := PostChat;
     ar_rnd := "q"; ar_auth := 50; ar_limit := 51; ar_capture := 60; ar_draw := fzero; ar_capture_rnd := "" |}.

Abbreviation let_in := (serve_v1 {["openai" := ()]} (λ _, (0, 0)) one_model chat_upstream
  DispatchProps.demo_clock true true false (λ _, "")).

Definition answered := let_in (at_the_door false "cg-YWJj") door_server.
Definition streamed := let_in (at_the_door true "cg-YWJj") door_server.
Definition stranger := let_in (at_the_door false "cg-YWJk") door_server.

Lemma door_ok : mem_ok (sv_Store door_server).
Proof. exact (apply_mop_ok demo acme_pool demo_ok I). Qed.

Lemma turned_away_changes_nothing_witness :
  ∃ e, stranger.1 = (Err (ErrApi e), None) ∧ err_Status e = 401 ∧ cx_recorded stranger.2 = [].
Proof.
  destruct (gate (at_the_door false "cg-YWJk") door_server) as [kt|e] eqn:Eg; [by vm_compute in Eg|].
  destruct (turned_away_changes_nothing {["openai" := ()]} (λ _, (0, 0)) one_model chat_upstream
    DispatchProps.demo_clock true true false (λ _, "") _ _ _ Eg) as (c & Er & _ & Hc & _).
  exists e. unfold stranger. rewrite Er. split; [reflexivity|]. split; [|exact Hc].
  vm_compute in Eg. injection Eg as <-. reflexivity.
Defined.

Abbreviation permits_of x k := (LimitsFacts.open (ls_limiter (sv_limits x)) k).


Lemma usage_is_charged_to_the_credential_witness :
  (u_TenantID <$> cx_recorded answered.2) = [acme] ∧
  Forall (λ row, ∃ key, k_Hash key = HashAPIKey "cg-YWJj" ∧ u_TenantID row = k_TenantID key) (cx_recorded answered.2).
Proof.
  split; [vm_compute; reflexivity|].
  destruct (usage_is_charged_to_the_credential {["openai" := ()]} (λ _, (0, 0)) one_model chat_upstream
    DispatchProps.demo_clock true true false (λ _, "") (at_the_door false "cg-YWJj") door_server
    answered.1.1 answered.1.2 answered.2 door_ok ltac:(by rewrite <-!surjective_pairing)) as [Hall _].
  eapply Forall_impl; [exact Hall|]. intros row (key & Hh & _ & _ & _ & _ & Ht & _). exists key.
  split; [|exact Ht]. rewrite Hh. vm_compute. reflexivity.
Defined.
End GatewayFacts.
