(* ===== verification/OpenAI.v ===== *)
(** * The OpenAI adapter (internal/provider/openai.go, compat.go)

    What the gateway sends to a provider and what it makes of the reply. The
    exchange itself is a parameter [exchange]: what [http.Client.Do] and reading
    the body yield for a request, redirects followed. The errors the standard
    library reports for an address or a document it refuses are parameters too.
    A body that breaks off does so with a read of its own, after its last byte. *)

From S2P Require Import Prelude GoStrings GoTime GoFloat GoFormat ApiErr StoreTypes Json Provider Breaker Catalog Resolve Dispatch Server Admin Chat.

#[local] Open Scope Z_scope.
#[local] Open Scope stdpp_scope.

(** ** HTTP, as the client sees it *)

Record HttpRequest := {
  ht_Method : string;
  ht_URL : string;
  ht_Header : gmap string string;
  ht_Body : option string
}.

Inductive HttpReply :=
  | Unreachable (e : error)
  | Replied (status : Z) (header : gmap string string) (body : string) (broken : option error).

(** [io.ReadAll(io.LimitReader(body, limit))] *)
Definition ReadAll (limit : Z) (body : string) (broken : option error) : string * option error :=
  if limit <=? Z.of_nat (String.length body) then (str_take (Z.to_nat limit) body, None) else (body, broken).

(** ** Decoding *)

Definition decode_float (cur : f64) (v : json) : f64 * bool :=
  match v with
  | JNum lit => match ParseFloat lit with Some f => (f, true) | None => (cur, false) end
  | JNull => (cur, true)
  | _ => (cur, false)
  end.

(** One element of [modelsResponse.Data]. *)
Record listed := {
  ls_ID : string;
  ls_OwnedBy : string;
  ls_ContextWindow : Z;
  ls_ContextLength : Z;
  ls_MaxOutputTokens : Z;
  ls_InputCost : f64;
  ls_OutputCost : f64
}.

Definition nothing_listed : listed :=
  {| ls_ID := ""; ls_OwnedBy := ""; ls_ContextWindow := 0; ls_ContextLength := 0; ls_MaxOutputTokens := 0;
     ls_InputCost := fzero; ls_OutputCost := fzero |}.

Section adapter.
Context `{Unicode} `{JsonCodec}.

Definition listed_field (acc : listed * bool) (kv : string * json) : listed * bool :=
  let '(l, ok) := acc in
  let '(k, v) := kv in
  let mk id own win len out inp outp :=
    {| ls_ID := id; ls_OwnedBy := own; ls_ContextWindow := win; ls_ContextLength := len; ls_MaxOutputTokens := out;
       ls_InputCost := inp; ls_OutputCost := outp |} in
  let '(id, own, win, len) := (ls_ID l, ls_OwnedBy l, ls_ContextWindow l, ls_ContextLength l) in
  let '(out, inp, outp) := (ls_MaxOutputTokens l, ls_InputCost l, ls_OutputCost l) in
  if EqualFold k "id" then
    let '(x, fine) := decode_string id v in (mk x own win len out inp outp, ok && fine)
  else if EqualFold k "owned_by" then
    let '(x, fine) := decode_string own v in (mk id x win len out inp outp, ok && fine)
  else if EqualFold k "context_window" then
    let '(x, fine) := decode_int win v in (mk id own x len out inp outp, ok && fine)
  else if EqualFold k "context_length" then
    let '(x, fine) := decode_int len v in (mk id own win x out inp outp, ok && fine)
  else if EqualFold k "max_output_tokens" then
    let '(x, fine) := decode_int out v in (mk id own win len x inp outp, ok && fine)
  else if EqualFold k "input_cost_per_mtok" then
    let '(x, fine) := decode_float inp v in (mk id own win len out x outp, ok && fine)
  else if EqualFold k "output_cost_per_mtok" then
    let '(x, fine) := decode_float outp v in (mk id own win len out inp x, ok && fine)
  else (l, ok).

Definition decode_listed (v : json) : listed * bool :=
  match v with
  | JObj fields => foldl listed_field (nothing_listed, true) fields
  | JNull => (nothing_listed, true)
  | _ => (nothing_listed, false)
  end.

(** The field "data"; given twice, the later one stands. *)
Definition models_field (acc : list listed * bool) (kv : string * json) : list listed * bool :=
  if EqualFold kv.1 "data" then
    match kv.2 with
    | JArr items => let ms := decode_listed <$> items in (ms.*1, acc.2 && forallb snd ms)
    | JNull => ([], acc.2)
    | _ => (acc.1, false)
    end
  else acc.

(** [json.Unmarshal] into [modelsResponse] *)
Definition modelsResponse (body : string) : option (list listed) :=
  match Unmarshal body with
  | Some (JObj fields) =>
      let '(ms, ok) := foldl models_field ([], true) fields in if ok : bool then Some ms else None
  | Some JNull => Some []
  | _ => None
  end.

(** [usageEnvelope] and [extractUsage] *)
Definition extractUsage (body : string) : option Usage :=
  match Unmarshal body with
  | Some (JObj fields) =>
      let '(u, ok) := foldl sse_field (None, true) fields in if ok : bool then u else None
  | _ => None
  end.

(** ** The adapters *)

(** The OpenAI adapter with its body ceiling, and the same under a vendor's
    name. *)
Inductive Adapter :=
  | OpenAI (maxResponseBytes : Z)
  | Compat (kind : string) (maxResponseBytes : Z).

Definition Kind (a : Adapter) : string :=
  match a with OpenAI _ => KindOpenAI | Compat kind _ => kind end.

Definition maxResponseBytes (a : Adapter) : Z := match a with OpenAI n | Compat _ n => n end.

Definition userAgent : string := "CogniGate/1.0 (+https://github.com/Life-Experimentalist/CogniGate)".

Definition authorize (cred : Credential) (h : gmap string string) : gmap string string :=
  let h := if bool_decide (cr_APIKey cred = "") then h
           else <["Authorization" := "Bearer " +:+ cr_APIKey cred]> h in
  <["User-Agent" := userAgent]> h.

Section exchange.
Context `{NetUrl} (url_error json_error : string → error).

(** [http.NewRequestWithContext] *)
Definition NewRequest (method url : string) (body : option string) : res error HttpRequest :=
  match url_Parse url with
  | None => Err (url_error url)
  | Some _ => Ok {| ht_Method := method; ht_URL := url; ht_Header := ∅; ht_Body := body |}
  end.

Definition with_header (r : HttpRequest) (h : gmap string string) : HttpRequest :=
  {| ht_Method := ht_Method r; ht_URL := ht_URL r; ht_Header := h; ht_Body := ht_Body r |}.

Definition list_models : message := text "list models: %w".

Definition model_of (l : listed) : Model :=
  {| m_ID := ls_ID l; m_Provider := "";
     m_ContextWindow := if ls_ContextWindow l =? 0 then ls_ContextLength l else ls_ContextWindow l;
     m_MaxOutputTokens := ls_MaxOutputTokens l; m_Capabilities := inferCapabilities (ls_ID l);
     m_InputCostPerMTok := ls_InputCost l; m_OutputCostPerMTok := ls_OutputCost l; m_Deprecated := false |}.

(** [OpenAI.ListModels] past the exchange *)
Definition read_listing (max : Z) (reply : HttpReply) : res error (list Model) :=
  match reply with
  | Unreachable e => Err (ErrWrap list_models e)
  | Replied status _ body broken =>
      let '(body, err) := ReadAll max body broken in
      match err with
      | Some e => Err (ErrWrap list_models e)
      | None =>
          if negb (status =? 200) then
            if (status =? 401) || (status =? 403)
            then Err (ErrText (Msgf "list models: the provider rejected this key (%d)" [FInt status]))
            else Err (ErrText (Msgf "list models: upstream returned %d" [FInt status]))
          else match modelsResponse body with
               | None => Err (ErrWrap (text "list models: malformed catalog response: %w") (json_error body))
               | Some data => Ok (model_of <$> List.filter (λ l, negb (bool_decide (ls_ID l = ""))) data)
               end
      end
  end.

(** Its request. *)
Definition listing_request (cred : Credential) : res error HttpRequest :=
  match NewRequest "GET" (joinURL (cr_BaseURL cred) "/models") None with
  | Err e => Err e
  | Ok req => Ok (with_header req (authorize cred (ht_Header req)))
  end.

(** [OpenAI.ListModels], and [Compat.ListModels] over it *)
Definition ListModels (exchange : HttpRequest → HttpReply) (a : Adapter) (cred : Credential) :
    res error (list Model) :=
  let listing :=
    match listing_request cred with
    | Err e => Err e
    | Ok req => read_listing (maxResponseBytes a) (exchange req)
    end in
  match a with OpenAI _ => listing | Compat _ _ => Compat_ListModels listing end.

(** The request of [OpenAI.Do]. *)
Definition post_request (cred : Credential) (r : Request) : res error HttpRequest :=
  match NewRequest "POST" (joinURL (cr_BaseURL cred) (rq_Path r)) (Some (rq_Body r)) with
  | Err e => Err e
  | Ok req =>
      let h := <["Content-Type" := "application/json"]> (authorize cred (ht_Header req)) in
      Ok (with_header req (if rq_Stream r then <["Accept" := "text/event-stream"]> h else h))
  end.

Definition failed (f : FailureKind) (status latency : Z) : Response :=
  {| rs_StatusCode := status; rs_Header := None; rs_Body := ""; rs_Usage := None; rs_Failure := f;
     rs_Latency := latency |}.

(** [OpenAI.Do] past the exchange: what it returns, and the live body it hands
    up with a stream. *)
Definition read_reply (max : Z) (streaming : bool) (latency : Z) (reply : HttpReply) :
    DoResult * option (string * option error) :=
  match reply with
  | Unreachable e => ((Some (failed FailTransport 0 latency), Some (ErrWrap (text "upstream unreachable: %w") e)), None)
  | Replied status header body broken =>
      let kind := Classify status in
      if negb (bool_decide (kind = FailNone)) then
        ((Some {| rs_StatusCode := status; rs_Header := Some header; rs_Body := (ReadAll (64 * 1024) body broken).1;
                  rs_Usage := None; rs_Failure := kind; rs_Latency := latency |}, None), None)
      else if streaming then
        ((Some {| rs_StatusCode := status; rs_Header := Some header; rs_Body := ""; rs_Usage := None;
                  rs_Failure := FailNone; rs_Latency := latency |}, None), Some (body, broken))
      else
        match ReadAll (wrap64 (max + 1)) body broken with
        | (_, Some e) =>
            ((Some (failed FailTransport 0 latency), Some (ErrWrap (text "reading upstream body: %w") e)), None)
        | (body, None) =>
            if max <? Z.of_nat (String.length body)
            then ((Some (failed FailServer status latency), Some ErrResponseTooLarge), None)
            else ((Some {| rs_StatusCode := status; rs_Header := Some header; rs_Body := body;
                           rs_Usage := extractUsage body; rs_Failure := FailNone; rs_Latency := latency |}, None), None)
        end
  end.

(** [OpenAI.Do] *)
Definition Adapter_Do (exchange : HttpRequest → HttpReply) (a : Adapter) (cred : Credential) (r : Request)
    (latency : Z) : DoResult * option (string * option error) :=
  match post_request cred r with
  | Err e => ((None, Some e), None)
  | Ok req => read_reply (maxResponseBytes a) (rq_Stream r) latency (exchange req)
  end.

(** What the catalog's poll makes of a listing: the models, or the text of the
    error. *)
Definition polled (exchange : HttpRequest → HttpReply) (a : Adapter) (cred : Credential) :
    res message (list Model) :=
  match ListModels exchange a cred with Ok models => Ok models | Err e => Err (error_text e) end.
End exchange.
End adapter.
