(* ===== verification/OpenAIProps.v ===== *)
(** * Theorems about the exchange with a provider

    The cascade decision as a function of what a provider answered, what a
    listing may reveal, and, with the adapter put in the dispatcher's place of
    the upstream, where the bytes of an answer come from. *)

From S2P Require Import Prelude GoStrings GoTime GoFloat GoFormat ApiErr StoreTypes Keys Json Breaker Memory Catalog Resolve Dispatch DispatchFacts Diagnose Cache Config Limits Quota Middleware Capture Events Server Data Admin Provider Chat ChatProps OpenAI.

#[local] Open Scope Z_scope.
#[local] Open Scope stdpp_scope.

Lemma ReadAll_short limit body broken :
  Z.of_nat (String.length body) < limit → ReadAll limit body broken = (body, broken).
Proof. intros Hl. unfold ReadAll. by rewrite (proj2 (Z.leb_gt _ _) Hl). Qed.

(** Reading one byte past a ceiling tells a body over it from one at it. *)
Lemma ReadAll_over max body broken :
  0 ≤ max → max < Z.of_nat (String.length body) →
  (ReadAll (max + 1) body broken).2 = None ∧
  max < Z.of_nat (String.length (ReadAll (max + 1) body broken).1).
Proof.
  intros Hm Hl. unfold ReadAll. rewrite (proj2 (Z.leb_le _ _)) by lia. split; [done|].
  simpl. rewrite str_take_length. lia.
Qed.

Lemma Classify_spec status :
  Classify status =
    if (200 <=? status) && (status <? 300) then FailNone
    else if status =? 429 then FailRateLimit
    else if (400 <=? status) && (status <? 500) then FailClient else FailServer.
Proof.
  unfold Classify. destruct (_ && _) eqn:E1; [done|]. destruct (status =? 429) eqn:E2; [done|].
  destruct (Z.leb_spec 500 status), (Z.leb_spec 400 status), (Z.ltb_spec status 500); simpl; try done; lia.
Qed.

Lemma registry_elem {A} (adapters : gmap string A) kind a :
  Registry_Get adapters kind = Some a → ∃ k, adapters !! k = Some a.
Proof. unfold Registry_Get. destruct (adapters !! kind) eqn:E; [intros [= <-]|]; eauto. Qed.

Module AdapterFacts.

Section props.
Context `{Unicode} `{JsonCodec} `{NetUrl} (url_error json_error : string → error).

(** A success, buffered: whole, over the ceiling, or broken off. *)
Lemma judge_success max latency status header body broken :
  1 ≤ max < maxInt64 → ((200 <=? status) && (status <? 300)) = true →
  judge (read_reply max false latency (Replied status header body broken)).1 =
    if max <? Z.of_nat (String.length body) then Fatal (ErrApi (WithCause (ResponseTooLarge 0) ErrResponseTooLarge))
    else match broken with
         | Some e => if is_response_too_large e
                     then Fatal (ErrApi (WithCause (ResponseTooLarge 0) (ErrWrap (text "reading upstream body: %w") e)))
                     else Cascade true
         | None => Serve {| rs_StatusCode := status; rs_Header := Some header; rs_Body := body;
                            rs_Usage := extractUsage body; rs_Failure := FailNone; rs_Latency := latency |}
         end.
Proof.
  intros Hmax Hs. simpl. rewrite Classify_spec, Hs, bool_decide_eq_true_2 by done. simpl.
  rewrite wrap64_small by (unfold in_int64, minInt64, maxInt64, two63 in *; lia).
  destruct (Z.ltb_spec max (Z.of_nat (String.length body))) as [Hl|Hl].
  - destruct (ReadAll_over max body broken) as [E1 E2]; [lia..|].
    destruct (ReadAll (max + 1) body broken) as [got err]. simpl in *. subst err.
    by rewrite (proj2 (Z.ltb_lt _ _) E2).
  - rewrite ReadAll_short by lia. destruct broken as [e|]; simpl; [done|]. by rewrite (proj2 (Z.ltb_ge _ _)) by lia.
Qed.


(** A listing reveals nothing of the key. Whatever two credentials a provider is
    polled with, if it gives both requests the same reply then the poll has the
    same outcome, error text included. *)
Theorem listing_hides_the_key exchange a base k1 k2 r1 r2 :
  let cred k := {| cr_BaseURL := base; cr_APIKey := k |} in
  listing_request url_error (cred k1) = Ok r1 → listing_request url_error (cred k2) = Ok r2 →
  exchange r1 = exchange r2 →
  ListModels url_error json_error exchange a (cred k1) = ListModels url_error json_error exchange a (cred k2).
Proof. intros cred E1 E2 He. unfold ListModels. by rewrite E1, E2, He. Qed.
End props.

(** The adapter in the dispatcher's place of the upstream: [exchange] may answer
    each call as it likes, given the calls before it. *)
Definition providers_answer `{Unicode} `{JsonCodec} `{NetUrl} (url_error : string → error)
    (exchange : list (call Adapter) → HttpRequest → HttpReply) (latency : list (call Adapter) → Z)
    (pre : list (call Adapter)) (c : call Adapter) : DoResult :=
  (Adapter_Do url_error (exchange pre) (call_adapter c) (call_cred c) (call_req c) (latency pre)).1.

Section composed.
Context `{Unicode} `{JsonStream} `{Crypto} `{HttpDates} `{NetUrl} (url_error : string → error).
Context (exchange : list (call Adapter) → HttpRequest → HttpReply) (latency : list (call Adapter) → Z).
Context (adapters : gmap string Adapter) (poll_now : nat → Z * Z).
Context (answers : nat → nat → Adapter → Credential → res message (list Model)).
Context (clock : nat → Z) (metrics expired : bool).

Abbreviation upstream := (providers_answer url_error exchange latency).
Abbreviation serve := (handleChatCompletions adapters poll_now answers upstream clock metrics true expired).
Abbreviation sent s := (d_calls (sv_Dispatcher s)).

(** Only a reply of the provider serves, and all of it. *)
Lemma served_reply pre c resp :
  1 ≤ maxResponseBytes (call_adapter c) < maxInt64 → rq_Stream (call_req c) = false →
  judge (upstream pre c) = Serve resp →
  ∃ req status header, post_request url_error (call_cred c) (call_req c) = Ok req ∧
    exchange pre req = Replied status header (rs_Body resp) None ∧ 200 <= status < 300 ∧
    Z.of_nat (String.length (rs_Body resp)) ≤ maxResponseBytes (call_adapter c).
Proof.
  intros Hm Hs. unfold providers_answer, Adapter_Do. rewrite Hs.
  destruct (post_request _ _ _) as [req|e] eqn:Er; [|simpl; by destruct (is_response_too_large e)].
  set (max := maxResponseBytes _) in *. intros Hj.
  destruct (exchange pre req) as [e|status header body broken] eqn:Ee.
  { simpl in Hj. by destruct (is_response_too_large e). }
  exists req, status, header. split; [done|]. revert Hj. simpl.
  rewrite Classify_spec. destruct ((200 <=? status) && (status <? 300)) eqn:Est.
  2:{ destruct (status =? 429); [done|]. by destruct ((400 <=? status) && (status <? 500)). }
  rewrite bool_decide_eq_true_2 by done. simpl.
  rewrite wrap64_small by (unfold in_int64, minInt64, maxInt64, two63 in *; lia).
  destruct (Z.le_gt_cases (Z.of_nat (String.length body)) max) as [Hl|Hl].
  - rewrite ReadAll_short by lia. destruct broken as [e|]; [simpl; by destruct (is_response_too_large e)|].
    rewrite (proj2 (Z.ltb_ge _ _)) by lia. intros [= <-]. simpl.
    apply andb_true_iff in Est as [?%Z.leb_le ?%Z.ltb_lt]. done.
  - destruct (ReadAll_over max body broken) as [E1 E2]; [lia..|].
    destruct (ReadAll (max + 1) body broken) as [got err]. simpl in *. subst err.
    by rewrite (proj2 (Z.ltb_lt _ _) E2).
Qed.

(** C34: Nobody gets a cut answer. A buffered 200 that is not a replay is the complete
    body of a 2xx that an enabled provider of the caller's own tenant sent to a
    request carrying one of its keys, and fits the deployment's ceiling; a body
    that is larger or breaks off is never passed on in part. *)
Theorem answers_are_whole r body s status b c' :
  (∀ kind a, adapters !! kind = Some a → 1 ≤ maxResponseBytes a < maxInt64) →
  serve r body (new_ctx s) = (Ok (CBytes status b), c') → cx_headers c' !! HeaderCache ≠ Some cacheHit →
  ∃ pre c req code header, sent (cx_srv c') = sent s ++ pre ++ [c] ∧
    own_call adapters (TenantID r) false (sv_Store s) c ∧
    post_request url_error (call_cred c) (call_req c) = Ok req ∧
    exchange (sent s ++ pre) req = Replied code header b None ∧ 200 <= code < 300 ∧
    Z.of_nat (String.length b) ≤ maxResponseBytes (call_adapter c).
Proof.
  intros Hmax Hrun Hhit. apply ChatFacts.buffered_answer in Hrun as (_ & env & _ & _ & Hcase).
  destruct Hcase as [(result & -> & ((pre & c & S1 & So & _ & S2) & _) & _)|(_ & _ & _ & _ & _ & _ & _ & _ & _ & _ & ?)];
    [|done].
  assert (1 ≤ maxResponseBytes (call_adapter c) < maxInt64) as Hb.
  { destruct So as (_ & p & _ & _ & [k Hk]%registry_elem & _). by eapply Hmax. }
  destruct (served_reply _ c _ Hb (proj1 So) S2) as (req & code & header & R1 & R2 & R3 & R4).
  exists pre, c, req, code, header. done.
Qed.
End composed.

(** *** Witnesses *)

#[local] Existing Instance ascii_only.
#[local] Existing Instance binary_codec.
#[local] Existing Instance DispatchProps.no_dates.
#[local] Existing Instance CacheFacts.one_document.
#[local] Existing Instance CacheFacts.identity_hash.
#[local] Instance any_url : NetUrl := {| url_Parse _ := Some ("http", "u") |}.

(** The read past the ceiling wraps around at the largest one: with
    [max_response_bytes] at the top of its type every buffered answer is empty. *)
Theorem largest_ceiling_empties_answers status header body broken :
  200 <= status < 300 →
  ∃ resp, judge (read_reply maxInt64 false 0 (Replied status header body broken)).1 = Serve resp ∧
    rs_Body resp = "".
Proof.
  intros Hst. simpl. unfold Classify. rewrite (proj2 (Z.leb_le _ _)), (proj2 (Z.ltb_lt _ _)) by lia. simpl.
  unfold ReadAll. change (wrap64 (maxInt64 + 1)) with minInt64.
  rewrite (proj2 (Z.leb_le _ _)) by (unfold minInt64, two63; lia). simpl.
  eexists. split; [reflexivity|]. done.
Qed.

Lemma largest_ceiling_empties_answers_witness :
  ∃ resp, judge (read_reply maxInt64 false 0 (Replied 200 ∅ "answer" None)).1 = Serve resp ∧ rs_Body resp = "".
Proof. apply (largest_ceiling_empties_answers 200 ∅ "answer" None). lia. Defined.


Definition bad_document (_ : string) : error := ErrText (text "invalid document").
Definition bad_address (_ : string) : error := ErrText (text "invalid address").

Lemma listing_hides_the_key_witness :
  let poll k := ListModels bad_address bad_document (λ _, Replied 401 ∅ "" None) (OpenAI 100)
                  {| cr_BaseURL := "http://u"; cr_APIKey := k |} in
  poll "one" = poll "two" ∧ ∃ e, poll "one" = Err e.
Proof.
  intros poll. split; [|by eexists].
  eapply (listing_hides_the_key bad_address bad_document (λ _, Replied 401 ∅ "" None) (OpenAI 100) "http://u"
    "one" "two"); reflexivity.
Defined.

Definition one_listing : string :=
  Marshal (JObj [("data", JArr [JObj [("id", JStr "m"); ("context_length", JNum "8")]; JObj [("id", JStr "")]])]).

Definition provider_exchange (_ : list (call Adapter)) (r : HttpRequest) : HttpReply :=
  if bool_decide (ht_Method r = "GET") then Replied 200 ∅ one_listing None else Replied 200 ∅ "answer" None.

Definition small_adapters : gmap string Adapter := {["openai" := OpenAI 4096]}.

Definition whole_server : Server Adapter :=
  let s := ChatFacts.chat_server (NewMemory false) in
  NewServer (sv_Config s) "" false (sv_Store s) (sv_Catalog s) (sv_Resolver s)
    (NewDispatcher (NewBreaker 5 Minute Minute)) None 0.

Definition whole_run :=
  handleChatCompletions small_adapters (λ _, (0, 0)) (λ _ _, polled bad_address bad_document (provider_exchange []))
    (providers_answer bad_address provider_exchange (λ _, 7)) DispatchProps.demo_clock true true false
    ChatFacts.chat_req (ChatFacts.chat_text false) (new_ctx whole_server).

Lemma answers_are_whole_witness :
  ∃ req code header, provider_exchange [] req = Replied code header "answer" None ∧ 200 <= code < 300.
Proof.
  assert (whole_run.1 = Ok (CBytes 200 "answer")) as Ea by (vm_compute; reflexivity).
  destruct (answers_are_whole bad_address provider_exchange (λ _, 7) small_adapters (λ _, (0, 0))
    (λ _ _, polled bad_address bad_document (provider_exchange [])) DispatchProps.demo_clock true false
    ChatFacts.chat_req (ChatFacts.chat_text false) whole_server 200 "answer" whole_run.2)
    as (pre & c & req & code & header & _ & _ & _ & He & Hc & _).
  - unfold small_adapters. intros kind a [_ <-]%lookup_singleton_Some. clear Ea. simpl. unfold maxInt64, two63. lia.
  - rewrite <-Ea. apply surjective_pairing.
  - clear Ea. vm_compute. discriminate.
  - exists req, code, header. exact (conj He Hc).
Defined.
End AdapterFacts.
