(* ===== verification/Analytics.v ===== *)
(** * The analytics client and the composed store (internal/analytics)

    The client of the usage service and the store that serves the usage plane
    from it and everything else from memory. The service is behind the parameter
    [exchange]; what the standard library says of an address or a document it
    refuses is a parameter too. *)

From S2P Require Import Prelude GoStrings GoTime GoFloat Calendar GoFormat ApiErr StoreTypes Keys Json Memory Provider Config Quota Telemetry Events Server Admin Dispatch Chat OpenAI.
From Stdlib Require Import Ascii.

#[local] Open Scope Z_scope.
#[local] Open Scope stdpp_scope.

(** ** net/http and net/url *)

Definition status_texts : list (Z * string) :=
  [(100, "Continue"); (101, "Switching Protocols"); (102, "Processing"); (103, "Early Hints");
   (200, "OK"); (201, "Created"); (202, "Accepted"); (203, "Non-Authoritative Information");
   (204, "No Content"); (205, "Reset Content"); (206, "Partial Content"); (207, "Multi-Status");
   (208, "Already Reported"); (226, "IM Used"); (300, "Multiple Choices"); (301, "Moved Permanently");
   (302, "Found"); (303, "See Other"); (304, "Not Modified"); (305, "Use Proxy"); (307, "Temporary Redirect");
   (308, "Permanent Redirect"); (400, "Bad Request"); (401, "Unauthorized"); (402, "Payment Required");
   (403, "Forbidden"); (404, "Not Found"); (405, "Method Not Allowed"); (406, "Not Acceptable");
   (407, "Proxy Authentication Required"); (408, "Request Timeout"); (409, "Conflict"); (410, "Gone");
   (411, "Length Required"); (412, "Precondition Failed"); (413, "Request Entity Too Large");
   (414, "Request URI Too Long"); (415, "Unsupported Media Type"); (416, "Requested Range Not Satisfiable");
   (417, "Expectation Failed"); (418, "I'm a teapot"); (421, "Misdirected Request");
   (422, "Unprocessable Entity"); (423, "Locked"); (424, "Failed Dependency"); (425, "Too Early");
   (426, "Upgrade Required"); (428, "Precondition Required"); (429, "Too Many Requests");
   (431, "Request Header Fields Too Large"); (451, "Unavailable For Legal Reasons");
   (500, "Internal Server Error"); (501, "Not Implemented"); (502, "Bad Gateway");
   (503, "Service Unavailable"); (504, "Gateway Timeout"); (505, "HTTP Version Not Supported");
   (506, "Variant Also Negotiates"); (507, "Insufficient Storage"); (508, "Loop Detected");
   (510, "Not Extended"); (511, "Network Authentication Required")].

Definition StatusText (status : Z) : string :=
  match List.find (λ e, e.1 =? status) status_texts with Some e => e.2 | None => "" end.

(** [url.QueryEscape] *)
Definition unreserved (c : ascii) : bool :=
  let n := nat_of_ascii c in
  ((97 <=? n) && (n <=? 122) || (65 <=? n) && (n <=? 90) || (48 <=? n) && (n <=? 57)
   || (n =? 45) || (n =? 95) || (n =? 46) || (n =? 126))%nat.

Definition upper_hex (n : nat) : ascii := ascii_of_nat (if (n <? 10)%nat then 48 + n else 55 + n).

Definition escape_byte (c : ascii) : string :=
  if unreserved c then String c ""
  else if (nat_of_ascii c =? 32)%nat then "+"
  else String "%" (String (upper_hex (nat_of_ascii c / 16)) (String (upper_hex (nat_of_ascii c mod 16)) "")).

Fixpoint QueryEscape (s : string) : string :=
  match s with "" => "" | String c s' => escape_byte c +:+ QueryEscape s' end.

(** [url.Values.Encode] of values given once each *)
Definition Encode (q : list (string * string)) : string :=
  Join ((λ kv, QueryEscape kv.1 +:+ "=" +:+ QueryEscape kv.2) <$> sort_slice (λ a b, String.ltb a.1 b.1) q) "&".

(** ** Errors *)

Record StatusError := { se_Op : string; se_Status : Z; se_Body : string }.

(** [StatusError.Error] *)
Definition StatusError_text (e : StatusError) : message :=
  if bool_decide (se_Body e = "")
  then Msgf "analytics %s: %d %s" [FStr (se_Op e); FInt (se_Status e); FStr (StatusText (se_Status e))]
  else Msgf "analytics %s: %d %s: %s"
         [FStr (se_Op e); FInt (se_Status e); FStr (StatusText (se_Status e)); FStr (se_Body e)].

Definition Permanent (e : StatusError) : bool :=
  if (se_Status e =? 408) || (se_Status e =? 429) then false
  else (400 <=? se_Status e) && (se_Status e <? 500).

(** What a call of the client fails with. *)
Inductive client_error := CStatus (e : StatusError) | COther (e : error).

Definition cause (e : client_error) : error :=
  match e with CStatus e => ErrText (StatusError_text e) | COther e => e end.

(** As telemetry sees it: [errors.As] finds [Permanent] on a [StatusError]. *)
Definition sink_result {X} (r : res client_error X) : option sink_error :=
  match r with
  | Ok _ => None
  | Err (CStatus e) => Some {| se_err := cause (CStatus e); se_Permanent := Some (Permanent e) |}
  | Err (COther e) => Some {| se_err := e; se_Permanent := None |}
  end.

(** ** Documents *)

Definition maxErrorBody : Z := 512.
Definition max_response_bytes : Z := Z.shiftl 4 20.

Section documents.
Context `{Unicode} `{JsonCodec} `{JsonNumbers}.

(** [json.Marshal(rec)]; [None] for a float or an instant it refuses. *)
Definition usage_json (r : UsageRecord) : option json :=
  cost ← float_literal (u_CostUSD r);
  charge ← float_literal (u_ChargeUSD r);
  if (0 <=? Year (u_RecordedAt r)) && (Year (u_RecordedAt r) <=? 9999) then
    Some (JObj (
      [("request_id", JStr (u_RequestID r))] ++
      (if bool_decide (u_ClientRequestID r = "") then []
       else [("client_request_id", JStr (u_ClientRequestID r))]) ++
      [("tenant_id", JStr (u_TenantID r)); ("key_prefix", JStr (u_KeyPrefix r));
       ("provider", JStr (u_Provider r)); ("model", JStr (u_Model r));
       ("requested_model", JStr (u_RequestedModel r)); ("fallback_depth", JNum (Itoa (u_FallbackDepth r)));
       ("prompt_tokens", JNum (Itoa (u_PromptTokens r)));
       ("completion_tokens", JNum (Itoa (u_CompletionToken r)));
       ("total_tokens", JNum (Itoa (u_TotalTokens r))); ("cost_usd", JNum cost); ("charge_usd", JNum charge);
       ("billing_mode", JStr (u_BillingMode r)); ("cached", JBool (u_Cached r));
       ("streamed", JBool (u_Streamed r)); ("status_code", JNum (Itoa (u_StatusCode r)));
       ("duration_ms", JNum (Itoa (u_DurationMS r))); ("recorded_at", JStr (RFC3339Nano (u_RecordedAt r)))]))
  else None.

(** [store.UsageTotals], field by field *)
Definition totals_field (acc : UsageTotals * bool) (kv : string * json) : UsageTotals * bool :=
  let '(t, ok) := acc in
  let '(k, v) := kv in
  let mk reqs cached prompt compl total cost charge :=
    {| ut_Requests := reqs; ut_CachedRequests := cached; ut_PromptTokens := prompt; ut_CompletionTokens := compl;
       ut_TotalTokens := total; ut_CostUSD := cost; ut_ChargeUSD := charge |} in
  let '(reqs, cached, prompt) := (ut_Requests t, ut_CachedRequests t, ut_PromptTokens t) in
  let '(compl, total, cost, charge) := (ut_CompletionTokens t, ut_TotalTokens t, ut_CostUSD t, ut_ChargeUSD t) in
  if EqualFold k "requests" then
    let '(x, fine) := decode_int reqs v in (mk x cached prompt compl total cost charge, ok && fine)
  else if EqualFold k "cached_requests" then
    let '(x, fine) := decode_int cached v in (mk reqs x prompt compl total cost charge, ok && fine)
  else if EqualFold k "prompt_tokens" then
    let '(x, fine) := decode_int prompt v in (mk reqs cached x compl total cost charge, ok && fine)
  else if EqualFold k "completion_tokens" then
    let '(x, fine) := decode_int compl v in (mk reqs cached prompt x total cost charge, ok && fine)
  else if EqualFold k "total_tokens" then
    let '(x, fine) := decode_int total v in (mk reqs cached prompt compl x cost charge, ok && fine)
  else if EqualFold k "cost_usd" then
    let '(x, fine) := decode_float cost v in (mk reqs cached prompt compl total x charge, ok && fine)
  else if EqualFold k "charge_usd" then
    let '(x, fine) := decode_float charge v in (mk reqs cached prompt compl total cost x, ok && fine)
  else (t, ok).

Definition decode_totals (body : string) : option UsageTotals :=
  match Unmarshal body with
  | Some (JObj fields) =>
      let '(t, ok) := foldl totals_field (StoreTypes.no_usage, true) fields in if ok : bool then Some t else None
  | Some JNull => Some StoreTypes.no_usage
  | _ => None
  end.

(** [store.UsageBucket]: its key and the embedded totals. *)
Definition bucket_field (acc : UsageBucket * bool) (kv : string * json) : UsageBucket * bool :=
  let '(b, ok) := acc in
  if EqualFold kv.1 "key" then
    let '(x, fine) := decode_string (ub_Key b) kv.2 in ({| ub_Key := x; ub_Totals := ub_Totals b |}, ok && fine)
  else let '(t, ok) := totals_field (ub_Totals b, ok) kv in ({| ub_Key := ub_Key b; ub_Totals := t |}, ok).

Definition empty_bucket : UsageBucket := {| ub_Key := ""; ub_Totals := StoreTypes.no_usage |}.

Definition decode_bucket (v : json) : UsageBucket * bool :=
  match v with
  | JObj fields => foldl bucket_field (empty_bucket, true) fields
  | JNull => (empty_bucket, true)
  | _ => (empty_bucket, false)
  end.

Definition decode_buckets (body : string) : option (list UsageBucket) :=
  match Unmarshal body with
  | Some (JArr items) =>
      let bs := decode_bucket <$> items in if forallb snd bs then Some bs.*1 else None
  | Some JNull => Some []
  | _ => None
  end.
End documents.

(** ** The client *)

Record Client := { cl_base : string; cl_token : string; cl_timeout : Z }.

Section client.
Context `{Unicode} `{JsonCodec} `{JsonNumbers} `{NetUrl} (url_error json_error : string → error).

Definition NewClient (cfg : AnalyticsCfg) : res error Client :=
  match url_Parse (an_BaseURL cfg) with
  | None => Err (ErrWrap (Msgf "parsing analytics.base_url %q: %w" [FStr (an_BaseURL cfg)])
                   (url_error (an_BaseURL cfg)))
  | Some (scheme, host) =>
      if negb (bool_decide (scheme = "http")) && negb (bool_decide (scheme = "https")) then
        Err (ErrText (Msgf "analytics.base_url %q must be an http or https URL" [FStr (an_BaseURL cfg)]))
      else if bool_decide (host = "") then
        Err (ErrText (Msgf "analytics.base_url %q names no host" [FStr (an_BaseURL cfg)]))
      else Ok {| cl_base := TrimRight (an_BaseURL cfg) "/"; cl_token := an_Token cfg;
                 cl_timeout := if an_Timeout cfg <=? 0 then 10 * Second else an_Timeout cfg |}
  end.

Definition stamp (t : Z) : string := RFC3339Nano t.

(** The request of [do]. *)
Definition do_request (c : Client) (method path : string) (query : list (string * string))
    (body : option string) : res error HttpRequest :=
  let target := cl_base c +:+ path in
  let target := if bool_decide (query = []) then target else target +:+ "?" +:+ Encode query in
  match NewRequest url_error method target body with
  | Err e => Err e
  | Ok req =>
      let h := ht_Header req in
      let h := if is_None_b body then h else <["Content-Type" := "application/json"]> h in
      let h := <["Accept" := "application/json"]> h in
      let h := if bool_decide (cl_token c = "") then h else <["Authorization" := "Bearer " +:+ cl_token c]> h in
      Ok (with_header req h)
  end.

(** [do] past the exchange *)
Definition do_reply (op : string) (reply : HttpReply) : res client_error string :=
  match reply with
  | Unreachable e => Err (COther (ErrWrap (Msgf "analytics %s: %w" [FStr op]) e))
  | Replied status _ body broken =>
      if 300 <=? status then
        Err (CStatus {| se_Op := op; se_Status := status;
                        se_Body := TrimSpace (ReadAll maxErrorBody body broken).1 |})
      else match ReadAll max_response_bytes body broken with
           | (_, Some e) => Err (COther (ErrWrap (Msgf "analytics %s: reading the response: %w" [FStr op]) e))
           | (out, None) => Ok out
           end
  end.

Section exchange.
Context (exchange : HttpRequest → HttpReply).

Definition do (c : Client) (method path : string) (query : list (string * string)) (body : option string) :
    res client_error string :=
  let op := method +:+ " " +:+ path in
  match do_request c method path query body with
  | Err e => Err (COther (ErrWrap (Msgf "analytics %s: %w" [FStr op]) e))
  | Ok req => do_reply op (exchange req)
  end.

(** [Client.RecordUsage]; [json_error] is asked about the request's id. *)
Definition RecordUsage (c : Client) (rec : UsageRecord) : res client_error () :=
  match usage_json rec with
  | None => Err (COther (ErrWrap (text "encoding the usage record: %w") (json_error (u_RequestID rec))))
  | Some body =>
      match do c "POST" "/api/v1/usage" [] (Some (Marshal body)) with Ok _ => Ok () | Err e => Err e end
  end.

Definition totals (c : Client) (q : list (string * string)) : res client_error UsageTotals :=
  match do c "GET" "/api/v1/usage/totals" q None with
  | Err e => Err e
  | Ok body =>
      match decode_totals body with
      | Some t => Ok t
      | None => Err (COther (ErrWrap (text "decoding the usage totals: %w") (json_error body)))
      end
  end.

Definition usage_query (tenantID : string) (since until : Z) : list (string * string) :=
  [("tenant_id", tenantID); ("since", stamp since); ("until", stamp until)].
Definition key_query (tenantID keyPrefix : string) (since until : Z) : list (string * string) :=
  [("tenant_id", tenantID); ("key_prefix", keyPrefix); ("since", stamp since); ("until", stamp until)].
Definition breakdown_query (tenantID : string) (since until : Z) (groupBy : string) : list (string * string) :=
  [("tenant_id", tenantID); ("since", stamp since); ("until", stamp until); ("group_by", groupBy)].

(** [Client.Usage], [Client.KeyUsage], [Client.UsageBreakdown] *)
Definition client_Usage (c : Client) (tenantID : string) (since until : Z) : res client_error UsageTotals :=
  totals c (usage_query tenantID since until).
Definition client_KeyUsage (c : Client) (tenantID keyPrefix : string) (since until : Z) :
    res client_error UsageTotals :=
  totals c (key_query tenantID keyPrefix since until).
Definition client_UsageBreakdown (c : Client) (tenantID : string) (since until : Z) (groupBy : string) :
    res client_error (list UsageBucket) :=
  match do c "GET" "/api/v1/usage/breakdown" (breakdown_query tenantID since until groupBy) None with
  | Err e => Err e
  | Ok body =>
      match decode_buckets body with
      | Some bs => Ok bs
      | None => Err (COther (ErrWrap (text "decoding the usage breakdown: %w") (json_error body)))
      end
  end.

(** ** The composed store *)

(** [unavailable] on a failed read *)
Definition unavailable {X} (r : res client_error X) : res error X :=
  match r with
  | Ok x => Ok x
  | Err e => Err (ErrApi (WithCause (Unavailable
      (text "Usage accounting is temporarily unavailable. The request itself was unaffected.")) (cause e)))
  end.

Record Composed := { co_inner : Memory; co_client : Client }.

Definition NewStore (inner : Memory) (client : Client) : Composed := {| co_inner := inner; co_client := client |}.

Definition Composed_Kind : string := "memory+analytics".

Definition Composed_RecordUsage (s : Composed) (rec : UsageRecord) : res client_error () :=
  RecordUsage (co_client s) rec.
Definition Composed_Usage (s : Composed) (tenantID : string) (since until : Z) : res error UsageTotals :=
  unavailable (client_Usage (co_client s) tenantID since until).
Definition Composed_KeyUsage (s : Composed) (tenantID keyPrefix : string) (since until : Z) :
    res error UsageTotals :=
  unavailable (client_KeyUsage (co_client s) tenantID keyPrefix since until).
Definition Composed_UsageBreakdown (s : Composed) (tenantID : string) (since until : Z) (groupBy : string) :
    res error (list UsageBucket) :=
  unavailable (client_UsageBreakdown (co_client s) tenantID since until groupBy).

(** What quotas see of it: quotas from memory, usage from the service. *)
Definition composed_quota_store : QuotaStore Composed := {|
  qs_GetQuota s := GetQuota (co_inner s);
  qs_Usage := Composed_Usage;
  qs_KeyUsage := Composed_KeyUsage
|}.
End exchange.
End client.
