(* ===== verification/AnalyticsProps.v ===== *)
(** * Theorems about usage accounting through the analytics service

    What becomes of a record under each answer of the service, what an outage
    does to quotas and to callers, and that a query asks for what was meant. *)

From S2P Require Import Prelude GoStrings GoTime GoFloat Calendar GoFormat ApiErr StoreTypes Keys Json Memory Provider Config Quota Telemetry Events Server Admin Dispatch Chat ChatProps OpenAI OpenAIProps Analytics.
From Stdlib Require Import Ascii.

#[local] Open Scope Z_scope.
#[local] Open Scope stdpp_scope.

(** ** Escaping *)

(** The rules of a query string: [%XX], [+] for a blank, every other byte for
    itself. *)
Definition hex_digit (c : ascii) : option nat :=
  let n := nat_of_ascii c in
  if ((48 <=? n) && (n <=? 57))%nat then Some (n - 48)%nat
  else if ((65 <=? n) && (n <=? 70))%nat then Some (n - 55)%nat else None.

Fixpoint unescape (s : string) : option string :=
  match s with
  | "" => Some ""
  | String "%" (String a (String b s')) =>
      h ← hex_digit a; l ← hex_digit b; t ← unescape s'; Some (String (ascii_of_nat (16 * h + l)) t)
  | String "%" _ => None
  | String "+" s' => String " " <$> unescape s'
  | String c s' => String c <$> unescape s'
  end.

Lemma unescape_byte c t : unescape (escape_byte c +:+ t) = String c <$> unescape t.
Proof.
  destruct c as [[] [] [] [] [] [] [] []];
    match goal with |- context [escape_byte ?c] => let e := eval vm_compute in (escape_byte c) in
      change (escape_byte c) with e end;
    rewrite ?str_app_cons; change ("" +:+ t) with t; simpl; by destruct (unescape t).
Qed.

Lemma unescape_QueryEscape s : unescape (QueryEscape s) = Some s.
Proof. induction s as [|c s IH]; [done|]. cbn [QueryEscape]. by rewrite unescape_byte, IH. Qed.

Definition plain (c : ascii) : bool := negb (bool_decide (c = "&"%char)) && negb (bool_decide (c = "="%char)).

Lemma escape_plain d c : plain d = false → str_has d (escape_byte c) = false.
Proof.
  intros Hd. assert (d = "&"%char ∨ d = "="%char) as [->| ->].
  { unfold plain in Hd. destruct (decide (d = "&"%char)); [by left|].
    destruct (decide (d = "="%char)); [by right|]. by rewrite !bool_decide_eq_false_2 in Hd. }
  all: by destruct c as [[] [] [] [] [] [] [] []].
Qed.

Lemma QueryEscape_plain d s : plain d = false → str_has d (QueryEscape s) = false.
Proof.
  intros Hd. induction s as [|c s IH]; [done|]. cbn [QueryEscape]. by rewrite str_has_app, escape_plain, IH.
Qed.

(** A query as the service reads it. *)
Definition read_pair (s : string) : option (string * string) :=
  kv ← Cut s "="; k ← unescape kv.1; v ← unescape kv.2; Some (k, v).
Definition read_query (n : nat) (s : string) : option (list (string * string)) := mapM read_pair (SplitN s "&" n).

Lemma str_app_one c t : String c "" +:+ t = String c t.
Proof. done. Qed.

Lemma read_pair_ok kv : read_pair (QueryEscape kv.1 +:+ "=" +:+ QueryEscape kv.2) = Some kv.
Proof.
  unfold read_pair. rewrite str_app_one, (Cut_app "="%char (QueryEscape kv.1)) by (by apply QueryEscape_plain). simpl.
  rewrite !unescape_QueryEscape. by destruct kv.
Qed.

Lemma pair_plain kv : str_has "&" (QueryEscape kv.1 +:+ "=" +:+ QueryEscape kv.2) = false.
Proof. by rewrite !str_has_app, !QueryEscape_plain. Qed.

Lemma SplitN_Join ps :
  ps ≠ [] → Forall (λ p, str_has "&" p = false) ps → SplitN (Join ps "&") "&" (length ps) = ps.
Proof.
  induction ps as [|p ps IH]; [done|]. intros _ [Hp Hps]%Forall_cons. destruct ps as [|q ps]; [done|].
  cbn [Join length SplitN]. rewrite str_app_one, (Cut_app "&"%char p) by done. f_equal. by apply IH.
Qed.

Lemma mapM_read_pair q : mapM read_pair ((λ kv, QueryEscape kv.1 +:+ "=" +:+ QueryEscape kv.2) <$> q) = Some q.
Proof. induction q as [|kv q IH]; [done|]. cbn [fmap list_fmap mapM]. rewrite read_pair_ok. simpl. by rewrite IH. Qed.

(** ** Component theorems *)

Module AnalyticsFacts.

Section props.
Context `{Unicode} `{JsonCodec} `{JsonNumbers} `{NetUrl} (url_error json_error : string → error).

(** A usage query asks for exactly what was meant: whatever bytes a tenant id, a
    key prefix or a grouping holds, the service reads back the very pairs the
    client put in, one for each, so that no value can add or change another. *)
Theorem query_asks_what_was_meant q :
  q ≠ [] → ∃ q', q' ≡ₚ q ∧ read_query (length q) (Encode q) = Some q'.
Proof.
  intros Hq. set (sorted := sort_slice (λ a b : string * string, String.ltb a.1 b.1) q).
  assert (sorted ≡ₚ q) as Hp by apply sort_slice_perm. exists sorted. split; [done|].
  unfold read_query, Encode. fold sorted. rewrite <-(Permutation_length Hp).
  rewrite <-(length_fmap (λ kv, QueryEscape kv.1 +:+ "=" +:+ QueryEscape kv.2) sorted).
  rewrite SplitN_Join; [apply mapM_read_pair| |].
  - intros E%fmap_nil_inv. rewrite E in Hp. by apply Permutation_nil_l in Hp.
  - apply Forall_fmap, Forall_forall. intros kv _. apply pair_plain.
Qed.

(** C36: What becomes of a record is what the service answered. The worker that offers
    one holds on to it for another try after a 5xx, a redirect, a 408, a 429, an
    answer that breaks off and an exchange that never happened; gives it up, and
    counts it, after any other 4xx; and takes it as written after any other
    answer. *)
Theorem service_decides_the_record exchange c rec body req (t : Telemetry) attempt backoff now now' :
  usage_json rec = Some body →
  do_request url_error c "POST" "/api/v1/usage" [] (Some (Marshal body)) = Ok req →
  let t' := Telemetry.deliver t rec FromRun attempt backoff
              (sink_result (RecordUsage url_error json_error exchange c rec)) now now' in
  let retried := tm_stage t' = Backing rec attempt backoff ∧ tm_persisted t' = tm_persisted t ∧
                 tm_metrics t' = tm_metrics t in
  match exchange req with
  | Unreachable _ => retried
  | Replied status _ b broken =>
      if status <? 300 then
        if is_None_b broken || (max_response_bytes <=? Z.of_nat (String.length b))
        then tm_stage t' = AtSelect ∧ tm_persisted t' = tm_persisted t ++ [rec] ∧ tm_metrics t' = tm_metrics t
        else retried
      else if (400 <=? status) && (status <? 500) && negb ((status =? 408) || (status =? 429))
      then tm_stage t' = AtSelect ∧ tm_persisted t' = tm_persisted t ∧
           tm_metrics t' = ((λ n, n + 1) <$> tm_metrics t)
      else retried
  end.
Proof.
  intros Eb Er. cbv zeta. unfold RecordUsage, do. rewrite Eb, Er.
  assert (∀ e, isPermanent e = false →
    let t' := Telemetry.deliver t rec FromRun attempt backoff (Some e) now now' in
    tm_stage t' = Backing rec attempt backoff ∧ tm_persisted t' = tm_persisted t ∧ tm_metrics t' = tm_metrics t) as Hre.
  { intros e He. unfold Telemetry.deliver. rewrite He. simpl. unfold warnStalled.
    destruct (is_None_b (tm_log t)); [done|]. by destruct (_ && _). }
  destruct (exchange req) as [e|status header b broken]; cbn [do_reply sink_result]; [by apply Hre|].
  destruct (Z.leb_spec 300 status), (Z.ltb_spec status 300); try lia; cbn [sink_result].
  - destruct ((status =? 408) || (status =? 429)) eqn:E4; cbn [negb].
    + rewrite andb_false_r. apply Hre. unfold isPermanent, Permanent. simpl. by rewrite E4.
    + rewrite andb_true_r. destruct ((400 <=? status) && (status <? 500)) eqn:E5.
      * unfold Telemetry.deliver, isPermanent, Permanent. simpl. by rewrite E4, E5.
      * apply Hre. unfold isPermanent, Permanent. simpl. by rewrite E4.
  - unfold ReadAll. destruct (max_response_bytes <=? Z.of_nat (String.length b)).
    + rewrite orb_true_r. simpl. by destruct (1 <? attempt).
    + rewrite orb_false_r. destruct broken as [e|]; cbn [is_None_b sink_result]; [by apply Hre|].
      simpl. by destruct (1 <? attempt).
Qed.
(** The events of a gateway that runs on, with the service as the sink. *)
Definition served_by_the_service (c : Client) (rec : UsageRecord) (e : event) : Prop :=
  match e with
  | EClose => False
  | ESink err _ _ => ∃ exchange, err = sink_result (RecordUsage url_error json_error exchange c rec)
  | _ => True
  end.

(** A record that does not encode, one whose cost is infinite say, fails before
    anything is sent and without a word on whether to retry, so the worker holds
    on to it for good: whatever the service does, nothing queued behind it is
    written until the gateway stops. *)
Theorem unencodable_record_blocks_the_queue c rec es t t' :
  usage_json rec = None → tm_stop t = false → in_flight t = [rec] →
  match tm_stage t with Writing _ by_ _ _ => by_ = FromRun | _ => True end →
  Forall (served_by_the_service c rec) es → Telemetry.run t es = Some t' →
  in_flight t' = [rec] ∧ tm_persisted t' = tm_persisted t.
Proof.
  intros Hj. revert t. induction es as [|e es IH]; intros t Hs Hf Hb Hes; simpl; [by intros [= <-]|].
  apply Forall_cons in Hes as [He Hes]. destruct (Telemetry.step t e) as [u|] eqn:Eu; [|done]. intros Hrun.
  enough (tm_stop u = false ∧ in_flight u = [rec] ∧ tm_persisted u = tm_persisted t ∧
    match tm_stage u with Writing _ by_ _ _ => by_ = FromRun | _ => True end) as (U1 & U2 & U3 & U4).
  { rewrite <-U3. by apply (IH u). }
  clear IH Hrun. unfold in_flight in *. destruct e; simpl in He, Eu; try done.
  - injection Eu as <-. unfold Record_, warn. destruct (_ <? _)%nat; [done|]. by destruct (_ <? _).
  - destruct (tm_stage t); done.
  - by rewrite Hs in Eu.
  - destruct He as [exchange ->]. destruct (tm_stage t) as [|rec' by_ a b| | |] eqn:Est; try done.
    injection Hf as ->. subst by_. injection Eu as <-. unfold RecordUsage. rewrite Hj. simpl.
    unfold warnStalled. destruct (is_None_b (tm_log t)); [done|]. by destruct (_ && _).
  - destruct (tm_stage t); try done. injection Eu as <-. done.
  - by destruct (tm_stage t).
Qed.

(** The service answers nothing usable. *)
Definition service_down (exchange : HttpRequest → HttpReply) : Prop :=
  ∀ req, match exchange req with Unreachable _ => True | Replied status _ _ _ => 300 <= status end.

Lemma do_down exchange c method path q body :
  service_down exchange → ∃ e, do url_error exchange c method path q body = Err e.
Proof.
  intros Hd. unfold do. destruct (do_request _ _ _ _ _ _) as [req|e]; [|by eexists].
  specialize (Hd req). destruct (exchange req) as [e|status h b br]; simpl; [by eexists|].
  rewrite (proj2 (Z.leb_le _ _)) by lia. by eexists.
Qed.

Lemma totals_down exchange c q : service_down exchange → ∃ e, totals url_error json_error exchange c q = Err e.
Proof. intros Hd. unfold totals. destruct (do_down exchange c "GET" "/api/v1/usage/totals" q None Hd) as [e ->]. by eexists. Qed.

(** While the service is down, a usage read fails as a dependency being down:
    503, with the same sentence whatever the service or the network said. *)
Theorem usage_reads_fail_as_unavailable exchange s t p since until group rid :
  service_down exchange →
  let told (e : error) := err_Status (From e) = 503 ∧ err_RetryAfterSeconds (From e) = 0 ∧
    ApiErr.Envelope (From e) rid = ApiErr.Envelope (Unavailable
      (text "Usage accounting is temporarily unavailable. The request itself was unaffected.")) rid in
  (∃ e, Composed_Usage url_error json_error exchange s t since until = Err e ∧ told e) ∧
  (∃ e, Composed_KeyUsage url_error json_error exchange s t p since until = Err e ∧ told e) ∧
  (∃ e, Composed_UsageBreakdown url_error json_error exchange s t since until group = Err e ∧ told e).
Proof.
  intros Hd told. unfold Composed_Usage, Composed_KeyUsage, Composed_UsageBreakdown, client_Usage, client_KeyUsage,
    client_UsageBreakdown.
  destruct (totals_down exchange (co_client s) (usage_query t since until) Hd) as [e1 ->].
  destruct (totals_down exchange (co_client s) (key_query t p since until) Hd) as [e2 ->].
  destruct (do_down exchange (co_client s) "GET" "/api/v1/usage/breakdown" (breakdown_query t since until group) None Hd)
    as [e3 ->].
  split_and!; eexists; (split; [reflexivity|]); done.
Qed.

Abbreviation outage_store exchange := (composed_quota_store url_error json_error exchange).

Lemma usage_reads_down exchange s t p since until :
  service_down exchange →
  (∃ e, Composed_Usage url_error json_error exchange s t since until = Err e) ∧
  (∃ e, Composed_KeyUsage url_error json_error exchange s t p since until = Err e).
Proof.
  intros Hd. unfold Composed_Usage, Composed_KeyUsage, client_Usage, client_KeyUsage.
  destruct (totals_down exchange (co_client s) (usage_query t since until) Hd) as [e1 ->].
  destruct (totals_down exchange (co_client s) (key_query t p since until) Hd) as [e2 ->].
  split; by eexists.
Qed.

Lemma level_down exchange cfg s t k p lvl now :
  service_down exchange →
  let r := @level_slots Composed (outage_store exchange) cfg s t k p lvl now in r = Ok [] ∨ ∃ e, r = Err e.
Proof.
  intros Hd r. subst r. unfold level_slots. destruct (loadQuota _ _ _) as [[q|]|e] eqn:El; simpl; [|by left|by right; eexists].
  right. unfold loadQuota in El. destruct (qs_GetQuota _ _ _) as [q'|e]; [|by destruct (is_not_found _)].
  destruct (Empty q') eqn:Ee; [done|]. injection El as ->.
  assert (∀ w, ∃ e, @read_window Composed (outage_store exchange) s t p now w = Err e) as Hw.
  { intros w. unfold read_window. destruct (periodWindow w now) as [since until].
    destruct (usage_reads_down exchange s t p since until Hd) as [[e1 E1] [e2 E2]].
    destruct (bool_decide (p = "")); simpl; eauto. }
  unfold usageFor. destruct (constrained (q_Day q)) eqn:E1.
  { destruct (Hw windowDay) as [e ->]. simpl. by eexists. }
  simpl. destruct (constrained (q_Month q)) eqn:E2.
  { destruct (Hw windowMonth) as [e ->]. simpl. by eexists. }
  exfalso. revert Ee E1 E2. unfold Empty, constrained.
  by repeat destruct (is_None_b _).
Qed.

(** A metering outage refuses nobody. While the service is down a caller whose
    position is not cached is let through, whatever its quota and whatever it
    used before, and nothing is announced on the strength of a missing figure. *)
Theorem outage_fails_open exchange cfg s now scope st :
  service_down exchange → qc_entries (qs_quotas st) !! cacheKey scope = None →
  let out := @evaluateQuota Composed (outage_store exchange) cfg s now scope st in
  v_Reject out.1 = None ∧ v_State out.1 = QuotaOK ∧ qs_events out.2 = qs_events st ∧ qs_emitted out.2 = qs_emitted st.
Proof.
  intros Hd Hc out. subst out. unfold evaluateQuota. case_bool_decide; [done|].
  unfold get. rewrite Hc. unfold computeQuota, quotaSlots.
  destruct (level_down exchange cfg s (sc_tenantID scope) "" "" false now Hd) as [->|[e ->]]; simpl; [|done].
  case_bool_decide; simpl; [done|].
  destruct (level_down exchange cfg s (sc_tenantID scope) (sc_keyID scope) (sc_keyPrefix scope) true now Hd)
    as [->|[e ->]]; simpl; done.
Qed.
End props.

(** *** Witnesses *)

#[local] Existing Instance ascii_only.
#[local] Existing Instance binary_codec.
#[local] Instance any_url : NetUrl := {| url_Parse _ := Some ("http", "a") |}.
#[local] Instance finite_numbers : JsonNumbers :=
  {| float_literal f := if is_inf f then None else Some "0" |}.

Abbreviation bad_address := AdapterFacts.bad_address.
Abbreviation bad_document := AdapterFacts.bad_document.

Definition demo_client : Client := {| cl_base := "http://a"; cl_token := "s3"; cl_timeout := Second |}.
Definition demo_row : UsageRecord := TelemetryFacts.usage_row "a".

Lemma query_asks_what_was_meant_witness :
  ∃ q, q ≡ₚ key_query "a&tenant_id=b" "cg-%1" 0 Second ∧
    read_query 4 (Encode (key_query "a&tenant_id=b" "cg-%1" 0 Second)) = Some q.
Proof. apply (query_asks_what_was_meant (key_query "a&tenant_id=b" "cg-%1" 0 Second)). done. Defined.

Definition at_work : Telemetry := mkTelemetry 2 [] false (Writing demo_row FromRun 1 retryBase) None (Some 0) 0 0 [].

Lemma service_decides_the_record_witness :
  let t status := Telemetry.deliver at_work demo_row FromRun 1 retryBase
    (sink_result (RecordUsage bad_address bad_document (λ _, Replied status ∅ "" None) demo_client demo_row)) 0 0 in
  tm_stage (t 503) = Backing demo_row 1 retryBase ∧ tm_metrics (t 422) = Some 1 ∧ tm_persisted (t 201) = [demo_row].
Proof.
  intros t.
  assert (∃ body, usage_json demo_row = Some body) as [body Eb] by (by eexists).
  assert (∃ req, do_request bad_address demo_client "POST" "/api/v1/usage" [] (Some (Marshal body)) = Ok req)
    as [req Er] by (by eexists).
  pose proof (λ status, service_decides_the_record bad_address bad_document (λ _, Replied status ∅ "" None) demo_client
    demo_row body req at_work 1 retryBase 0 0 Eb Er) as Hs.
  split_and!; [apply (Hs 503)|apply (Hs 422)|apply (Hs 201)].
Defined.

Definition infinite_row : UsageRecord :=
  {| u_RequestID := "r"; u_ClientRequestID := ""; u_TenantID := "t"; u_KeyPrefix := "cg-1"; u_Provider := "p";
     u_Model := "m"; u_RequestedModel := "m"; u_FallbackDepth := 0; u_PromptTokens := 1; u_CompletionToken := 1;
     u_TotalTokens := 2; u_CostUSD := S754_infinity false; u_ChargeUSD := S754_infinity false; u_BillingMode := "";
     u_Cached := false; u_Streamed := false; u_StatusCode := 200; u_DurationMS := 1; u_RecordedAt := 1 |}.

Lemma unencodable_record_blocks_the_queue_witness :
  let t := mkTelemetry 2 [demo_row] false (Writing infinite_row FromRun 1 retryBase) None (Some 0) 0 0 [] in
  let said := sink_result (RecordUsage bad_address bad_document (λ _, Replied 201 ∅ "" None) demo_client infinite_row) in
  ∃ t', Telemetry.run t [ESink said 0 0; ETimer; ESink said 0 0; ETimer] = Some t' ∧
    in_flight t' = [infinite_row] ∧ tm_persisted t' = [] .
Proof.
  intros t said.
  destruct (Telemetry.run t [ESink said 0 0; ETimer; ESink said 0 0; ETimer]) as [t'|] eqn:E; [|by vm_compute in E].
  exists t'. split; [reflexivity|].
  apply (unencodable_record_blocks_the_queue bad_address bad_document demo_client infinite_row
    [ESink said 0 0; ETimer; ESink said 0 0; ETimer] t t'); try done.
  repeat constructor; by exists (λ _, Replied 201 ∅ "" None).
Defined.

Definition down_service (_ : HttpRequest) : HttpReply := Replied 502 ∅ "no route" None.

Lemma down_service_down : service_down down_service.
Proof. intros req. simpl. lia. Qed.

Definition capped : Composed := NewStore (QuotaFacts.spent 50) demo_client.

Lemma usage_reads_fail_as_unavailable_witness :
  ∃ e, Composed_Usage bad_address bad_document down_service capped "t" 0 Second = Err e ∧ err_Status (From e) = 503.
Proof.
  destruct (usage_reads_fail_as_unavailable bad_address bad_document down_service capped "t" "" 0 Second "" ""
    down_service_down) as ((e & E & Hs & _) & _). by exists e.
Defined.

Lemma outage_fails_open_witness :
  let scope := {| sc_tenantID := "t"; sc_keyID := ""; sc_keyPrefix := "" |} in
  let st := {| qs_quotas := newQuotaCache quotaCacheTTL; qs_events := true; qs_emitted := [] |} in
  v_Reject (evaluateQuota ChatFacts.cached_config (QuotaFacts.spent 50) QuotaFacts.today scope st).1 ≠ None ∧
  v_Reject (@evaluateQuota Composed (composed_quota_store bad_address bad_document down_service)
              ChatFacts.cached_config capped QuotaFacts.today scope st).1 = None.
Proof.
  intros scope st. split; [by vm_compute|].
  apply (outage_fails_open bad_address bad_document down_service ChatFacts.cached_config capped QuotaFacts.today scope st
    down_service_down). done.
Defined.
End AnalyticsFacts.
