(* ===== verification/App.v ===== *)
(** * The assembled process (gateway/app.go, main.go)

    [build] puts the components together: the store, the telemetry buffer, the
    event dispatcher, the adapters, the catalog, the resolver, the breaker, the
    dispatcher and the server. The telemetry buffer and the analytics client sit
    beside the server; the event dispatcher is in the server's state, as the
    server emits through it. Reading a certificate is the parameter
    [load_keypair]; flags, the listener and signals are the runtime's. *)

From S2P Require Import Prelude GoStrings GoTime GoFloat ApiErr StoreTypes Keys Json Memory Provider Breaker Catalog Resolve Dispatch Diagnose Cache Config Limits Quota Telemetry Events Server Admin Chat OpenAI Analytics.

#[local] Open Scope Z_scope.
#[local] Open Scope stdpp_scope.

Record devCredentials := { dc_TenantID : string; dc_DataKey : string; dc_AdminKey : string }.

Record app := {
  ap_server : Server Adapter;
  ap_registry : gmap string Adapter;
  ap_client : option Client;
  ap_telemetry : Telemetry;
  ap_dev : option devCredentials
}.

(** [catalogPrices] *)
Definition catalogPrices (prices : gmap string (gmap string ModelPrice)) : gmap string (gmap string Price) :=
  (λ models : gmap string ModelPrice,
     (λ p, {| pr_Input := mp_Input p; pr_Output := mp_Output p |}) <$> models) <$> prices.

(** [breakerObservers]: the gauge it sets and the event it raises. *)
Definition breakerObservers (metrics hook : bool) (key : string) (from to : State) :
    option (string * string * string * Z) * option emission :=
  ((if metrics then let '(t, p, m) := SplitKey key in Some (t, p, m, Gauge to) else None),
   (if hook then BreakerHook key from to else None)).

(** The adapters of a deployment. *)
Definition registry (cfg : Config) : gmap string Adapter :=
  let max := li_MaxResponseBytes (cf_Limits cfg) in
  NewRegistry Kind [OpenAI max; Compat KindGemini max; Compat KindAnthropic max].

Definition app_catalog `{Unicode} (cfg : Config) : Catalog :=
  New {| op_TTL := cg_TTL (cf_Catalog cfg); op_StaleWarnAfter := cg_StaleWarnAfter (cf_Catalog cfg);
         op_ProviderTimeout := cg_ProviderTimeout (cf_Catalog cfg);
         op_Prices := catalogPrices (cg_Prices (cf_Catalog cfg)); op_OnChange := true |}.

Definition app_breaker (cfg : Config) : Breaker :=
  let b := ro_Breaker (cf_Routing cfg) in NewBreaker (br_ErrorThreshold b) (br_Window b) (br_OpenDuration b).

Definition app_events (cfg : Config) : EventDispatcher :=
  NewED {| eo_MaxAttempts := wh_MaxAttempts (cf_Webhooks cfg); eo_Timeout := wh_Timeout (cf_Webhooks cfg);
           eo_BaseBackoff := 0; eo_Queue := 0; eo_Workers := 0 |}.

Section build.
Context `{Unicode} `{Crypto} `{NetUrl} (url_error : string → error).
Context (load_keypair : string → string → option error).

(** [seedDev]; a [None] is the panic of a key too short to have a prefix. *)
Definition seedDev (rnd : nat → string) (now : nat → Z) (mem : Memory) :
    option (res error devCredentials * Memory) :=
  match CreateTenant mem (rnd 0%nat) (now 0%nat) "dev" with
  | (Err e, mem) => Some (Err (ErrWrap (text "seeding the dev tenant: %w") e), mem)
  | (Ok tenant, mem) =>
      minted ← CreateAPIKey mem (rnd 1%nat) (rnd 2%nat) (now 1%nat) (t_ID tenant) PlaneData "dev" "" None;
      match minted with
      | (Err e, mem) => Some (Err (ErrWrap (text "minting the dev data key: %w") e), mem)
      | (Ok (_, dataKey), mem) =>
          minted ← CreateAPIKey mem (rnd 3%nat) (rnd 4%nat) (now 2%nat) (t_ID tenant) PlaneAdmin "dev"
                     ("tenant:" +:+ t_ID tenant) None;
          match minted with
          | (Err e, mem) => Some (Err (ErrWrap (text "minting the dev admin key: %w") e), mem)
          | (Ok (_, adminKey), mem) =>
              Some (Ok {| dc_TenantID := t_ID tenant; dc_DataKey := dataKey; dc_AdminKey := adminKey |}, mem)
          end
      end
  end.

(** The store's usage half. *)
Definition usage_client (cfg : Config) : res error (option Client) :=
  if bool_decide (an_BaseURL (cf_Analytics cfg) = "") then Ok None
  else match NewClient url_error (cf_Analytics cfg) with Ok c => Ok (Some c) | Err e => Err e end.

(** The process before anything is seeded. *)
Definition assemble (cfg : Config) (dev : bool) (version : string) (client : option Client) (now : Z) : app :=
  {| ap_server := NewServer cfg version dev (NewMemory dev) (app_catalog cfg)
                    (NewResolver (ro_MaxFallbackDepth (cf_Routing cfg))) (NewDispatcher (app_breaker cfg))
                    (Some (app_events cfg)) now;
     ap_registry := registry cfg; ap_client := client;
     ap_telemetry := NewTelemetry (cf_TelemetryBuffer cfg) true true; ap_dev := None |}.

Definition build (cfg : Config) (dev : bool) (version : string) (rnd : nat → string) (now : nat → Z) :
    option (res error app) :=
  let g := cf_Gateway cfg in
  match (if TLSEnabled g then load_keypair (g_TLSCertFile g) (g_TLSKeyFile g) else None) with
  | Some e => Some (Err (ErrWrap (Msgf "loading the TLS keypair from %s and %s: %w"
                                    [FStr (g_TLSCertFile g); FStr (g_TLSKeyFile g)]) e))
  | None =>
      match usage_client cfg with
      | Err e => Some (Err e)
      | Ok client =>
          let a := assemble cfg dev version client (now 3%nat) in
          if negb dev then Some (Ok a)
          else
            seeded ← seedDev rnd now (sv_Store (ap_server a));
            match seeded with
            | (Err e, _) => Some (Err e)
            | (Ok creds, mem) =>
                Some (Ok {| ap_server := set_store (ap_server a) mem; ap_registry := ap_registry a;
                            ap_client := ap_client a; ap_telemetry := ap_telemetry a; ap_dev := Some creds |})
            end
      end
  end.
End build.

Definition stop_events (a : app) : app :=
  {| ap_server := set_dispatch_events (ap_server a) (CloseED <$> sv_Events (ap_server a)); ap_registry := ap_registry a;
     ap_client := ap_client a; ap_telemetry := ap_telemetry a; ap_dev := ap_dev a |}.
Definition stop_telemetry (a : app) : app :=
  {| ap_server := ap_server a; ap_registry := ap_registry a; ap_client := ap_client a;
     ap_telemetry := Close (ap_telemetry a); ap_dev := ap_dev a |}.

(** [app.Close] up to its waits for the workers. *)
Definition app_Close (a : app) : app := stop_telemetry (stop_events a).

(** [app.Shutdown]: the server starts draining, [drained] is what the requests in
    flight and the workers do until the framework gives up waiting, then the
    buffer and the event workers are told to stop. *)
Definition app_Shutdown (deadline : option Z) (now : Z) (drained : app → app) (a : app) : Z * app :=
  let '(timeout, s) := Shutdown (ap_server a) deadline now in
  let a := drained {| ap_server := s; ap_registry := ap_registry a; ap_client := ap_client a;
                      ap_telemetry := ap_telemetry a; ap_dev := ap_dev a |} in
  (timeout, stop_events (stop_telemetry a)).

(** ** main.go *)

Definition devBootstrapKey : string := "cga-dev-bootstrap-do-not-deploy".

Definition applyDevDefaults (cfg : Config) : Config :=
  if bool_decide (cf_BootstrapKey cfg = "") then set_BootstrapKey cfg devBootstrapKey else cfg.

(** The values [printDevBanner] prints: tenant, data key, admin key, bootstrap
    key and the port, twice. *)
Definition printDevBanner (cfg : Config) (creds : devCredentials) : list farg :=
  [FStr (dc_TenantID creds); FStr (dc_DataKey creds); FStr (dc_AdminKey creds); FStr devBootstrapKey;
   FInt (g_Port (cf_Gateway cfg)); FInt (g_Port (cf_Gateway cfg))].
