(* ===== verification/AppProps.v ===== *)
(** * Theorems about the assembled process

    What a build starts from, who can talk to it, and how the observers of the
    breaker agree with it. *)

From S2P Require Import Prelude GoStrings GoTime GoFloat ApiErr StoreTypes Keys Json Memory MemoryFacts MemoryProps Breaker Catalog Resolve Dispatch Diagnose Cache Config Limits Quota Middleware Capture Telemetry Events Server Data DataProps Admin AdminFacts AdminProps Provider Chat ChatProps OpenAI OpenAIProps Analytics App.

#[local] Open Scope Z_scope.
#[local] Open Scope stdpp_scope.

(** ** Seeding *)

Section seed.
Context `{Unicode} `{Crypto}.

Definition dev_tenant (rnd : nat → string) (now : nat → Z) : Tenant :=
  {| t_ID := NewID IDTenant (rnd 0%nat); t_Name := "dev"; t_Status := "active"; t_CreatedAt := now 0%nat;
     t_Limits := no_limits; t_Cache := no_cache; t_DebugCapture := no_capture; t_SystemInstruction := "" |}.

(** The store operations of a seeding. *)
Definition seed_ops (rnd : nat → string) (now : nat → Z) : list mop :=
  let t := NewID IDTenant (rnd 0%nat) in
  [OpCreateTenant (rnd 0%nat) (now 0%nat) "dev";
   OpCreateAPIKey (rnd 1%nat) (rnd 2%nat) (now 1%nat) t PlaneData "dev" "" None;
   OpCreateAPIKey (rnd 3%nat) (rnd 4%nat) (now 2%nat) t PlaneAdmin "dev" ("tenant:" +:+ t) None].

Definition seeded_tenant (rnd : nat → string) (now : nat → Z) (dev : bool) : Memory :=
  set_tenants (NewMemory dev) {[NewID IDTenant (rnd 0%nat) := dev_tenant rnd now]}.

Lemma seed_first dev rnd now :
  apply_mop (NewMemory dev) (OpCreateTenant (rnd 0%nat) (now 0%nat) "dev") = seeded_tenant rnd now dev.
Proof. done. Qed.

Lemma NewID_nonempty kind rnd : NewID kind rnd ≠ "".
Proof. unfold NewID. by destruct kind. Qed.

Lemma mint_ok m rk ri now t p n sc tenant :
  mem_tenants m !! t = Some tenant → t ≠ "" →
  ∃ k secret m', CreateAPIKey m rk ri now t p n sc None = Some (Ok (k, secret), m').
Proof.
  intros Ht Hne. destruct (CreateAPIKey_spec m rk ri now t p n sc None) as [Hn _].
  unfold CreateAPIKey in *. rewrite bool_decide_eq_false_2 in * by done. cbn [negb] in *.
  unfold has_tenant in *. rewrite Ht in *. simpl in *.
  destruct (GenerateAPIKey p (mem_dev m) rk) as [[[pt pre] h]|]; [|done]. simpl. eauto.
Qed.

(** Seeding a fresh store never fails. *)
Lemma seedDev_spec dev rnd now :
  ∃ kd data m2 ka admin m3,
    CreateAPIKey (seeded_tenant rnd now dev) (rnd 1%nat) (rnd 2%nat) (now 1%nat) (NewID IDTenant (rnd 0%nat))
      PlaneData "dev" "" None = Some (Ok (kd, data), m2) ∧
    CreateAPIKey m2 (rnd 3%nat) (rnd 4%nat) (now 2%nat) (NewID IDTenant (rnd 0%nat)) PlaneAdmin "dev"
      ("tenant:" +:+ NewID IDTenant (rnd 0%nat)) None = Some (Ok (ka, admin), m3) ∧
    seedDev rnd now (NewMemory dev) =
      Some (Ok {| dc_TenantID := NewID IDTenant (rnd 0%nat); dc_DataKey := data; dc_AdminKey := admin |}, m3).
Proof.
  set (t := NewID IDTenant (rnd 0%nat)).
  assert (CreateTenant (NewMemory dev) (rnd 0%nat) (now 0%nat) "dev" =
    (Ok (dev_tenant rnd now), seeded_tenant rnd now dev)) as E1 by done.
  destruct (mint_ok (seeded_tenant rnd now dev) (rnd 1%nat) (rnd 2%nat) (now 1%nat) t PlaneData "dev" ""
    (dev_tenant rnd now)) as (kd & data & m2 & E2); [by simpl; simplify_map_eq|apply NewID_nonempty|].
  destruct (CreateAPIKey_spec (seeded_tenant rnd now dev) (rnd 1%nat) (rnd 2%nat) (now 1%nat) t PlaneData "dev" "" None)
    as [_ Hs]. destruct (Hs _ _ E2) as (_ & _ & _ & _ & _ & _ & _ & _ & _ & _ & _ & _ & Em2). clear Hs.
  destruct (mint_ok m2 (rnd 3%nat) (rnd 4%nat) (now 2%nat) t PlaneAdmin "dev" ("tenant:" +:+ t)
    (dev_tenant rnd now)) as (ka & admin & m3 & E3);
    [by rewrite Em2; simpl; simplify_map_eq|apply NewID_nonempty|].
  exists kd, data, m2, ka, admin, m3. split_and!; [done..|].
  unfold seedDev. rewrite E1. cbn [dev_tenant t_ID]. fold t. rewrite E2. simpl. rewrite E3. done.
Qed.

(** Its operations, when no id or hash it draws is taken. *)
Lemma seeded_ok dev rnd now kd data m2 ka admin m3 :
  let t := NewID IDTenant (rnd 0%nat) in
  let m1 := seeded_tenant rnd now dev in
  let mint_data := OpCreateAPIKey (rnd 1%nat) (rnd 2%nat) (now 1%nat) t PlaneData "dev" "" None in
  let mint_admin := OpCreateAPIKey (rnd 3%nat) (rnd 4%nat) (now 2%nat) t PlaneAdmin "dev" ("tenant:" +:+ t) None in
  CreateAPIKey m1 (rnd 1%nat) (rnd 2%nat) (now 1%nat) t PlaneData "dev" "" None = Some (Ok (kd, data), m2) →
  CreateAPIKey m2 (rnd 3%nat) (rnd 4%nat) (now 2%nat) t PlaneAdmin "dev" ("tenant:" +:+ t) None
    = Some (Ok (ka, admin), m3) →
  fresh_ops (NewMemory dev) (seed_ops rnd now) →
  fresh_op m1 mint_data ∧ fresh_op m2 mint_admin ∧ mem_ok m1 ∧ mem_ok m2 ∧ apply_mop m2 mint_admin = m3 ∧
  run_mem (NewMemory dev) (seed_ops rnd now) = m3 ∧ mem_tenants m3 !! t = Some (dev_tenant rnd now).
Proof.
  intros t m1 mint_data mint_admin E2 E3 Hf.
  assert (apply_mop m1 mint_data = m2) as A2 by (simpl; by rewrite E2).
  assert (apply_mop m2 mint_admin = m3) as A3 by (simpl; by rewrite E3).
  unfold seed_ops in *. cbv zeta in *. fold t mint_data mint_admin in Hf |- *. cbn [fresh_ops run_mem foldl] in *.
  rewrite seed_first in *. fold m1 in Hf |- *. rewrite A2 in *. rewrite A3 in *. destruct Hf as (_ & F2 & F3 & _).
  assert (mem_ok m1) as M1 by (unfold m1; rewrite <-seed_first; apply apply_mop_ok; [apply NewMemory_ok|done]).
  split_and!; try done; [rewrite <-A2; by apply apply_mop_ok|].
  destruct (CreateAPIKey_spec m1 (rnd 1%nat) (rnd 2%nat) (now 1%nat) t PlaneData "dev" "" None) as [_ S2].
  destruct (S2 _ _ E2) as (_ & _ & _ & _ & _ & _ & _ & _ & _ & _ & _ & _ & Em2). clear S2.
  destruct (CreateAPIKey_spec m2 (rnd 3%nat) (rnd 4%nat) (now 2%nat) t PlaneAdmin "dev" ("tenant:" +:+ t) None) as [_ S3].
  destruct (S3 _ _ E3) as (_ & _ & _ & _ & _ & _ & _ & _ & _ & _ & _ & _ & Em3).
  rewrite Em3, Em2. cbn [set_keys mem_tenants]. apply lookup_singleton_eq.
Qed.
End seed.

(** A key of one plane does not open the other. *)
Lemma wrong_plane_refused `{Unicode} `{Crypto} cfg m at_ plane want secret :
  all_graphic secret = true → PlaneOf secret = Some plane → plane ≠ want → bootstrapMatches cfg secret = false →
  is_ok (auth cfg m at_ want ("Bearer " +:+ secret)) = false.
Proof.
  intros Hg Hp Hne Hb. unfold auth. rewrite bearer_of_secret by (done || by intros ->).
  rewrite bool_decide_eq_false_2 by (by intros ->). rewrite Hb, Hp. by rewrite bool_decide_eq_false_2.
Qed.

(** ** Component theorems *)

Module ProcessFacts.

Section props.
Context `{Unicode} `{Crypto} `{JsonStream} `{JsonNumbers} `{NetUrl} (url_error : string → error).
Context (load_keypair : string → string → option error).

Abbreviation build := (build url_error load_keypair).

(** What a build that succeeds is made of. *)
Lemma build_cases cfg dev version rnd now a :
  build cfg dev version rnd now = Some (Ok a) →
  ∃ client, usage_client url_error cfg = Ok client ∧
    let base := assemble cfg dev version client (now 3%nat) in
    if dev then ∃ creds m, seedDev rnd now (NewMemory true) = Some (Ok creds, m) ∧
      a = {| ap_server := set_store (ap_server base) m; ap_registry := registry cfg; ap_client := client;
             ap_telemetry := ap_telemetry base; ap_dev := Some creds |}
    else a = base.
Proof.
  unfold App.build. destruct (if TLSEnabled _ then _ else _); [done|].
  destruct (usage_client url_error cfg) as [client|e]; [|done]. intros Hb. exists client. split; [done|].
  destruct dev; cbn [negb] in Hb; [|by injection Hb as <-].
  cbn [assemble ap_server NewServer sv_Store] in Hb.
  destruct (seedDev rnd now (NewMemory true)) as [[[creds|e] m]|]; simpl in Hb; [|done..].
  injection Hb as <-. by exists creds, m.
Qed.

Lemma built_config cfg dev version rnd now a :
  build cfg dev version rnd now = Some (Ok a) →
  sv_Config (ap_server a) = cfg ∧ (if dev then is_Some (ap_dev a) else ap_dev a = None).
Proof. intros (client & _ & Hb)%build_cases. destruct dev; [by destruct Hb as (creds & m & _ & ->)|by rewrite Hb]. Qed.

(** The credentials a development process prints work, each on its own plane
    and for its own tenant: the data key authenticates on the data plane, the
    admin key on the admin plane with its tenant's scope and not root's, and
    neither crosses over. *)
Theorem dev_credentials_work cfg version rnd now a creds :
  build cfg true version rnd now = Some (Ok a) → fresh_ops (NewMemory true) (seed_ops rnd now) →
  ap_dev a = Some creds →
  bootstrapMatches cfg (dc_DataKey creds) = false → bootstrapMatches cfg (dc_AdminKey creds) = false →
  ∃ kd ka, k_TenantID kd = dc_TenantID creds ∧ k_TenantID ka = dc_TenantID creds ∧
    k_Scope ka = "tenant:" +:+ dc_TenantID creds ∧
    ∀ at_, let login := auth cfg (sv_Store (ap_server a)) at_ in
      login PlaneData ("Bearer " +:+ dc_DataKey creds) = Ok (kd, Some (dev_tenant rnd now)) ∧
      login PlaneAdmin ("Bearer " +:+ dc_AdminKey creds) = Ok (ka, Some (dev_tenant rnd now)) ∧
      is_ok (login PlaneAdmin ("Bearer " +:+ dc_DataKey creds)) = false ∧
      is_ok (login PlaneData ("Bearer " +:+ dc_AdminKey creds)) = false.
Proof.
  intros (client & _ & Hb)%build_cases Hf Hd B1 B2. cbv zeta in Hb. destruct Hb as (creds' & m & Es & ->).
  injection Hd as ->. destruct (seedDev_spec true rnd now) as (kd & data & m2 & ka & admin & m3 & E2 & E3 & E).
  rewrite E in Es. injection Es as <- <-. cbn [dc_DataKey dc_AdminKey dc_TenantID ap_server] in *.
  change (sv_Store (set_store _ m3)) with m3.
  destruct (seeded_ok _ _ _ _ _ _ _ _ _ E2 E3 Hf) as (F2 & F3 & M1 & M2 & A3 & _ & Ht).
  set (t := NewID IDTenant (rnd 0%nat)) in *. set (m1 := seeded_tenant rnd now true) in *.
  destruct (CreateAPIKey_spec m1 (rnd 1%nat) (rnd 2%nat) (now 1%nat) t PlaneData "dev" "" None) as [_ S2].
  destruct (S2 _ _ E2) as (_ & T2 & _ & _ & X2 & _ & _ & _ & P2 & _). clear S2.
  destruct (CreateAPIKey_spec m2 (rnd 3%nat) (rnd 4%nat) (now 2%nat) t PlaneAdmin "dev" ("tenant:" +:+ t) None) as [_ S3].
  destruct (S3 _ _ E3) as (_ & T3 & _ & C3 & X3 & _ & _ & _ & P3 & _). clear S3.
  exists kd, ka. split_and!; [done..|]. intros at_. split_and!.
  - pose proof (secret_authenticates cfg _ _ _ _ _ _ _ _ _ _ _ _
      [OpCreateAPIKey (rnd 3%nat) (rnd 4%nat) (now 2%nat) t PlaneAdmin "dev" ("tenant:" +:+ t) None] at_ M1 F2 E2) as Ha.
    cbv zeta in Ha. cbn [run_mem foldl] in Ha. rewrite A3, T2, X2, decide_False, Ht in Ha by apply NewID_nonempty.
    apply Ha; [by split|by repeat constructor|done..].
  - pose proof (secret_authenticates cfg _ _ _ _ _ _ _ _ _ _ _ _ [] at_ M2 F3 E3) as Ha.
    cbv zeta in Ha. cbn [run_mem foldl] in Ha. rewrite T3, X3, decide_False, Ht in Ha by apply NewID_nonempty.
    apply Ha; [done|by constructor|done..].
  - apply wrong_plane_refused with PlaneData; [by eapply CreateAPIKey_graphic|done..].
  - apply wrong_plane_refused with PlaneAdmin; [by eapply CreateAPIKey_graphic|done..].
Qed.
(** A production process starts with no credential of its own making: whoever
    gets through holds the configured bootstrap key, on the admin plane and as
    root. *)
Theorem production_mints_nothing cfg version rnd now a :
  build cfg false version rnd now = Some (Ok a) →
  ap_dev a = None ∧
  ∀ at_ want header k t, auth cfg (sv_Store (ap_server a)) at_ want header = Ok (k, t) →
    want = PlaneAdmin ∧ k = bootstrap_principal ∧ t = None ∧ bearer header = cf_BootstrapKey cfg.
Proof.
  intros (client & _ & ->)%build_cases. split; [done|]. intros at_ want header k t. unfold auth.
  case_bool_decide; [done|]. destruct (bootstrapMatches cfg (bearer header)) eqn:Eb.
  - case_bool_decide; [|done]. simpl. intros [= <- <-]. split_and!; [done..|].
    by apply MiddlewareFacts.bootstrap_spec in Eb as [_ ?].
  - destruct (PlaneOf _) as [plane|]; [|done]. destruct (negb _); [done|]. simpl.
    unfold ResolveKey. simpl. by rewrite lookup_empty.
Qed.

Lemma fresh_cache c : 0 ≤ cc_MaxEntryBytes c ≤ cc_MaxBytes c → 2 * cc_MaxBytes c ≤ maxInt64 →
  cache_fine (newResponseCache c) ∧ ChatFacts.keyed (newResponseCache c).
Proof.
  intros Hle Hmax. unfold newResponseCache. destruct (cc_Enabled c); simpl; [|done].
  destruct (NewCache_ok (cc_MaxBytes c) (cc_MaxEntryBytes c)) as (? & ? & _); [lia..|].
  split; [done|]. intros c' k it [= <-]. simpl. by rewrite lookup_empty.
Qed.

(** One of the process's adapters serves every kind, under one ceiling. *)
Lemma registry_total cfg kind : ∃ ad, Registry_Get (registry cfg) kind = Some ad ∧
  maxResponseBytes ad = li_MaxResponseBytes (cf_Limits cfg).
Proof.
  unfold Registry_Get, registry, NewRegistry. cbn [foldl Kind].
  destruct (decide (kind = KindAnthropic)) as [->|Ha]; [by rewrite lookup_insert_eq; eexists|].
  rewrite lookup_insert_ne by done.
  destruct (decide (kind = KindGemini)) as [->|Hg]; [by rewrite lookup_insert_eq; eexists|].
  rewrite lookup_insert_ne by done.
  destruct (decide (kind = KindOpenAI)) as [->|Ho]; [by rewrite lookup_insert_eq; eexists|].
  rewrite lookup_insert_ne, lookup_empty by done. by eexists.
Qed.

Lemma dev_store_ok cfg rnd now creds m :
  seedDev rnd now (NewMemory true) = Some (Ok creds, m) → fresh_ops (NewMemory true) (seed_ops rnd now) →
  mem_ok m ∧ stored_ok cfg m.
Proof.
  intros Es Hf. destruct (seedDev_spec true rnd now) as (kd & data & m2 & ka & admin & m3 & E2 & E3 & E).
  rewrite E in Es. injection Es as <- <-.
  destruct (seeded_ok _ _ _ _ _ _ _ _ _ E2 E3 Hf) as (_ & F3 & _ & M2 & A3 & _ & _). split.
  - rewrite <-A3. by apply apply_mop_ok.
  - destruct (CreateAPIKey_spec (seeded_tenant rnd now true) (rnd 1%nat) (rnd 2%nat) (now 1%nat)
      (NewID IDTenant (rnd 0%nat)) PlaneData "dev" "" None) as [_ S2].
    destruct (S2 _ _ E2) as (_ & _ & _ & _ & _ & _ & _ & _ & _ & _ & _ & _ & Em2).
    destruct (CreateAPIKey_spec m2 (rnd 3%nat) (rnd 4%nat) (now 2%nat) (NewID IDTenant (rnd 0%nat)) PlaneAdmin "dev"
      ("tenant:" +:+ NewID IDTenant (rnd 0%nat)) None) as [_ S3].
    destruct (S3 _ _ E3) as (_ & _ & _ & _ & _ & _ & _ & _ & _ & _ & _ & _ & Em3).
    destruct (NewMemory_stored cfg true). rewrite Em3, Em2. split; try done.
    intros id t. cbn. intros [<- <-]%lookup_singleton_Some. split; [left|]. split; [|split]; left; reflexivity.
Qed.

(** What a built process is made of. *)
Lemma built_from cfg dev version rnd now a :
  build cfg dev version rnd now = Some (Ok a) →
  (dev = true → fresh_ops (NewMemory true) (seed_ops rnd now)) →
  ∃ client m, let base := assemble cfg dev version client (now 3%nat) in
    ap_server a = set_store (ap_server base) m ∧ mem_ok m ∧ stored_ok cfg m ∧
    ap_registry a = registry cfg ∧ ap_telemetry a = ap_telemetry base.
Proof.
  intros (client & _ & Hb)%build_cases Hf. cbv zeta in *. exists client.
  destruct dev; [destruct Hb as (creds & m & Hseed & ->); exists m|subst a; exists (NewMemory false)].
  - destruct (dev_store_ok cfg rnd now creds m Hseed (Hf eq_refl)) as [? ?]. by split_and!.
  - split_and!; [done|apply NewMemory_ok|apply NewMemory_stored|done..].
Qed.

(** A process that has done nothing yet: no destination is tripped or remembered,
    nothing was sent, no row, event, delivery or permit is under way, nothing is
    cached, and it is not draining. *)
Record idle (a : app) : Prop := {
  il_breaker : let b := d_breaker (sv_Dispatcher (ap_server a)) in b_entries b = ∅ ∧ b_changes b = [];
  il_dispatcher : let d := sv_Dispatcher (ap_server a) in d_calls d = [] ∧ d_cooldowns d = ∅ ∧ d_cursors d = ∅;
  il_usage : let t := ap_telemetry a in
    tm_ch t = [] ∧ tm_stage t = AtSelect ∧ tm_stop t = false ∧ tm_persisted t = [] ∧ tm_metrics t = Some 0;
  il_events : ∃ ev, sv_Events (ap_server a) = Some ev ∧ ed_queue ev = [] ∧ ed_posted ev = [] ∧ ed_stop ev = false ∧
    Forall (λ w, w = WIdle) (ed_workers ev);
  il_limits : let l := sv_limits (ap_server a) in permits (ls_limiter l) = [] ∧ inUse (ls_limiter l) = ∅ ∧ ls_rates l = ∅;
  il_cache c : sv_cache (ap_server a) = Some c → c_items c = ∅;
  il_captures : cs_byTenant (sv_captures (ap_server a)) = ∅;
  il_catalog : let c := sv_Catalog (ap_server a) in cat_perTenant c = ∅ ∧ cat_changes c = [] ∧ cat_polls c = [];
  il_quotas : let q := sv_quotas (ap_server a) in
    qc_entries (qs_quotas q) = ∅ ∧ qc_announced (qs_quotas q) = ∅ ∧ qs_emitted q = [];
  il_draining : sv_draining (ap_server a) = false
}.

Lemma built_idle cfg dev version rnd now a :
  build cfg dev version rnd now = Some (Ok a) →
  (dev = true → fresh_ops (NewMemory true) (seed_ops rnd now)) → idle a.
Proof.
  intros Hb Hf. destruct (built_from _ _ _ _ _ _ Hb Hf) as (client & m & Es & _ & _ & _ & Et).
  split; rewrite ?Es, ?Et; try done.
  - eexists. split_and!; [done..|]. apply Forall_replicate. done.
  - intros c. simpl. unfold newResponseCache. destruct (negb _); [done|]. by intros [= <-].
Qed.

(** A process that is built from a validated configuration starts where the
    other theorems start: its store is well formed, its breaker, its cache, its
    event workers and its telemetry buffer are in a lawful state, no permit is
    open, every provider kind has an adapter with the configured ceiling on a
    response, and whatever admin calls follow, what is stored is valid. *)
Theorem built_process_is_sound cfg dev version rnd now a :
  Validate cfg = None → 0 ≤ cc_MaxEntryBytes (cf_Cache cfg) → 2 * cc_MaxBytes (cf_Cache cfg) ≤ maxInt64 →
  build cfg dev version rnd now = Some (Ok a) →
  (dev = true → fresh_ops (NewMemory true) (seed_ops rnd now)) →
  let s := ap_server a in
  server_ok s ∧ ChatFacts.keyed (sv_cache s) ∧ wf (d_breaker (sv_Dispatcher s)) ∧
  (∃ ev, sv_Events s = Some ev ∧ EventsFacts.pool_ok ev) ∧ implements (ap_telemetry a) no_ledger ∧
  (∀ k, LimitsFacts.open (ls_limiter (sv_limits s)) k = 0) ∧
  (∀ kind, ∃ ad, Registry_Get (ap_registry a) kind = Some ad ∧
     maxResponseBytes ad = li_MaxResponseBytes (cf_Limits cfg) ∧ 1 ≤ maxResponseBytes ad) ∧
  ∀ poll_now answers calls, stored_ok cfg (sv_Store (ControlPlane.serve_all (ap_registry a) poll_now answers s calls)).
Proof.
  intros Hv Hc1 Hc2 Hb Hf s. destruct (built_from _ _ _ _ _ _ Hb Hf) as (client & m & Es & Hm & Hst & Er & Et).
  pose proof Hv as (_ & _ & _ & _ & Hresp & Hmax)%Validate_sizes.
  destruct (fresh_cache (cf_Cache cfg)) as [Hcf Hck]; [lia..|].
  set (base := assemble cfg dev version client (now 3%nat)) in *.
  subst s. rewrite Es, Er, Et. split_and!; try done.
  - apply NewBreaker_wf.
  - eexists. split; [done|]. by apply EventsFacts.NewED_pool.
  - apply TelemetryFacts.New_implements.
  - intros kind. destruct (registry_total cfg kind) as (ad & ? & Em). exists ad. rewrite Em. split_and!; [done..|lia].
  - intros poll_now answers calls. by apply (ControlPlane.stored_after_calls _ poll_now answers (set_store (ap_server base) m)).
Qed.

(** *** The breaker's gauge *)

(** The series of the gauge after a log of transitions. *)
Definition gauges (log : list change) : gmap (string * string * string) Z :=
  foldl (λ g c, let '(key, from, to) := c in
    match (breakerObservers true true key from to).1 with Some (l, z) => <[l := z]> g | None => g end) ∅ log.

(** A scrape shows the breaker: after any calls on it, the gauge of a destination
    holds its position, and a destination that has no series is closed. *)
Theorem gauge_shows_the_breaker threshold window openFor ops t p m :
  str_has slash t = false → str_has slash p = false → t ≠ "" →
  let b := Breaker.run (NewBreaker threshold window openFor) ops in
  default 0 (gauges (b_changes b) !! (t, p, m)) = Gauge (Breaker.position b (Key t p m)).
Proof.
  intros Ht Hp Hne b. pose proof (run_wf _ ops (NewBreaker_wf threshold window openFor)) as Hwf.
  fold b in Hwf. rewrite <-(wf_last b Hwf). generalize (b_changes b).
  induction l as [|[[k from] to] log IH] using rev_ind; [done|].
  rewrite last_to_snoc. unfold gauges. rewrite foldl_snoc. fold (gauges log). unfold breakerObservers.
  destruct (decide (k = Key t p m)) as [->|Hk].
  - rewrite SplitKey_Key by done. cbn [fst]. by rewrite lookup_insert_eq.
  - destruct (SplitKey k) as [[t' p'] m'] eqn:E. cbn [fst]. rewrite lookup_insert_ne; [done|].
    intros [= -> -> ->]. by apply SplitKey_inv in E as [-> _].
Qed.
End props.

(** *** Witnesses *)

#[local] Existing Instance ascii_only.
#[local] Existing Instance binary_codec.
#[local] Existing Instance CacheFacts.one_document.
#[local] Existing Instance CacheFacts.identity_hash.
#[local] Instance any_url : NetUrl := {| url_Parse _ := Some ("http", "a") |}.
#[local] Instance plain_numbers : JsonNumbers := {| float_literal _ := Some "1" |}.

Definition no_file (_ _ : string) : option error := None.
Definition draws (i : nat) : string := nth i ["aaaaaa"; "bbbbbb"; "cccccc"; "dddddd"; "eeeeee"] "".
Definition at_boot (i : nat) : Z := Z.of_nat i.
Definition dev_config : Config := applyDevDefaults Default.

Lemma draws_fresh : fresh_ops (NewMemory true) (seed_ops draws at_boot).
Proof.
  unfold seed_ops. cbv zeta. cbn [fresh_ops]. split; [exact I|]. split; [|split; [|exact I]];
    (split; [by vm_compute|intros h Eh; vm_compute in Eh; injection Eh as <-; by vm_compute]).
Qed.

Definition booted (cfg : Config) (dev : bool) : option app :=
  match build AdapterFacts.bad_address no_file cfg dev "v" draws at_boot with Some (Ok a) => Some a | _ => None end.

Definition dev_keys : option devCredentials := Eval vm_compute in booted dev_config true ≫= ap_dev.

Lemma booted_build cfg dev a : booted cfg dev = Some a →
  build AdapterFacts.bad_address no_file cfg dev "v" draws at_boot = Some (Ok a).
Proof. unfold booted. destruct (build _ _ _ _ _ _ _) as [[]|]; by intros [= ->]. Qed.

Lemma dev_credentials_work_witness :
  ∃ a creds kd, booted dev_config true = Some a ∧ dev_keys = Some creds ∧
    auth dev_config (sv_Store (ap_server a)) 9 PlaneData ("Bearer " +:+ dc_DataKey creds) =
      Ok (kd, Some (dev_tenant draws at_boot)).
Proof.
  assert (booted dev_config true ≫= ap_dev = dev_keys) as Ek by (vm_compute; reflexivity).
  destruct (booted dev_config true) as [a|] eqn:E; [|discriminate Ek]. apply booted_build in E. cbn in Ek.
  destruct dev_keys as [creds|] eqn:Ed; [|discriminate Ed]. exists a, creds.
  destruct (dev_credentials_work AdapterFacts.bad_address no_file dev_config "v" draws at_boot a creds E draws_fresh Ek)
    as (kd & ka & _ & _ & _ & Ha); [injection Ed as <-; vm_compute; reflexivity..|].
  exists kd. split_and!; [done..|]. apply (Ha 9).
Defined.

Lemma production_mints_nothing_witness :
  ∃ a, booted Default false = Some a ∧
    is_ok (auth Default (sv_Store (ap_server a)) 9 PlaneAdmin "Bearer cga-guess-guess-guess") = false.
Proof.
  destruct (booted Default false) as [a|] eqn:E; [|by vm_compute in E]. exists a. split; [done|].
  apply booted_build in E. destruct (production_mints_nothing _ _ _ _ _ _ _ E) as [_ Ha].
  destruct (auth _ _ _ _ _) as [[k t]|] eqn:Eo; [|done]. exfalso.
  destruct (Ha 9 PlaneAdmin "Bearer cga-guess-guess-guess" k t Eo) as (_ & _ & _ & Hb). by vm_compute in Hb.
Defined.

Lemma built_process_is_sound_witness :
  ∃ a, booted dev_config true = Some a ∧ server_ok (ap_server a) ∧
    (∃ ad, Registry_Get (ap_registry a) KindAnthropic = Some ad ∧ maxResponseBytes ad = 8388608).
Proof.
  destruct (booted dev_config true) as [a|] eqn:E; [|by vm_compute in E]. exists a. split; [done|].
  apply booted_build in E.
  destruct (built_process_is_sound AdapterFacts.bad_address no_file dev_config true "v" draws at_boot a) as (Hs & _ & _ & _ & _ & _ & Hk & _);
    [by vm_compute|by vm_compute|by vm_compute|exact E|intros _; exact draws_fresh|].
  split; [exact Hs|]. destruct (Hk KindAnthropic) as (ad & ? & Em & _). exists ad. split; [done|]. by rewrite Em.
Defined.

Lemma gauge_shows_the_breaker_witness :
  default 0 (gauges (b_changes (Breaker.run (NewBreaker 1 Minute Second) [OpFailure (Key "t" "p" "a/b") 5]))
    !! ("t", "p", "a/b")) = 2.
Proof. rewrite (gauge_shows_the_breaker 1 Minute Second [OpFailure (Key "t" "p" "a/b") 5] "t" "p" "a/b"); done. Defined.
End ProcessFacts.
