(* ===== verification/Boot.v ===== *)
(** * Starting and stopping the process (internal/config/config.go, internal/obs/log.go, main.go)

    Loading a configuration from a file and the environment, the level of the
    log, and [run]: flags, configuration, assembly, service, drain.

    The environment is a function, as [os.Getenv] gives "" for a variable that
    is not set. The YAML decoder is the parameter [unmarshal], a file is what
    [read_file] finds, [strconv.ParseFloat] on its whole syntax is
    [parse_float], and [flag] hands over its parsed flags. *)

From S2P Require Import Prelude GoStrings GoTime GoFloat ApiErr Config Server Keys Json Memory Admin Middleware OpenAI Analytics App.

#[local] Open Scope Z_scope.
#[local] Open Scope stdpp_scope.

(** ** Configuration *)

(** [envStr]: the first of the two spellings that is not blank. *)
Definition setting (env : string → string) (name : string) : option string :=
  List.find (λ v, negb (bool_decide (v = ""))) [TrimSpace (env ("CG_" +:+ name)); TrimSpace (env name)].

Definition envStr (env : string → string) (name : string) (set : string → Config → Config) (cfg : Config) : Config :=
  match setting env name with Some v => set v cfg | None => cfg end.

(** [strconv.ParseBool] *)
Definition ParseBool (s : string) : option bool :=
  if one_of s ["1"; "t"; "T"; "TRUE"; "true"; "True"] then Some true
  else if one_of s ["0"; "f"; "F"; "FALSE"; "false"; "False"] then Some false
  else None.

Section load.
Context (parse_float : string → option f64) (env : string → string).

Definition applyEnv (cfg : Config) : Config :=
  foldl (λ cfg entry, envStr env entry.1 entry.2 cfg) cfg
    [("PORT", λ v cfg, match Atoi v with
        | Some n => let g := cf_Gateway cfg in
            set_Gateway cfg {| g_Port := n; g_TLSCertFile := g_TLSCertFile g; g_TLSKeyFile := g_TLSKeyFile g |}
        | None => cfg end);
     ("ADMIN_BOOTSTRAP_KEY", λ v cfg, set_BootstrapKey cfg v);
     ("TLS_CERT_FILE", λ v cfg, let g := cf_Gateway cfg in
        set_Gateway cfg {| g_Port := g_Port g; g_TLSCertFile := v; g_TLSKeyFile := g_TLSKeyFile g |});
     ("TLS_KEY_FILE", λ v cfg, let g := cf_Gateway cfg in
        set_Gateway cfg {| g_Port := g_Port g; g_TLSCertFile := g_TLSCertFile g; g_TLSKeyFile := v |});
     ("ANALYTICS_URL", λ v cfg, let a := cf_Analytics cfg in
        set_Analytics cfg {| an_BaseURL := v; an_Token := an_Token a; an_Timeout := an_Timeout a |});
     ("ANALYTICS_TOKEN", λ v cfg, let a := cf_Analytics cfg in
        set_Analytics cfg {| an_BaseURL := an_BaseURL a; an_Token := v; an_Timeout := an_Timeout a |});
     ("METRICS_TOKEN", λ v cfg, let x := cf_Metrics cfg in
        set_Metrics cfg {| me_Enabled := me_Enabled x; me_Path := me_Path x; me_Token := v |});
     ("LOG_LEVEL", λ v cfg, set_LogLevel cfg v);
     ("QUOTA_ENFORCEMENT", λ v cfg, let q := cf_Quotas cfg in
        set_Quotas cfg {| qc_DefaultSoftThresholdPct := qc_DefaultSoftThresholdPct q; qc_Enforcement := v |});
     ("BILLING_MODE", λ v cfg, let b := cf_Billing cfg in
        set_Billing cfg {| bl_Mode := v; bl_MarkupPct := bl_MarkupPct b; bl_CostVisibility := bl_CostVisibility b |});
     ("BILLING_MARKUP_PCT", λ v cfg, match parse_float v with
        | Some f => let b := cf_Billing cfg in
            set_Billing cfg {| bl_Mode := bl_Mode b; bl_MarkupPct := f; bl_CostVisibility := bl_CostVisibility b |}
        | None => cfg end);
     ("BILLING_COST_VISIBILITY", λ v cfg, let b := cf_Billing cfg in
        set_Billing cfg {| bl_Mode := bl_Mode b; bl_MarkupPct := bl_MarkupPct b; bl_CostVisibility := v |});
     ("CHAT_SYSTEM_INSTRUCTION", λ v cfg, set_SystemInstruction cfg v);
     ("CACHE_ENABLED", λ v cfg, match ParseBool v with
        | Some b => let c := cf_Cache cfg in
            set_Cache cfg {| cc_Enabled := b; cc_DefaultTTL := cc_DefaultTTL c; cc_MaxTTL := cc_MaxTTL c;
                             cc_MaxEntryBytes := cc_MaxEntryBytes c; cc_MaxBytes := cc_MaxBytes c |}
        | None => cfg end)].

(** What [os.ReadFile] finds at a path. *)
Inductive file := Missing | Unreadable (e : error) | Contents (raw : string).

Context (unmarshal : string → Config → res error Config) (read_file : string → file).

(** The defaults, and the file over them. *)
Definition read_config (path : string) : res error Config :=
  if bool_decide (path = "") then Ok Default
  else match read_file path with
       | Contents raw =>
           match unmarshal raw Default with
           | Ok cfg => Ok cfg
           | Err e => Err (ErrWrap (Msgf "parse %s: %w" [FStr path]) e)
           end
       | Missing => Ok Default
       | Unreadable e => Err (ErrWrap (Msgf "read %s: %w" [FStr path]) e)
       end.

(** [Load]; the configuration that accompanies an error is dropped, as [run]
    drops it. *)
Definition Load (path : string) : res error Config :=
  match read_config path with
  | Err e => Err e
  | Ok cfg =>
      let cfg := applyEnv cfg in
      match Validate cfg with
      | Some m => Err (ErrText m)
      | None => Ok cfg
      end
  end.
End load.

(** ** The log level *)

Inductive Level := LevelDebug | LevelInfo | LevelWarn | LevelError.

Definition ParseLevel `{Unicode} (level : string) : Level :=
  let l := ToLower (TrimSpace level) in
  if bool_decide (l = "debug") then LevelDebug
  else if bool_decide (l = "warn") || bool_decide (l = "warning") then LevelWarn
  else if bool_decide (l = "error") then LevelError
  else LevelInfo.

(** ** main.go *)

Record Flags := { fl_config : string; fl_dev : bool; fl_version : bool }.

(** How the wait in [serve] ends: the listener returned, with an error that is
    not the ordinary one of a closed server or with none, or a signal came. *)
Inductive stop := Listener (err : option error) | Signalled.

(** [serve]; [drain_error] is what the framework's shutdown reports. *)
Definition serve (why : stop) (now now' : Z) (drained : app → app) (drain_error : option error) (a : app) :
    option error * app :=
  match why with
  | Listener err => (err, a)
  | Signalled =>
      let deadline := Add now (cf_DrainTimeout (sv_Config (ap_server a))) in
      let '(_, a) := app_Shutdown (Some deadline) now' drained a in
      (match drain_error with Some e => Some (ErrWrap (text "draining: %w") e) | None => None end, a)
  end.

(** What [run] has done when it returns: printed the version, failed before
    serving, or served, with the banner it printed and the process it left. *)
Inductive outcome :=
  | Printed (version : string)
  | Refused (e : error)
  | Served (level : Level) (banner : option (list farg)) (started : app) (err : option error) (left : app).

Section run.
Context `{Unicode} `{Crypto} `{NetUrl} (url_error : string → error).
Context (load_keypair : string → string → option error).
Context (parse_float : string → option f64) (env : string → string).
Context (unmarshal : string → Config → res error Config) (read_file : string → file).

(** [run]; a [None] is the panic of [seedDev]. *)
Definition run (version : string) (flags : res error Flags) (rnd : nat → string) (clock : nat → Z)
    (service : app → option error * app) : option outcome :=
  match flags with
  | Err e => Some (Refused e)
  | Ok fl =>
      if fl_version fl then Some (Printed version)
      else
        match Load parse_float env unmarshal read_file (fl_config fl) with
        | Err e => Some (Refused e)
        | Ok cfg =>
            let cfg := if fl_dev fl then applyDevDefaults cfg else cfg in
            built ← build url_error load_keypair cfg (fl_dev fl) version rnd clock;
            match built with
            | Err e => Some (Refused e)
            | Ok a =>
                let '(err, a') := service a in
                Some (Served (ParseLevel (cf_LogLevel cfg)) (printDevBanner cfg <$> ap_dev a) a err (app_Close a'))
            end
        end
  end.
End run.
