(* ===== verification/BootProps.v ===== *)
(** * Theorems about starting and stopping the process

    Where every setting of a running gateway comes from, what is refused at the
    door, and what a signal leaves behind. *)

From S2P Require Import Prelude GoStrings GoTime GoFloat ApiErr Keys Json Config Cache Memory MemoryFacts MemoryProps Provider Breaker Dispatch Middleware Server Events Telemetry Admin AdminProps OpenAI OpenAIProps Analytics App AppProps Boot.

#[local] Open Scope Z_scope.
#[local] Open Scope stdpp_scope.

(** ** The environment over a configuration *)

Section overlay.
Context (parse_float : string → option f64) (env : string → string).

Definition chosen (name d : string) : string := default d (setting env name).
Definition parsed {X} (parse : string → option X) (name : string) (d : X) : X :=
  default d (setting env name ≫= parse).

(** A configuration with each setting of the environment in its place. *)
Definition overlaid (c : Config) : Config :=
  let g := cf_Gateway c in let a := cf_Analytics c in let b := cf_Billing c in
  {| cf_Gateway := {| g_Port := parsed Atoi "PORT" (g_Port g); g_TLSCertFile := chosen "TLS_CERT_FILE" (g_TLSCertFile g);
                      g_TLSKeyFile := chosen "TLS_KEY_FILE" (g_TLSKeyFile g) |};
     cf_BootstrapKey := chosen "ADMIN_BOOTSTRAP_KEY" (cf_BootstrapKey c);
     cf_Analytics := {| an_BaseURL := chosen "ANALYTICS_URL" (an_BaseURL a);
                        an_Token := chosen "ANALYTICS_TOKEN" (an_Token a); an_Timeout := an_Timeout a |};
     cf_Catalog := cf_Catalog c;
     cf_Billing := {| bl_Mode := chosen "BILLING_MODE" (bl_Mode b);
                      bl_MarkupPct := parsed parse_float "BILLING_MARKUP_PCT" (bl_MarkupPct b);
                      bl_CostVisibility := chosen "BILLING_COST_VISIBILITY" (bl_CostVisibility b) |};
     cf_SystemInstruction := chosen "CHAT_SYSTEM_INSTRUCTION" (cf_SystemInstruction c);
     cf_Routing := cf_Routing c;
     cf_Quotas := {| qc_DefaultSoftThresholdPct := qc_DefaultSoftThresholdPct (cf_Quotas c);
                     qc_Enforcement := chosen "QUOTA_ENFORCEMENT" (qc_Enforcement (cf_Quotas c)) |};
     cf_Limits := cf_Limits c; cf_RateLimit := cf_RateLimit c;
     cf_Cache := {| cc_Enabled := parsed ParseBool "CACHE_ENABLED" (cc_Enabled (cf_Cache c));
                    cc_DefaultTTL := cc_DefaultTTL (cf_Cache c); cc_MaxTTL := cc_MaxTTL (cf_Cache c);
                    cc_MaxEntryBytes := cc_MaxEntryBytes (cf_Cache c); cc_MaxBytes := cc_MaxBytes (cf_Cache c) |};
     cf_Webhooks := cf_Webhooks c; cf_TelemetryBuffer := cf_TelemetryBuffer c; cf_HealthCacheTTL := cf_HealthCacheTTL c;
     cf_Metrics := {| me_Enabled := me_Enabled (cf_Metrics c); me_Path := me_Path (cf_Metrics c);
                      me_Token := chosen "METRICS_TOKEN" (me_Token (cf_Metrics c)) |};
     cf_DrainTimeout := cf_DrainTimeout c; cf_LogLevel := chosen "LOG_LEVEL" (cf_LogLevel c); cf_Debug := cf_Debug c |}.

(** One override changes what it sets, and nothing else. *)
Lemma envStr_proj {G} (proj : Config → G) name set c :
  proj (envStr env name set c) = match setting env name with Some v => proj (set v c) | None => proj c end.
Proof. unfold envStr. by destruct (setting env name). Qed.

Lemma envStr_other {G} (proj : Config → G) name set c :
  (∀ v c, proj (set v c) = proj c) → proj (envStr env name set c) = proj c.
Proof. intros Hs. rewrite envStr_proj. by destruct (setting env name). Qed.

Lemma Config_eta c : c =
  {| cf_Gateway := {| g_Port := g_Port (cf_Gateway c); g_TLSCertFile := g_TLSCertFile (cf_Gateway c);
                      g_TLSKeyFile := g_TLSKeyFile (cf_Gateway c) |};
     cf_BootstrapKey := cf_BootstrapKey c;
     cf_Analytics := {| an_BaseURL := an_BaseURL (cf_Analytics c); an_Token := an_Token (cf_Analytics c);
                        an_Timeout := an_Timeout (cf_Analytics c) |};
     cf_Catalog := cf_Catalog c;
     cf_Billing := {| bl_Mode := bl_Mode (cf_Billing c); bl_MarkupPct := bl_MarkupPct (cf_Billing c);
                      bl_CostVisibility := bl_CostVisibility (cf_Billing c) |};
     cf_SystemInstruction := cf_SystemInstruction c; cf_Routing := cf_Routing c;
     cf_Quotas := {| qc_DefaultSoftThresholdPct := qc_DefaultSoftThresholdPct (cf_Quotas c);
                     qc_Enforcement := qc_Enforcement (cf_Quotas c) |};
     cf_Limits := cf_Limits c; cf_RateLimit := cf_RateLimit c;
     cf_Cache := {| cc_Enabled := cc_Enabled (cf_Cache c); cc_DefaultTTL := cc_DefaultTTL (cf_Cache c);
                    cc_MaxTTL := cc_MaxTTL (cf_Cache c); cc_MaxEntryBytes := cc_MaxEntryBytes (cf_Cache c);
                    cc_MaxBytes := cc_MaxBytes (cf_Cache c) |};
     cf_Webhooks := cf_Webhooks c; cf_TelemetryBuffer := cf_TelemetryBuffer c; cf_HealthCacheTTL := cf_HealthCacheTTL c;
     cf_Metrics := {| me_Enabled := me_Enabled (cf_Metrics c); me_Path := me_Path (cf_Metrics c);
                      me_Token := me_Token (cf_Metrics c) |};
     cf_DrainTimeout := cf_DrainTimeout c; cf_LogLevel := cf_LogLevel c; cf_Debug := cf_Debug c |}.
Proof. by destruct c as [[] ? [] ? [] ? ? [] ? ? [] ? ? ? [] ? ? ?]. Qed.

Ltac untouched := intros ??; simpl; repeat case_match; reflexivity.
Ltac peel proj := etransitivity; [apply (envStr_other proj); untouched|].
Ltac one_field e := lazymatch goal with |- ?lhs = _ =>
  lazymatch eval pattern e in lhs with ?proj _ =>
    unfold applyEnv; cbn [foldl fst snd]; repeat peel proj;
    try (etransitivity; [apply (envStr_proj proj)|]; unfold chosen, parsed; destruct (setting env _); simpl;
         repeat case_match; simplify_eq/=);
    repeat peel proj; reflexivity
  end end.

(** The overrides, one after another, are that configuration. *)
Lemma applyEnv_overlaid c : applyEnv parse_float env c = overlaid c.
Proof.
  rewrite (Config_eta (applyEnv parse_float env c)). unfold overlaid. cbv zeta.
  f_equal; lazymatch goal with
    | |- Build_GatewayCfg _ _ _ = _ => f_equal | |- Build_AnalyticsCfg _ _ _ = _ => f_equal
    | |- Build_Billing _ _ _ = _ => f_equal | |- Build_QuotasCfg _ _ = _ => f_equal
    | |- Build_CacheCfg _ _ _ _ _ = _ => f_equal | |- Build_MetricsCfg _ _ _ = _ => f_equal
    | |- _ => idtac end; one_field (applyEnv parse_float env c).
Qed.
End overlay.

(** ** Validation *)

(** The checks other than the bootstrap key's do not read it. *)
Lemma Validate_bootstrap c key :
  MinBootstrapKeyLen ≤ Z.of_nat (String.length key) → Validate c = None → Validate (set_BootstrapKey c key) = None.
Proof.
  unfold Validate. intros Hk [H1 [_ H3]%Forall_cons]%first_failing_None%Forall_cons.
  apply first_failing_None, Forall_cons. split; [exact H1|]. apply Forall_cons. split; [|exact H3].
  cbn [fst set_BootstrapKey cf_BootstrapKey]. apply andb_false_iff. right. lia.
Qed.

Lemma Validate_level c : Validate c = None → one_of (cf_LogLevel c) ["debug"; "info"; "warn"; "error"] = true.
Proof.
  unfold Validate. intros Hv%first_failing_None. check Hv 18%nat Hl. by apply negb_false_iff.
Qed.

Lemma app_Close_twice a : app_Close (app_Close a) = app_Close a.
Proof.
  unfold app_Close, stop_events, stop_telemetry. cbn [ap_server ap_registry ap_client ap_telemetry ap_dev]. f_equal.
  unfold set_dispatch_events. cbn. by destruct (sv_Events (ap_server a)).
Qed.

(** The level's name in a configuration. *)
Definition level_name (l : Level) : string :=
  match l with LevelDebug => "debug" | LevelInfo => "info" | LevelWarn => "warn" | LevelError => "error" end.

Lemma level_named `{Unicode} c : Validate c = None → level_name (ParseLevel (cf_LogLevel c)) = cf_LogLevel c.
Proof.
  intros Hv%Validate_level. unfold one_of in Hv. apply existsb_exists in Hv as (x & Hin & ->%bool_decide_eq_true).
  unfold ParseLevel, ToLower. by destruct Hin as [<-|[<-|[<-|[<-|[]]]]].
Qed.

Lemma dev_door cfg : Validate cfg = None → Validate (applyDevDefaults cfg) = None.
Proof. intros Hv. unfold applyDevDefaults. case_bool_decide; [by apply Validate_bootstrap|done]. Qed.

Module BootFacts.

Section props.
Context `{Unicode} `{Crypto} `{NetUrl} (url_error : string → error).
Context (load_keypair : string → string → option error).
Context (parse_float : string → option f64) (env : string → string).
Context (unmarshal : string → Config → res error Config) (read_file : string → file).

Abbreviation load := (Load parse_float env unmarshal read_file).

Lemma Load_cases path cfg : load path = Ok cfg ↔
  ∃ base, read_config unmarshal read_file path = Ok base ∧ cfg = overlaid parse_float env base ∧ Validate cfg = None.
Proof.
  unfold Load. destruct (read_config unmarshal read_file path) as [base|e]; [|split; [done|by intros (? & ? & _)]].
  rewrite applyEnv_overlaid. destruct (Validate _) as [m|] eqn:Ev; split.
  - done.
  - intros (b & [= <-] & -> & Hv). congruence.
  - intros [= <-]. by exists base.
  - by intros (b & [= <-] & -> & _).
Qed.

(** C37: Where the settings of a running gateway come from: the environment where it
    says something usable, with the prefixed name first, otherwise the file,
    otherwise the defaults, one setting at a time; and the result is served
    exactly when it is valid. A missing file counts as no file. *)
Theorem settings_have_one_origin path cfg :
  (load path = Ok cfg ↔ ∃ base, cfg = overlaid parse_float env base ∧ Validate cfg = None ∧
     ((base = Default ∧ (path = "" ∨ read_file path = Missing)) ∨
      (path ≠ "" ∧ ∃ raw, read_file path = Contents raw ∧ unmarshal raw Default = Ok base))) ∧
  (∀ name v, setting env name = Some v ↔ v ≠ "" ∧
     (v = TrimSpace (env ("CG_" +:+ name)) ∨ (TrimSpace (env ("CG_" +:+ name)) = "" ∧ v = TrimSpace (env name)))).
Proof.
  split.
  - rewrite Load_cases. unfold read_config. split.
    + intros (base & Hr & -> & Hv). exists base. split_and!; [done..|].
      case_bool_decide as Hp; [injection Hr as <-; left; auto|].
      destruct (read_file path) as [|e|raw] eqn:Er; [injection Hr as <-; left; auto|done|].
      right. split; [done|]. exists raw. by destruct (unmarshal raw Default).
    + intros (base & -> & Hv & Hb). exists base. split_and!; [|done..]. destruct Hb as [[-> [->|Hm]]|(Hp & raw & Hf & Hu)].
      * done.
      * by rewrite Hm; case_bool_decide.
      * by rewrite bool_decide_eq_false_2, Hf, Hu by done.
  - intros name v. unfold setting. cbn [List.find].
    destruct (bool_decide (TrimSpace (env ("CG_" +:+ name)) = "")) eqn:E1; cbn [negb];
      [apply bool_decide_eq_true in E1|apply bool_decide_eq_false in E1].
    + rewrite E1. case_bool_decide as E2; cbn [negb]; split.
      * done.
      * by intros (Hne & [->|[_ ->]]).
      * intros [= <-]. auto.
      * by intros (Hne & [->|[_ ->]]).
    + split; [intros [= <-]; auto|]. by intros (Hne & [->|[? _]]).
Qed.

(** A development process always has an open admin door: filling in what it
    needs leaves a configuration valid, and its bootstrap key is accepted. *)
Theorem dev_process_has_a_door cfg :
  Validate cfg = None →
  Validate (applyDevDefaults cfg) = None ∧
  bootstrapMatches (applyDevDefaults cfg) (cf_BootstrapKey (applyDevDefaults cfg)) = true ∧
  (cf_BootstrapKey cfg ≠ "" → applyDevDefaults cfg = cfg).
Proof.
  intros Hv. split; [by apply dev_door|]. unfold applyDevDefaults. case_bool_decide as Hk.
  - split_and!; [by rewrite MiddlewareFacts.bootstrap_spec|done].
  - split; [|done]. apply MiddlewareFacts.bootstrap_spec. split; [|done].
    by destruct (Validate_sound cfg Hv) as [[?|?] _].
Qed.

(** The banner of a development process that was given a bootstrap key of its
    own names another one, which the admin plane does not take for it. *)
Theorem banner_names_the_wrong_key cfg creds :
  Validate cfg = None → cf_BootstrapKey cfg ≠ "" → cf_BootstrapKey cfg ≠ devBootstrapKey →
  printDevBanner (applyDevDefaults cfg) creds !! 3%nat = Some (FStr devBootstrapKey) ∧
  bootstrapMatches (applyDevDefaults cfg) devBootstrapKey = false ∧
  bootstrapMatches (applyDevDefaults cfg) (cf_BootstrapKey cfg) = true.
Proof.
  intros Hv Hne Hk. unfold applyDevDefaults. rewrite bool_decide_eq_false_2 by done. split_and!; [done| |].
  - apply not_true_iff_false. rewrite MiddlewareFacts.bootstrap_spec. by intros [_ ?].
  - apply MiddlewareFacts.bootstrap_spec. split; [|done]. by destruct (Validate_sound cfg Hv) as [[?|?] _].
Qed.

(** A log level the configuration does not list stops the gateway from starting,
    also one, such as "warning", that the logger understands. *)
Theorem unlisted_log_level_stops_the_start path l :
  setting env "LOG_LEVEL" = Some l → l ∉ ["debug"; "info"; "warn"; "error"] → is_ok (load path) = false.
Proof.
  intros Hs Hl. destruct (load path) as [cfg|e] eqn:E; [|done].
  apply Load_cases in E as (base & _ & -> & Hv%Validate_level).
  unfold overlaid, chosen in Hv. cbn [cf_LogLevel] in Hv. rewrite Hs in Hv.
  change (one_of l ["debug"; "info"; "warn"; "error"] = true) in Hv. exfalso. apply Hl. unfold one_of in Hv. apply existsb_exists in Hv as (x & Hin & ->%bool_decide_eq_true).
  by apply list_elem_of_In.
Qed.

(** A markup that is not a number passes validation, and then every charge is
    not a number either. *)
Theorem markup_may_be_nan cfg :
  Validate cfg = None →
  let cfg' := set_Billing cfg {| bl_Mode := BillingMarkup; bl_MarkupPct := S754_nan;
                                 bl_CostVisibility := bl_CostVisibility (cf_Billing cfg) |} in
  Validate cfg' = None ∧ ∀ cost, Charge (cf_Billing cfg') cost = S754_nan.
Proof.
  intros Hv cfg'. split.
  - unfold cfg'. revert Hv. unfold Validate. intros Hv%first_failing_None. apply first_failing_None.
    do 5 (apply Forall_cons in Hv as [? Hv]; apply Forall_cons; split; [assumption|]).
    do 2 (apply Forall_cons in Hv as [_ Hv]; apply Forall_cons; split; [reflexivity|]). exact Hv.
  - intros cost. unfold Charge, cfg'. cbn [cf_Billing set_Billing bl_Mode bl_MarkupPct].
    rewrite bool_decide_eq_false_2, bool_decide_eq_true_2 by done. by destruct cost as [[]|[]| |[]].
Qed.
(** What a signal does: the server drains first, with a grace of at most the
    configured timeout, and whatever the requests still running record or
    announce goes into open queues; only then are the buffer and the event
    workers stopped, and closing once more changes nothing. *)
Theorem signal_drains_before_it_stops now now' drained drain_error a err a' :
  serve Signalled now now' drained drain_error a = (err, a') →
  ∃ before, a' = app_Close (drained before) ∧ app_Close a' = a' ∧ (err = None ↔ drain_error = None) ∧
    sv_draining (ap_server before) = true ∧ ap_telemetry before = ap_telemetry a ∧
    sv_Events (ap_server before) = sv_Events (ap_server a) ∧ sv_Store (ap_server before) = sv_Store (ap_server a) ∧
    tm_stop (ap_telemetry a') = true ∧ (∀ ev, sv_Events (ap_server a') = Some ev → ed_stop ev = true) ∧
    let timeout := cf_DrainTimeout (sv_Config (ap_server a)) in
    0 < timeout →
    0 < (app_Shutdown (Some (Add now timeout)) now' drained a).1 ≤ Z.max Second timeout.
Proof.
  unfold serve, app_Shutdown, Shutdown. cbv zeta. intros [= <- <-].
  set (before := Build_app _ _ _ _ _). exists before. split_and!; try done.
  - apply (app_Close_twice (drained before)).
  - by destruct drain_error.
  - intros ev. cbn. by destruct (sv_Events (ap_server (drained before))) as [d|]; [intros [= <-]|].
  - cbn. intros Hpos. unfold Second. destruct (_ <? _) eqn:E; destruct (_ <=? _) eqn:E'; lia.
Qed.

Lemma run_config version fl rnd clock service level banner a err left :
  run url_error load_keypair parse_float env unmarshal read_file version (Ok fl) rnd clock service
    = Some (Served level banner a err left) →
  Ok (sv_Config (ap_server a)) =
    match load (fl_config fl) with Ok cfg => Ok (if fl_dev fl then applyDevDefaults cfg else cfg) | Err e => Err e end.
Proof.
  unfold run. destruct (fl_version fl); [done|]. destruct (load (fl_config fl)) as [cfg|e]; [|done].
  destruct (build _ _ _ _ _ _ _) as [[a'|e]|] eqn:Eb; [|done..]. cbn [mbind option_bind].
  destruct (service a') as [err' done] eqn:Es. intros Hrun. injection Hrun as <- <- <- <- <-.
  by destruct (ProcessFacts.built_config _ _ _ _ _ _ _ _ Eb) as [-> _].
Qed.

(** C38: Every service starts sound and idle. Whatever the flags, the file and the
    environment say, a process that serves does so with a validated
    configuration, at the level its log names, from a well-formed store that any
    admin requests leave valid, with every component idle (no destination
    tripped, nothing sent, queued, open or cached, not draining), with an adapter
    for every provider kind and a banner exactly in development; and when it
    returns, its queues are closed. Where the configured bounds of the response
    cache are neither negative nor past half the range of int64, which the
    validation does not check, the cache is within them. *)
Theorem every_start_is_sound `{JsonStream} `{JsonNumbers} version fl rnd clock service level banner a err left :
  run url_error load_keypair parse_float env unmarshal read_file version (Ok fl) rnd clock service
    = Some (Served level banner a err left) →
  (fl_dev fl = true → fresh_ops (NewMemory true) (seed_ops rnd clock)) →
  let s := ap_server a in
  let cache := cf_Cache (sv_Config s) in
  Validate (sv_Config s) = None ∧ mem_ok (sv_Store s) ∧ ProcessFacts.idle a ∧
  (∀ kind, ∃ ad, Registry_Get (ap_registry a) kind = Some ad ∧ 1 ≤ maxResponseBytes ad) ∧
  (∀ poll_now answers calls,
     stored_ok (sv_Config s) (sv_Store (ControlPlane.serve_all (ap_registry a) poll_now answers s calls))) ∧
  (is_Some banner ↔ fl_dev fl = true) ∧ level_name level = cf_LogLevel (sv_Config s) ∧
  err = (service a).1 ∧ left = app_Close (service a).2 ∧ app_Close left = left ∧
  (0 ≤ cc_MaxEntryBytes cache → 2 * cc_MaxBytes cache ≤ maxInt64 → cache_fine (sv_cache s)).
Proof.
  unfold run. destruct (fl_version fl); [done|].
  destruct (load (fl_config fl)) as [cfg|e] eqn:El; [|done].
  set (cfg' := if fl_dev fl then applyDevDefaults cfg else cfg).
  destruct (build _ _ cfg' _ _ _ _) as [[a'|e]|] eqn:Eb; [|done..]. cbn [mbind option_bind].
  destruct (service a') as [err' done] eqn:Es. intros Hrun.
  injection Hrun as <- <- <- <- <-. intros Hf.
  assert (Validate cfg' = None) as Hv.
  { apply Load_cases in El as (_ & _ & _ & Hv). unfold cfg'. destruct (fl_dev fl); [|done].
    by apply dev_door. }
  pose proof (ProcessFacts.built_config _ _ _ _ _ _ _ _ Eb) as [Ecfg Edev].
  destruct (ProcessFacts.built_from _ _ _ _ _ _ _ _ Eb Hf) as (client & m & Em & Hm & Hst & Er & _).
  rewrite Ecfg in *. split_and!; try done.
  - by rewrite Em.
  - exact (ProcessFacts.built_idle _ _ _ _ _ _ _ _ Eb Hf).
  - intros kind. rewrite Er. destruct (ProcessFacts.registry_total cfg' kind) as (ad & ? & Ead). exists ad. split; [done|].
    apply Validate_sizes in Hv as (_ & _ & _ & _ & ? & ?). rewrite Ead. lia.
  - intros poll_now answers calls. rewrite <-Ecfg. apply ControlPlane.stored_after_calls. by rewrite Ecfg, Em.
  - rewrite fmap_is_Some. destruct (fl_dev fl); [done|]. by rewrite Edev.
  - by apply level_named.
  - by rewrite Es.
  - by rewrite Es.
  - apply app_Close_twice.
  - intros Hc1 Hc2. by destruct (ProcessFacts.built_process_is_sound _ _ _ _ _ _ _ _ Hv Hc1 Hc2 Eb Hf) as ([_ Q2] & _).
Qed.
End props.

(** *** Witnesses *)

#[local] Existing Instance ascii_only.
#[local] Existing Instance binary_codec.
#[local] Existing Instance CacheFacts.one_document.
#[local] Existing Instance CacheFacts.identity_hash.
#[local] Existing Instance ProcessFacts.any_url.
#[local] Existing Instance ProcessFacts.plain_numbers.

Definition no_floats (_ : string) : option f64 := None.
Definition no_yaml (_ : string) (cfg : Config) : res error Config := Ok cfg.
Definition no_files (_ : string) : file := Missing.
Definition vars (l : list (string * string)) (name : string) : string :=
  default "" (snd <$> List.find (λ kv, bool_decide (kv.1 = name)) l).
Definition demo_env : string → string :=
  vars [("PORT", " 9000 "); ("CG_PORT", "9001"); ("CG_LOG_LEVEL", "  "); ("LOG_LEVEL", "warn"); ("CACHE_ENABLED", "yes")].

Lemma settings_have_one_origin_witness :
  ∃ cfg, Load no_floats demo_env no_yaml no_files "/etc/absent" = Ok cfg ∧ g_Port (cf_Gateway cfg) = 9001 ∧
    cf_LogLevel cfg = "warn" ∧ cc_Enabled (cf_Cache cfg) = false.
Proof.
  exists (overlaid no_floats demo_env Default). split; [|by vm_compute].
  apply (settings_have_one_origin no_floats demo_env no_yaml no_files "/etc/absent" (overlaid no_floats demo_env Default)).
  exists Default. split_and!; [done|by vm_compute|auto].
Defined.

Lemma dev_process_has_a_door_witness :
  bootstrapMatches (applyDevDefaults Default) devBootstrapKey = true.
Proof. apply (dev_process_has_a_door Default). by vm_compute. Defined.

Definition own_key : Config := set_BootstrapKey Default "an-operators-own-key".

Lemma banner_names_the_wrong_key_witness :
  bootstrapMatches (applyDevDefaults own_key) devBootstrapKey = false.
Proof.
  apply (banner_names_the_wrong_key own_key {| dc_TenantID := ""; dc_DataKey := ""; dc_AdminKey := "" |});
    [by vm_compute|done..].
Defined.

Lemma unlisted_log_level_stops_the_start_witness :
  let env := vars [("LOG_LEVEL", "warning")] in
  ParseLevel "warning" = LevelWarn ∧ is_ok (Load no_floats env no_yaml no_files "") = false.
Proof.
  intros env. split; [by vm_compute|].
  apply (unlisted_log_level_stops_the_start no_floats env no_yaml no_files "" "warning"); [by vm_compute|].
  by apply (bool_decide_unpack ("warning" ∉ ["debug"; "info"; "warn"; "error"])).
Defined.

Lemma markup_may_be_nan_witness :
  Validate (set_Billing Default {| bl_Mode := BillingMarkup; bl_MarkupPct := S754_nan; bl_CostVisibility := CostHidden |})
    = None.
Proof. apply (markup_may_be_nan Default). by vm_compute. Defined.

Lemma signal_drains_before_it_stops_witness :
  ∃ a a', ProcessFacts.booted Default false = Some a ∧ serve Signalled 0 5 id None a = (None, a') ∧
    tm_stop (ap_telemetry a') = true.
Proof.
  destruct (ProcessFacts.booted Default false) as [a|] eqn:E; [|by vm_compute in E].
  destruct (serve Signalled 0 5 id None a) as [err a'] eqn:Es.
  destruct (signal_drains_before_it_stops _ _ _ _ _ _ _ Es) as (b & _ & _ & [_ Herr] & _ & _ & _ & _ & Ht & _).
  exists a, a'. split_and!; [done| |done]. by rewrite Es, (Herr eq_refl).
Defined.

Lemma every_start_is_sound_witness :
  ∃ banner a err left,
    run AdapterFacts.bad_address ProcessFacts.no_file no_floats (vars []) no_yaml no_files "v"
      (Ok {| fl_config := ""; fl_dev := true; fl_version := false |}) ProcessFacts.draws ProcessFacts.at_boot
      (serve Signalled 0 5 id None) = Some (Served LevelInfo banner a err left) ∧
    mem_ok (sv_Store (ap_server a)) ∧ cache_fine (sv_cache (ap_server a)) ∧ is_Some banner.
Proof.
  destruct (run AdapterFacts.bad_address ProcessFacts.no_file no_floats (vars []) no_yaml no_files "v"
      (Ok {| fl_config := ""; fl_dev := true; fl_version := false |}) ProcessFacts.draws ProcessFacts.at_boot
      (serve Signalled 0 5 id None)) as [[|e|level banner a err left]|] eqn:E; [by vm_compute in E..| |by vm_compute in E].
  pose proof E as Ecfg. apply run_config in Ecfg. vm_compute (match _ with Ok _ => _ | Err _ => _ end) in Ecfg. injection Ecfg as Ecfg.
  destruct (every_start_is_sound AdapterFacts.bad_address ProcessFacts.no_file no_floats (vars []) no_yaml no_files
    _ _ _ _ _ _ _ _ _ _ E) as (_ & Hs & _ & _ & _ & [_ Hb] & Hl & _ & _ & _ & Hc).
  - intros _. apply ProcessFacts.draws_fresh.
  - rewrite Ecfg in Hl, Hc. exists banner, a, err, left. split_and!; [|done|by apply Hc|by apply Hb].
    destruct level; try done; by vm_compute in Hl.
Defined.
End BootFacts.
