(* ===== verification/Mock.v ===== *)
(** * The mock upstream of the conformance suite (conformance/mockprovider/provider.go)

    An OpenAI-compatible server that can be told to fail, and a sink for
    webhooks. A request is its decoded path and headers and its body; the state
    is what the mutex guards. Waiting is [waits d]: whether the client is still
    there after [d]. Response writers that cannot flush do not occur under
    net/http and are left out. *)

From S2P Require Import Prelude GoStrings GoTime GoFloat GoFormat ApiErr Json Cache Provider Dispatch Events Server Chat OpenAI.
From Stdlib Require Import Ascii.

#[local] Open Scope Z_scope.
#[local] Open Scope stdpp_scope.

(** ** Data *)

Definition FaultNone : string := "none".
Definition FaultRateLimit : string := "rate_limit".
Definition FaultServerError : string := "server_error".
Definition FaultTimeout : string := "timeout".
Definition FaultClientError : string := "client_error".
Definition FaultStreamAbort : string := "stream_abort".
Definition FaultStreamStall : string := "stream_stall".
Definition FaultOversizeBody : string := "oversize_body".

Definition ListingTarget : string := "_listing".
Definition ForeverCount : Z := -1.
Definition DefaultTimeoutDelay : Z := 75 * Second.
Definition maxEventBody : Z := 1048576.

(** [mockprovider.Model] *)
Record MockModel := {
  mm_ID : string;
  mm_OwnedBy : string;
  mm_ContextWindow : Z;
  mm_MaxOutputTokens : Z;
  mm_InputCostPerMTok : f64;
  mm_OutputCostPerMTok : f64
}.

Record fault := { fa_mode : string; fa_remaining : Z; fa_delay : Z; fa_bytes : Z }.

Record Delivery := {
  dv_Type : string;
  dv_EventID : string;
  dv_Signature : string;
  dv_Tenant : string;
  dv_Body : string;
  dv_Status : Z
}.

Record sinkFault := { sf_status : Z; sf_remaining : Z }.

(** [mockprovider.Server] *)
Record Mock := mkMock {
  mk_models : gmap string MockModel;
  mk_order : list string;
  mk_faults : gmap string fault;
  mk_requests : gmap string Z;
  mk_keys : gmap string Z;
  mk_listings : Z;
  mk_events : gmap string (list Delivery);
  mk_sinkFaults : gmap string sinkFault
}.

Definition cents (n : Z) : f64 := fdiv (f_of_Z n) (f_of_Z 100).

Definition SeedModels : list MockModel :=
  [{| mm_ID := "mock-chat-a"; mm_OwnedBy := "mock"; mm_ContextWindow := 128000; mm_MaxOutputTokens := 4096;
      mm_InputCostPerMTok := f_of_Z 3; mm_OutputCostPerMTok := f_of_Z 15 |};
   {| mm_ID := "mock-chat-b"; mm_OwnedBy := "mock"; mm_ContextWindow := 32000; mm_MaxOutputTokens := 4096;
      mm_InputCostPerMTok := cents 50; mm_OutputCostPerMTok := cents 150 |};
   {| mm_ID := "mock-vision"; mm_OwnedBy := "mock"; mm_ContextWindow := 128000; mm_MaxOutputTokens := 4096;
      mm_InputCostPerMTok := f_of_Z 5; mm_OutputCostPerMTok := f_of_Z 20 |};
   {| mm_ID := "mock-embed"; mm_OwnedBy := "mock"; mm_ContextWindow := 8192; mm_MaxOutputTokens := 0;
      mm_InputCostPerMTok := cents 2; mm_OutputCostPerMTok := fzero |};
   {| mm_ID := "mock-transcribe"; mm_OwnedBy := "mock"; mm_ContextWindow := 0; mm_MaxOutputTokens := 0;
      mm_InputCostPerMTok := fzero; mm_OutputCostPerMTok := fzero |}].

Definition seed_step (s : gmap string MockModel * list string) (m : MockModel) : gmap string MockModel * list string :=
  (<[mm_ID m := m]> s.1, s.2 ++ [mm_ID m]).
Definition seed : gmap string MockModel * list string := foldl seed_step (∅, []) SeedModels.

Definition MockNew : Mock := mkMock seed.1 seed.2 ∅ ∅ ∅ 0 ∅ ∅.

Section updates.
Context (s : Mock).
Definition set_mock_models (m : gmap string MockModel) (o : list string) : Mock :=
  mkMock m o (mk_faults s) (mk_requests s) (mk_keys s) (mk_listings s) (mk_events s) (mk_sinkFaults s).
Definition set_faults (f : gmap string fault) : Mock :=
  mkMock (mk_models s) (mk_order s) f (mk_requests s) (mk_keys s) (mk_listings s) (mk_events s) (mk_sinkFaults s).
Definition set_counts (r k : gmap string Z) : Mock :=
  mkMock (mk_models s) (mk_order s) (mk_faults s) r k (mk_listings s) (mk_events s) (mk_sinkFaults s).
Definition set_listings (n : Z) : Mock :=
  mkMock (mk_models s) (mk_order s) (mk_faults s) (mk_requests s) (mk_keys s) n (mk_events s) (mk_sinkFaults s).
Definition set_sinks (e : gmap string (list Delivery)) (f : gmap string sinkFault) : Mock :=
  mkMock (mk_models s) (mk_order s) (mk_faults s) (mk_requests s) (mk_keys s) (mk_listings s) e f.
End updates.

(** A request as a handler sees it; path values are in the route. *)
Record MockReq := {
  mq_Header : string → string;
  mq_Body : string
}.

(** ** Faults *)

(** [takeLocked] *)
Definition takeLocked (s : Mock) (key : string) : option fault * Mock :=
  match mk_faults s !! key with
  | None => (None, s)
  | Some f =>
      if fa_remaining f =? 0 then (None, set_faults s (delete key (mk_faults s)))
      else
        let f := if 0 <? fa_remaining f
                 then {| fa_mode := fa_mode f; fa_remaining := fa_remaining f - 1; fa_delay := fa_delay f;
                         fa_bytes := fa_bytes f |}
                 else f in
        (Some f, set_faults s (<[key := f]> (mk_faults s)))
  end.

Definition no_fault : fault := {| fa_mode := FaultNone; fa_remaining := 0; fa_delay := 0; fa_bytes := 0 |}.

(** [takeFault] *)
Definition takeFault (s : Mock) (model : string) : fault * Mock :=
  match takeLocked s model with
  | (Some f, s) => (f, s)
  | (None, s) => match takeLocked s "" with (Some f, s) => (f, s) | (None, s) => (no_fault, s) end
  end.

(** [takeFaultExact] *)
Definition takeFaultExact (s : Mock) (key : string) : fault * Mock :=
  match takeLocked s key with (Some f, s) => (f, s) | (None, s) => (no_fault, s) end.

Definition stalling (mode : string) : bool := bool_decide (mode = FaultTimeout) || bool_decide (mode = FaultStreamStall).
Definition orDefault (d fallback : Z) : Z := if d <=? 0 then fallback else d.

Definition ellipsis : string := byte_str [226; 128; 166]%nat.

(** [credential] *)
Definition credential (r : MockReq) : string :=
  let raw := TrimSpace (TrimPrefix (mq_Header r "Authorization") "Bearer") in
  if bool_decide (raw = "") then ""
  else if (6 <? String.length raw)%nat then ellipsis +:+ str_drop (String.length raw - 6) raw
  else ellipsis +:+ raw.

(** ** Answers *)

(** How a response ends: as it should, with the connection dropped by the mock,
    or with the client gone while it waited. *)
Inductive ending := Ended | Dropped | Abandoned.

(** What the client gets; nothing when it gave up before the status line. *)
Inductive answer :=
  | Gone
  | Answered (status : Z) (header : gmap string string) (body : string) (e : ending).

(** A handler that returns without writing answers 200 with no body. *)
Definition silent_answer : answer := Answered 200 ∅ "" Ended.
Definition no_content (status : Z) : answer := Answered status ∅ "" Ended.

(** An object built from a Go map. *)
Definition object (fields : list (string * json)) : json := JObj (map_fields (list_to_map fields)).

Section handlers.
Context `{Unicode} `{JsonStream} `{JsonNumbers}.

(** [writeJSON]; what cannot be encoded is an empty body under the status. *)
Definition writeJSON (header : gmap string string) (status : Z) (body : option json) : answer :=
  Answered status (<["Content-Type" := "application/json"]> header)
    (match body with Some j => Marshal j +:+ newline | None => "" end) Ended.

Definition writeProviderError (header : gmap string string) (status : Z) (kind message : string) : answer :=
  writeJSON header status (Some (object [("error", object [("message", JStr message); ("type", JStr kind)])])).

Definition control_error (why : string) : answer := writeJSON ∅ 400 (Some (object [("error", JStr why)])).

(** A model as [json.Marshal] writes it. *)
Definition model_json (m : MockModel) : option json :=
  let cost name f := if feqb f fzero then Some [] else (λ lit, [(name, JNum lit)]) <$> float_literal f in
  inp ← cost "input_cost_per_mtok" (mm_InputCostPerMTok m);
  out ← cost "output_cost_per_mtok" (mm_OutputCostPerMTok m);
  Some (JObj ([("id", JStr (mm_ID m)); ("owned_by", JStr (mm_OwnedBy m));
               ("context_window", JNum (Itoa (mm_ContextWindow m)));
               ("max_output_tokens", JNum (Itoa (mm_MaxOutputTokens m)))] ++ inp ++ out)).

(** ** The data plane *)

(** [only], on the path value [ids]; [None] is no restriction. *)
Definition only (ids : string) : option (gset string) :=
  if bool_decide (ids = "") then None
  else Some (list_to_set (List.filter (λ id, negb (bool_decide (id = "")))
               (TrimSpace <$> SplitN ids "," (S (String.length ids))))).

Definition permits (allowed : option (gset string)) (id : string) : bool :=
  match allowed with Some ids => bool_decide (id ∈ ids) | None => true end.

(** The models a listing shows, in the order they were added. *)
Definition shown (s : Mock) (allowed : option (gset string)) : list MockModel :=
  omap (λ id, if permits allowed id then mk_models s !! id else None) (mk_order s).

Section waiting.
Context (waits : Z → bool).

(** [stall] *)
Definition stall (d : Z) : bool := if d <=? 0 then true else waits d.

Definition rate_limited : answer :=
  writeProviderError {["Retry-After" := "1"]} 429 "rate_limit_error" "rate limit exceeded".
Definition server_failed : answer := writeProviderError ∅ 500 "server_error" "the server had an error".
Definition timed_out (f : fault) : answer :=
  if stall (orDefault (fa_delay f) DefaultTimeoutDelay) then silent_answer else Gone.

(** [serveModels] *)
Definition serveModels (allowed : option (gset string)) (s : Mock) : answer * Mock :=
  let s := set_listings s (mk_listings s + 1) in
  let '(f, s) := takeFaultExact s ListingTarget in
  let listing := writeJSON ∅ 200
    (data ← mapM model_json (shown s allowed); Some (object [("object", JStr "list"); ("data", JArr data)])) in
  if bool_decide (fa_mode f = FaultNone) then (listing, s)
  else if negb (stalling (fa_mode f)) && negb (stall (fa_delay f)) then (Gone, s)
  else if bool_decide (fa_mode f = FaultRateLimit) then (rate_limited, s)
  else if bool_decide (fa_mode f = FaultServerError) then (server_failed, s)
  else if bool_decide (fa_mode f = FaultTimeout) then (timed_out f, s)
  else (listing, s).

(** [completionRequest]; a message is its raw content. *)
Record completionRequest := { cq_Model : string; cq_Stream : bool; cq_Messages : list (option json) }.

Definition decode_bool (cur : bool) (v : json) : bool * bool :=
  match v with JBool b => (b, true) | JNull => (cur, true) | _ => (cur, false) end.

(** One message: its content, and whether it decodes. *)
Definition message_field (acc : option json * bool) (kv : string * json) : option json * bool :=
  if EqualFold kv.1 "role" then (acc.1, acc.2 && (decode_string "" kv.2).2)
  else if EqualFold kv.1 "content" then (Some kv.2, acc.2)
  else acc.
Definition decode_message (v : json) : option json * bool :=
  match v with
  | JObj fields => foldl message_field (None, true) fields
  | JNull => (None, true)
  | _ => (None, false)
  end.

Definition completion_field (acc : completionRequest * bool) (kv : string * json) : completionRequest * bool :=
  let '(r, ok) := acc in
  if EqualFold kv.1 "model" then
    let '(x, fine) := decode_string (cq_Model r) kv.2 in
    ({| cq_Model := x; cq_Stream := cq_Stream r; cq_Messages := cq_Messages r |}, ok && fine)
  else if EqualFold kv.1 "stream" then
    let '(x, fine) := decode_bool (cq_Stream r) kv.2 in
    ({| cq_Model := cq_Model r; cq_Stream := x; cq_Messages := cq_Messages r |}, ok && fine)
  else if EqualFold kv.1 "messages" then
    match kv.2 with
    | JArr items =>
        let ms := decode_message <$> items in
        ({| cq_Model := cq_Model r; cq_Stream := cq_Stream r; cq_Messages := ms.*1 |}, ok && forallb snd ms)
    | JNull => ({| cq_Model := cq_Model r; cq_Stream := cq_Stream r; cq_Messages := [] |}, ok)
    | _ => (r, false)
    end
  else (r, ok).

(** Decoding a body into a struct, field by field from its zero value. *)
Definition decode_body {X} (field : X * bool → string * json → X * bool) (zero : X) (body : string) : option X :=
  match Decode body with
  | Some (JObj fields) => let '(x, ok) := foldl field (zero, true) fields in if ok : bool then Some x else None
  | Some JNull => Some zero
  | _ => None
  end.

Definition decode_completion : string → option completionRequest :=
  decode_body completion_field {| cq_Model := ""; cq_Stream := false; cq_Messages := [] |}.

Definition completionText : string := "ok".

(** [completionRequest.reply] *)
Definition reply (r : completionRequest) : string :=
  default completionText (head (omap (λ c, match c with
    | Some (JStr s) => if bool_decide (s = "") then None else Some s
    | _ => None end) (reverse (cq_Messages r)))).

Definition usageBlock : json :=
  object [("prompt_tokens", JNum "11"); ("completion_tokens", JNum "7"); ("total_tokens", JNum "18")].

Definition oversizeEnvelope (now : Z) (model content : string) : json :=
  object [("id", JStr "chatcmpl-mock"); ("object", JStr "chat.completion"); ("created", JNum (Itoa now));
          ("model", JStr model);
          ("choices", JArr [object [("index", JNum "0");
             ("message", object [("role", JStr "assistant"); ("content", JStr content)]);
             ("finish_reason", JStr "stop")]]);
          ("usage", usageBlock)].

Definition streamChunk_fields (now : Z) (model : string) (delta : list (string * json)) (finish : json) :
    list (string * json) :=
  [("id", JStr "chatcmpl-mock"); ("object", JStr "chat.completion.chunk"); ("created", JNum (Itoa now));
   ("model", JStr model);
   ("choices", JArr [object [("index", JNum "0"); ("delta", object delta); ("finish_reason", finish)]])].
Definition streamChunk (now : Z) (model : string) (delta : list (string * json)) (finish : json) : json :=
  object (streamChunk_fields now model delta finish).

(** The headers of a stream, and one frame of it. *)
Definition stream_header : gmap string string :=
  <["Cache-Control" := "no-cache"]> {["Content-Type" := "text/event-stream"]}.
Definition frame (j : json) : string := "data: " +:+ Marshal j +:+ newline +:+ newline.

(** The two chunks every stream opens with. *)
Definition opening (now : Z) (model text : string) : string :=
  frame (streamChunk now model [("role", JStr "assistant")] JNull) +:+
  frame (streamChunk now model [("content", JStr text)] JNull).

(** [streamCompletion]; the usage chunk replaces the choices of its chunk. *)
Definition mock_stream (now : Z) (model text : string) : answer :=
  let final := object ([("choices", JArr []); ("usage", usageBlock)] ++ streamChunk_fields now model [] JNull) in
  Answered 200 stream_header
    (opening now model text +:+ frame (streamChunk now model [] (JStr "stop")) +:+ frame final +:+
     "data: [DONE]" +:+ newline +:+ newline) Ended.

Definition abortMidStream (now : Z) (model : string) : answer :=
  Answered 200 stream_header (opening now model completionText) Dropped.

Definition stallMidStream (now : Z) (model : string) (delay : Z) : answer :=
  Answered 200 stream_header (opening now model completionText) (if waits delay then Ended else Abandoned).

Definition oversizeCompletion (now now' : Z) (model : string) (size : Z) : answer :=
  let padding := size - Z.of_nat (String.length (Marshal (oversizeEnvelope now model ""))) in
  writeJSON ∅ 200 (Some (oversizeEnvelope now' model (Repeat "x" (Z.to_nat padding)))).

(** What a completion does about its fault. *)
Definition act_on (f : fault) (now now' : Z) (req : completionRequest) (otherwise : answer) : answer :=
  let mode := fa_mode f in
  if bool_decide (mode = FaultNone) then otherwise
  else if negb (stalling mode) && negb (stall (fa_delay f)) then Gone
  else if bool_decide (mode = FaultRateLimit) then rate_limited
  else if bool_decide (mode = FaultServerError) then server_failed
  else if bool_decide (mode = FaultClientError)
  then writeProviderError ∅ 400 "invalid_request_error" "the request was not valid"
  else if bool_decide (mode = FaultTimeout) then timed_out f
  else if bool_decide (mode = FaultStreamAbort) then abortMidStream now (cq_Model req)
  else if bool_decide (mode = FaultStreamStall)
  then stallMidStream now (cq_Model req) (orDefault (fa_delay f) DefaultTimeoutDelay)
  else if bool_decide (mode = FaultOversizeBody) then oversizeCompletion now now' (cq_Model req) (fa_bytes f)
  else otherwise.

Definition count_in (m : gmap string Z) (k : string) : gmap string Z := <[k := default 0 (m !! k) + 1]> m.

Definition unknown_model (q : string → string) (model : string) : answer :=
  writeProviderError ∅ 404 "invalid_request_error" ("the model " +:+ q model +:+ " does not exist").

(** [serveCompletion]; [q] is the verb %q. *)
Definition serveCompletion (q : string → string) (allowed : option (gset string)) (now now' : Z) (r : MockReq)
    (s : Mock) : answer * Mock :=
  match decode_completion (mq_Body r) with
  | None => (writeProviderError ∅ 400 "invalid_request_error" "malformed request body", s)
  | Some req =>
      let model := cq_Model req in
      let cred := credential r in
      let s := set_counts s (count_in (mk_requests s) model)
                 (if bool_decide (cred = "") then mk_keys s else count_in (mk_keys s) cred) in
      let known := bool_decide (is_Some (mk_models s !! model)) && permits allowed model in
      if negb known then (unknown_model q model, s)
      else
        let '(f, s) := takeFault s model in
        let otherwise :=
          if cq_Stream req then mock_stream now model (reply req)
          else writeJSON ∅ 200 (Some (oversizeEnvelope now model (reply req))) in
        (act_on f now now' req otherwise, s)
  end.
End waiting.

(** ** The webhook sink *)

Record event_envelope := { ee_ID : string; ee_Type : string; ee_Tenant : string }.

(** The envelope's fields, whatever else fails to decode. *)
Definition envelope_field (e : event_envelope) (kv : string * json) : event_envelope :=
  if EqualFold kv.1 "id" then
    {| ee_ID := (decode_string (ee_ID e) kv.2).1; ee_Type := ee_Type e; ee_Tenant := ee_Tenant e |}
  else if EqualFold kv.1 "type" then
    {| ee_ID := ee_ID e; ee_Type := (decode_string (ee_Type e) kv.2).1; ee_Tenant := ee_Tenant e |}
  else if EqualFold kv.1 "tenant" then
    {| ee_ID := ee_ID e; ee_Type := ee_Type e; ee_Tenant := (decode_string (ee_Tenant e) kv.2).1 |}
  else e.
Definition decode_envelope (body : string) : event_envelope :=
  let zero := {| ee_ID := ""; ee_Type := ""; ee_Tenant := "" |} in
  match Unmarshal body with Some (JObj fields) => foldl envelope_field zero fields | _ => zero end.

(** One use of a sink's fault: the status to answer with, and what is left. *)
Definition takeSink (s : Mock) (sink : string) : Z * gmap string sinkFault :=
  match mk_sinkFaults s !! sink with
  | None => (204, mk_sinkFaults s)
  | Some f =>
      let n := sf_remaining f - 1 in
      (sf_status f, if n <=? 0 then delete sink (mk_sinkFaults s)
                    else <[sink := {| sf_status := sf_status f; sf_remaining := n |}]> (mk_sinkFaults s))
  end.

(** [receiveEvent] *)
Definition receiveEvent (sink : string) (r : MockReq) (s : Mock) : answer * Mock :=
  if maxEventBody <? Z.of_nat (String.length (mq_Body r)) then (no_content 204, s)
  else
    let e := decode_envelope (mq_Body r) in
    let '(status, rest) := takeSink s sink in
    let d := {| dv_Type := ee_Type e;
                dv_EventID := if bool_decide (ee_ID e = "") then mq_Header r "X-CogniGate-Event-Id" else ee_ID e;
                dv_Signature := mq_Header r "X-CogniGate-Signature"; dv_Tenant := ee_Tenant e;
                dv_Body := mq_Body r; dv_Status := status |} in
    (no_content status, set_sinks s (<[sink := default [] (mk_events s !! sink) ++ [d]]> (mk_events s)) rest).

(** A delivery as it is reported; its body is raw JSON, which has to parse. *)
Definition delivery_json (d : Delivery) : option json :=
  body ← Unmarshal (dv_Body d);
  Some (JObj [("type", JStr (dv_Type d)); ("event_id", JStr (dv_EventID d)); ("signature", JStr (dv_Signature d));
              ("tenant", JStr (dv_Tenant d)); ("body", body); ("status", JNum (Itoa (dv_Status d)))]).

(** [controlEvents] *)
Definition controlEvents (sink : string) (s : Mock) : answer :=
  writeJSON ∅ 200 (data ← mapM delivery_json (default [] (mk_events s !! sink));
                   Some (object [("sink", JStr sink); ("data", JArr data)])).

Record sinkFaultRequest := { sq_Status : Z; sq_Count : Z }.

Definition sink_fault_field (acc : sinkFaultRequest * bool) (kv : string * json) : sinkFaultRequest * bool :=
  let '(r, ok) := acc in
  if EqualFold kv.1 "status" then
    let '(x, fine) := decode_int (sq_Status r) kv.2 in ({| sq_Status := x; sq_Count := sq_Count r |}, ok && fine)
  else if EqualFold kv.1 "count" then
    let '(x, fine) := decode_int (sq_Count r) kv.2 in ({| sq_Status := sq_Status r; sq_Count := x |}, ok && fine)
  else (r, ok).

(** [controlSetSinkFault] *)
Definition controlSetSinkFault (sink : string) (r : MockReq) (s : Mock) : answer * Mock :=
  match decode_body sink_fault_field {| sq_Status := 0; sq_Count := 0 |} (mq_Body r) with
  | None => (control_error "malformed body", s)
  | Some req =>
      let status := if sq_Status req =? 0 then 500 else sq_Status req in
      if (status <? 400) || (599 <? status) then
        (control_error ("status " +:+ Itoa status +:+ " is not a rejection; use 4xx or 5xx"), s)
      else if sq_Count req <? 1 then (control_error "count must be at least 1", s)
      else (no_content 204, set_sinks s (mk_events s)
              (<[sink := {| sf_status := status; sf_remaining := sq_Count req |}]> (mk_sinkFaults s)))
  end.

(** ** The control plane *)

Definition counts_json (m : gmap string Z) : json := JObj (map_fields ((λ n, JNum (Itoa n)) <$> m)).

(** [controlState] *)
Definition controlState (s : Mock) : answer :=
  writeJSON ∅ 200 (Some (object
    [("models", JArr (JStr <$> List.filter (λ id, bool_decide (is_Some (mk_models s !! id))) (mk_order s)));
     ("faults", JObj (map_fields ((λ f, object [("mode", JStr (fa_mode f));
                                                ("remaining", JNum (Itoa (fa_remaining f)))]) <$> mk_faults s)));
     ("requests", counts_json (mk_requests s)); ("keys", counts_json (mk_keys s));
     ("listings", JNum (Itoa (mk_listings s)))])).

Definition no_model : MockModel :=
  {| mm_ID := ""; mm_OwnedBy := ""; mm_ContextWindow := 0; mm_MaxOutputTokens := 0; mm_InputCostPerMTok := fzero;
     mm_OutputCostPerMTok := fzero |}.

Definition model_field (acc : MockModel * bool) (kv : string * json) : MockModel * bool :=
  let '(m, ok) := acc in
  let '(id, own, win) := (mm_ID m, mm_OwnedBy m, mm_ContextWindow m) in
  let '(out, inp, outp) := (mm_MaxOutputTokens m, mm_InputCostPerMTok m, mm_OutputCostPerMTok m) in
  if EqualFold kv.1 "id" then
    let '(x, fine) := decode_string id kv.2 in (Build_MockModel x own win out inp outp, ok && fine)
  else if EqualFold kv.1 "owned_by" then
    let '(x, fine) := decode_string own kv.2 in (Build_MockModel id x win out inp outp, ok && fine)
  else if EqualFold kv.1 "context_window" then
    let '(x, fine) := decode_int win kv.2 in (Build_MockModel id own x out inp outp, ok && fine)
  else if EqualFold kv.1 "max_output_tokens" then
    let '(x, fine) := decode_int out kv.2 in (Build_MockModel id own win x inp outp, ok && fine)
  else if EqualFold kv.1 "input_cost_per_mtok" then
    let '(x, fine) := decode_float inp kv.2 in (Build_MockModel id own win out x outp, ok && fine)
  else if EqualFold kv.1 "output_cost_per_mtok" then
    let '(x, fine) := decode_float outp kv.2 in (Build_MockModel id own win out inp x, ok && fine)
  else acc.

(** The model that is stored: one with no owner is the mock's. *)
Definition owned (m : MockModel) : MockModel :=
  if bool_decide (mm_OwnedBy m = "")
  then Build_MockModel (mm_ID m) "mock" (mm_ContextWindow m) (mm_MaxOutputTokens m) (mm_InputCostPerMTok m)
         (mm_OutputCostPerMTok m)
  else m.

Definition add_model (m : MockModel) (s : Mock) : Mock :=
  set_mock_models s (<[mm_ID m := m]> (mk_models s))
    (if bool_decide (is_Some (mk_models s !! mm_ID m)) then mk_order s else mk_order s ++ [mm_ID m]).

(** [controlAddModel] *)
Definition controlAddModel (r : MockReq) (s : Mock) : answer * Mock :=
  match decode_body model_field no_model (mq_Body r) with
  | Some m =>
      if bool_decide (TrimSpace (mm_ID m) = "") then (control_error "a model id is required", s)
      else let m := owned m in (writeJSON ∅ 201 (model_json m), add_model m s)
  | None => (control_error "a model id is required", s)
  end.

(** [controlRemoveModel] *)
Definition controlRemoveModel (id : string) (s : Mock) : answer * Mock :=
  (if bool_decide (is_Some (mk_models s !! id)) then no_content 204
   else writeJSON ∅ 404 (Some (object [("error", JStr "no such model")])),
   set_mock_models s (delete id (mk_models s)) (mk_order s)).

Record faultRequest := { fq_Model : string; fq_Mode : string; fq_Count : Z; fq_DelayMS : Z; fq_Bytes : Z }.

Definition fault_field (acc : faultRequest * bool) (kv : string * json) : faultRequest * bool :=
  let '(r, ok) := acc in
  let '(model, mode, count) := (fq_Model r, fq_Mode r, fq_Count r) in
  let '(delay, bytes) := (fq_DelayMS r, fq_Bytes r) in
  if EqualFold kv.1 "model" then
    let '(x, fine) := decode_string model kv.2 in (Build_faultRequest x mode count delay bytes, ok && fine)
  else if EqualFold kv.1 "mode" then
    let '(x, fine) := decode_string mode kv.2 in (Build_faultRequest model x count delay bytes, ok && fine)
  else if EqualFold kv.1 "count" then
    let '(x, fine) := decode_int count kv.2 in (Build_faultRequest model mode x delay bytes, ok && fine)
  else if EqualFold kv.1 "delay_ms" then
    let '(x, fine) := decode_int delay kv.2 in (Build_faultRequest model mode count x bytes, ok && fine)
  else if EqualFold kv.1 "bytes" then
    let '(x, fine) := decode_int bytes kv.2 in (Build_faultRequest model mode count delay x, ok && fine)
  else acc.

Definition fault_modes : list string :=
  [FaultNone; FaultRateLimit; FaultServerError; FaultTimeout; FaultClientError; FaultStreamAbort; FaultStreamStall;
   FaultOversizeBody].
Definition listing_modes : list string := [FaultNone; FaultRateLimit; FaultServerError; FaultTimeout].

(** The refusal of a fault request, if it is refused; [q] is the verb %q. *)
Definition fault_refusal (q : string → string) (req : faultRequest) : option string :=
  if negb (bool_decide (fq_Mode req ∈ fault_modes)) then Some ("unknown fault mode " +:+ q (fq_Mode req))
  else
    let oversize := bool_decide (fq_Mode req = FaultOversizeBody) in
    if negb (Bool.eqb (0 <? fq_Bytes req) oversize) then
      Some ("fault mode " +:+ q (fq_Mode req) +:+ " takes " +:+ (if oversize then "" else "no") +:+ " a positive bytes")
    else if bool_decide (fq_Model req = ListingTarget) && negb (bool_decide (fq_Mode req ∈ listing_modes)) then
      Some ("fault mode " +:+ q (fq_Mode req) +:+ " does not apply to " +:+ ListingTarget)
    else None.

(** What an accepted request arms; [None] clears. *)
Definition armed (req : faultRequest) : option fault :=
  if bool_decide (fq_Mode req = FaultNone) then None
  else Some {| fa_mode := fq_Mode req; fa_remaining := if fq_Count req =? 0 then ForeverCount else fq_Count req;
               fa_delay := wrap64 (fq_DelayMS req * Millisecond); fa_bytes := fq_Bytes req |}.

(** [controlSetFault] *)
Definition controlSetFault (q : string → string) (r : MockReq) (s : Mock) : answer * Mock :=
  match decode_body fault_field {| fq_Model := ""; fq_Mode := ""; fq_Count := 0; fq_DelayMS := 0; fq_Bytes := 0 |}
          (mq_Body r) with
  | None => (control_error "malformed body", s)
  | Some req =>
      match fault_refusal q req with
      | Some why => (control_error why, s)
      | None => (no_content 204,
          set_faults s (match armed req with
                        | None => delete (fq_Model req) (mk_faults s)
                        | Some f => <[fq_Model req := f]> (mk_faults s) end))
      end
  end.

(** [controlReset] *)
Definition controlReset (s : Mock) : answer * Mock := (no_content 204, MockNew).

(** ** Routing *)

Inductive mock_route :=
  | MListModels | MListModelsOnly (ids : string) | MChat | MChatOnly (ids : string)
  | MReceiveEvent (sink : string)
  | MState | MAddModel | MRemoveModel (id : string) | MSetFault | MEvents (sink : string)
  | MSetSinkFault (sink : string) | MReset.

(** [Handler]: the patterns, on the segments of a path; a GET pattern serves
    HEAD as well. *)
Definition mock_mux (method : string) (path : list string) : option mock_route :=
  let get := bool_decide (method = "GET") || bool_decide (method = "HEAD") in
  let post := bool_decide (method = "POST") in
  match path with
  | ["models"] | ["v1"; "models"] => if get then Some MListModels else None
  | ["chat"; "completions"] | ["v1"; "chat"; "completions"] => if post then Some MChat else None
  | ["_only"; ids; "models"] | ["_only"; ids; "v1"; "models"] => if get then Some (MListModelsOnly ids) else None
  | ["_only"; ids; "chat"; "completions"] | ["_only"; ids; "v1"; "chat"; "completions"] =>
      if post then Some (MChatOnly ids) else None
  | ["_events"; sink] => if post then Some (MReceiveEvent sink) else None
  | ["_control"; "state"] => if get then Some MState else None
  | ["_control"; "models"] => if post then Some MAddModel else None
  | ["_control"; "models"; id] => if bool_decide (method = "DELETE") then Some (MRemoveModel id) else None
  | ["_control"; "faults"] => if post then Some MSetFault else None
  | ["_control"; "events"; sink] => if get then Some (MEvents sink) else None
  | ["_control"; "events"; sink; "fault"] => if post then Some (MSetSinkFault sink) else None
  | ["_control"; "reset"] => if post then Some MReset else None
  | _ => None
  end.

(** A request of the mock: its route, how long its client waits, and the clock. *)
Record mock_call := {
  mc_route : mock_route;
  mc_req : MockReq;
  mc_waits : Z → bool;
  mc_now : Z;
  mc_now' : Z
}.

Definition mock_serve (q : string → string) (c : mock_call) (s : Mock) : answer * Mock :=
  match mc_route c with
  | MListModels => serveModels (mc_waits c) None s
  | MListModelsOnly ids => serveModels (mc_waits c) (only ids) s
  | MChat => serveCompletion (mc_waits c) q None (mc_now c) (mc_now' c) (mc_req c) s
  | MChatOnly ids => serveCompletion (mc_waits c) q (only ids) (mc_now c) (mc_now' c) (mc_req c) s
  | MReceiveEvent sink => receiveEvent sink (mc_req c) s
  | MState => (controlState s, s)
  | MAddModel => controlAddModel (mc_req c) s
  | MRemoveModel id => controlRemoveModel id s
  | MSetFault => controlSetFault q (mc_req c) s
  | MEvents sink => (controlEvents sink s, s)
  | MSetSinkFault sink => controlSetSinkFault sink (mc_req c) s
  | MReset => controlReset s
  end.

Definition mock_run (q : string → string) (s : Mock) (calls : list mock_call) : Mock :=
  foldl (λ s c, (mock_serve q c s).2) s calls.
End handlers.
