(* ===== verification/MockProps.v ===== *)
(** * Theorems about the mock upstream

    That its faults strike as arranged and nobody else's run, and what the
    gateway's adapter makes of its answers. *)

From S2P Require Import Prelude GoStrings GoTime GoFloat GoFormat ApiErr StoreTypes Json Cache Provider Breaker Catalog Resolve Dispatch Events Server Chat ChatProps OpenAI OpenAIProps Mock.
From Stdlib Require Import Ascii.

#[local] Open Scope Z_scope.
#[local] Open Scope stdpp_scope.

Module MockFacts.

(** ** Faults *)

Definition with_remaining (f : fault) (n : Z) : fault :=
  {| fa_mode := fa_mode f; fa_remaining := n; fa_delay := fa_delay f; fa_bytes := fa_bytes f |}.

Lemma with_remaining_same f : with_remaining f (fa_remaining f) = f.
Proof. by destruct f. Qed.

(** What a key's fault is after one use of it. *)
Definition used (f : option fault) : option fault :=
  f ← f; if fa_remaining f =? 0 then None
         else Some (if 0 <? fa_remaining f then with_remaining f (fa_remaining f - 1) else f).

(** The fields of a mock that taking a fault leaves alone. *)
Definition same_but_faults (s s' : Mock) : Prop := s' = set_faults s (mk_faults s').

Lemma takeLocked_spec s key :
  (takeLocked s key).1 = used (mk_faults s !! key) ∧ same_but_faults s (takeLocked s key).2 ∧
  mk_faults (takeLocked s key).2 !! key = used (mk_faults s !! key) ∧
  ∀ k, k ≠ key → mk_faults (takeLocked s key).2 !! k = mk_faults s !! k.
Proof.
  unfold takeLocked, used. destruct (mk_faults s !! key) as [f|] eqn:E; simpl.
  - destruct (fa_remaining f =? 0); simpl.
    + split_and!; [done..|by rewrite lookup_delete_eq|]. intros k Hk. by rewrite lookup_delete_ne.
    + split_and!; [done..|by rewrite lookup_insert_eq|]. intros k Hk. by rewrite lookup_insert_ne.
  - split_and!; [done| |done..]. by destruct s.
Qed.

(** A completion uses its model's fault, and no key other than that and the
    catch-all's. *)
Lemma takeFault_frame s m :
  same_but_faults s (takeFault s m).2 ∧
  ∀ k, k ≠ m → k ≠ "" → mk_faults (takeFault s m).2 !! k = mk_faults s !! k.
Proof.
  unfold takeFault. destruct (takeLocked_spec s m) as (_ & E2 & _ & E4).
  destruct (takeLocked s m) as [[f|] s1]; simpl in *; [auto|].
  destruct (takeLocked_spec s1 "") as (_ & F2 & _ & F4). destruct (takeLocked s1 "") as [[f|] s2]; simpl in *;
    (split; [unfold same_but_faults in *; by rewrite F2, E2|intros k ??; by rewrite F4, E4]).
Qed.

Lemma takeFault_at s m : m ≠ "" →
  mk_faults (takeFault s m).2 !! m = used (mk_faults s !! m) ∧
  ∀ f, used (mk_faults s !! m) = Some f → (takeFault s m).1 = f.
Proof.
  intros Hm. unfold takeFault. destruct (takeLocked_spec s m) as (E1 & _ & E3 & _).
  destruct (takeLocked s m) as [[f|] s1]; simpl in *; [split; [done|congruence]|].
  destruct (takeLocked_spec s1 "") as (_ & _ & _ & F4). rewrite <-E1.
  destruct (takeLocked s1 "") as [[f|] s2]; simpl in *; (split; [by rewrite F4, E3, <-E1|done]).
Qed.

Lemma takeExact_spec s key :
  same_but_faults s (takeFaultExact s key).2 ∧
  ∀ k, k ≠ key → mk_faults (takeFaultExact s key).2 !! k = mk_faults s !! k.
Proof.
  unfold takeFaultExact. destruct (takeLocked_spec s key) as (_ & E2 & _ & E4). by destruct (takeLocked s key) as [[f|] s1].
Qed.

(** ** Calls *)

Section calls.
Context `{Unicode} `{JsonStream} `{JsonNumbers} (q : string → string).

Abbreviation run := (mock_run q).

(** The model a completion asks for. *)
Definition asked (c : mock_call) : option string :=
  match mc_route c with
  | MChat | MChatOnly _ => cq_Model <$> decode_completion (mq_Body (mc_req c))
  | _ => None
  end.

(** The fault a call of the control plane arranges. *)
Definition arranged (c : mock_call) : option faultRequest :=
  match mc_route c with
  | MSetFault => decode_body fault_field
      {| fq_Model := ""; fq_Mode := ""; fq_Count := 0; fq_DelayMS := 0; fq_Bytes := 0 |} (mq_Body (mc_req c))
  | _ => None
  end.

Definition added (c : mock_call) : option MockModel :=
  match mc_route c with MAddModel => decode_body model_field no_model (mq_Body (mc_req c)) | _ => None end.

(** Whether a call is about model [m]: it asks for it, adds or removes it,
    arranges its fault, or resets everything. *)
Definition concerns (m : string) (c : mock_call) : Prop :=
  asked c = Some m ∨ (∃ r, arranged c = Some r ∧ fq_Model r = m) ∨ (∃ x, added c = Some x ∧ mm_ID x = m) ∨
  mc_route c = MRemoveModel m ∨ mc_route c = MReset.

(** What a completion does to the state. *)
Lemma completion_state waits allowed now now' r s :
  (serveCompletion waits q allowed now now' r s).2 =
  match decode_completion (mq_Body r) with
  | None => s
  | Some req =>
      let s' := set_counts s (count_in (mk_requests s) (cq_Model req))
                  (if bool_decide (credential r = "") then mk_keys s else count_in (mk_keys s) (credential r)) in
      if bool_decide (is_Some (mk_models s !! cq_Model req)) && permits allowed (cq_Model req)
      then (takeFault s' (cq_Model req)).2 else s'
  end.
Proof.
  unfold serveCompletion. destruct (decode_completion (mq_Body r)) as [req|]; [|done]. cbv zeta.
  destruct (bool_decide _ && permits _ _); [|done]. simpl. by destruct (takeFault _ _).
Qed.

Lemma owned_ID x : mm_ID (owned x) = mm_ID x.
Proof. unfold owned. by case_bool_decide. Qed.

Lemma add_model_state r s :
  (controlAddModel r s).2 = match decode_body model_field no_model (mq_Body r) with
    | Some m => if bool_decide (TrimSpace (mm_ID m) = "") then s else add_model (owned m) s
    | None => s end.
Proof. unfold controlAddModel. destruct (decode_body _ _ _) as [m|]; [|done]. by case_bool_decide. Qed.

Lemma set_fault_state r s :
  (controlSetFault q r s).2 =
  match decode_body fault_field
          {| fq_Model := ""; fq_Mode := ""; fq_Count := 0; fq_DelayMS := 0; fq_Bytes := 0 |} (mq_Body r) with
  | Some req => match fault_refusal q req with
                | None => set_faults s (match armed req with
                                        | None => delete (fq_Model req) (mk_faults s)
                                        | Some f => <[fq_Model req := f]> (mk_faults s) end)
                | Some _ => s end
  | None => s end.
Proof. unfold controlSetFault. destruct (decode_body _ _ _) as [req|]; [|done]. by destruct (fault_refusal q req). Qed.

Lemma listing_state waits allowed s :
  (serveModels waits allowed s).2 = (takeFaultExact (set_listings s (mk_listings s + 1)) ListingTarget).2.
Proof. unfold serveModels. destruct (takeFaultExact _ _) as [f s']. by repeat case_match. Qed.

Lemma receive_state sink r s : ∃ e f, (receiveEvent sink r s).2 = set_sinks s e f.
Proof.
  unfold receiveEvent. destruct (_ <? _); [exists (mk_events s), (mk_sinkFaults s); by destruct s|].
  destruct (takeSink s sink). by do 2 eexists.
Qed.

Lemma sink_fault_state sink r s : ∃ f, (controlSetSinkFault sink r s).2 = set_sinks s (mk_events s) f.
Proof.
  unfold controlSetSinkFault. assert (s = set_sinks s (mk_events s) (mk_sinkFaults s)) as Hs by (by destruct s).
  destruct (decode_body _ _ _) as [req|]; [|by eexists]. repeat case_match; by eexists.
Qed.

(** What the state says about a model. *)
Definition says (m : string) (s : Mock) : option fault * option Z * option MockModel :=
  (mk_faults s !! m, mk_requests s !! m, mk_models s !! m).

Lemma unconcerned_listing m waits allowed s : m ≠ ListingTarget → says m (serveModels waits allowed s).2 = says m s.
Proof.
  intros Hl. rewrite listing_state. unfold says.
  destruct (takeExact_spec (set_listings s (mk_listings s + 1)) ListingTarget) as [E1 E2].
  rewrite E2 by done. by rewrite E1.
Qed.

Lemma unconcerned_completion m waits allowed now now' r s :
  m ≠ "" → cq_Model <$> decode_completion (mq_Body r) ≠ Some m →
  says m (serveCompletion waits q allowed now now' r s).2 = says m s.
Proof.
  intros Hne Hm. rewrite completion_state. destruct (decode_completion _) as [req|]; [|done]. simpl in Hm. cbv zeta.
  assert (cq_Model req ≠ m) as Hq by congruence. unfold says.
  destruct (_ && _); simpl; [|unfold count_in; by rewrite lookup_insert_ne].
  set (s1 := set_counts _ _ _). destruct (takeFault_frame s1 (cq_Model req)) as [E1 E2].
  rewrite E2, E1 by done. simpl. unfold count_in. by rewrite lookup_insert_ne.
Qed.

(** One call that is not about [m]. *)
Lemma unconcerned_step m c s :
  m ≠ "" → m ≠ ListingTarget → ¬ concerns m c → says m (mock_serve q c s).2 = says m s.
Proof.
  intros Hne Hl Hc. unfold concerns, asked, arranged, added in Hc. unfold mock_serve.
  destruct (mc_route c) as [|ids| |ids|sink| | |id| |sink|sink|] eqn:Er;
    try (by apply unconcerned_listing); try (apply unconcerned_completion; tauto); try done.
  - by destruct (receive_state sink (mc_req c) s) as (e & f & ->).
  - rewrite add_model_state. destruct (decode_body _ _ _) as [x|]; [|done]. case_bool_decide; [done|].
    unfold says. simpl. rewrite owned_ID, lookup_insert_ne; [done|]. intros E. apply Hc. right. right. left. by exists x.
  - unfold says. simpl. rewrite lookup_delete_ne; [done|]. intros ->. apply Hc. tauto.
  - rewrite set_fault_state. destruct (decode_body _ _ _) as [req|]; [|done]. destruct (fault_refusal q req); [done|].
    assert (fq_Model req ≠ m) by (intros ?; apply Hc; right; left; by exists req).
    unfold says. simpl. destruct (armed req); [by rewrite lookup_insert_ne|by rewrite lookup_delete_ne].
  - by destruct (sink_fault_state sink (mc_req c) s) as (f & ->).
  - exfalso. tauto.
Qed.

(** Suites that use models of their own do not meet: whatever calls are made
    about other models, by however many runs and in whatever order, a model's
    fault, its count of requests and its listing entry stay as they were. *)
Theorem suites_do_not_meet m s calls :
  m ≠ "" → m ≠ ListingTarget → Forall (λ c, ¬ concerns m c) calls →
  says m (run s calls) = says m s.
Proof.
  intros Hne Hl Hf. revert s. induction Hf as [|c calls Hc Hf IH]; intros s; [done|]. simpl.
  rewrite IH. by apply unconcerned_step.
Qed.

(** *** A fault's count *)

(** Whether a call is a completion that gets as far as model [m]'s fault. *)
Definition strikes (m : string) (c : mock_call) (s : Mock) : bool :=
  let reach allowed := bool_decide (is_Some (mk_models s !! m)) && permits allowed m in
  bool_decide (asked c = Some m) &&
  match mc_route c with MChat => reach None | MChatOnly ids => reach (only ids) | _ => false end.

Fixpoint struck (m : string) (s : Mock) (calls : list mock_call) : Z :=
  match calls with
  | [] => 0
  | c :: calls => (if strikes m c s then 1 else 0) + struck m (mock_serve q c s).2 calls
  end.

(** A call that arranges no fault for [m]. *)
Definition leaves_armed (m : string) (c : mock_call) : Prop :=
  (∀ r, arranged c = Some r → fq_Model r ≠ m) ∧ mc_route c ≠ MReset.

(** The fault that a striking completion answers with. *)
Definition fault_of (m : string) (s : Mock) : option fault := used (mk_faults s !! m).

Lemma fault_step m c s :
  m ≠ "" → m ≠ ListingTarget → leaves_armed m c →
  mk_faults (mock_serve q c s).2 !! m = if strikes m c s then fault_of m s else mk_faults s !! m.
Proof.
  intros Hne Hl [Ha Hr]. unfold strikes.
  destruct (bool_decide (asked c = Some m)) eqn:Eask; [apply bool_decide_eq_true in Eask|apply bool_decide_eq_false in Eask].
  - simpl. unfold asked in Eask. unfold mock_serve. destruct (mc_route c) eqn:Er; try done;
      rewrite completion_state; destruct (decode_completion _) as [req|]; simplify_eq/=;
      destruct (_ && _); try done; set (s1 := set_counts _ _ _);
      by destruct (takeFault_at s1 (cq_Model req) Hne) as [-> _].
  - simpl. destruct (mc_route c) eqn:Er; unfold mock_serve; rewrite Er; try done;
      try (by pose proof (unconcerned_listing m (mc_waits c) None s Hl) as [= -> _]);
      try (by pose proof (unconcerned_listing m (mc_waits c) (only ids) s Hl) as [= -> _]).
    + unfold asked in Eask. rewrite Er in Eask.
      by pose proof (unconcerned_completion m (mc_waits c) None (mc_now c) (mc_now' c) (mc_req c) s Hne Eask) as [= -> _].
    + unfold asked in Eask. rewrite Er in Eask.
      by pose proof (unconcerned_completion m (mc_waits c) (only ids) (mc_now c) (mc_now' c) (mc_req c) s Hne Eask)
        as [= -> _].
    + by destruct (receive_state sink (mc_req c) s) as (e & f & ->).
    + rewrite add_model_state. destruct (decode_body _ _ _) as [x|]; [|done]. by case_bool_decide.
    + rewrite set_fault_state. unfold arranged in Ha. rewrite Er in Ha. destruct (decode_body _ _ _) as [req|]; [|done].
      destruct (fault_refusal q req); [done|]. specialize (Ha req eq_refl).
      simpl. destruct (armed req); [by rewrite lookup_insert_ne|by rewrite lookup_delete_ne].
    + by destruct (sink_fault_state sink (mc_req c) s) as (f & ->).
Qed.

(** What [k] uses leave of a fault: one with no count stays, one with a count
    goes down and is gone after its last use. *)
Definition left_of (f : fault) (k : Z) : option fault :=
  if fa_remaining f <? 0 then Some f
  else if k <=? fa_remaining f then Some (with_remaining f (fa_remaining f - k)) else None.

Lemma used_left f k : 0 ≤ k → fa_remaining f ≠ 0 → used (left_of f k) = left_of f (k + 1).
Proof.
  intros Hk Hn. unfold left_of. destruct (Z.ltb_spec (fa_remaining f) 0).
  - simpl. by rewrite (proj2 (Z.eqb_neq _ _)), (proj2 (Z.ltb_ge _ _)) by lia.
  - destruct (Z.leb_spec k (fa_remaining f)), (Z.leb_spec (k + 1) (fa_remaining f)); simpl; try lia; [| |done].
    + rewrite (proj2 (Z.eqb_neq _ _)), (proj2 (Z.ltb_lt _ _)) by lia. unfold with_remaining. simpl. do 2 f_equal. lia.
    + by rewrite (proj2 (Z.eqb_eq _ _)) by lia.
Qed.

Lemma count_down m f calls k s :
  m ≠ "" → m ≠ ListingTarget → Forall (leaves_armed m) calls → fa_remaining f ≠ 0 → 0 ≤ k →
  mk_faults s !! m = left_of f k →
  0 ≤ struck m s calls ∧ mk_faults (run s calls) !! m = left_of f (k + struck m s calls).
Proof.
  intros Hne Hl Hf Hn. revert k s. induction Hf as [|c calls Hc Hf IH]; intros k s Hk Hs; simpl; [by rewrite Z.add_0_r|].
  pose proof (fault_step m c s Hne Hl Hc) as Hstep. unfold fault_of in Hstep. rewrite Hs in Hstep.
  destruct (strikes m c s).
  - rewrite used_left in Hstep by done. destruct (IH (k + 1) _ ltac:(lia) Hstep) as [? ->]. split; [lia|]. f_equal. lia.
  - destruct (IH _ _ Hk Hstep) as [? ->]. split; [lia|]. f_equal.
Qed.

(** A fault armed for [n] requests strikes [n]: after any calls, [k] of them
    completions that reach it, [n - k] of its uses are left, the next such
    completion is answered with it while there is one, and from the [n+1]st on
    the model answers again. A fault with no count never runs out. *)
Theorem counted_fault_runs_out m f s calls :
  m ≠ "" → m ≠ ListingTarget → Forall (leaves_armed m) calls →
  mk_faults s !! m = Some f → fa_remaining f ≠ 0 →
  let k := struck m s calls in
  mk_faults (run s calls) !! m = left_of f k ∧
  (∀ g, left_of f (k + 1) = Some g → (takeFault (run s calls) m).1 = g ∧ fa_mode g = fa_mode f).
Proof.
  intros Hne Hl Hf Hs Hn. cbv zeta. assert (left_of f 0 = Some f) as Hz.
  { unfold left_of. destruct (Z.ltb_spec (fa_remaining f) 0); [done|].
    rewrite (proj2 (Z.leb_le _ _)), Z.sub_0_r, with_remaining_same by lia. done. }
  destruct (count_down m f calls 0 s Hne Hl Hf Hn ltac:(lia)) as [Hk He]; [by rewrite Hz|].
  rewrite Z.add_0_l in He. split; [done|].
  intros g Hg. rewrite <-used_left, <-He in Hg by done. split; [by apply takeFault_at|].
  rewrite He in Hg. unfold left_of in Hg. destruct (_ <? _); [|destruct (_ <=? _)]; simpl in Hg;
    repeat case_match; by simplify_eq/=.
Qed.
(** What listings and completions leave alone. *)
Record same_data (s s' : Mock) : Prop := {
  sd_models : mk_models s' = mk_models s;
  sd_order : mk_order s' = mk_order s;
  sd_events : mk_events s' = mk_events s;
  sd_sinks : mk_sinkFaults s' = mk_sinkFaults s
}.

Lemma same_faults s s' : same_but_faults s s' → same_data s s'.
Proof. intros ->. by split. Qed.

#[local] Instance same_data_trans : Transitive same_data.
Proof. intros s1 s2 s3 [] []. split; etrans; eauto. Qed.

Lemma listing_frame waits allowed s : same_data s (serveModels waits allowed s).2.
Proof.
  rewrite listing_state. destruct (takeExact_spec (set_listings s (mk_listings s + 1)) ListingTarget) as [E%same_faults _].
  by etrans; [|exact E].
Qed.

Lemma completion_frame waits allowed now now' r s : same_data s (serveCompletion waits q allowed now now' r s).2.
Proof.
  rewrite completion_state. destruct (decode_completion _) as [req|]; [|done]. cbv zeta. destruct (_ && _); [|done].
  set (s1 := set_counts _ _ _). destruct (takeFault_frame s1 (cq_Model req)) as [E%same_faults _].
  by etrans; [|exact E].
Qed.

(** *** The listing *)

Definition catalogue_ok (s : Mock) : Prop :=
  ∀ id m, mk_models s !! id = Some m → mm_ID m = id ∧ id ∈ mk_order s.

Lemma seeded_catalogue : catalogue_ok MockNew ∧ NoDup (mk_order MockNew) ∧
  (∀ id, id ∈ mk_order MockNew → is_Some (mk_models MockNew !! id)).
Proof.
  assert (mk_models MockNew = list_to_map ((λ m, (mm_ID m, m)) <$> SeedModels)) as E by (by vm_compute).
  split_and!.
  - intros id m. rewrite E. intros Hm%elem_of_list_to_map_2. apply list_elem_of_fmap in Hm as (m' & [= -> ->] & Hin).
    split; [done|]. change (mk_order MockNew) with (mm_ID <$> SeedModels). by apply list_elem_of_fmap_2.
  - by apply (bool_decide_unpack (NoDup (mk_order MockNew))).
  - apply Forall_forall. apply (bool_decide_unpack (Forall (λ id, is_Some (mk_models MockNew !! id)) (mk_order MockNew))).
    by vm_compute.
Qed.

(** Models and their order change on the control plane alone. *)
Lemma models_step c s :
  (mk_models (mock_serve q c s).2 = mk_models s ∧ mk_order (mock_serve q c s).2 = mk_order s) ∨
  (∃ m, (mock_serve q c s).2 = add_model m s) ∨
  (∃ id, mc_route c = MRemoveModel id ∧ (mock_serve q c s).2 = set_mock_models s (delete id (mk_models s)) (mk_order s)) ∨
  (mock_serve q c s).2 = MockNew.
Proof.
  assert (∀ s', same_data s s' → mk_models s' = mk_models s ∧ mk_order s' = mk_order s) as Hf by (by intros s' [-> -> _ _]).
  pose proof listing_frame as Hl. pose proof completion_frame as Hc.
  unfold mock_serve. destruct (mc_route c) eqn:Er; auto.
  - left. by destruct (receive_state sink (mc_req c) s) as (e & f & ->).
  - rewrite add_model_state. destruct (decode_body _ _ _) as [m|]; [|auto]. case_bool_decide; eauto.
  - right. right. left. by exists id.
  - left. rewrite set_fault_state. destruct (decode_body _ _ _); [|done]. by destruct (fault_refusal _ _).
  - left. by destruct (sink_fault_state sink (mc_req c) s) as (f & ->).
Qed.

Lemma catalogue_step c s : catalogue_ok s → catalogue_ok (mock_serve q c s).2.
Proof.
  intros Hs. destruct (models_step c s) as [[E1 E2]|[(m & ->)|[(id & _ & ->)| ->]]].
  - intros id m. rewrite E1, E2. apply Hs.
  - intros id m'. simpl. rewrite lookup_insert_Some. intros [[<- <-]|[Hne Hm]].
    + split; [done|]. case_bool_decide as Hi; [destruct Hi as [m' Hm']; by apply Hs in Hm' as [_ ?]|].
      apply elem_of_app. right. by left.
    + destruct (Hs _ _ Hm) as [? ?]. split; [done|]. case_bool_decide; [done|]. apply elem_of_app. by left.
  - intros id' m'. simpl. intros [_ Hm]%lookup_delete_Some. by apply Hs.
  - apply seeded_catalogue.
Qed.

Lemma catalogue_run s calls : catalogue_ok s → catalogue_ok (run s calls).
Proof. revert s. induction calls as [|c calls IH]; intros s Hs; [done|]. by apply IH, catalogue_step. Qed.

Lemma elem_of_shown s allowed m : catalogue_ok s →
  m ∈ shown s allowed ↔ mk_models s !! mm_ID m = Some m ∧ permits allowed (mm_ID m) = true.
Proof.
  intros Hs. unfold shown. rewrite list_elem_of_omap. split.
  - intros (id & _ & Hm). destruct (permits allowed id) eqn:Ep; [|done]. destruct (Hs _ _ Hm) as [<- _]. auto.
  - intros [Hm Hp]. exists (mm_ID m). rewrite Hp. destruct (Hs _ _ Hm) as [_ ?]. auto.
Qed.

(** The listing is the catalogue: after any calls, a model is shown exactly when
    it is there, under its own id, and the view does not leave it out. As long
    as no model was removed each is shown once. *)
Theorem listing_shows_the_models calls allowed :
  let s := run MockNew calls in
  (∀ m, m ∈ shown s allowed ↔ mk_models s !! mm_ID m = Some m ∧ permits allowed (mm_ID m) = true) ∧
  (Forall (λ c, ∀ id, mc_route c ≠ MRemoveModel id) calls → NoDup (mm_ID <$> shown s allowed)).
Proof.
  intros s. split; [intros m; by apply elem_of_shown, catalogue_run, seeded_catalogue|]. intros Hf.
  assert (NoDup (mk_order s) ∧ ∀ id, id ∈ mk_order s → is_Some (mk_models s !! id)) as [Hnd _].
  { subst s. destruct seeded_catalogue as (_ & Hn & Hd). revert Hn Hd. generalize MockNew.
    induction Hf as [|c calls Hc Hf IH]; intros s Hn Hd; [done|]. simpl.
    destruct (models_step c s) as [[E1 E2]|[(m & ->)|[(id & Er & _)| ->]]]; [| |by apply Hc in Er|].
    - by apply IH; rewrite ?E1, ?E2.
    - apply IH; simpl; case_bool_decide as Hi.
      + done.
      + apply NoDup_app. split_and!; [done| |apply NoDup_singleton]. intros id Hin ->%list_elem_of_singleton. by apply Hi, Hd.
      + intros id Hin%Hd. by apply lookup_insert_is_Some'; right.
      + intros id [Hin%Hd| ->%list_elem_of_singleton]%elem_of_app; apply lookup_insert_is_Some'; auto.
    - by apply IH; apply seeded_catalogue. }
  assert (catalogue_ok s) as Hs by (apply catalogue_run, seeded_catalogue).
  unfold shown. clear Hf. revert Hnd. generalize (mk_order s). induction l as [|id l IH]; simpl; intros Hnd; [constructor|].
  apply NoDup_cons in Hnd as [Hid Hnd]. specialize (IH Hnd).
  destruct (permits allowed id); [|done]. destruct (mk_models s !! id) as [m|] eqn:Em; [|done]. simpl.
  apply NoDup_cons. split; [|done]. destruct (Hs _ _ Em) as [-> _]. intros (m' & -> & Hm')%list_elem_of_fmap.
  apply list_elem_of_omap in Hm' as (id' & Hin & Hm'). destruct (permits allowed id'); [|done].
  destruct (Hs _ _ Hm') as [<- _]. by apply Hid.
Qed.

(** A model that is removed and added again is listed twice, as its first place
    in the order is never given up. *)
Theorem readded_model_is_listed_twice calls m :
  let s := run MockNew calls in
  is_Some (mk_models s !! mm_ID m) →
  let s' := add_model m (controlRemoveModel (mm_ID m) s).2 in
  ∃ before, shown s' None = before ++ [m] ∧ m ∈ before.
Proof.
  intros s [old Hm] s'. subst s'. unfold add_model. simpl. rewrite lookup_delete_eq, bool_decide_eq_false_2 by (by intros [? ?]).
  unfold shown. simpl. rewrite omap_app. simpl. rewrite lookup_insert_eq. eexists. split; [done|].
  apply list_elem_of_omap. exists (mm_ID m). rewrite lookup_insert_eq. split; [|done].
  by apply (catalogue_run MockNew calls (proj1 seeded_catalogue)) in Hm as [_ ?].
Qed.
(** *** The sink *)

(** Whether a call is a delivery that the sink reads. *)
Definition delivers (sink : string) (c : mock_call) : bool :=
  match mc_route c with
  | MReceiveEvent sink' =>
      bool_decide (sink' = sink) && negb (maxEventBody <? Z.of_nat (String.length (mq_Body (mc_req c))))
  | _ => false
  end.

Definition leaves_sink (sink : string) (c : mock_call) : Prop :=
  mc_route c ≠ MSetSinkFault sink ∧ mc_route c ≠ MReset.

Definition statuses (sink : string) (s : Mock) : list Z := dv_Status <$> default [] (mk_events s !! sink).

Lemma takeSink_other s sink sink' : sink ≠ sink' → (takeSink s sink).2 !! sink' = mk_sinkFaults s !! sink'.
Proof.
  intros Hne. unfold takeSink. destruct (mk_sinkFaults s !! sink); simpl; [|done].
  destruct (_ <=? _); [by rewrite lookup_delete_ne|by rewrite lookup_insert_ne].
Qed.

Lemma receive_at sink sink' r s :
  (maxEventBody <? Z.of_nat (String.length (mq_Body r))) = false →
  mk_sinkFaults (receiveEvent sink r s).2 !! sink' =
    (if decide (sink = sink') then (takeSink s sink).2 !! sink else mk_sinkFaults s !! sink') ∧
  statuses sink' (receiveEvent sink r s).2 =
    (if decide (sink = sink') then statuses sink s ++ [(takeSink s sink).1] else statuses sink' s).
Proof.
  intros Hb. unfold receiveEvent. rewrite Hb. pose proof (takeSink_other s sink sink') as Ho.
  destruct (takeSink s sink) as [status rest]. simpl in *.
  unfold statuses. simpl. case_decide as E; [subst sink'|].
  - rewrite lookup_insert_eq. simpl. by rewrite fmap_app.
  - rewrite lookup_insert_ne by done. auto.
Qed.

Lemma sink_fault_other sink sink' r s : sink ≠ sink' →
  mk_sinkFaults (controlSetSinkFault sink r s).2 !! sink' = mk_sinkFaults s !! sink'.
Proof.
  intros Hne. unfold controlSetSinkFault. destruct (decode_body _ _ _) as [req|]; [|done].
  cbv zeta. destruct (_ || _); [done|]. destruct (_ <? _); [done|]. simpl. by rewrite lookup_insert_ne.
Qed.

(** Nothing but a delivery to it, its own control and a reset moves a sink. *)
Lemma sink_step sink c s : leaves_sink sink c → delivers sink c = false →
  mk_sinkFaults (mock_serve q c s).2 !! sink = mk_sinkFaults s !! sink ∧
  statuses sink (mock_serve q c s).2 = statuses sink s.
Proof.
  intros [Hs Hr] Hd. unfold delivers in Hd. unfold mock_serve.
  assert (∀ s', same_data s s' → mk_sinkFaults s' !! sink = mk_sinkFaults s !! sink ∧ statuses sink s' = statuses sink s)
    as Hsame by (unfold statuses; by intros s' [_ _ -> ->]).
  pose proof listing_frame as Hl. pose proof completion_frame as Hc.
  destruct (mc_route c) as [|ids| |ids|sink'| | |id| |sink'|sink'|] eqn:Er; auto; try done.
  - destruct (decide (sink' = sink)) as [->|Hne].
    + rewrite bool_decide_eq_true_2 in Hd by done. apply negb_false_iff in Hd. unfold receiveEvent. by rewrite Hd.
    + destruct (maxEventBody <? _) eqn:Eb; [unfold receiveEvent; by rewrite Eb|].
      destruct (receive_at sink' sink (mc_req c) s Eb) as [-> ->]. by rewrite !decide_False.
  - rewrite add_model_state. destruct (decode_body _ _ _) as [m|]; [|done]. by case_bool_decide.
  - rewrite set_fault_state. destruct (decode_body _ _ _) as [req|]; [|done]. by destruct (fault_refusal q req).
  - rewrite sink_fault_other by congruence. split; [done|].
    by destruct (sink_fault_state sink' (mc_req c) s) as (f & ->).
Qed.

(** What [k] deliveries leave of a rejection armed for [n]. *)
Definition rejection_left (status : Z) (n k : nat) : option sinkFault :=
  if (k <? n)%nat then Some {| sf_status := status; sf_remaining := Z.of_nat (n - k) |} else None.

Lemma takeSink_left s sink status n k :
  mk_sinkFaults s !! sink = rejection_left status n k →
  (takeSink s sink).1 = (if (k <? n)%nat then status else 204) ∧
  (takeSink s sink).2 !! sink = rejection_left status n (S k).
Proof.
  unfold takeSink, rejection_left. destruct (Nat.ltb_spec k n) as [Hk|Hk]; intros E; rewrite E; simpl.
  - split; [done|]. destruct (Nat.ltb_spec (S k) n), (Z.leb_spec (Z.of_nat (n - k) - 1) 0); try lia.
    + rewrite lookup_insert_eq. do 2 f_equal. lia.
    + by rewrite lookup_delete_eq.
  - split; [done|]. by destruct (Nat.ltb_spec (S k) n); [lia|].
Qed.

Lemma sink_run sink status n calls k s :
  Forall (leaves_sink sink) calls → mk_sinkFaults s !! sink = rejection_left status n k →
  let got := length (List.filter (delivers sink) calls) in
  mk_sinkFaults (run s calls) !! sink = rejection_left status n (k + got) ∧
  statuses sink (run s calls) =
    statuses sink s ++ replicate (Nat.min got (n - k)) status ++ replicate (got - (n - k)) 204.
Proof.
  intros Hf. revert k s. induction Hf as [|c calls Hc Hf IH]; intros k s Hs; cbv zeta;
    [simpl; by rewrite Nat.add_0_r, app_nil_r|].
  cbn [List.filter]. change (run s (c :: calls)) with (run (mock_serve q c s).2 calls).
  destruct (delivers sink c) eqn:Ed.
  - unfold delivers in Ed. unfold mock_serve. destruct (mc_route c) eqn:Er; try done.
    apply andb_prop in Ed as [->%bool_decide_eq_true Eb%negb_true_iff].
    destruct (receive_at sink sink (mc_req c) s Eb) as [R1 R2]. rewrite decide_True in R1 by done. rewrite decide_True in R2 by done.
    destruct (takeSink_left s sink status n k Hs) as [T1 T2]. rewrite T2 in R1. rewrite T1 in R2.
    destruct (IH (S k) _ R1) as [-> ->]. rewrite R2. cbn [length].
    set (got := length _). split; [f_equal; lia|]. rewrite <-app_assoc. f_equal.
    destruct (Nat.ltb_spec k n).
    + replace (n - k)%nat with (S (n - S k)) by lia. simpl. done.
    + replace (n - k)%nat with 0%nat by lia. replace (n - S k)%nat with 0%nat by lia.
      rewrite Nat.min_0_r, !Nat.sub_0_r. done.
  - destruct (sink_step sink c s Hc Ed) as [S1 S2]. rewrite <-S1 in Hs. destruct (IH k _ Hs) as [-> ->]. by rewrite S2.
Qed.

(** A sink rejects as often as it was told to, then accepts, and keeps a record
    of every delivery with the answer it got, in the order they came, whatever
    else the mock serves in between. *)
Theorem sink_rejects_then_accepts sink status n s calls :
  Forall (leaves_sink sink) calls →
  mk_sinkFaults s !! sink = Some {| sf_status := status; sf_remaining := Z.of_nat (S n) |} →
  let got := length (List.filter (delivers sink) calls) in
  statuses sink (run s calls) =
    statuses sink s ++ replicate (Nat.min got (S n)) status ++ replicate (got - S n) 204 ∧
  (mk_sinkFaults (run s calls) !! sink = None ↔ (S n ≤ got)%nat).
Proof.
  intros Hf Hs got. destruct (sink_run sink status (S n) calls 0 s Hf Hs) as [E1 E2]. rewrite E1. split; [done|].
  unfold rejection_left. fold got. rewrite Nat.add_0_l. by destruct (Nat.ltb_spec got (S n)); split; intros; lia || done.
Qed.

(** One delivery whose body is not JSON makes the whole sink unreadable: the
    report of it cannot be encoded and comes back empty. *)
Theorem unparsable_delivery_hides_the_sink sink s d :
  d ∈ default [] (mk_events s !! sink) → Unmarshal (dv_Body d) = None →
  ∃ header, controlEvents sink s = Answered 200 header "" Ended.
Proof.
  intros Hd Hu. unfold controlEvents.
  assert (mapM delivery_json (default [] (mk_events s !! sink)) = None) as ->.
  { apply mapM_None_2. apply Exists_exists. exists d. split; [done|]. unfold delivery_json. by rewrite Hu. }
  by eexists.
Qed.
End calls.
(** ** The gateway's adapter against the mock *)

(** White space after a document does not matter to [json.Unmarshal]. *)
Class JsonLines `{JsonCodec} := { Unmarshal_newline s j : Unmarshal s = Some j → Unmarshal (s +:+ newline) = Some j }.

(** What an HTTP client makes of an answer: [gone] is the error of its own
    timeout, [dropped] the one of a connection that broke. *)
Definition seen (gone dropped : error) (a : answer) : HttpReply :=
  match a with
  | Gone => Unreachable gone
  | Answered status header body Ended => Replied status header body None
  | Answered status header body Dropped => Replied status header body (Some dropped)
  | Answered status header body Abandoned => Replied status header body (Some gone)
  end.

Definition answer_body (a : answer) : string := match a with Gone => "" | Answered _ _ body _ => body end.

Section against.
Context `{Unicode} `{JsonStream} `{JsonNumbers} `{!JsonLines} (q : string → string).
Context (gone dropped : error) (Hgone : is_response_too_large gone = false)
  (Hdropped : is_response_too_large dropped = false).

Definition mock_usage : Usage := {| us_PromptTokens := 11; us_CompletionTokens := 7; us_TotalTokens := 18 |}.

(** The completion as a document. *)
Definition envelope_fields (now : Z) (model content : string) : list (string * json) :=
  [("choices", JArr [object [("index", JNum "0");
      ("message", object [("role", JStr "assistant"); ("content", JStr content)]); ("finish_reason", JStr "stop")]]);
   ("created", JNum (Itoa now)); ("id", JStr "chatcmpl-mock"); ("model", JStr model);
   ("object", JStr "chat.completion"); ("usage", usageBlock)].

Lemma envelope_sorted now model content : oversizeEnvelope now model content = JObj (envelope_fields now model content).
Proof.
  unfold oversizeEnvelope, envelope_fields. generalize (JNum (Itoa now)), (JStr model), usageBlock.
  generalize (JArr [object [("index", JNum "0");
      ("message", object [("role", JStr "assistant"); ("content", JStr content)]); ("finish_reason", JStr "stop")]]).
  intros. by vm_compute.
Qed.

Lemma envelope_usage now model content :
  extractUsage (Marshal (oversizeEnvelope now model content) +:+ newline) = Some mock_usage.
Proof.
  unfold extractUsage.
  rewrite (Unmarshal_newline _ (oversizeEnvelope now model content)) by apply Unmarshal_Marshal_map.
  rewrite envelope_sorted. done.
Qed.

(** Reads that carry a live body: its bytes line by line, then the end it had. *)
Definition joined (l : list string) : string := foldr String.append "" l.
Definition carries (body : string) (broken : bool) (reads : list read) : Prop :=
  ∃ pre fin, reads = pre ++ [fin] ∧ Forall ChatProps.delivers pre ∧ joined (rd_line <$> reads) = body ∧
    if broken then ∃ why, rd_err fin = Some (RBroken why) else rd_err fin = Some REOF.

(** What the caller of a stream gets of a live body that reaches the relay on
    time, or does not: its bytes unchanged, then [tail], and nothing else. *)
Definition relayed (body : string) (broken late : bool) (tail : string → list string) : Prop :=
  ∀ A (c : chatCtx A) st now done_at recorded_at reads, carries body broken reads →
    silent (budget (st_idle st)) now reads = late →
    ∃ bytes c', stream_writer true true st (λ _, true) now done_at recorded_at reads c = Some (bytes, c') ∧
      joined bytes = body +:+ joined (tail (id_request (st_identity st))).

Lemma joined_app l l' : joined (l ++ l') = joined l +:+ joined l'.
Proof. induction l as [|x l IH]; [done|]. cbn [joined foldr Datatypes.app]. fold (joined (l ++ l')). by rewrite IH, str_app_assoc. Qed.

Lemma joined_lines reads : joined (lines reads) = joined (rd_line <$> reads).
Proof.
  induction reads as [|rd reads IH]; [done|]. rewrite lines_cons. case_bool_decide as E; simpl.
  - by rewrite IH, E.
  - by f_equal.
Qed.

Lemma relays body broken late :
  relayed body broken late (λ rid,
    if late then writeStreamError stalled_message CodeUpstreamStreamStalled rid
    else if broken then writeStreamError truncated_message CodeUpstreamError rid else []).
Proof.
  intros A c st now d1 d2 reads (pre & fin & -> & HF & Hb & He) Hl.
  assert (∃ e, rd_err fin = Some e ∧ if broken then ∃ why, e = RBroken why else e = REOF) as (e & Ee & Hk).
  { destruct broken; [destruct He as [why He]; exists (RBroken why)|exists REOF]; eauto. }
  unfold stream_writer, relaySSE. fold (budget (st_idle st)).
  pose proof (relay_loop_accepts (budget (st_idle st)) (λ _, true) now false 0 None pre fin [] e HF Ee ltac:(done)) as E.
  cbv zeta in E. rewrite app_nil_r in E. rewrite E. simpl orb. rewrite Hl.
  eexists _, _. split; [done|]. rewrite joined_app, joined_lines, Hb. f_equal. f_equal.
  destruct late; [done|]. destruct broken; [by destruct Hk as [why ->]|by subst e].
Qed.

(** What each mode means to the gateway; [body] is what the mock wrote, [v] the
    cascade's verdict and [live] the body a stream is relayed from. A stream that
    is served is final: no other candidate is asked after that verdict. *)
Definition meant (max : Z) (streaming : bool) (mode body : string) (v : verdict) (live : option (string * option error)) :
    Prop :=
  let fits := Z.of_nat (String.length body) ≤ max in
  let streamed broken late tail :=
    (∃ resp, v = Serve resp) ∧ live = Some (body, broken) ∧ relayed body (negb (is_None_b broken)) late tail in
  if bool_decide (mode = FaultNone) then
    if streaming then streamed None false (λ _, [])
    else fits → ∃ resp, v = Serve resp ∧ rs_Body resp = body ∧ rs_Usage resp = Some mock_usage
  else if bool_decide (mode = FaultRateLimit) then
    ∃ resp, v = NextKey resp ∧ rs_Header resp ≫= lookup "Retry-After" = Some "1"
  else if bool_decide (mode = FaultServerError) then v = Cascade false
  else if bool_decide (mode = FaultClientError) then ∃ resp, v = Fatal (clientError resp) ∧ rs_StatusCode resp = 400
  else if bool_decide (mode = FaultTimeout) then v = Cascade true
  else if bool_decide (mode = FaultOversizeBody) then
    if streaming then streamed None false (λ _, [])
    else ¬ fits → ∃ e, v = Fatal (ErrApi e) ∧ err_Status e = 502 ∧ err_Code e = CodeResponseTooLarge
  else if bool_decide (mode = FaultStreamAbort) then
    if streaming then streamed (Some dropped) false (writeStreamError truncated_message CodeUpstreamError)
    else fits → v = Cascade true
  else if bool_decide (mode = FaultStreamStall) then
    if streaming then streamed (Some gone) true (writeStreamError stalled_message CodeUpstreamStreamStalled)
    else fits → v = Cascade true
  else False.

Lemma stall_default waits d : stall waits (orDefault d DefaultTimeoutDelay) = waits (orDefault d DefaultTimeoutDelay).
Proof.
  unfold stall, orDefault. destruct (Z.leb_spec d 0) as [Hd|Hd]; [done|].
  by rewrite (proj2 (Z.leb_gt _ _)).
Qed.

(** Decides which of the modes a mode is. *)
Ltac decide_modes :=
  repeat match goal with
  | |- context [bool_decide (?a = ?b)] =>
      let v := eval vm_compute in (bool_decide (a = b)) in change (bool_decide (a = b)) with v
  | H : context [stalling ?a] |- _ => let v := eval vm_compute in (stalling a) in change (stalling a) with v in H
  | |- context [stalling ?a] => let v := eval vm_compute in (stalling a) in change (stalling a) with v
  end; cbv iota in *.

Lemma same_fault s r k m : (takeFault (set_counts s r k) m).1 = (takeFault s m).1.
Proof.
  unfold takeFault, takeLocked. simpl. destruct (mk_faults s !! m) as [f|]; simpl.
  - destruct (fa_remaining f =? 0); simpl; [|done].
    destruct (delete m (mk_faults s) !! "") as [g|]; [|done]. by destruct (fa_remaining g =? 0).
  - destruct (mk_faults s !! "") as [g|]; [|done]. by destruct (fa_remaining g =? 0).
Qed.

(** C39: The faults mean to the gateway what they are called, for a model the mock
    has. Buffered or streamed, with a rate limit armed the gateway tries its next
    key and is told when; a server error and a silence before the first byte that
    the client does not sit out move it to the next candidate; a client error ends
    the request. A streamed request whose upstream breaks off or falls silent part
    way is not moved: it is served, the caller has every byte that was sent, and
    then one error frame, upstream_error for the break, upstream_stream_stalled
    for a silence longer than the budget, and the end marker. A buffered request,
    of which the caller has seen nothing yet, moves on in both cases. A body over
    the ceiling ends a buffered request with the ceiling's code. With nothing
    armed the completion is served, buffered with its usage, streamed byte for
    byte with nothing added. *)
Theorem faults_mean_what_they_say waits allowed now now' r s req f max latency :
  1 ≤ max < maxInt64 →
  decode_completion (mq_Body r) = Some req → is_Some (mk_models s !! cq_Model req) →
  permits allowed (cq_Model req) = true → (takeFault s (cq_Model req)).1 = f → fa_mode f ∈ fault_modes →
  (if stalling (fa_mode f) then waits (orDefault (fa_delay f) DefaultTimeoutDelay) = false
   else stall waits (fa_delay f) = true) →
  let a := (serveCompletion waits q allowed now now' r s).1 in
  let x := read_reply max (cq_Stream req) latency (seen gone dropped a) in
  meant max (cq_Stream req) (fa_mode f) (answer_body a) (judge x.1) x.2.
Proof.
  intros Hmax Hd Hk Hp Hf Hm Hw a. subst a. unfold serveCompletion. rewrite Hd. cbv zeta.
  rewrite bool_decide_eq_true_2, Hp by done. simpl negb. cbv iota.
  set (s1 := set_counts _ _ _). pose proof (same_fault s (mk_requests s1) (mk_keys s1) (cq_Model req)) as Hsame.
  change (set_counts s (mk_requests s1) (mk_keys s1)) with s1 in Hsame. rewrite Hf in Hsame.
  destruct (takeFault s1 (cq_Model req)) as [g s2]. cbn [fst] in *. subst g. clear Hf.
  unfold act_on, meant. generalize dependent (fa_mode f). intros mode Hm Hw.
  unfold fault_modes in Hm.
  repeat (apply elem_of_cons in Hm as [->|Hm]); [..|by apply not_elem_of_nil in Hm];
    decide_modes; cbn [stalling] in Hw; rewrite ?Hw; cbn [negb andb].
  - destruct (cq_Stream req).
    { split; [by eexists|]. split; [done|apply relays]. }
    intros Hfit. cbn [writeJSON answer_body seen] in *.
    rewrite AdapterFacts.judge_success, (proj2 (Z.ltb_ge _ _)) by (done || lia).
    eexists. split; [done|]. split; [done|]. apply envelope_usage.
  - by eexists.
  - done.
  - unfold timed_out. rewrite stall_default, Hw. simpl. by rewrite Hgone.
  - by eexists.
  - destruct (cq_Stream req).
    { split; [by eexists|]. split; [done|apply (relays _ true false)]. }
    intros Hfit. cbn [abortMidStream answer_body seen] in *.
    rewrite AdapterFacts.judge_success, (proj2 (Z.ltb_ge _ _)), Hdropped by (done || lia). done.
  - unfold stallMidStream in *. rewrite Hw in *. destruct (cq_Stream req).
    { split; [by eexists|]. split; [done|apply (relays _ true true)]. }
    intros Hfit. cbn [answer_body seen] in *.
    rewrite AdapterFacts.judge_success, (proj2 (Z.ltb_ge _ _)), Hgone by (done || lia). done.
  - destruct (cq_Stream req).
    { split; [by eexists|]. split; [done|apply relays]. }
    intros Hfit. cbn [oversizeCompletion writeJSON answer_body seen] in *.
    rewrite AdapterFacts.judge_success, (proj2 (Z.ltb_lt _ _)) by (done || lia). by eexists.
Qed.

(** A model the mock does not have ends the request, with the status it gave. *)
Theorem unknown_model_is_final waits allowed now now' r s req max latency :
  decode_completion (mq_Body r) = Some req →
  mk_models s !! cq_Model req = None ∨ permits allowed (cq_Model req) = false →
  let a := (serveCompletion waits q allowed now now' r s).1 in
  ∃ resp, judge (read_reply max false latency (seen gone dropped a)).1 = Fatal (clientError resp) ∧
    rs_StatusCode resp = 404.
Proof.
  intros Hd Hk a. subst a. unfold serveCompletion. rewrite Hd. cbv zeta. cbn [set_counts mk_models].
  assert (bool_decide (is_Some (mk_models s !! cq_Model req)) && permits allowed (cq_Model req) = false) as ->.
  { apply andb_false_iff. destruct Hk as [Hk|Hk]; [left|auto]. rewrite Hk. by apply bool_decide_eq_false_2; intros [? ?]. }
  by eexists.
Qed.
(** *** The catalogue the gateway reads *)

Context (Hfloats : ∀ f lit, float_literal f = Some lit → ParseFloat lit = Some f).
Context (json_error : string → error).

(** A model as the adapter lists it. *)
Definition gateway_model (m : MockModel) : Model :=
  let rate f := if feqb f fzero then fzero else f in
  {| m_ID := mm_ID m; m_Provider := ""; m_ContextWindow := mm_ContextWindow m;
     m_MaxOutputTokens := mm_MaxOutputTokens m; m_Capabilities := inferCapabilities (mm_ID m);
     m_InputCostPerMTok := rate (mm_InputCostPerMTok m); m_OutputCostPerMTok := rate (mm_OutputCostPerMTok m);
     m_Deprecated := false |}.

(** A model that can be written down. *)
Definition writable (m : MockModel) : Prop :=
  mm_ID m ≠ "" ∧ in_int64 (mm_ContextWindow m) ∧ in_int64 (mm_MaxOutputTokens m) ∧ is_Some (model_json m).

Definition listed_of (m : MockModel) : listed :=
  {| ls_ID := mm_ID m; ls_OwnedBy := mm_OwnedBy m; ls_ContextWindow := mm_ContextWindow m; ls_ContextLength := 0;
     ls_MaxOutputTokens := mm_MaxOutputTokens m; ls_InputCost := m_InputCostPerMTok (gateway_model m);
     ls_OutputCost := m_OutputCostPerMTok (gateway_model m) |}.

Lemma decode_written m j : writable m → model_json m = Some j → decode_listed j = (listed_of m, true).
Proof.
  intros (_ & Hw & Ho & _) Hj. unfold model_json in Hj. unfold listed_of, gateway_model. cbn [m_InputCostPerMTok m_OutputCostPerMTok].
  destruct (feqb (mm_InputCostPerMTok m) fzero);
    [|destruct (float_literal (mm_InputCostPerMTok m)) as [inp|] eqn:Ei; [apply Hfloats in Ei|done]];
    (destruct (feqb (mm_OutputCostPerMTok m) fzero);
      [|destruct (float_literal (mm_OutputCostPerMTok m)) as [out|] eqn:Eo; [apply Hfloats in Eo|done]]);
    injection Hj as <-; unfold decode_listed; cbn [foldl app]; unfold listed_field, decode_int; cbn;
    rewrite ?Atoi_Itoa by done; cbn; unfold decode_float; rewrite ?Ei, ?Eo; done.
Qed.

Lemma decode_all_written ms js : Forall writable ms → mapM model_json ms = Some js →
  decode_listed <$> js = (λ m, (listed_of m, true)) <$> ms.
Proof.
  intros Hw Hj. apply mapM_Some_1 in Hj. revert Hw. induction Hj as [|m j ms js Hmj Hj IH]; intros Hw; [done|].
  apply Forall_cons in Hw as [Hm Hw]. rewrite !fmap_cons, (decode_written m j Hm Hmj), IH by done. done.
Qed.

(** The gateway's catalog is what the mock publishes: listing the mock through
    the adapter gives its models, in their order, each with its id, its windows
    and its prices. *)
Theorem gateway_reads_the_catalogue waits allowed s max :
  mk_faults s !! ListingTarget = None → Forall writable (shown s allowed) →
  let a := (serveModels waits allowed s).1 in
  Z.of_nat (String.length (answer_body a)) < max →
  read_listing json_error max (seen gone dropped a) = Ok (gateway_model <$> shown s allowed).
Proof.
  intros Hn Hw a. subst a. unfold serveModels, takeFaultExact, takeLocked. cbn [set_listings mk_faults]. rewrite Hn.
  change (shown (set_listings s (mk_listings s + 1)) allowed) with (shown s allowed). cbn [fa_mode no_fault].
  rewrite bool_decide_eq_true_2 by done. cbn [fst].
  destruct (mapM model_json (shown s allowed)) as [js|] eqn:Ej.
  2:{ exfalso. apply mapM_None_1 in Ej. apply Exists_exists in Ej as (m & Hin & E).
      rewrite Forall_forall in Hw. destruct (Hw m Hin) as (_ & _ & _ & [? ?]). congruence. }
  cbn [mbind option_bind writeJSON answer_body seen]. intros Hlen. unfold read_listing.
  rewrite ReadAll_short by done. cbn [Z.eqb negb Pos.eqb]. unfold modelsResponse.
  rewrite (Unmarshal_newline _ (object [("object", JStr "list"); ("data", JArr js)])) by apply Unmarshal_Marshal_map.
  assert (object [("object", JStr "list"); ("data", JArr js)] = JObj [("data", JArr js); ("object", JStr "list")]) as ->.
  { clear. generalize (JArr js). intros x. by vm_compute. }
  cbn [foldl]. unfold models_field. cbn. rewrite (decode_all_written _ _ Hw Ej), (proj2 (forallb_forall _ _)).
  2:{ intros x (m & -> & _)%list_elem_of_In%list_elem_of_fmap. done. }
  f_equal. rewrite <-list_fmap_compose. clear - Hw. induction Hw as [|m ms (Hid & _) Hw IH]; [done|].
  rewrite fmap_cons. cbn [List.filter compose listed_of ls_ID fst]. rewrite bool_decide_eq_false_2 by done. cbn [negb].
  rewrite !fmap_cons, IH. f_equal. unfold model_of, gateway_model, listed_of. cbn. f_equal.
  by destruct (Z.eqb_spec (mm_ContextWindow m) 0) as [->|].
Qed.
End against.
(** *** Witnesses *)

#[local] Existing Instance ascii_only.

(** A codec that reads up to the end of a line. *)
Fixpoint of_line (s : string) : positive :=
  match s with
  | "" => xH
  | String c s =>
      if decide (c = "0"%char) then xO (of_line s) else if decide (c = "1"%char) then xI (of_line s) else xH
  end.
Lemma of_line_bits p : of_line (bits p) = p.
Proof. induction p as [p IH|p IH|]; simpl; [by rewrite IH..|done]. Qed.
Lemma of_line_newline s : of_line (s +:+ newline) = of_line s.
Proof. induction s as [|c s IH]; [done|]. simpl. by rewrite <-IH. Qed.

#[local] Instance line_codec : JsonCodec.
Proof.
  refine {| Unmarshal s := decode (of_line s); Marshal j := bits (encode j) |}.
  intros m. by rewrite of_line_bits, decode_encode.
Defined.
#[local] Instance line_stream : JsonStream := {| Decode := Unmarshal; Decode_Unmarshal _ _ E := E |}.
#[local] Instance line_lines : JsonLines.
Proof. split. intros s j. simpl. by rewrite of_line_newline. Qed.

(** Prices of one dollar are all this encoder writes. *)
#[local] Instance dollar : JsonNumbers :=
  {| float_literal f := match f with
       | S754_finite false m e =>
           if bool_decide (m = 4503599627370496%positive) && bool_decide (e = -52) then Some "1" else None
       | _ => None end |}.
Lemma dollar_reads f lit : float_literal f = Some lit → ParseFloat lit = Some f.
Proof.
  destruct f as [| | |[] m e]; try done. simpl. case_bool_decide; [|done]. case_bool_decide; [|done]. subst.
  intros [= <-]. by vm_compute.
Qed.

Definition quoted (s : string) : string := s.
Definition call_mock (rt : mock_route) (body : json) : mock_call :=
  {| mc_route := rt; mc_req := {| mq_Header _ := ""; mq_Body := Marshal body |}; mc_waits _ := false; mc_now := 0; mc_now' := 0 |}.
Definition chat_a : mock_call := call_mock MChat (JObj [("model", JStr "mock-chat-a")]).
Definition chat_b : mock_call := call_mock MChat (JObj [("model", JStr "mock-chat-b")]).
Definition arm (model mode : string) (count : string) : mock_call :=
  call_mock MSetFault (JObj [("model", JStr model); ("mode", JStr mode); ("count", JNum count)]).

Definition armed_mock : Mock := (mock_serve quoted (arm "mock-chat-a" FaultRateLimit "2") MockNew).2.

Lemma chat_b_elsewhere : ¬ concerns "mock-chat-a" chat_b ∧ ¬ concerns "mock-chat-a" (arm "mock-chat-b" FaultTimeout "0").
Proof.
  split; intros [E|[(r & E & Er)|[(x & E & Ex)|[E|E]]]]; vm_compute in E; try discriminate E.
  injection E as <-. by vm_compute in Er.
Qed.

Lemma suites_do_not_meet_witness :
  says "mock-chat-a" (mock_run quoted armed_mock [arm "mock-chat-b" FaultTimeout "0"; chat_b]) = says "mock-chat-a" armed_mock.
Proof.
  destruct chat_b_elsewhere.
  apply (suites_do_not_meet quoted "mock-chat-a" armed_mock [arm "mock-chat-b" FaultTimeout "0"; chat_b]); try done.
  by repeat constructor.
Defined.

Lemma counted_fault_runs_out_witness :
  mk_faults (mock_run quoted armed_mock [chat_a; chat_b; chat_a; chat_a]) !! "mock-chat-a" = None.
Proof.
  destruct (mk_faults armed_mock !! "mock-chat-a") as [f|] eqn:Ef; [|by vm_compute in Ef].
  assert (fa_remaining f = 2) as Hr by (vm_compute in Ef; by injection Ef as <-).
  destruct (counted_fault_runs_out quoted "mock-chat-a" f armed_mock [chat_a; chat_b; chat_a; chat_a]) as [E _];
    [done|done| |done|by rewrite Hr|].
  - repeat constructor; try done; intros r E; by vm_compute in E.
  - rewrite E. unfold left_of. rewrite Hr. by vm_compute.
Defined.

Lemma listing_shows_the_models_witness :
  NoDup (mm_ID <$> shown (mock_run quoted MockNew [call_mock MAddModel (JObj [("id", JStr "mine")]); chat_a]) (only "mine,mock-embed")) ∧
  length (shown (mock_run quoted MockNew [call_mock MAddModel (JObj [("id", JStr "mine")]); chat_a]) (only "mine,mock-embed")) = 2%nat.
Proof.
  split; [|by vm_compute]. apply (listing_shows_the_models quoted); repeat constructor; by intros id.
Defined.

Definition embed : MockModel := nth 3 SeedModels no_model.

Lemma readded_model_is_listed_twice_witness :
  ∃ before, shown (add_model embed (controlRemoveModel (mm_ID embed) MockNew).2) None = before ++ [embed] ∧ embed ∈ before.
Proof. apply (readded_model_is_listed_twice quoted [] embed). by apply (bool_decide_unpack (is_Some _)). Defined.

Definition post (sink body : string) : mock_call :=
  {| mc_route := MReceiveEvent sink; mc_req := {| mq_Header _ := ""; mq_Body := body |}; mc_waits _ := true;
     mc_now := 0; mc_now' := 0 |}.
Definition rejecting : Mock :=
  (mock_serve quoted (call_mock (MSetSinkFault "a") (JObj [("status", JNum "503"); ("count", JNum "2")])) MockNew).2.

Lemma sink_rejects_then_accepts_witness :
  statuses "a" (mock_run quoted rejecting [post "a" ""; post "b" ""; post "a" ""; chat_a; post "a" ""]) = [503; 503; 204].
Proof.
  destruct (sink_rejects_then_accepts quoted "a" 503 1 rejecting [post "a" ""; post "b" ""; post "a" ""; chat_a; post "a" ""])
    as [E _]; [by repeat constructor|by vm_compute|]. rewrite E. by vm_compute.
Defined.

Lemma unparsable_delivery_hides_the_sink_witness :
  ∃ header, controlEvents "a" (mock_run quoted MockNew [post "a" (Marshal JNull); post "a" "00"]) = Answered 200 header "" Ended.
Proof.
  destruct (mk_events (mock_run quoted MockNew [post "a" (Marshal JNull); post "a" "00"]) !! "a") as [[|d0 [|d [|]]]|] eqn:E;
    try (by vm_compute in E).
  apply (unparsable_delivery_hides_the_sink "a" _ d).
  - rewrite E. right. by left.
  - vm_compute in E. injection E as _ <-. by vm_compute.
Defined.

(** A stream from a model armed to break off. *)
Definition stream_a : mock_call := call_mock MChat (JObj [("model", JStr "mock-chat-a"); ("stream", JBool true)]).
Definition breaking_mock : Mock := (mock_serve quoted (arm "mock-chat-a" FaultStreamAbort "2") MockNew).2.

Lemma faults_mean_what_they_say_witness :
  let a := (serveCompletion (λ _, false) quoted None 0 0 (mc_req chat_a) armed_mock).1 in
  let b := (serveCompletion (λ _, false) quoted None 0 0 (mc_req stream_a) breaking_mock).1 in
  (∃ resp, judge (read_reply 1000 false 0 (seen ErrNotFound ErrConflict a)).1 = NextKey resp) ∧
  (∃ resp, judge (read_reply 1000 true 0 (seen ErrNotFound ErrConflict b)).1 = Serve resp) ∧
  relayed (answer_body b) true false (writeStreamError truncated_message CodeUpstreamError) ∧
  carries (answer_body b) true [{| rd_at := 1; rd_line := answer_body b; rd_err := None |};
                                {| rd_at := 2; rd_line := ""; rd_err := Some (RBroken (text "reset")) |}].
Proof.
  split.
  - destruct (decode_completion (mq_Body (mc_req chat_a))) as [req|] eqn:Er; [|by vm_compute in Er].
    assert (cq_Model req = "mock-chat-a" ∧ cq_Stream req = false) as [Em Es] by (vm_compute in Er; by injection Er as <-).
    assert (fa_mode (takeFault armed_mock "mock-chat-a").1 = FaultRateLimit) as Ef by (by vm_compute).
    pose proof (faults_mean_what_they_say quoted ErrNotFound ErrConflict eq_refl eq_refl (λ _, false) None 0 0
      (mc_req chat_a) armed_mock req (takeFault armed_mock "mock-chat-a").1 1000 0) as Hm. cbv zeta in Hm.
    rewrite Em, Es, Ef in Hm.
    destruct Hm as (resp & E & _); [by vm_compute|exact Er|by apply (bool_decide_unpack (is_Some _))|done|done| |
      by vm_compute|by exists resp].
    by apply (bool_decide_unpack (FaultRateLimit ∈ fault_modes)).
  - destruct (decode_completion (mq_Body (mc_req stream_a))) as [req|] eqn:Er; [|by vm_compute in Er].
    assert (cq_Model req = "mock-chat-a" ∧ cq_Stream req = true) as [Em Es] by (vm_compute in Er; by injection Er as <-).
    assert (fa_mode (takeFault breaking_mock "mock-chat-a").1 = FaultStreamAbort) as Ef by (by vm_compute).
    pose proof (faults_mean_what_they_say quoted ErrNotFound ErrConflict eq_refl eq_refl (λ _, false) None 0 0
      (mc_req stream_a) breaking_mock req (takeFault breaking_mock "mock-chat-a").1 1000 0) as Hm. cbv zeta in Hm.
    rewrite Em, Es, Ef in Hm.
    destruct Hm as (Hs & _ & Hr); [by vm_compute|exact Er|by apply (bool_decide_unpack (is_Some _))|done|done| |
      by vm_compute|split; [exact Hs|split; [exact Hr|]]].
    { by apply (bool_decide_unpack (FaultStreamAbort ∈ fault_modes)). }
    set (b := answer_body _). exists [{| rd_at := 1; rd_line := b; rd_err := None |}],
      {| rd_at := 2; rd_line := ""; rd_err := Some (RBroken (text "reset")) |}.
    split; [reflexivity|]. split; [|split; [vm_compute; reflexivity|by eexists]].
    constructor; [|constructor]. split; [reflexivity|]. intros E. vm_compute in E. discriminate E.
Defined.

Lemma unknown_model_is_final_witness :
  let a := (serveCompletion (λ _, true) quoted (only "mock-embed") 0 0 (mc_req chat_a) MockNew).1 in
  ∃ resp, judge (read_reply 1000 false 0 (seen ErrNotFound ErrConflict a)).1 = Fatal (clientError resp) ∧ rs_StatusCode resp = 404.
Proof.
  destruct (decode_completion (mq_Body (mc_req chat_a))) as [req|] eqn:Er; [|by vm_compute in Er].
  apply (unknown_model_is_final quoted ErrNotFound ErrConflict (λ _, true) (only "mock-embed") 0 0 (mc_req chat_a) MockNew req 1000 0);
    [done|]. right. vm_compute in Er. injection Er as <-. by vm_compute.
Defined.

Lemma gateway_reads_the_catalogue_witness :
  ∃ ms, read_listing AdapterFacts.bad_document 4000
      (seen ErrNotFound ErrConflict (serveModels (λ _, true) (only "mock-transcribe") MockNew).1) = Ok ms ∧
    m_ID <$> ms = ["mock-transcribe"].
Proof.
  exists (gateway_model <$> shown MockNew (only "mock-transcribe")). split; [|by vm_compute].
  apply (gateway_reads_the_catalogue ErrNotFound ErrConflict).
  - apply dollar_reads.
  - done.
  - assert (shown MockNew (only "mock-transcribe") = [nth 4 SeedModels no_model]) as -> by (by vm_compute).
    repeat constructor; try done; by eexists.
  - by vm_compute.
Defined.
End MockFacts.
