(* ===== verification/Metrics.v ===== *)
(** * The Prometheus series (internal/obs/metrics.go)

    The series the gateway declares, every place it writes one, and the catalog
    age read at scrape time. The client library is an interface: the class
    [Prometheus] has the operations the code calls and [PrometheusLaws] what the
    library documents of them. A write is [None] where the library panics: a
    wrong number of label values, a value that is not UTF-8, a counter asked to
    go down. The Go and process collectors and the exposition format belong to
    the library. *)

From S2P Require Import Prelude GoStrings GoTime GoFloat GoFormat ApiErr StoreTypes Json Memory Provider Breaker Catalog Resolve Dispatch DispatchFacts Config Quota Server Chat ChatProps.
From Stdlib Require Import Ascii.
From stdpp Require Import pretty.

#[local] Open Scope Z_scope.
#[local] Open Scope stdpp_scope.

(** ** Series *)

Inductive vec_kind := CounterVec | GaugeVec | HistogramVec (buckets : list f64).

Record vec := { vc_Name : string; vc_Labels : list string; vc_Kind : vec_kind }.

#[export] Instance vec_kind_eq_dec : EqDecision vec_kind.
Proof. solve_decision. Defined.
#[export] Instance vec_eq_dec : EqDecision vec.
Proof. solve_decision. Defined.

(** A decimal constant [n / d]. *)
Definition dec (n d : Z) : f64 := fdiv (f_of_Z n) (f_of_Z d).

Definition Requests : vec :=
  {| vc_Name := "cognigate_requests_total"; vc_Kind := CounterVec;
     vc_Labels := ["tenant"; "provider"; "model"; "route"; "code"] |}.
Definition RequestDuration : vec :=
  {| vc_Name := "cognigate_request_duration_seconds"; vc_Labels := ["tenant"; "provider"; "route"];
     vc_Kind := HistogramVec [dec 5 1000; dec 25 1000; dec 1 10; dec 25 100; dec 5 10; f_of_Z 1; dec 25 10; f_of_Z 5;
                              f_of_Z 10; f_of_Z 30; f_of_Z 60; f_of_Z 120] |}.
Definition UpstreamDuration : vec :=
  {| vc_Name := "cognigate_upstream_duration_seconds"; vc_Labels := ["provider"; "model"];
     vc_Kind := HistogramVec [dec 1 100; dec 5 100; dec 25 100; dec 5 10; f_of_Z 1; dec 25 10; f_of_Z 5; f_of_Z 10;
                              f_of_Z 30; f_of_Z 60; f_of_Z 120] |}.
Definition Tokens : vec :=
  {| vc_Name := "cognigate_tokens_total"; vc_Kind := CounterVec;
     vc_Labels := ["tenant"; "provider"; "model"; "direction"] |}.
Definition Cost : vec :=
  {| vc_Name := "cognigate_cost_usd_total"; vc_Kind := CounterVec; vc_Labels := ["tenant"; "provider"; "model"] |}.
Definition FallbackCascades : vec :=
  {| vc_Name := "cognigate_fallback_cascades_total"; vc_Kind := CounterVec;
     vc_Labels := ["tenant"; "from_model"; "to_model"; "reason"] |}.
Definition BreakerState : vec :=
  {| vc_Name := "cognigate_breaker_state"; vc_Kind := GaugeVec; vc_Labels := ["tenant"; "provider"; "model"] |}.
Definition QuotaStateVec : vec :=
  {| vc_Name := "cognigate_quota_state"; vc_Kind := GaugeVec; vc_Labels := ["tenant"; "window"; "unit"] |}.
Definition TelemetryDropped : vec :=
  {| vc_Name := "cognigate_telemetry_dropped_total"; vc_Kind := CounterVec; vc_Labels := [] |}.
Definition catalogAgeDesc : vec :=
  {| vc_Name := "cognigate_catalog_age_seconds"; vc_Kind := GaugeVec; vc_Labels := ["tenant"; "provider"] |}.

(** What [NewMetrics] registers. *)
Definition series : list vec :=
  [Requests; RequestDuration; UpstreamDuration; Tokens; Cost; FallbackCascades; BreakerState; QuotaStateVec;
   TelemetryDropped; catalogAgeDesc].

Definition TokenKindPrompt : string := "prompt".
Definition TokenKindCompletion : string := "completion".

(** ** The client library *)

(** One update: [Add] on a counter, [Set] on a gauge, [Observe] on a histogram. *)
Record write := { wr_vec : vec; wr_labels : list string; wr_value : f64 }.

Definition code (c : ascii) : Z := Z.of_nat (nat_of_ascii c).
Definition within (lo hi : Z) (c : ascii) : bool := (lo <=? code c) && (code c <=? hi).
Definition continues : ascii → bool := within 128 191.

(** [utf8.ValidString] *)
Fixpoint ValidString (s : string) : bool :=
  match s with
  | "" => true
  | String a s1 =>
      if within 0 127 a then ValidString s1
      else match s1 with
           | "" => false
           | String b s2 =>
               if within 194 223 a then continues b && ValidString s2
               else match s2 with
                    | "" => false
                    | String c s3 =>
                        if within 224 239 a
                        then within (if code a =? 224 then 160 else 128) (if code a =? 237 then 159 else 191) b
                             && continues c && ValidString s3
                        else match s3 with
                             | "" => false
                             | String d s4 =>
                                 within 240 244 a
                                 && within (if code a =? 240 then 144 else 128) (if code a =? 244 then 143 else 191) b
                                 && continues c && continues d && ValidString s4
                             end
                    end
           end
  end.

(** The characters of a metric's or a label's name. *)
Definition name_start (c : ascii) : bool := within 65 90 c || within 97 122 c || (code c =? 95).
Definition name_char (c : ascii) : bool := name_start c || within 48 57 c.
Definition valid_name (s : string) : bool :=
  match s with
  | "" => false
  | String c s' => name_start c && forallb name_char (String.list_ascii_of_string s')
  end.
Definition valid_label (s : string) : bool :=
  valid_name s && negb (HasPrefix s "__") && negb (bool_decide (s = "le")).

(** A series the library accepts: legal names, no label twice. *)
Definition valid_vec (v : vec) : bool :=
  valid_name (vc_Name v) && forallb valid_label (vc_Labels v) && bool_decide (NoDup (vc_Labels v)).

(** A write that panics on a series the library knows: too few or too many
    label values, or a counter asked to go down. *)
Definition refused (w : write) : bool :=
  negb (bool_decide (length (wr_labels w) = length (vc_Labels (wr_vec w))))
  || bool_decide (vc_Kind (wr_vec w) = CounterVec) && fltb (wr_value w) fzero.

Class Prometheus (R : Type) := {
  pm_MustRegister : list vec → option R;
  pm_registered : R → vec → bool;
  pm_write : write → R → option R;
  pm_gauge : R → string → list string → option f64
}.

Class PrometheusLaws (R : Type) `{!Prometheus R} := {
  register_fresh (vs : list vec) :
    NoDup (vc_Name <$> vs) → forallb valid_vec vs = true →
    ∃ r, pm_MustRegister vs = Some r ∧ ∀ v, v ∈ vs → pm_registered r v = true;
  write_accepted (r : R) w :
    pm_registered r (wr_vec w) = true → refused w = false → forallb ValidString (wr_labels w) = true →
    is_Some (pm_write w r);
  write_refused (r : R) w :
    pm_registered r (wr_vec w) = true → refused w = true → pm_write w r = None;
  write_keeps (r r' : R) w v : pm_write w r = Some r' → pm_registered r' v = pm_registered r v;
  set_reads (r r' : R) w :
    pm_write w r = Some r' → vc_Kind (wr_vec w) = GaugeVec →
    pm_gauge r' (vc_Name (wr_vec w)) (wr_labels w) = Some (wr_value w);
  set_local (r r' : R) w name labels :
    pm_write w r = Some r' → (vc_Name (wr_vec w), wr_labels w) ≠ (name, labels) →
    pm_gauge r' name labels = pm_gauge r name labels
}.

(** ** Where the gateway writes *)

Definition inc (v : vec) (labels : list string) : write :=
  {| wr_vec := v; wr_labels := labels; wr_value := f_of_Z 1 |}.
Definition put (v : vec) (labels : list string) (x : f64) : write :=
  {| wr_vec := v; wr_labels := labels; wr_value := x |}.

(** [observe]'s two; [route] as it stands after the default. *)
Definition observe_writes (tenant : string) (out : Outcome) (route : string) (status elapsed : Z) : list write :=
  [inc Requests [tenant; ou_Provider out; ou_Model out; route; Itoa status];
   put RequestDuration [tenant; ou_Provider out; route] (Seconds elapsed)].

(** [meterCascade]'s, one for each hop *)
Definition cascade_writes (hops : list hop) : list write :=
  (λ h : hop, let '(tenant, from, to, reason) := h in inc FallbackCascades [tenant; from; to; reason]) <$> hops.

Definition token_writes (tenantID : string) (cand : Candidate) (usage : option Usage) : list write :=
  match usage with
  | Some u => [put Tokens [tenantID; cd_Provider cand; cd_Model cand; TokenKindPrompt] (f_of_Z (us_PromptTokens u));
               put Tokens [tenantID; cd_Provider cand; cd_Model cand; TokenKindCompletion]
                 (f_of_Z (us_CompletionTokens u))]
  | None => []
  end.

(** [record]'s *)
Definition record_writes (tenantID : string) (result : Result) (usage : option Usage) : list write :=
  let cand := res_Candidate result in
  let cost := CostUSD cand usage in
  put UpstreamDuration [cd_Provider cand; cd_Model cand] (Seconds (rs_Latency (res_Response result)))
  :: token_writes tenantID cand usage
  ++ (if fltb fzero cost then [put Cost [tenantID; cd_Provider cand; cd_Model cand] cost] else [])
  ++ cascade_writes (meterCascade tenantID result).

(** [computeQuota]'s, one for each slot *)
Definition quota_writes (tenantID : string) (slots : list slotPosition) : list write :=
  (λ p, put QuotaStateVec [tenantID; sp_window p; sp_unit p] (f_of_Z (quotaGauge (sp_state p)))) <$> slots.

(** [breakerObservers]' *)
Definition breaker_writes (key : string) (to : State) : list write :=
  let '(tenantID, providerName, model) := SplitKey key in
  [put BreakerState [tenantID; providerName; model] (f_of_Z (Gauge to))].

(** [Telemetry.Record]'s and [Telemetry.lost]'s *)
Definition dropped_writes (n : Z) : list write := [put TelemetryDropped [] (f_of_Z n)].

(** ** The catalog's age *)

Record CatalogAgeSample := { cs_Tenant : string; cs_Provider : string; cs_Seconds : f64 }.

(** The registry, and the function the age gauge reads; [W] is what that
    function closes over. *)
Record Metrics (R W : Type) := mkMetrics { mt_registry : R; mt_source : option (W → list CatalogAgeSample) }.
Arguments mkMetrics {R W}.
Arguments mt_registry {R W}.
Arguments mt_source {R W}.

Section metrics.
Context {R W : Type} `{Prometheus R}.

(** [None] is the panic of [MustRegister]. *)
Definition NewMetrics : option (Metrics R W) :=
  r ← pm_MustRegister series; Some (mkMetrics r None).

Definition SetCatalogAgeSource (m : option (Metrics R W)) (fn : W → list CatalogAgeSample) : option (Metrics R W) :=
  m ← m; Some (mkMetrics (mt_registry m) (Some fn)).

(** [catalogAgeCollector.Collect]: a constant metric for each sample. *)
Definition Collect (m : Metrics R W) (w : W) : list write :=
  match mt_source m with
  | None => []
  | Some source => (λ s, put catalogAgeDesc [cs_Tenant s; cs_Provider s] (cs_Seconds s)) <$> source w
  end.

(** Writes in order; the first that panics ends them. *)
Definition write_all (ws : list write) (r : R) : option R :=
  foldl (λ r w, r ← r; pm_write w r) (Some r) ws.
End metrics.

(** The source [build] installs: the live catalog, at the time of the scrape. *)
Definition catalog_source (w : Catalog * Z) : list CatalogAgeSample :=
  (λ age, {| cs_Tenant := ca_TenantID age; cs_Provider := ca_Provider age; cs_Seconds := Seconds (ca_Age age) |})
    <$> Ages w.1 w.2.

(** ** Theorems *)

Module MetricsFacts.

(** The series are legal and their names distinct. *)
Lemma series_fresh : NoDup (vc_Name <$> series) ∧ forallb valid_vec series = true.
Proof. split; [apply (bool_decide_unpack _); by vm_compute|by vm_compute]. Qed.

(** A write to a series of the gateway with as many values as it has labels. *)
Definition fits (w : write) : Prop :=
  wr_vec w ∈ series ∧ length (wr_labels w) = length (vc_Labels (wr_vec w)).

Lemma refused_fits w : fits w →
  refused w = bool_decide (vc_Kind (wr_vec w) = CounterVec) && fltb (wr_value w) fzero.
Proof. intros [_ E]. unfold refused. by rewrite bool_decide_eq_true_2. Qed.

Ltac fit := split; [apply (bool_decide_unpack _); by vm_compute|done].

Lemma observe_fits tenant out route status elapsed : Forall fits (observe_writes tenant out route status elapsed).
Proof. repeat constructor; try done; fit. Qed.

Lemma cascade_fits hops : Forall fits (cascade_writes hops).
Proof. apply Forall_fmap, Forall_forall. intros [[[t f] to] why] _. fit. Qed.

Lemma record_fits t result usage : Forall fits (record_writes t result usage).
Proof.
  unfold record_writes. constructor; [fit|]. rewrite !Forall_app. split_and!; [| |apply cascade_fits].
  - destruct usage; repeat constructor; fit.
  - destruct (fltb _ _); repeat constructor; fit.
Qed.

Lemma quota_fits t slots : Forall fits (quota_writes t slots).
Proof. apply Forall_fmap, Forall_forall. intros p _. fit. Qed.

Lemma breaker_fits key to : Forall fits (breaker_writes key to).
Proof. unfold breaker_writes. destruct (SplitKey key) as [[? ?] ?]. repeat constructor; fit. Qed.

Section props.
Context {R : Type} `{PrometheusLaws R}.

(** Every series of the gateway is registered. *)
Definition ready (r : R) : Prop := ∀ v, v ∈ series → pm_registered r v = true.

Lemma write_all_cons w ws (r : R) : write_all (w :: ws) r = r ← pm_write w r; write_all ws r.
Proof.
  unfold write_all. cbn [foldl mbind option_bind]. destruct (pm_write w r) as [r'|]; [done|]. cbn.
  induction ws; done.
Qed.

Lemma write_ready w (r r' : R) : ready r → pm_write w r = Some r' → ready r'.
Proof. intros Hr E v Hv. rewrite (write_keeps r r' w v E). by apply Hr. Qed.

Lemma write_all_ready ws (r r' : R) : ready r → write_all ws r = Some r' → ready r'.
Proof.
  revert r. induction ws as [|w ws IH]; intros r Hr; [by intros [= <-]|].
  rewrite write_all_cons. destruct (pm_write w r) as [r1|] eqn:E; [|done]. apply IH. by eapply write_ready.
Qed.

(** The outcome of a run of fitting, legible writes is decided by their values. *)
Lemma write_all_outcome ws (r : R) :
  ready r → Forall fits ws → Forall (λ w, forallb ValidString (wr_labels w) = true) ws →
  is_Some (write_all ws r) ↔ Forall (λ w, refused w = false) ws.
Proof.
  intros Hr Hf Hv. revert r Hr. induction Hf as [|w ws Hw Hf IH]; intros r Hr.
  { by split. }
  apply Forall_cons in Hv as [Hw' Hv]. rewrite write_all_cons, Forall_cons.
  destruct (refused w) eqn:E.
  - rewrite (write_refused r w (Hr _ (proj1 Hw)) E). split; [intros [? ?]; done|intros [? ?]; done].
  - destruct (write_accepted r w (Hr _ (proj1 Hw)) E Hw') as [r1 E1]. rewrite E1. cbn.
    rewrite (IH Hv r1) by by eapply write_ready. naive_solver.
Qed.

(** *** No write panics but a negative count *)

(** The strings a served request labels its series with are UTF-8. *)
Definition legible_result (tenantID : string) (result : Result) : Prop :=
  Forall (λ s, ValidString s = true)
    (tenantID :: cd_Provider (res_Candidate result) :: cd_Model (res_Candidate result)
     :: ((λ a, cd_Model (at_Candidate a)) <$> res_Attempts result)).

Definition legible (ws : list write) : Prop := Forall (λ w, forallb ValidString (wr_labels w) = true) ws.

Lemma reason_valid a : ValidString (cascadeReason a) = true.
Proof. unfold cascadeReason. destruct (at_Skipped a); [done|]. by destruct (at_Failure a). Qed.

Lemma hops_legible t attempts : ValidString t = true →
  Forall (λ a, ValidString (cd_Model (at_Candidate a)) = true) attempts → legible (cascade_writes (hops_between t attempts)).
Proof.
  intros Ht Ha. induction Ha as [|a attempts Hm Ha IH]; [constructor|].
  destruct attempts as [|b attempts]; [constructor|]. constructor; [|exact IH].
  apply Forall_cons in Ha as [Hb _]. cbn [wr_labels inc forallb]. by rewrite Ht, Hm, Hb, reason_valid.
Qed.

Lemma record_legible t result usage : legible_result t result → legible (record_writes t result usage).
Proof.
  unfold legible_result. rewrite !Forall_cons, Forall_fmap. intros (Ht & Hp & Hm & Ha).
  unfold legible, record_writes. rewrite Forall_cons, !Forall_app. split_and!.
  - cbn [wr_labels put forallb]. by rewrite Hp, Hm.
  - destruct usage; repeat constructor; cbn [wr_labels put forallb]; by rewrite Ht, Hp, Hm.
  - destruct (fltb _ _); repeat constructor; cbn [wr_labels put forallb]; by rewrite Ht, Hp, Hm.
  - unfold meterCascade. destruct (_ || _); [constructor|]. by apply hops_legible.
Qed.

Lemma positive_cost x : fltb fzero x = true → fltb x fzero = false.
Proof. by destruct x as [[]|[]| |[] m e]. Qed.

Lemma token_refused a b c d n : refused (put Tokens [a; b; c; d] (f_of_Z n)) = (n <? 0).
Proof. unfold refused. cbn [wr_value put]. by rewrite f_of_Z_neg. Qed.

(** The values of [record]'s writes are refused exactly when a count is negative. *)
Lemma record_refused t result usage :
  Forall (λ w, refused w = false) (record_writes t result usage) ↔ countable usage = true.
Proof.
  assert (Forall (λ w, refused w = false) (cascade_writes (meterCascade t result))) as Hc.
  { apply Forall_fmap, Forall_forall. intros [[[? ?] ?] ?] _. by vm_compute. }
  assert (∀ x, Forall (λ w, refused w = false)
    (if fltb fzero x then [put Cost [t; cd_Provider (res_Candidate result); cd_Model (res_Candidate result)] x] else []))
    as Hx.
  { intros x. destruct (fltb fzero x) eqn:E; repeat constructor. unfold refused. cbn [wr_value wr_vec put].
    by rewrite (positive_cost x E), andb_false_r. }
  unfold record_writes. rewrite Forall_cons, !Forall_app.
  split; [intros (_ & Hu & _)|intros Hu; split_and!; try done].
  - unfold countable. destruct usage as [u|]; [|done]. cbn [token_writes] in Hu.
    apply Forall_cons in Hu as [H1 Hu]. apply Forall_cons in Hu as [H2 _].
    rewrite token_refused in H1, H2. apply andb_true_iff. lia.
  - unfold countable in Hu. destruct usage as [u|]; [|constructor]. apply andb_true_iff in Hu as [H1 H2].
    repeat constructor; rewrite token_refused; lia.
Qed.

(** C40: [record] of the chat handler is faithful to its metric writes: on a registry
    that has the gateway's series it panics exactly when one of the writes does,
    which is when a token count is negative; otherwise all of them land. *)
Theorem record_panics_with_its_metrics {A} (r : R) telemetry i result requested usage streamed status elapsed now
    (c : chatCtx A) :
  ready r → legible_result (id_tenant i) result →
  (write_all (record_writes (id_tenant i) result usage) r = None ↔
   record true telemetry i result requested usage streamed status elapsed now c = None) ∧
  ∀ r', write_all (record_writes (id_tenant i) result usage) r = Some r' → ready r'.
Proof.
  intros Hr Hl. split; [|by intros r' E; eapply write_all_ready].
  rewrite !eq_None_not_Some, write_all_outcome by (done || apply record_fits || by apply record_legible).
  rewrite record_refused. unfold record. destruct (countable usage); simpl; [|split; intros _; naive_solver].
  split; intros Hn; exfalso; apply Hn; by eexists.
Qed.

Lemma digits_valid x s : ValidString s = true → ValidString (pretty_N_go x s) = true.
Proof.
  revert s. induction (N.lt_wf_0 x) as [x _ IH]; intros s Hs.
  destruct (decide (0 < x)%N) as [Hx|Hx]; [|by replace x with 0%N by lia; rewrite pretty_N_go_0].
  rewrite pretty_N_go_step by done. apply IH; [apply N.div_lt; lia|].
  unfold pretty_N_char. by repeat case_match.
Qed.

Lemma Itoa_valid n : ValidString (Itoa n) = true.
Proof.
  assert (∀ x, ValidString (pretty_N x) = true) as Hp.
  { intros x. unfold pretty_N. case_decide; [done|]. by apply digits_valid. }
  unfold Itoa. destruct n as [|p|p]; [done|apply (Hp (N.pos p))|]. cbn. apply Hp.
Qed.

(** Nothing else the gateway counts can panic: not the request line, whatever
    the status and the duration, nor a transition of the breaker, nor the
    position of a quota. *)
Theorem other_writes_land (r : R) tenant out route status elapsed key to slots :
  ready r →
  Forall (λ s, ValidString s = true) [tenant; ou_Provider out; ou_Model out; route; (SplitKey key).1.1;
                                       (SplitKey key).1.2; (SplitKey key).2] →
  Forall (λ p, ValidString (sp_window p) = true ∧ ValidString (sp_unit p) = true) slots →
  ∃ r', write_all (observe_writes tenant out route status elapsed ++ breaker_writes key to ++ quota_writes tenant slots) r
        = Some r' ∧ ready r'.
Proof.
  intros Hr. rewrite !Forall_cons. intros (Ht & Hp & Hm & Hro & H1 & H2 & H3 & _) Hs.
  set (ws := _ ++ _). assert (is_Some (write_all ws r)) as [r' E].
  { apply write_all_outcome; [done|..].
    - subst ws. rewrite !Forall_app. auto using observe_fits, breaker_fits, quota_fits.
    - subst ws. rewrite !Forall_app. split_and!.
      + repeat constructor; cbn [wr_labels put inc forallb]; by rewrite Ht, Hp, Hro, ?Hm, ?Itoa_valid.
      + unfold breaker_writes. destruct (SplitKey key) as [[a b] d]. cbn [fst snd] in *. repeat constructor.
        cbn [wr_labels put forallb]. by rewrite H1, H2, H3.
      + apply Forall_fmap. eapply Forall_impl; [exact Hs|]. intros p [Hw Hu]. cbn. by rewrite Ht, Hw, Hu.
    - subst ws. rewrite !Forall_app. split_and!.
      + repeat constructor.
      + unfold breaker_writes. destruct (SplitKey key) as [[a b] d]. repeat constructor.
      + apply Forall_fmap, Forall_forall. intros p _. done. }
  exists r'. split; [done|]. by eapply write_all_ready.
Qed.

(** *** The quota gauge *)

(** What a run of gauge writes leaves on one series: the last of them. *)
Lemma last_write_shows ws w rest name labels (r r' : R) :
  write_all (ws ++ w :: rest) r = Some r' → vc_Kind (wr_vec w) = GaugeVec →
  vc_Name (wr_vec w) = name → wr_labels w = labels →
  Forall (λ x, (vc_Name (wr_vec x), wr_labels x) ≠ (name, labels)) rest →
  pm_gauge r' name labels = Some (wr_value w).
Proof.
  intros E Hk <- <- Hrest. revert r E. induction ws as [|x ws IH]; intros r; cbn [app]; rewrite write_all_cons;
    destruct (pm_write _ r) as [r1|] eqn:E1; try done; [|apply IH].
  cbn. apply set_reads in E1 as E2; [|done]. clear E1. revert r1 E2.
  induction Hrest as [|x rest Hx Hrest IH]; intros r1 E2; [by intros [= <-]|].
  rewrite write_all_cons. destruct (pm_write x r1) as [r2|] eqn:E; [|done]. cbn. apply IH.
  by rewrite (set_local r1 r2 x _ _ E Hx).
Qed.

(** At one level no two slots are of one window and unit. *)
Lemma positions_distinct cfg q totals now keyLevel :
  NoDup ((λ p, (sp_window p, sp_unit p)) <$> positions cfg q totals now keyLevel) ∧
  Forall (λ p, sp_keyLevel p = keyLevel) (positions cfg q totals now keyLevel).
Proof.
  unfold positions, add_position. destruct (periodWindow windowDay now), (periodWindow windowMonth now).
  split; [|by repeat (apply Forall_app; split); case_match; repeat constructor].
  destruct (qw_Tokens (q_Day q)), (qw_Cost (q_Day q)), (qw_Requests (q_Day q)), (qw_Tokens (q_Month q)),
    (qw_Cost (q_Month q)), (qw_Requests (q_Month q)); cbn [app fmap list_fmap sp_window sp_unit];
    apply (bool_decide_unpack _); vm_compute; exact I.
Qed.

Context {S : Type} `{QuotaStore S}.

Lemma level_distinct cfg (store : S) t k prefix keyLevel now slots :
  level_slots cfg store t k prefix keyLevel now = Ok slots →
  NoDup ((λ p, (sp_window p, sp_unit p)) <$> slots) ∧ Forall (λ p, sp_keyLevel p = keyLevel) slots.
Proof.
  unfold level_slots. destruct (loadQuota _ _ _) as [[q|]|e]; simpl; try done.
  - destruct (usageFor _ _ _ _ _) as [totals|e]; [|done]. intros [= <-]. apply positions_distinct.
  - intros [= <-]. split; constructor.
Qed.

(** The quota gauge has one series for each window and unit of a tenant, while a
    key's own cap is a slot beside its tenant's: whenever a request by such a key
    is evaluated, the series shows where the key stands, whatever the tenant's
    position in the same window and unit is. *)
Theorem key_quota_hides_the_tenants cfg (store : S) now scope slots p own (r r' : R) :
  quotaSlots cfg store now scope = Ok slots →
  p ∈ slots → sp_keyLevel p = false →
  own ∈ slots → sp_keyLevel own = true → sp_window own = sp_window p → sp_unit own = sp_unit p →
  write_all (quota_writes (sc_tenantID scope) slots) r = Some r' →
  pm_gauge r' "cognigate_quota_state" [sc_tenantID scope; sp_window p; sp_unit p]
    = Some (f_of_Z (quotaGauge (sp_state own))).
Proof.
  unfold quotaSlots. destruct (level_slots cfg store (sc_tenantID scope) "" "" false now) as [ts|e] eqn:Et; [|done]. simpl.
  apply level_distinct in Et as [_ Ht]. rewrite Forall_forall in Ht.
  case_bool_decide; [intros [= <-] _ _ Ho Hk; by rewrite (Ht own Ho) in Hk|].
  destruct (level_slots _ _ _ (sc_keyID scope) _ true now) as [ks|e] eqn:Ek; [|done]. simpl.
  apply level_distinct in Ek as [Hd _]. intros [= <-] _ _ Ho Hk Hw Hu E.
  apply elem_of_app in Ho as [Ho|Ho]; [by rewrite (Ht own Ho) in Hk|].
  apply list_elem_of_split in Ho as (k1 & k2 & ->). unfold quota_writes in E. rewrite !fmap_app, fmap_cons, app_assoc in E.
  eapply last_write_shows in E; [exact E|done|done|by rewrite <-Hw, <-Hu|].
  rewrite fmap_app, fmap_cons in Hd. apply NoDup_app in Hd as (_ & _ & Hd). apply NoDup_cons in Hd as [Hd _].
  apply Forall_fmap, Forall_forall. intros x Hx [= Ex Ey]. apply Hd.
  apply list_elem_of_fmap. exists x. by rewrite Ex, Ey, Hw, Hu.
Qed.

(** *** The catalog's age *)

Lemma provider_ages_spec t age seen es :
  NoDup (ca_Provider <$> provider_ages t age seen es) ∧
  ∀ a, (a ∈ provider_ages t age seen es) ↔
    ca_TenantID a = t ∧ ca_Age a = age ∧ ca_Provider a ≠ "" ∧ (ca_Provider a ∉ seen) ∧
    ca_Provider a ∈ (en_Provider <$> es).
Proof.
  revert seen. induction es as [|e es IH]; intros seen; cbn [provider_ages].
  { split; [constructor|]. intros a. cbn. rewrite !elem_of_nil. naive_solver. }
  destruct (IH seen) as [IH1 IH2], (IH ({[en_Provider e]} ∪ seen)) as [IH3 IH4]. clear IH.
  destruct (_ || _) eqn:E.
  - split; [done|]. intros a. rewrite IH2, fmap_cons, elem_of_cons. rewrite orb_true_iff, !bool_decide_eq_true in E.
    split; [tauto|]. intros (? & ? & Hne & Hs & [Ep|?]); [|done]. rewrite <-Ep in E. tauto.
  - rewrite orb_false_iff, !bool_decide_eq_false in E. destruct E as [E1 E2]. split.
    + rewrite fmap_cons. constructor; [|done]. rewrite list_elem_of_fmap. intros (a & Ea & Ha). apply IH4 in Ha as (_ & _ & _ & Ha & _).
      apply Ha. rewrite <-Ea. by apply elem_of_union_l, elem_of_singleton.
    + intros a. rewrite elem_of_cons, IH4, fmap_cons, elem_of_cons, elem_of_union, elem_of_singleton. split.
      * intros [->|(? & ? & ? & ? & ?)]; cbn; tauto.
      * intros (Ht & Ha & Hne & Hs & Hin). destruct (decide (ca_Provider a = en_Provider e)) as [Ep|Ep]; [left|tauto].
        destruct a; cbn in *; by subst.
Qed.

Lemma Ages_spec c now a : a ∈ Ages c now ↔
  ∃ s, cat_perTenant c !! ca_TenantID a = Some (Some s) ∧ ca_Age a = Age (Some s) now ∧ ca_Provider a ≠ "" ∧
       ca_Provider a ∈ (en_Provider <$> sn_Models s).
Proof.
  unfold Ages. rewrite list_elem_of_In, in_concat. setoid_rewrite <-list_elem_of_In. split.
  - intros (l & Hl & Ha). apply list_elem_of_fmap in Hl as ([t [s|]] & -> & Hl); [|by apply elem_of_nil in Ha].
    apply elem_of_map_to_list in Hl. apply provider_ages_spec in Ha as (Et & ? & ? & _ & ?). cbn in *. subst t. eauto.
  - intros (s & Hc & Hag & Hne & Hp). eexists. split.
    + apply list_elem_of_fmap. exists (ca_TenantID a, Some s). split; [done|]. by apply elem_of_map_to_list.
    + cbn. apply provider_ages_spec. by split_and!.
Qed.

Lemma Ages_distinct c now : NoDup ((λ a, (ca_TenantID a, ca_Provider a)) <$> Ages c now).
Proof.
  unfold Ages. pose proof (NoDup_fst_map_to_list (cat_perTenant c)) as Hd.
  induction (map_to_list (cat_perTenant c)) as [|[t s] l IH]; [constructor|].
  apply NoDup_cons in Hd as [Ht Hd]. rewrite fmap_cons. cbn [concat]. rewrite fmap_app. apply NoDup_app. split_and!.
  - destruct s as [s|]; [|constructor]. cbn [fst snd].
    apply (NoDup_fmap_1 snd). rewrite <-list_fmap_compose. apply (provider_ages_spec t (Age (Some s) now) ∅ (sn_Models s)).
  - intros [t' p] Hx Hy. apply list_elem_of_fmap in Hx as (a & [= -> ->] & Ha).
    destruct s as [s|]; [|by apply elem_of_nil in Ha]. apply provider_ages_spec in Ha as [Et _]. cbn in Et.
    apply list_elem_of_fmap in Hy as (b & [= E _] & Hb). apply list_elem_of_In, in_concat in Hb as (rows & Hr & Hb).
    apply list_elem_of_In in Hr, Hb. apply list_elem_of_fmap in Hr as ([u [v|]] & -> & Hin); [|by apply elem_of_nil in Hb].
    apply provider_ages_spec in Hb as [Eb _]. cbn in Eb. apply Ht. apply list_elem_of_fmap.
    exists (u, Some v). split; [cbn; congruence|done].
  - by apply IH.
Qed.

(** A process starts with all its series registered, and a scrape computes the
    age of the catalog when it is asked: one sample for each provider that backs
    an entry of a tenant's snapshot, no series twice, holding the time since that
    snapshot was fetched. *)
Theorem scrape_ages_the_live_catalog :
  ∃ m : Metrics R (Catalog * Z),
    SetCatalogAgeSource NewMetrics catalog_source = Some m ∧ ready (mt_registry m) ∧
    ∀ c now,
      Forall fits (Collect m (c, now)) ∧ NoDup (wr_labels <$> Collect m (c, now)) ∧
      ∀ t p x, put catalogAgeDesc [t; p] x ∈ Collect m (c, now) ↔
        ∃ s, cat_perTenant c !! t = Some (Some s) ∧ p ≠ "" ∧ p ∈ (en_Provider <$> sn_Models s) ∧
             x = Seconds (Age (Some s) now).
Proof.
  destruct (register_fresh series (proj1 series_fresh) (proj2 series_fresh)) as (r & E & Hr).
  unfold NewMetrics. rewrite E. cbn. eexists. split; [done|]. split; [exact Hr|]. intros c now.
  unfold Collect, catalog_source. cbn [mt_source fst snd]. split; [|split].
  - apply Forall_fmap, Forall_forall. intros s _. fit.
  - rewrite <-!list_fmap_compose. apply (NoDup_fmap_1 (λ l, (nth 0 l "", nth 1 l ""))). rewrite <-list_fmap_compose.
    apply Ages_distinct.
  - intros t p x. rewrite <-list_fmap_compose, list_elem_of_fmap. split.
    + intros (a & [= -> -> ->] & Ha). apply Ages_spec in Ha as (s & ? & Ea & ? & ?). exists s. cbn. by rewrite Ea.
    + intros (s & Hc & Hp & Hin & ->). exists {| ca_TenantID := t; ca_Provider := p; ca_Age := Age (Some s) now |}.
      split; [done|]. apply Ages_spec. by exists s.
Qed.
End props.

(** *** Witnesses

    A library that keeps the last value written to each series. *)

Record toy := { ty_vecs : list vec; ty_values : gmap (string * list string) f64 }.

#[local] Instance toy_prometheus : Prometheus toy := {|
  pm_MustRegister vs :=
    if bool_decide (NoDup (vc_Name <$> vs)) && forallb valid_vec vs then Some {| ty_vecs := vs; ty_values := ∅ |} else None;
  pm_registered r v := bool_decide (v ∈ ty_vecs r);
  pm_write w r :=
    if bool_decide (wr_vec w ∈ ty_vecs r) && negb (refused w) && forallb ValidString (wr_labels w)
    then Some {| ty_vecs := ty_vecs r; ty_values := <[(vc_Name (wr_vec w), wr_labels w) := wr_value w]> (ty_values r) |}
    else None;
  pm_gauge r name labels := ty_values r !! (name, labels)
|}.

#[local] Instance toy_laws : PrometheusLaws toy.
Proof.
  split; cbn.
  - intros vs Hn Hv. rewrite bool_decide_eq_true_2, Hv by done. eexists. split; [done|]. intros v Hin. by apply bool_decide_eq_true.
  - intros r w -> -> ->. by eexists.
  - intros r w -> ->. done.
  - intros r r' w v. destruct (_ && _); [|done]. by intros [= <-].
  - intros r r' w E _. destruct (_ && _) in E; [|done]. injection E as <-. cbn. by rewrite lookup_insert_eq.
  - intros r r' w name labels E Hne. destruct (_ && _) in E; [|done]. injection E as <-. cbn. by rewrite lookup_insert_ne.
Qed.

Definition started : toy := {| ty_vecs := series; ty_values := ∅ |}.
Lemma started_ready : ready started.
Proof. intros v Hv. cbn. by apply bool_decide_eq_true. Qed.

Definition negative : Usage := {| us_PromptTokens := 3; us_CompletionTokens := -4; us_TotalTokens := 0 |}.

Lemma record_panics_with_its_metrics_witness :
  record true true (st_identity ChatFacts.a_stream) (st_result ChatFacts.a_stream) "m" (Some negative) true 200 0 0
    ChatFacts.idle_ctx = None ∧
  is_Some (write_all (record_writes "t" (st_result ChatFacts.a_stream) None) started).
Proof.
  split; [|by eexists].
  apply (record_panics_with_its_metrics started true (st_identity ChatFacts.a_stream) (st_result ChatFacts.a_stream) "m"
    (Some negative) true 200 0 0 ChatFacts.idle_ctx started_ready).
  - repeat constructor.
  - by vm_compute.
Defined.

Definition served : Outcome := mkOutcome "p1" "one" "" 0 3 4 10 "".

Lemma other_writes_land_witness :
  ∃ r', write_all (observe_writes "t" served "/v1/chat/completions" 200 Second ++ breaker_writes "t/p1/one" StateOpen
                   ++ quota_writes "t" QuotaFacts.all_slots) started = Some r' ∧ ready r'.
Proof.
  apply (other_writes_land started "t" served "/v1/chat/completions" 200 Second "t/p1/one" StateOpen QuotaFacts.all_slots
    started_ready); repeat constructor.
Defined.

(** The tenant has spent all it may; its key "k", asked under another prefix,
    has spent nothing. The gauge says all is well. *)
Definition fresh_key : quotaScope := {| sc_tenantID := "t"; sc_keyID := "k"; sc_keyPrefix := "q" |}.
Definition tenant_slot : slotPosition :=
  List.hd no_slot (QuotaFacts.month_slot unitTokens 60 50 false).
Definition key_slot : slotPosition :=
  List.hd no_slot (QuotaFacts.month_slot unitTokens 0 40 true).
Definition both_slots : list slotPosition :=
  tenant_slot :: QuotaFacts.month_slot unitRequests 1 100 false ++ key_slot :: QuotaFacts.month_slot unitRequests 0 100 true.

Lemma key_quota_hides_the_tenants_witness :
  sp_state tenant_slot = QuotaHardExceeded ∧
  ∃ r', write_all (quota_writes "t" both_slots) started = Some r' ∧
    pm_gauge r' "cognigate_quota_state" ["t"; windowMonth; unitTokens] = Some (f_of_Z 0).
Proof.
  split; [by vm_compute|]. destruct (write_all (quota_writes "t" both_slots) started) as [r'|] eqn:E; [|by vm_compute in E].
  exists r'. split; [done|].
  apply (key_quota_hides_the_tenants Default (QuotaFacts.spent 50) QuotaFacts.today fresh_key both_slots tenant_slot key_slot
    started r'); try exact E.
  all: try (vm_compute; reflexivity).
  - unfold both_slots. apply elem_of_cons. by left.
  - unfold both_slots. apply elem_of_cons. right. apply elem_of_app. right. apply elem_of_cons. by left.
Defined.

Lemma scrape_ages_the_live_catalog_witness :
  ∃ m : Metrics toy (Catalog * Z), SetCatalogAgeSource NewMetrics catalog_source = Some m.
Proof. destruct (scrape_ages_the_live_catalog (R := toy)) as (m & E & _). by exists m. Defined.
End MetricsFacts.
