(* ===== verification/Logging.v ===== *)
(** * Log lines (internal/obs/log.go and the lines of internal/server)

    The handler every line passes: the level it is filtered by and the field
    names it publishes. A line is the list of its fields in order; slog's JSON
    handler writes the time, the level and the message and then the fields of the
    call. Modelled are the access line of a request, the line of a refused
    completion and that of a panic. *)

From S2P Require Import Prelude GoStrings GoTime GoFloat ApiErr StoreTypes Json Config Provider Dispatch Server Data Chat Gateway Boot.

#[local] Open Scope Z_scope.
#[local] Open Scope stdpp_scope.

Inductive value := VStr (s : string) | VInt (z : Z) | VText (m : message) | VTime (t : Z) | VLevel (l : Level).
Definition attr : Type := string * value.

(** slog's levels *)
Definition level_value (l : Level) : Z :=
  match l with LevelDebug => -4 | LevelInfo => 0 | LevelWarn => 4 | LevelError => 8 end.

(** [ReplaceAttr] *)
Definition replaceAttr (groups : list string) (a : attr) : attr :=
  if bool_decide (groups = []) && bool_decide (a.1 = "time") then ("ts", a.2) else a.

(** [newHandler]: the fields a call of the logger writes, if it writes any. *)
Definition newHandler `{Unicode} (level : string) (now : Z) (l : Level) (msg : string) (attrs : list attr) :
    option (list attr) :=
  if level_value l <? level_value (ParseLevel level) then None
  else Some ((replaceAttr [] <$> [("time", VTime now); ("level", VLevel l); ("msg", VStr msg)]) ++
             (replaceAttr [] <$> attrs)).

(** The level of an access line. *)
Definition request_level (status : Z) : Level := if 500 <=? status then LevelError else LevelInfo.

(** The fields of an access line. *)
Definition access_attrs (l : access_line) : list attr :=
  let o := al_outcome l in
  [("request_id", VStr (al_request_id l)); ("client_request_id", VStr (al_client_request_id l));
   ("tenant", VStr (al_tenant l)); ("key_prefix", VStr (al_key_prefix l)); ("method", VStr (al_method l));
   ("route", VStr (al_route l)); ("status", VInt (al_status l)); ("error_code", VStr (al_error_code l));
   ("provider", VStr (ou_Provider o)); ("model", VStr (ou_Model o)); ("alias", VStr (ou_Alias o));
   ("fallback_depth", VInt (ou_FallbackDepth o)); ("prompt_tokens", VInt (ou_PromptTokens o));
   ("completion_tokens", VInt (ou_CompletionTokens o)); ("upstream_duration_ms", VInt (ou_UpstreamMS o));
   ("cache", VStr (ou_CacheStatus o)); ("duration_ms", VInt (al_duration_ms l))].

Definition log_access `{Unicode} (level : string) (now : Z) (l : access_line) : option (list attr) :=
  newHandler level now (request_level (al_status l)) "request" (access_attrs l).

(** [causeOf] *)
Definition causeOf (e : Error) : message := match err_Wrapped e with Some w => error_text w | None => text "" end.

(** The line of [recordRejection]. *)
Definition log_rejection `{Unicode} (level : string) (now : Z) (r : HttpReq) (requested : string) (e : Error) :
    option (list attr) :=
  newHandler level now LevelWarn "request rejected"
    [("request_id", VStr (hr_id r)); ("tenant", VStr (TenantID r)); ("requested_model", VStr requested);
     ("code", VStr (err_Code e)); ("status", VInt (err_Status e)); ("cause", VText (causeOf e))].

(** The line of [recover]. *)
Definition log_panic `{Unicode} (level : string) (now : Z) (r : HttpReq) (route : string) (panic : message) :
    option (list attr) :=
  newHandler level now LevelError "handler panicked"
    [("request_id", VStr (hr_id r)); ("route", VStr route); ("panic", VText panic)].

Module LoggingFacts.

(** The fields of an access line, as they are published. *)
Definition published : list string :=
  ["ts"; "level"; "msg"; "request_id"; "client_request_id"; "tenant"; "key_prefix"; "method"; "route"; "status";
   "error_code"; "provider"; "model"; "alias"; "fallback_depth"; "prompt_tokens"; "completion_tokens";
   "upstream_duration_ms"; "cache"; "duration_ms"].

(** The line of a panic is written at every level, and it quotes what the handler
    panicked with. *)
Theorem panic_value_reaches_the_log `{Unicode} level now r route panic :
  ∃ line, log_panic level now r route panic = Some line ∧ ("request_id", VStr (hr_id r)) ∈ line ∧
    ("panic", VText panic) ∈ line.
Proof.
  unfold log_panic, newHandler.
  assert ((level_value LevelError <? level_value (ParseLevel level)) = false) as -> by (by destruct (ParseLevel level)).
  eexists. split; [reflexivity|]. split; apply list_elem_of_In; simpl; tauto.
Qed.

(** The access line of a request is written at every level when the request failed
    on the server's side, and otherwise exactly when the level is debug or info;
    it has the published fields in the published order, each once, and the ids,
    the tenant, the key and the status of the request under their names. *)
Theorem access_line_is_as_published `{Unicode} level now l :
  (log_access level now l = None ↔
     al_status l < 500 ∧ (ParseLevel level = LevelWarn ∨ ParseLevel level = LevelError)) ∧
  ∀ line, log_access level now l = Some line →
    line.*1 = published ∧ NoDup line.*1 ∧
    ("request_id", VStr (al_request_id l)) ∈ line ∧ ("tenant", VStr (al_tenant l)) ∈ line ∧
    ("key_prefix", VStr (al_key_prefix l)) ∈ line ∧ ("status", VInt (al_status l)) ∈ line.
Proof.
  unfold log_access, request_level, newHandler. split.
  - destruct (Z.leb_spec 500 (al_status l)), (ParseLevel level); simpl; naive_solver lia.
  - intros line. destruct (_ <? _); [done|]. intros [= <-]. split; [done|]. split.
    + change (NoDup published). apply (bool_decide_unpack _). by vm_compute.
    + split_and!; apply list_elem_of_In; simpl; tauto.
Qed.

(** A completion that is refused leaves two lines under its request id when the
    level is the default one: the rejection's and the access line's. *)
Theorem rejected_request_logs_twice `{Unicode} level now r requested e l :
  ParseLevel level = LevelInfo → al_request_id l = hr_id r →
  ∃ first second, log_rejection level now r requested e = Some first ∧ log_access level now l = Some second ∧
    ("request_id", VStr (hr_id r)) ∈ first ∧ ("request_id", VStr (hr_id r)) ∈ second.
Proof.
  intros El Hid. unfold log_rejection, log_access, request_level, newHandler. rewrite El.
  assert ((level_value (if 500 <=? al_status l then LevelError else LevelInfo) <? level_value LevelInfo) = false) as ->
    by (by destruct (500 <=? al_status l)).
  eexists _, _. split; [reflexivity|]. split; [reflexivity|].
  split; apply list_elem_of_In; simpl; rewrite ?Hid; tauto.
Qed.

(** *** Witnesses *)

#[local] Existing Instance ascii_only.

Definition a_request : HttpReq :=
  {| hr_key := None; hr_tenant := None; hr_id := "req_1"; hr_clientID := ""; hr_method := "POST";
     hr_path := "/v1/chat/completions"; hr_param _ := ""; hr_query _ := ""; hr_header _ := ""; hr_now _ := 0;
     hr_rnd _ := "" |}.
Definition refused_line : access_line :=
  {| al_request_id := "req_1"; al_client_request_id := ""; al_tenant := ""; al_key_prefix := ""; al_method := "POST";
     al_route := "/v1/chat/completions"; al_status := 404; al_error_code := "model_not_found"; al_outcome := no_outcome;
     al_duration_ms := 1 |}.

Lemma rejected_request_logs_twice_witness :
  ∃ first second, log_rejection "info" 0 a_request "gpt" (ModelNotFound "gpt") = Some first ∧
    log_access "info" 0 refused_line = Some second ∧ ("request_id", VStr "req_1") ∈ second.
Proof.
  destruct (rejected_request_logs_twice "info" 0 a_request "gpt" (ModelNotFound "gpt") refused_line)
    as (first & second & E1 & E2 & _ & E4); [by vm_compute|done|]. by exists first, second.
Defined.
End LoggingFacts.
