(* ===== verification/System.v ===== *)
(** * The whole gateway as one machine (internal/server/server.go's routes and
    Listen, app.go, main.go)

    A request reaches the process in two events. [EvArrive] is the middleware
    every request passes first, the drain gate and the body ceiling: it is
    refused, or it is in flight. [EvServe] is the rest of one request in flight:
    the probe, the metrics page, the data plane from authentication on, the admin
    plane, or nothing. So any number of requests are in flight at once, also when
    a drain begins, and streams stay open while others are served. The part of a
    request from authentication to its answer is one event.

    A [system] is the server, the requests in flight, the streams still open, the
    usage buffer, the goroutines that have yet to emit an event, and whether the
    process is gone; [sys_step] is what can happen to it next. Quota crossings
    are emitted by the request that finds them; breaker transitions and catalog
    changes are handed to goroutines, whose emissions are events of their own, as
    are the moves of the usage and webhook workers, the sweeps of captures and
    the signals. Everything the outside decides (upstream replies, clock
    readings, random draws) comes with the event or the arrival it is for. Which
    route the framework picked for a path is the arrival's [target]; [addressed]
    is what its router promises of that. The deployment is the one without an
    analytics service: usage is written to the store and quotas are read from it. *)

From S2P Require Import Prelude GoStrings GoTime GoFloat GoFormat ApiErr StoreTypes Keys Json Memory Provider Breaker Catalog Resolve Dispatch Cache Config Limits Quota Middleware Capture Telemetry Events Server Data Admin Chat Gateway OpenAI App.
From Stdlib Require Import Ascii.

#[local] Open Scope Z_scope.
#[local] Open Scope stdpp_scope.
#[local] Open Scope gate_scope.

(** ** Requests *)

(** Where the router sends a request. *)
Inductive target :=
  | Healthz
  | MetricsPage
  | DataPlane
  | AdminPlane (rt : route) (audit_rnd : string) (audit_at : Z)
  | Nowhere.

Inductive reply :=
  | RHealthz (status : Z) (state : string)
  | RMetrics
  | RData (x : data_answer)
  | RAdmin (x : response).

(** What a request meets outside the process: what providers list and answer,
    and the clocks of polls and dispatches; whether its deadline passes, the
    bytes the framework renders, and the id and time of each event it emits. *)
Record surroundings (A : Type) := mkSurroundings {
  su_poll_now : nat → Z * Z;
  su_answers : nat → nat → A → Credential → res message (list Model);
  su_upstream : list (call A) → call A → DoResult;
  su_clock : nat → Z;
  su_expired : bool;
  su_render : res error data_answer → string;
  su_emit : nat → string * Z
}.
Arguments mkSurroundings {A}.
Arguments su_poll_now {A}.
Arguments su_answers {A}.
Arguments su_upstream {A}.
Arguments su_clock {A}.
Arguments su_expired {A}.
Arguments su_render {A}.
Arguments su_emit {A}.

Section requests.
Context `{Unicode} `{JsonStream} `{Crypto} `{HttpDates} `{JsonNumbers} `{NetUrl}.
Context {A : Type} (adapters : gmap string A) (w : surroundings A).

(** Past the common middleware, off the data plane. *)
Definition off_data (a : arrival) (to : target) (c : chatCtx A) : res error reply * chatCtx A :=
  let s := cx_srv c in
  let r := identify a in
  let nowhere := (Err (ErrApi (NotSupported (hr_method r +:+ " " +:+ hr_path r))), c) in
  match to with
  | Healthz => (Ok (RHealthz (handleHealthz s).1 (handleHealthz s).2), c)
  | MetricsPage =>
      if negb (me_Enabled (cf_Metrics (sv_Config s))) then nowhere
      else (let! _ := metricsAuth s (hr_header r "Authorization") in Ok RMetrics, c)
  | AdminPlane rt rnd at_ =>
      let '(out, s) := serve_admin adapters (su_poll_now w) (su_answers w) r rt (ar_auth a) rnd at_ s in
      (let! x := out in Ok (RAdmin x), with_srv c s)
  | DataPlane | Nowhere => nowhere
  end.

(** [routes]: one request past the common middleware. The second component is the
    permit a stream keeps. *)
Definition serve_request (a : arrival) (to : target) (s : Server A) :
    res error reply * option nat * chatCtx A :=
  let c := greeted a s in
  match to with
  | DataPlane =>
      let '(out, permit, c) := handle_v1 adapters (su_poll_now w) (su_answers w) (su_upstream w) (su_clock w)
                                 true true (su_expired w) (su_render w) a c in
      (let! x := out in Ok (RData x), permit, c)
  | _ => let '(out, c) := off_data a to c in (out, None, c)
  end.
End requests.

(** What the router promises: a handler runs for its own path, or for one under
    the prefix of its group. *)
Definition addressed `{Unicode} (cfg : Config) (to : target) (path : string) : Prop :=
  match to with
  | Healthz => path = "/healthz"
  | MetricsPage => path = metricsPath (me_Path (cf_Metrics cfg))
  | DataPlane => HasPrefix path "/v1/" = true
  | AdminPlane _ _ _ => HasPrefix path "/admin/v1/" = true
  | Nowhere => True
  end.

(** ** Events raised by requests *)

(** The payload of [emitQuotaCrossing]. *)
Definition quota_emission (e : QuotaEvent) : emission :=
  let p := qv_slot e in
  (qv_tenantID e, qv_event e,
   let data : gmap string datum :=
     <["window" := DStr (sp_window p)]> (<["unit" := DStr (sp_unit p)]> (<["state" := DStr (sp_state p)]>
       (<["used" := DFloat (sp_used p)]> (<["cap" := DFloat (sp_cap p)]>
         (<["soft_threshold_pct" := DInt (sp_softPct p)]> (<["resets_at" := DStr (RFC3339 (sp_resetsAt p))]>
           (<["scope" := DStr (qv_scope e)]> {["enforcement" := DStr (qv_enforcement e)]}))))))) in
   match qv_keyPrefix e with Some prefix => <["key_prefix" := DStr prefix]> data | None => data end).

(** [s.Events.Emit] with the id and time it draws. *)
Definition emit_one `{JsonCodec} `{JsonNumbers} {A} (draw : string * Z) (e : emission) (s : Server A) : Server A :=
  match sv_Events s with
  | None => s
  | Some d =>
      let '(t, typ, data) := e in
      let '(m, d) := Emit draw.1 draw.2 t typ data (sv_Store s, d) in
      set_dispatch_events (set_store s m) (Some d)
  end.

Definition emit_all `{JsonCodec} `{JsonNumbers} {A} (draws : nat → string * Z) (es : list emission)
    (s : Server A) : Server A :=
  foldl (λ s ie, emit_one (draws ie.1) ie.2 s) s (imap pair es).

(** The quota crossings found between two states of the server. *)
Definition crossings {A} (s s' : Server A) : list emission :=
  quota_emission <$> drop (length (qs_emitted (sv_quotas s))) (qs_emitted (sv_quotas s')).

(** The goroutines started between them: one for each breaker transition that is
    published, one for each catalog change, emitting in order. *)
Definition spawned {A} (s s' : Server A) : list (list emission) :=
  let b := b_changes (d_breaker (sv_Dispatcher s)) in
  let b' := b_changes (d_breaker (sv_Dispatcher s')) in
  let c := cat_changes (sv_Catalog s) in
  let c' := cat_changes (sv_Catalog s') in
  if is_None_b (sv_Events s') then [] else
  ((λ e, [e]) <$> omap (λ ch : change, BreakerHook ch.1.1 ch.1.2 ch.2) (drop (length b) b')) ++
  List.filter (λ es, negb (bool_decide (es = [])))
    ((λ ch : catalog_change, CatalogHook ch.1.1 ch.1.2 ch.2) <$> drop (length c) c').

(** ** The machine *)

(** A stream the handler has left to its writer, with the permit it holds. *)
Record open_stream := mkOpen { os_stream : stream; os_permit : option nat }.

Record system (A : Type) := mkSystem {
  sy_server : Server A;
  sy_inflight : list (arrival * target);
  sy_streams : list open_stream;
  sy_telemetry : Telemetry;
  sy_pending : list (list emission);
  sy_crashed : bool
}.
Arguments mkSystem {A}.
Arguments sy_server {A}.
Arguments sy_inflight {A}.
Arguments sy_streams {A}.
Arguments sy_telemetry {A}.
Arguments sy_pending {A}.
Arguments sy_crashed {A}.

(** [EvServe i] serves the [i]-th request in flight, [EvEmit i] is the next
    emission of the [i]-th goroutine, [EvUsage] a move of the buffer's worker,
    [EvSignal] the start of the drain, [EvStop] its end, when the usage buffer is
    closed, and [EvStopEvents] the close of the event dispatcher after it. The
    clock readings with a request or a stream are those of [Telemetry.Record]. *)
Inductive sys_event (A : Type) :=
  | EvArrive (a : arrival) (to : target)
  | EvServe (i : nat) (w : surroundings A) (now now' : Z)
  | EvStreamEnds (i : nat) (accepts : nat → bool) (now done_at recorded_at : Z) (reads : list read) (now1 now2 : Z)
  | EvUsage (e : Telemetry.event)
  | EvEmit (i : nat) (rnd : string) (now : Z)
  | EvWebhook (i : nat) (m : wmove)
  | EvSweep (now : Z)
  | EvSignal
  | EvStop
  | EvStopEvents.
Arguments EvArrive {A}.
Arguments EvServe {A}.
Arguments EvStreamEnds {A}.
Arguments EvUsage {A}.
Arguments EvEmit {A}.
Arguments EvWebhook {A}.
Arguments EvSweep {A}.
Arguments EvSignal {A}.
Arguments EvStop {A}.
Arguments EvStopEvents {A}.

(** A change of the server alone, or of the usage buffer with it. *)
Definition on_server {A} (s : system A) (srv : Server A) : system A :=
  mkSystem srv (sy_inflight s) (sy_streams s) (sy_telemetry s) (sy_pending s) (sy_crashed s).
Definition on_usage {A} (s : system A) (srv : Server A) (t : Telemetry) : system A :=
  mkSystem srv (sy_inflight s) (sy_streams s) t (sy_pending s) (sy_crashed s).

(** Rows handed to the usage buffer. *)
Definition meter_rows (now now' : Z) (rows : list UsageRecord) (t : Telemetry) : Telemetry :=
  foldl (λ t row, Record_ t row now now') t rows.

(** The record the worker has in hand. *)
Definition in_hand (t : Telemetry) : option UsageRecord :=
  match tm_stage t with Writing rec _ _ _ => Some rec | _ => None end.

(** What the worker's move does to the store: with no analytics service the sink
    is the store itself, and it never fails. *)
Definition sink_store (t : Telemetry) (e : Telemetry.event) (m : Memory) : option Memory :=
  match e with
  | ERecord _ _ _ | EClose => None
  | ESink err _ _ =>
      match err, in_hand t with
      | None, Some rec => Some (RecordUsage m rec)
      | _, _ => None
      end
  | _ => Some m
  end.

(** [sweepCaptures]: one tick. *)
Definition sweepCaptures {A} (now : Z) (s : Server A) : Server A :=
  set_captures s (CapSweep now (sv_captures s)).2.

Section machine.
Context `{Unicode} `{JsonStream} `{Crypto} `{HttpDates} `{JsonNumbers} `{NetUrl}.
Context {A : Type} (adapters : gmap string A).

Definition stream_of (out : res error reply) : option stream :=
  match out with Ok (RData (AChat (CStream st))) => Some st | _ => None end.

(** The [i]-th request in flight is served. *)
Definition serve_inflight (s : system A) (i : nat) (w : surroundings A) (now now' : Z) (a : arrival) (to : target) :
    system A * list UsageRecord :=
  let '(out, permit, c) := serve_request adapters w a to (sy_server s) in
  (mkSystem (emit_all (su_emit w) (crossings (sy_server s) (cx_srv c)) (cx_srv c))
     (delete i (sy_inflight s))
     (sy_streams s ++ match stream_of out with Some st => [mkOpen st permit] | None => [] end)
     (meter_rows now now' (cx_recorded c) (sy_telemetry s))
     (sy_pending s ++ spawned (sy_server s) (cx_srv c)) false, cx_recorded c).

(** One event: the system after it and the usage rows it metered. [None] where
    the event cannot happen. *)
Definition sys_step (s : system A) (e : sys_event A) : option (system A * list UsageRecord) :=
  if sy_crashed s then None
  else match e with
  | EvArrive a to =>
      match front_gates a (sy_server s) with
      | Err _ => Some (s, [])
      | Ok _ => Some (mkSystem (sy_server s) (sy_inflight s ++ [(a, to)]) (sy_streams s) (sy_telemetry s)
                        (sy_pending s) false, [])
      end
  | EvServe i w now now' =>
      ato ← sy_inflight s !! i;
      Some (serve_inflight s i w now now' ato.1 ato.2)
  | EvStreamEnds i accepts now done_at recorded_at reads now1 now2 =>
      o ← sy_streams s !! i;
      fin ← finish_stream true true (os_stream o) (os_permit o) accepts now done_at recorded_at reads
              (new_ctx (sy_server s));
      match fin.2 with
      | None => Some (mkSystem (sy_server s) (sy_inflight s) (sy_streams s) (sy_telemetry s) (sy_pending s) true, [])
      | Some c => Some (mkSystem (cx_srv c) (sy_inflight s) (delete i (sy_streams s))
                          (meter_rows now1 now2 (cx_recorded c) (sy_telemetry s)) (sy_pending s) false,
                        cx_recorded c)
      end
  | EvUsage e =>
      t ← Telemetry.step (sy_telemetry s) e;
      m ← sink_store (sy_telemetry s) e (sv_Store (sy_server s));
      Some (on_usage s (set_store (sy_server s) m) t, [])
  | EvEmit i rnd now =>
      es ← sy_pending s !! i;
      match es with
      | [] => None
      | e :: es =>
          Some (mkSystem (emit_one (rnd, now) e (sy_server s)) (sy_inflight s) (sy_streams s) (sy_telemetry s)
                  (if bool_decide (es = []) then delete i (sy_pending s) else <[i := es]> (sy_pending s)) false, [])
      end
  | EvWebhook i m =>
      d ← sv_Events (sy_server s);
      d ← wstep d i m;
      Some (on_server s (set_dispatch_events (sy_server s) (Some d)), [])
  | EvSweep now => Some (on_server s (sweepCaptures now (sy_server s)), [])
  | EvSignal => Some (on_server s (set_draining (sy_server s) true), [])
  | EvStop =>
      if negb (sv_draining (sy_server s)) then None
      else Some (on_usage s (sy_server s) (Close (sy_telemetry s)), [])
  | EvStopEvents =>
      if negb (tm_stop (sy_telemetry s)) then None
      else Some (on_server s (set_dispatch_events (sy_server s) (CloseED <$> sv_Events (sy_server s))), [])
  end.

Fixpoint sys_run (s : system A) (es : list (sys_event A)) : option (system A * list UsageRecord) :=
  match es with
  | [] => Some (s, [])
  | e :: es =>
      sr ← sys_step s e;
      sr' ← sys_run sr.1 es;
      Some (sr'.1, sr.2 ++ sr'.2)
  end.
End machine.

(** The machine a built process starts as. *)
Definition boot (a : app) : system Adapter :=
  mkSystem (ap_server a) [] [] (ap_telemetry a) [] false.
