(* ===== verification/SystemFacts.v ===== *)
(** * What a request can change

    The footprint of a data-plane request: [served t s s'] says that what the
    handlers did between two states of the server, on behalf of tenant [t], is
    operations of the breaker, lookups and stores of the cache under [t]'s own
    keys, and calls and listings of [t]'s own providers, and nothing else that
    lasts. It is a preorder, so it is proved of each handler from its parts. *)

From S2P Require Import Prelude GoStrings GoTime GoFloat GoFormat ApiErr StoreTypes Keys Json Memory MemoryFacts MemoryProps Provider Breaker Catalog Resolve Dispatch DispatchFacts Diagnose Cache Config Limits Quota Middleware Capture Telemetry Events Server Data Admin AdminFacts AdminProps Chat ChatProps Gateway GatewayProps System.
From Stdlib Require Import Ascii.

#[local] Open Scope Z_scope.
#[local] Open Scope stdpp_scope.
#[local] Open Scope gate_scope.

Section footprint.
Context `{Unicode} `{JsonStream} `{Crypto} `{HttpDates}.
Context {A : Type} (adapters : gmap string A).

Abbreviation sent s := (d_calls (sv_Dispatcher s)).
Abbreviation breaker s := (d_breaker (sv_Dispatcher s)).
Abbreviation asked s := (cat_polls (sv_Catalog s)).

(** A cache operation of tenant [t]: a lookup, or an answer filed under the key
    of its tenant and model. *)
Definition filed (t : string) (o : cop) : Prop :=
  match o with
  | OGet _ _ => True
  | OPut _ t' k e _ => t' = t ∧ ∃ payload, CKey t (ce_ServedBy e) payload = Some k
  | OFlush _ => False
  end.

(** A listing of one of [t]'s own providers. *)
Definition own_listing_of (t : string) (m : Memory) (l : listing_call) : Prop :=
  lc_Tenant l = t ∧ own_listing adapters (ListProviders m t) l.

Record served (t : string) (s s' : Server A) : Prop := {
  sd_config : sv_Config s' = sv_Config s;
  sd_store : sv_Store s' = sv_Store s;
  sd_limits : sv_limits s' = sv_limits s;
  sd_draining : sv_draining s' = sv_draining s;
  sd_events : sv_Events s' = sv_Events s;
  sd_breaker : ∃ ops, breaker s' = Breaker.run (breaker s) ops;
  sd_calls : ∃ cs, sent s' = sent s ++ cs ∧ Forall (λ c, ∃ streaming, own_call adapters t streaming (sv_Store s) c) cs;
  sd_polls : ∃ ps, asked s' = asked s ++ ps ∧ Forall (own_listing_of t (sv_Store s)) ps;
  sd_cache : ∃ ops, sv_cache s' = run_cache (sv_cache s) ops ∧ Forall (filed t) ops
}.

#[export] Instance served_pre t : PreOrder (served t).
Proof.
  split.
  - intros s. split; try done; [by exists []|exists []; by rewrite app_nil_r..|by exists []].
  - intros s1 s2 s3 [C1 S1 L1 D1 E1 (b1 & B1) (cs1 & K1 & F1) (p1 & P1 & Q1) (o1 & X1 & G1)]
      [C2 S2 L2 D2 E2 (b2 & B2) (cs2 & K2 & F2) (p2 & P2 & Q2) (o2 & X2 & G2)]. split; try congruence.
    + exists (b1 ++ b2). rewrite B2, B1. unfold Breaker.run. by rewrite foldl_app.
    + exists (cs1 ++ cs2). rewrite K2, K1, app_assoc. split; [done|]. rewrite S1 in F2. by apply Forall_app.
    + exists (p1 ++ p2). rewrite P2, P1, app_assoc. split; [done|]. rewrite S1 in Q2. by apply Forall_app.
    + exists (o1 ++ o2). rewrite X2, X1. unfold run_cache. rewrite foldl_app. split; [done|]. by apply Forall_app.
Qed.

(** States that differ in what [served] does not speak of. *)
Lemma served_quiet t s s' :
  sv_Config s' = sv_Config s → sv_Store s' = sv_Store s → sv_limits s' = sv_limits s →
  sv_draining s' = sv_draining s → sv_Events s' = sv_Events s → sv_Dispatcher s' = sv_Dispatcher s →
  sv_Catalog s' = sv_Catalog s → sv_cache s' = sv_cache s → served t s s'.
Proof.
  intros ? ? ? ? ? Ed Ek Ec. split; try done; rewrite ?Ed, ?Ek, ?Ec;
    [by exists []|exists []; by rewrite app_nil_r..|by exists []].
Qed.

(** A read of [t]'s catalog. *)
Lemma served_catalog t s c ps :
  cat_polls c = asked s ++ ps → Forall (own_listing_of t (sv_Store s)) ps → served t s (set_catalog s c).
Proof.
  intros Ep HF. split; try done; [by exists []|exists []; by rewrite app_nil_r|by exists ps|by exists []].
Qed.

(** A handler whose footprint is its caller's. *)
Definition tame (t : string) {X} (h : handler A X) : Prop := ∀ s, served t s (h s).2.

Lemma tame_read t {X} (h : handler A X) : (∀ s, (h s).2 = s) → tame t h.
Proof. intros E s. by rewrite E. Qed.

Lemma tame_bind t {X Y} (m : handler A X) (k : X → handler A Y) :
  tame t m → (∀ x, tame t (k x)) → tame t (hbind m k).
Proof.
  intros Hm Hk s. unfold hbind. specialize (Hm s). destruct (m s) as [[x|e] s']; simpl in *; [|done].
  by etrans; [exact Hm|apply Hk].
Qed.

Lemma tame_map_err t {X} f (m : handler A X) : tame t m → tame t (map_err f m).
Proof. intros Hm s. unfold map_err. specialize (Hm s). by destruct (m s) as [[x|e] s']. Qed.

Context (poll_now : nat → Z * Z) (answers : nat → nat → A → Credential → res message (list Model)).
Context (upstream : list (call A) → call A → DoResult) (clock : nat → Z).
Context (metrics telemetry expired : bool).

Lemma tame_catalog t i : tame t (catalog_get adapters poll_now answers i t).
Proof.
  intros s. unfold catalog_get.
  destruct (Get_own adapters (answers i) (sv_Catalog s) t (ListProviders (sv_Store s) t) (poll_now i).1 (poll_now i).2)
    as (ps & E & HF). destruct (Get _ _ _ _ _ _ _) as [got cat]. by eapply served_catalog.
Qed.

Lemma Resolve_own i t m (s : Server A) :
  ∃ ps, cat_polls (Resolve adapters (answers i) (sv_Resolver s) (sv_Store s) (sv_Catalog s)
      (poll_now i).1 (poll_now i).2 t m).2 = asked s ++ ps ∧ Forall (own_listing_of t (sv_Store s)) ps.
Proof.
  destruct (Get_own adapters (answers i) (sv_Catalog s) t (ListProviders (sv_Store s) t) (poll_now i).1 (poll_now i).2)
    as (ps & E & HF). exists ps. unfold Resolve. cbn [rst_ListProviders memory_routing_store].
  by destruct (Get _ _ _ _ _ _ _) as [[snap|e] cat].
Qed.

Lemma tame_resolve t i m : tame t (resolve_at adapters poll_now answers i t m).
Proof.
  intros s. unfold resolve_at. destruct (Resolve_own i t m s) as (ps & E & HF).
  destruct (Resolve _ _ _ _ _ _ _ _ _) as [[got snap] cat]. by eapply served_catalog.
Qed.

Lemma tame_aliases t i snap : tame t (aliasObjects adapters poll_now answers i t snap).
Proof.
  intros s. unfold aliasObjects.
  enough (∀ aliases i s, served t s (alias_rows adapters poll_now answers i t snap aliases s).2) as Hall.
  { specialize (Hall (ListAliases (sv_Store s) t) i s). by destruct (alias_rows _ _ _ _ _ _ _ _) as [rows s']. }
  induction aliases as [|a aliases IH]; intros j s0; simpl; [done|].
  pose proof (tame_resolve t j (al_Name a) s0) as Hr. destruct (resolve_at _ _ _ _ _ _ _) as [got s1].
  specialize (IH (S j) s1). destruct (alias_rows _ _ _ _ _ _ _ s1) as [rows s2]. simpl in *. by etrans.
Qed.

Lemma tame_health r s : served (TenantID r) s (handleHealth adapters poll_now answers r s).2.
Proof.
  unfold handleHealth. destruct (hc_get _ _ _); [done|]. unfold buildHealth.
  pose proof (tame_catalog (TenantID r) 0 s) as H0'. destruct (catalog_get _ _ _ 0 _ _) as [got s1].
  destruct (catalog_health _ _ _) as [cat stale].
  pose proof (tame_catalog (TenantID r) 1 s1) as H1'. destruct (catalog_get _ _ _ 1 _ _) as [got' s2].
  destruct (evaluateQuota _ _ _ _ _) as [v q]. simpl in *.
  etrans; [exact H0'|]. etrans; [exact H1'|]. by apply served_quiet.
Qed.

Lemma served_dispatch i t m body streaming s :
  served t s (dispatch_at adapters poll_now answers upstream clock i t m body streaming s).2.
Proof.
  unfold dispatch_at. destruct (Resolve_own i t m s) as (ps & Ep & HP).
  destruct (Resolve _ _ _ _ _ _ _ _ _) as [[got snap] cat]. cbn [snd] in Ep.
  destruct (Dispatch _ _ _ _ _ _ _ _ _) as [o d] eqn:Ed. simpl. unfold Dispatch in Ed. simpl in Ed.
  destruct got as [cands|e].
  2:{ injection Ed as <- <-. etrans; [by eapply (served_catalog t s cat ps)|by apply served_quiet]. }
  pose proof Ed as (ops & Eb & _)%cascade_breaker.
  apply cascade_spec in Ed as (cs & E & Hall & _). split; try done.
  - by exists ops.
  - exists cs. split; [done|]. eapply Forall_impl; [exact Hall|].
    intros c (cand & p & _ & Hp & ? & ? & ? & ? & _ & ? & _). exists streaming. split; [done|].
    exists p. split_and!; try done. by eapply providersByID_elem.
  - by exists ps.
  - by exists [].
Qed.

(** ** Completions *)

Abbreviation srv c := (cx_srv c).

Lemma served_headers t (c : chatCtx A) result s : served t s (srv c) → served t s (srv (applyRoutingHeaders c result)).
Proof. by rewrite routing_headers_srv. Qed.

Lemma record_srv i result m u streamed st el now (c : chatCtx A) :
  srv (record_row_of metrics telemetry i result m u streamed st el now c) = srv c.
Proof. unfold record_row_of. by destruct telemetry. Qed.

Lemma served_lookup t now k (c : chatCtx A) :
  served t (srv c) (set_cache (srv c) (CGet (sv_cache (srv c)) now k).2).
Proof. split; try done; [by exists []|exists []; by rewrite app_nil_r..|]. exists [OGet now k]. by repeat constructor. Qed.

Lemma served_filed t now k e ttl payload s :
  CKey t (ce_ServedBy e) payload = Some k → served t s (set_cache s (CPut (sv_cache s) now t k e ttl)).
Proof.
  intros Hk. split; try done; [by exists []|exists []; by rewrite app_nil_r..|].
  exists [OPut now t k e ttl]. repeat constructor; eauto.
Qed.

Lemma served_complete r t m body plan key started (c : chatCtx A) :
  (∀ k sb, key = Some (k, sb) → CKey t sb body = Some k) →
  served t (srv c) (srv (complete adapters poll_now answers upstream clock metrics telemetry expired
                           r t m body plan key started c).2).
Proof.
  intros Hk. unfold complete. pose proof (served_dispatch 1 t m body false (srv c)) as Hd.
  destruct (dispatch_at _ _ _ _ _ _ _ _ _ _ _) as [[[result|e]|] s]; simpl in *; [|done..].
  unfold meter, record. destruct (metrics && _); simpl; [by rewrite routing_headers_srv|].
  destruct key as [[k sb]|]; [unfold store_answer; case_bool_decide as Eb|]; simpl;
    rewrite ?record_srv; simpl; rewrite routing_headers_srv; simpl; try done.
  etrans; [exact Hd|]. apply served_filed with (payload := body). rewrite <-(Hk k sb eq_refl), <-Eb. done.
Qed.

Lemma served_completion r t m body plan (c : chatCtx A) :
  served t (srv c) (srv (completion adapters poll_now answers upstream clock metrics telemetry expired
                           r t m body plan c).2).
Proof.
  unfold completion. destruct (cacheKeyFor _ _ _ _ _ _ _ _) as [key s] eqn:Ek.
  pose proof Ek as (_ & _ & Hk)%cacheKeyFor_spec.
  assert (served t (srv c) s) as Hs.
  { replace s with (cacheKeyFor adapters poll_now answers plan t m body (srv c)).2 by by rewrite Ek.
    unfold cacheKeyFor. destruct (negb _); [done|]. pose proof (tame_resolve t 0 m (srv c)) as Hr.
    destruct (resolve_at _ _ _ _ _ _ _) as [got s1]. by destruct (Primary got) as [[|]|]. }
  destruct key as [[[k sb]|]|]; [| |done].
  - pose proof (served_lookup t (hr_now r 2) k (with_srv c s)) as Hl. cbn [cx_srv with_srv] in Hl |- *.
    destruct (CGet (sv_cache s) (hr_now r 2) k) as [[e|] cache]; simpl in Hl.
    + unfold serveFromCache. destruct telemetry; simpl; by etrans.
    + etrans; [exact Hs|]. etrans; [exact Hl|]. apply (served_complete r t m body plan _ _ (with_srv _ _)).
      intros k' sb' [= -> ->]. by apply Hk.
  - etrans; [exact Hs|]. by apply (served_complete r t m body plan None _ (with_srv c s)).
Qed.

Lemma served_stream r t m body (c : chatCtx A) :
  served t (srv c) (srv (streamCompletion adapters poll_now answers upstream clock r t m body c).2).
Proof.
  unfold streamCompletion. pose proof (served_dispatch 0 t m body true (srv c)) as Hd.
  destruct (dispatch_at _ _ _ _ _ _ _ _ _ _ _) as [[[result|e]|] s]; simpl in *; [|done..].
  by rewrite routing_headers_srv.
Qed.

Lemma served_chat r body (c : chatCtx A) :
  served (TenantID r) (srv c)
    (srv (handleChatCompletions adapters poll_now answers upstream clock metrics telemetry expired r body c).2).
Proof.
  unfold handleChatCompletions. case_bool_decide; [done|]. destruct (decode_env body) as [env|e]; [|done].
  case_bool_decide; [done|]. destruct (evaluateQuota _ _ _ _ _) as [quota q]. simpl.
  assert (∀ s, served (TenantID r) s (set_quota_state s q)) as Hq by (intros s; by apply served_quiet).
  destruct (v_Reject quota); [apply Hq|].
  match goal with |- context [if env_Stream env then streamCompletion _ _ _ _ _ _ _ _ _ ?c1 else _] => set (c2 := c1) end.
  assert (served (TenantID r) (srv c) (srv c2)) as Hc.
  { subst c2. destruct (bool_decide (pl_header _ = "")); apply Hq. }
  destruct (env_Stream env); (etrans; [exact Hc|]); [apply served_stream|apply served_completion].
Qed.

(** Every route of the data plane is its caller's own doing. *)
Lemma served_route r body rt (c : chatCtx A) :
  served (TenantID r) (srv c)
    (srv (data_handler adapters poll_now answers upstream clock metrics telemetry expired r body rt c).2).
Proof.
  assert (∀ {X} (f : X → data_answer) (h : handler A X), tame (TenantID r) h →
    served (TenantID r) (srv c) (srv (lift f h c).2)) as Hlift.
  { intros X f h Hh. unfold lift. specialize (Hh (srv c)). by destruct (h (srv c)) as [[x|e] s]. }
  destruct rt; cbn [data_handler]; try apply Hlift.
  - pose proof (served_chat r body c) as Hc. by destruct (handleChatCompletions _ _ _ _ _ _ _ _ _ _ _) as [out c'].
  - apply tame_bind; [apply tame_map_err, tame_catalog|]. intros snap.
    apply tame_bind; [apply tame_aliases|]. intros l. by apply tame_read.
  - apply tame_bind; [apply tame_read; unfold guard; intros s; by destruct (bool_decide _)|]. intros [].
    apply tame_bind; [apply tame_map_err, tame_catalog|]. intros snap.
    destruct (Lookup _ _); [by apply tame_read|]. apply tame_bind; [apply tame_aliases|]. intros l.
    destruct (List.find _ _); by apply tame_read.
  - apply tame_read. intros s. unfold handleUsage, hbind, of_res, asks, map_err.
    destruct (usageWindow r) as [[[w since] until]|e]; simpl; [|done].
    destruct (quotaSlots _ _ _ _); simpl; [|done]. by destruct (foldl _ _ _).
  - apply tame_read. intros s. unfold handleUsageBreakdown, hbind, of_res, asks, map_err.
    destruct (usageWindow r) as [[[w since] until]|e]; simpl; [|done].
    destruct (negb _); simpl; [done|]. by destruct (UsageBreakdown _ _ _ _ _).
  - intros s. pose proof (tame_health r s) as Hh. by destruct (handleHealth _ _ _ _ _) as [sr s'].
  - by apply tame_read.
  - done.
Qed.
End footprint.

(** ** One request of the data plane *)

Section data.
Context `{Unicode} `{JsonStream} `{Crypto} `{HttpDates}.
Context {A : Type} (adapters : gmap string A).
Context (poll_now : nat → Z * Z) (answers : nat → nat → A → Credential → res message (list Model)).
Context (upstream : list (call A) → call A → DoResult) (clock : nat → Z).
Context (metrics telemetry expired : bool).
Context (render : res error data_answer → string).

Abbreviation limiter s := (ls_limiter (sv_limits s)).
Abbreviation handle := (handle_v1 adapters poll_now answers upstream clock metrics telemetry expired render).

(** Two servers alike but for limits and captures. *)
Definition alike (s s' : Server A) : Prop :=
  sv_Config s' = sv_Config s ∧ sv_Store s' = sv_Store s ∧ sv_draining s' = sv_draining s ∧
  sv_Events s' = sv_Events s ∧ sv_Dispatcher s' = sv_Dispatcher s ∧ sv_cache s' = sv_cache s ∧
  sv_Catalog s' = sv_Catalog s.

(** What a request leaves of permits: none, one given back, or one its stream
    holds. *)
Definition permit_trace (permit : option nat) (l l' : concurrencyLimiter) : Prop :=
  (LimitsFacts.counted l → LimitsFacts.counted l') ∧
  match permit with
  | None => permits l' = permits l ∨ ∃ k, permits l' = permits l ++ [(k, true)]
  | Some p => p = length (permits l) ∧ ∃ k, permits l' = permits l ++ [(k, false)]
  end.

Lemma release_last k l l' p : permits l' = permits l ++ [(k, false)] → p = length (permits l) →
  permits (release p l') = permits l ++ [(k, true)].
Proof.
  intros E ->. unfold release. rewrite E, list_lookup_middle by done. cbn [permits].
  rewrite insert_app_r_alt by lia. by rewrite Nat.sub_diag.
Qed.

Lemma acquire_last key lim l p l' : acquire key lim l = (Some p, l') →
  p = length (permits l) ∧ permits l' = permits l ++ [(key, false)].
Proof. unfold acquire. destruct (_ <=? _); [done|]. by intros [= <- <-]. Qed.

Lemma enter_exit cfg now key tenant rq st held st' (out : res error data_answer) :
  limitTenant_enter cfg now key tenant rq st = (Ok held, st') →
  permit_trace (adopt held out).1 (ls_limiter st) (ls_limiter (limitTenant_exit (adopt held out).2 st')) ∧
  ((adopt held out).1 ≠ None → is_stream out = true).
Proof.
  assert (∀ st, permit_trace None (ls_limiter st) (ls_limiter (limitTenant_exit None st))) as Hnone
    by (intros st0; split; [done|by left]).
  destruct key as [key|]; [|by intros [= <- <-]]. destruct tenant as [t|]; [|by intros [= <- <-]].
  intros (p & lim & -> & E)%LimitsFacts.enter_Ok. destruct (acquire_last _ _ _ _ _ E) as [Hp El].
  destruct (is_stream out) eqn:Eo.
  - destruct out as [[[|stm]| | | | | |]|]; try done. split; [|done]. split; [|simpl; eauto].
    intros Hc. by eapply LimitsFacts.counted_acquire.
  - assert (adopt (Some {| sl_adopted := false; sl_release := p |}) out =
      (None, Some {| sl_adopted := false; sl_release := p |})) as -> by (by destruct out as [[[]| | | | | |]|]).
    split; [|done]. split; simpl; unfold releaseUnlessAdopted; cbn [sl_adopted sl_release].
    + intros Hc. apply LimitsFacts.counted_release. by eapply LimitsFacts.counted_acquire.
    + right. exists (k_ID key). by eapply release_last.
Qed.

(** A request under [/v1] past the front gates, as the server sees it. *)
Definition visit (a : arrival) (s s' : Server A) (out : res error data_answer) (permit : option nat)
    (rows : list UsageRecord) : Prop :=
  (s' = s ∧ permit = None ∧ rows = [] ∧ ∃ e, GatewayFacts.credential a s = Err e ∧ out = Err (ErrApi e)) ∨
  ∃ kt s1, GatewayFacts.credential a s = Ok kt ∧ served adapters (TenantID (with_auth (identify a) kt)) s s1 ∧
    alike s1 s' ∧ permit_trace permit (limiter s) (limiter s') ∧ (permit ≠ None → is_stream out = true) ∧
    Forall (row_of_caller (with_auth (identify a) kt)) rows ∧
    match out with Ok (AChat (CStream st)) => st_identity st = identity_of (with_auth (identify a) kt) | _ => True end ∧
    (length rows + (if is_stream out then 1 else 0) ≤ 1)%nat.

Lemma handle_visits a s out permit c :
  handle a (greeted a s) = (out, permit, c) → visit a s (cx_srv c) out permit (cx_recorded c).
Proof.
  destruct (GatewayFacts.greeted_prepared a s) as (Ec0 & Hp & _). rewrite GatewayFacts.handle_gate.
  revert Ec0 Hp. generalize (greeted a s) as c0. intros c0 <- Hp.
  destruct (GatewayFacts.credential a _) as [kt|e] eqn:Eg.
  2:{ intros [= <- <- <-]. left. destruct Hp as (Hr & _). rewrite Hr. eauto 10. }
  unfold GatewayFacts.inside, capturing, limitTenant. set (r := with_auth (identify a) kt). cbv zeta.
  set (on := match hr_tenant r with Some t => dc_Enabled (t_DebugCapture t) | None => false end).
  set (c1 := if on then set_header c0 _ _ else c0).
  assert (cx_srv c1 = cx_srv c0 ∧ cx_recorded c1 = []) as [E1 Er].
  { destruct Hp as (Hr & _). subst c1. by destruct on. }
  rewrite E1. destruct (limitTenant_enter _ _ _ _ _ _) as [got st] eqn:El. destruct got as [held|e].
  - set (c2 := with_srv c1 (set_limits (cx_srv c0) st)).
    pose proof (served_route adapters poll_now answers upstream clock metrics telemetry expired r (ar_body a)
      (ar_route a) c2) as Hs.
    assert (prepared (cx_srv c2) c2) as Hp2.
    { destruct Hp as (P1 & P2 & _ & _ & _ & _ & P6). subst c2 c1. destruct on;
        unfold prepared; simpl; simplify_map_eq; auto 10. }
    pose proof (route_rows adapters poll_now answers upstream clock metrics telemetry expired r (ar_body a)
      (ar_route a) c2 Hp2) as Hrows.
    pose proof (route_one_row adapters poll_now answers upstream clock metrics telemetry expired r (ar_body a)
      (ar_route a) c2 Hp2) as Hone.
    destruct (data_handler _ _ _ _ _ _ _ _ _ _ _ c2) as [o c3]. simpl in Hs.
    destruct (enter_exit _ _ _ _ _ _ _ _ o El) as [Ht Ha]. destruct (adopt held o) as [permit' held'].
    assert (∀ s', sv_limits s' = limitTenant_exit held' (sv_limits (cx_srv c3)) → alike (cx_srv c3) s' →
      visit a (cx_srv c0) s' o permit' (cx_recorded c3)) as Hv.
    { intros s' Elim Hal. right. exists kt, (set_limits (cx_srv c3) (sv_limits (cx_srv c0))).
      split; [done|]. split; [by destruct Hs|]. split; [done|]. rewrite Elim, (sd_limits _ _ _ _ Hs). destruct Hrows. by split_and!. }
    destruct (match o with Err e => panicked e | Ok _ => false end);
      [|destruct (captureDebug _ _ _ _ _ _ _ _ _) as [b caps]]; intros [= <- <- <-]; by apply Hv.
  - assert (∀ s', sv_limits s' = st → alike (cx_srv c0) s' →
      visit a (cx_srv c0) s' (Err (ErrApi e)) None []) as Hv.
    { intros s' Elim Hal. right. exists kt, (cx_srv c0). split; [done|]. split; [done|]. split; [done|]. rewrite Elim.
      rewrite (enter_refused _ _ _ _ _ _ _ _ El). split; [by split; [|left]|]. split_and!; try done. simpl. lia. }
    destruct (panicked _); [|destruct (captureDebug _ _ _ _ _ _ _ _ _) as [b caps]]; intros [= <- <- <-];
      simpl; rewrite Er; by apply Hv.
Qed.
End data.

(** ** One request of the admin plane *)

Section admin.
Context `{Unicode} `{Crypto} `{JsonCodec} `{JsonNumbers} `{NetUrl}.
Context {A : Type} (adapters : gmap string A).
Context (poll_now : nat → Z * Z) (answers : nat → nat → A → Credential → res message (list Model)).

Definition is_flush (o : cop) : Prop := match o with OFlush _ => True | _ => False end.
Definition not_usage (o : mop) : Prop := match o with OpRecordUsage _ => False | _ => True end.

Record administered (r : HttpReq) (auth_now : Z) (s s' : Server A) : Prop := {
  ad_config : sv_Config s' = sv_Config s;
  ad_limits : sv_limits s' = sv_limits s;
  ad_draining : sv_draining s' = sv_draining s;
  ad_dispatcher : sv_Dispatcher s' = sv_Dispatcher s;
  ad_store : ∃ ops, sv_Store s' = run_mem (sv_Store s) ops ∧ fresh_ops (sv_Store s) ops ∧ Forall not_usage ops ∧
    ∀ h, draws_other r (sv_Store s) h → never_minted h (sv_Store s) ops;
  ad_cache : ∃ ops, sv_cache s' = run_cache (sv_cache s) ops ∧ Forall is_flush ops;
  ad_polls : cat_polls (sv_Catalog s') = cat_polls (sv_Catalog s) ∨
    ∃ kt, auth (sv_Config s) (sv_Store s) auth_now PlaneAdmin (hr_header r "Authorization") = Ok kt ∧
      lists_own adapters (with_auth r kt) s s';
  ad_valid : stored_ok (sv_Config s) (sv_Store s) → stored_ok (sv_Config s) (sv_Store s')
}.

Lemma fresh_app m ops ops' : fresh_ops m (ops ++ ops') ↔ fresh_ops m ops ∧ fresh_ops (run_mem m ops) ops'.
Proof. revert m. induction ops as [|o ops IH]; intros m; simpl; [tauto|]. rewrite IH. tauto. Qed.

Lemma never_app h m ops ops' :
  never_minted h m (ops ++ ops') ↔ never_minted h m ops ∧ never_minted h (run_mem m ops) ops'.
Proof. revert m. induction ops as [|o ops IH]; intros m; simpl; [tauto|]. rewrite IH. tauto. Qed.

(** What no operation of the admin plane touches. *)
Lemma run_sop_frame (s : Server A) ops :
  sv_limits (run_sop s ops) = sv_limits s ∧ sv_draining (run_sop s ops) = sv_draining s ∧
  sv_Dispatcher (run_sop s ops) = sv_Dispatcher s ∧
  ∃ cops, sv_cache (run_sop s ops) = run_cache (sv_cache s) cops ∧ Forall is_flush cops.
Proof.
  revert s. induction ops as [|o ops IH]; intros s; simpl; [by split_and!; try exists []|].
  destruct (IH (apply_sop s o)) as (-> & -> & -> & cops & -> & HF).
  assert (∃ c0, sv_cache (apply_sop s o) = run_cache (sv_cache s) c0 ∧ Forall is_flush c0) as (c0 & -> & H0').
  { destruct o as [| | |t| |]; try (by exists []). exists [OFlush t]. by repeat constructor. }
  split_and!; try by destruct o. exists (c0 ++ cops). unfold run_cache. rewrite foldl_app. split; [done|]. by apply Forall_app.
Qed.

Lemma allowed_not_usage mints cfg r ops :
  Forall (allowed mints cfg r) ops → Forall not_usage (omap store_op ops).
Proof.
  induction 1 as [|o ops Ho HF IH]; [constructor|]. destruct o as [o| | | | |]; simpl; try done.
  constructor; [|done]. by destruct o.
Qed.

Lemma allowed_valid mints cfg r ops m :
  Forall (allowed mints cfg r) ops → stored_ok cfg m → stored_ok cfg (run_mem m (omap store_op ops)).
Proof.
  intros HF. revert m. induction HF as [|o ops Ho HF IH]; intros m Hm; [done|].
  destruct o; simpl; try by apply IH. apply IH. by eapply stored_step.
Qed.

Lemma audit_valid cfg m rnd at_ e : stored_ok cfg m → stored_ok cfg (RecordAudit m rnd at_ e).
Proof. intros []. by split. Qed.

Lemma serve_administers r rt auth_now rnd at_ (s : Server A) :
  fresh_draws r (sv_Store s) →
  administered r auth_now s (serve_admin adapters poll_now answers r rt auth_now rnd at_ s).2.
Proof.
  intros Hf. unfold serve_admin, auditMutations. destruct (auth _ _ _ _ _) as [kt|e] eqn:Ea.
  2:{ split; try done; [by exists []..|by left]. }
  pose proof (handle_lists adapters poll_now answers (with_auth r kt) rt s) as Hli.
  destruct (handle_ops adapters poll_now answers (with_auth r kt) rt s) as (ops & HF & Hfr & Hnm & Eo).
  destruct (handle _ _ _ _ _ s) as [out s'] eqn:Eh. simpl in Eo, Hli. subst s'. specialize (Hfr Hf).
  destruct (run_sop_frame s ops) as (L & D & I & cops & C & HC).
  pose proof (run_sop_store s ops) as Es. pose proof (run_sop_config s ops) as Ec.
  destruct (auditAction _) as [act|]; [simpl|]; split; simpl; rewrite ?Es; try done; eauto.
  - eexists (omap store_op ops ++ [OpRecordAudit rnd at_ _]). unfold run_mem at 2. rewrite foldl_app. split; [done|].
    rewrite fresh_app. split; [by repeat split|]. split.
    + apply Forall_app. split; [by eapply allowed_not_usage|by repeat constructor].
    + intros h Hh. rewrite never_app. split; [by apply Hnm|done].
  - intros Hv. apply audit_valid. by eapply allowed_valid.
  - eauto 10 using allowed_not_usage.
  - intros Hv. by eapply allowed_valid.
Qed.
End admin.

(** ** What emitting an event changes *)

Section emitting.
Context `{Unicode} `{JsonCodec} `{JsonNumbers} `{Crypto} {A : Type}.

(** Events are recorded in the store and offered to the dispatcher; nothing else
    of the server changes. *)
Definition announced (s s' : Server A) : Prop :=
  ∃ evs d, s' = set_dispatch_events (set_store s (run_mem (sv_Store s) (OpRecordEvent <$> evs))) d.

Lemma announced_none s : announced s s.
Proof. exists [], (sv_Events s). by destruct s. Qed.

Lemma emit_one_announces draw e (s : Server A) : announced s (emit_one draw e s).
Proof.
  unfold emit_one. destruct (sv_Events s) as [d|] eqn:Ed; [|apply announced_none]. destruct e as [[t typ] data].
  destruct (Emit_store draw.1 draw.2 t typ data (sv_Store s) d) as [d' ->]. by eexists [_], _.
Qed.

Lemma announced_trans s1 s2 s3 : announced s1 s2 → announced s2 s3 → announced s1 s3.
Proof.
  intros (e1 & d1 & ->) (e2 & d2 & ->). exists (e1 ++ e2), d2. rewrite fmap_app. unfold run_mem. by rewrite foldl_app.
Qed.

Lemma emit_all_announces draws es (s : Server A) : announced s (emit_all draws es s).
Proof.
  unfold emit_all. generalize (imap pair es) as l. intros l. revert s.
  induction l as [|ie l IH]; intros s; [apply announced_none|]. cbn [foldl].
  eapply announced_trans; [apply emit_one_announces|apply IH].
Qed.

Lemma event_ops_fresh m evs : fresh_ops m (OpRecordEvent <$> evs).
Proof. revert m. induction evs as [|e evs IH]; intros m; [done|]. by split. Qed.

Lemma event_ops_quiet h m evs : never_minted h m (OpRecordEvent <$> evs).
Proof. revert m. induction evs as [|e evs IH]; intros m; [done|]. by split. Qed.

Lemma event_ops_not_usage evs : Forall not_usage (OpRecordEvent <$> evs).
Proof. induction evs; by constructor. Qed.

Lemma event_ops_valid `{NetUrl} cfg m evs : stored_ok cfg m → stored_ok cfg (run_mem m (OpRecordEvent <$> evs)).
Proof. revert m. induction evs as [|e evs IH]; intros m Hm; [done|]. apply IH. destruct Hm. by split. Qed.
End emitting.

(** ** Invariants of the store and the cache under their operations *)

Section invariants.
Context `{Unicode} `{JsonStream} `{Crypto}.

(** Tenants are named by generated ids. *)
Definition ids_clean (m : Memory) : Prop := ∀ id, is_Some (mem_tenants m !! id) → str_has zero id = false.

Lemma NewID_clean rnd : str_has zero (NewID IDTenant rnd) = false.
Proof. unfold NewID. rewrite !str_has_app, hex_encode_has by done. done. Qed.

(** Where tenants and usage rows come from. *)
Lemma origins m o :
  (∀ id, is_Some (mem_tenants (apply_mop m o) !! id) → is_Some (mem_tenants m !! id) ∨ ∃ rnd, id = NewID IDTenant rnd) ∧
  (not_usage o → ∀ t u, u ∈ at_key (mem_usage (apply_mop m o)) t → u ∈ at_key (mem_usage m) t).
Proof.
  destruct o as [| | |rk ri now t' p n sc ex| | | | | | | | | | | | | | |]; simpl.
  4: { destruct (CreateAPIKey_spec m rk ri now t' p n sc ex) as [_ Hc].
    destruct (CreateAPIKey m rk ri now t' p n sc ex) as [[r m']|]; [|by auto].
    specialize (Hc r m' eq_refl). destruct r as [[k pt]|e]; [|subst; by auto].
    destruct Hc as (_ & _ & _ & _ & _ & _ & _ & _ & _ & _ & _ & _ & ->). by auto. }
  all: unfold CreateTenant, UpdateTenant, DeleteTenant, RevokeAPIKey, CreateProvider,
      UpdateProvider, DeleteProvider, UpsertAlias, DeleteAlias, UpsertRoute, DeleteRoute, SetQuota,
      DeleteQuota, CreateWebhook, DeleteWebhook;
    repeat (case_match; simpl; try by auto); simplify_eq/=; (split; [intros tid|intros Hn tu u]); try done; try by auto.
  all: try (rewrite lookup_insert_is_Some; naive_solver).
  all: try (rewrite lookup_delete_is_Some; naive_solver).
  all: unfold at_key; destruct (decide (tu = id)) as [->|?];
    [rewrite lookup_delete_eq; simpl; by intros ?%elem_of_nil|by rewrite lookup_delete_ne].
Qed.

Lemma ids_clean_run m ops : ids_clean m → ids_clean (run_mem m ops).
Proof.
  revert m. induction ops as [|o ops IH]; intros m Hm; [done|]. apply IH. intros id Hid.
  destruct (proj1 (origins m o) id Hid) as [?|[rnd ->]]; [by apply Hm|apply NewID_clean].
Qed.

Lemma usage_run m ops t u : Forall not_usage ops → u ∈ at_key (mem_usage (run_mem m ops)) t → u ∈ at_key (mem_usage m) t.
Proof.
  intros HF. revert m. induction HF as [|o ops Ho HF IH]; intros m; [done|].
  intros Hu%IH. by apply (origins m o).
Qed.

Lemma pushed_usage m rec t u :
  u ∈ at_key (mem_usage (RecordUsage m rec)) t → u ∈ at_key (mem_usage m) t ∨ u = rec.
Proof.
  unfold RecordUsage. cbn [mem_usage set_usage]. unfold at_key at 1.
  destruct (decide (t = u_TenantID rec)) as [->|?]; [|rewrite lookup_insert_ne by done; by left].
  rewrite lookup_insert_eq. cbn [default from_option id]. intros Hu.
  assert (Forall (λ x, x ∈ at_key (mem_usage m) (u_TenantID rec) ∨ x = rec)
    (push_bounded maxMemoryUsageRecords (at_key (mem_usage m) (u_TenantID rec)) rec)) as HF.
  { apply Forall_push_bounded; [|by right]. apply Forall_forall. by left. }
  rewrite Forall_forall in HF. by apply HF.
Qed.

(** The cache under the operations requests perform. *)
Lemma cache_fine_step c o : cache_fine c → cache_fine (apply_cop c o).
Proof.
  destruct c as [c|]; [|by destruct o]. intros [Hok Hb].
  destruct (cache_step c ((λ it, (it_tenant it, it_entry it, it_expires it)) <$> c_items c) o Hok Hb)
    as (c' & -> & ? & ? & _); [|done].
  intros k it E. by rewrite lookup_fmap, E.
Qed.

Lemma cache_fine_run c ops : cache_fine c → cache_fine (run_cache c ops).
Proof. revert c. induction ops as [|o ops IH]; intros c Hc; [done|]. apply IH. by apply cache_fine_step. Qed.

Lemma flush_shrunk c t : cache_fine c → shrunk c (CFlush c t).2.
Proof.
  destruct c as [c|]; [|done]. intros [Hok Hb]. destruct (CFlush_ok c t Hok Hb) as (c' & -> & Hok' & _ & _ & _ & Ho).
  intros c2 k it [= <-] [Hin Hk]%(co_items _ Hok'). exists c. split; [done|]. apply (co_items _ Hok).
  rewrite Ho, list_elem_of_In, filter_In, <-list_elem_of_In in Hin. tauto.
Qed.

Lemma keyed_run t c ops : str_has zero t = false → cache_fine c → ChatFacts.keyed c →
  Forall (λ o, filed t o ∨ is_flush o) ops → ChatFacts.keyed (run_cache c ops).
Proof.
  intros Ht Hc Hk HF. revert c Hc Hk. induction HF as [|o ops Ho HF IH]; intros c Hc Hk; [done|].
  apply IH; [by apply cache_fine_step|]. destruct o as [now k|now t' k e ttl|t']; cbn [apply_cop].
  - eapply ChatFacts.keyed_shrunk; [apply CGet_shrunk|done].
  - destruct Ho as [[-> [payload Hkey]]|[]]. intros c2 k' it Ec Hi.
    destruct (CPut_items _ _ _ _ _ _ _ _ _ Ec Hi) as [(-> & -> & ->)|(c0 & -> & Hi0)]; [|by eapply Hk]. eauto.
  - eapply ChatFacts.keyed_shrunk; [by apply flush_shrunk|done].
Qed.
End invariants.
