(* ===== verification/SystemProps.v ===== *)
(** * Theorems about the whole gateway

    One invariant for everything a run of the machine can reach: the store, the
    cache, the breaker, the permits, the books. On it rest the statements about
    whole runs: usage is conserved from the request that caused it to the store,
    tenants' credentials stay with their tenants, a drain only winds down. *)

From S2P Require Import Prelude GoStrings GoTime GoFloat GoFormat ApiErr StoreTypes Keys Json Memory MemoryFacts MemoryProps Provider Breaker Catalog Resolve Dispatch DispatchFacts Diagnose Cache Config Limits Quota Middleware Capture Telemetry Events Server Data Admin AdminFacts AdminProps Chat ChatProps Gateway GatewayProps OpenAI OpenAIProps App AppProps System SystemFacts.
From Stdlib Require Import Ascii.

#[local] Open Scope Z_scope.
#[local] Open Scope stdpp_scope.
#[local] Open Scope gate_scope.

Section sound.
Context `{Unicode} `{JsonStream} `{Crypto} `{HttpDates} `{JsonNumbers} `{NetUrl}.
Context {A : Type} (adapters : gmap string A).

Abbreviation limiter s := (ls_limiter (sv_limits s)).

(** ** The server *)

Record server_sound (s : Server A) : Prop := {
  ss_store : mem_ok (sv_Store s);
  ss_ids : ids_clean (sv_Store s);
  ss_valid : stored_ok (sv_Config s) (sv_Store s);
  ss_cache : cache_fine (sv_cache s);
  ss_keyed : ChatFacts.keyed (sv_cache s);
  ss_breaker : wf (d_breaker (sv_Dispatcher s))
}.

(** The tenant an authenticated request acts for. *)
Lemma credential_tenant a (s : Server A) kt :
  mem_ok (sv_Store s) → ids_clean (sv_Store s) → GatewayFacts.credential a s = Ok kt →
  str_has zero (TenantID (with_auth (identify a) kt)) = false.
Proof.
  intros Hm Hi Hg. destruct (GatewayFacts.credential_key _ _ _ Hm Hg) as (_ & (ptr & _ & _ & _ & Ho) & _ & _ & ->).
  destruct Ho as [(-> & _)|Ht]; [done|]. by apply Hi.
Qed.

Lemma visit_sound a s s' out permit rows :
  visit adapters a s s' out permit rows → server_sound s → server_sound s'.
Proof.
  intros [(-> & _)|(kt & s1 & Hg & Hs & Ha & _)] Hok; [done|]. destruct Hok as [S1 S2 S3 S4 S5 S6].
  pose proof (credential_tenant a s kt S1 S2 Hg) as Hz.
  destruct Hs as [C1 St _ _ _ (ops & B1) _ _ (cops & X1 & F1)]. destruct Ha as (Ec & Es & _ & _ & Ed & Ex & _).
  assert (Forall (λ o, filed (TenantID (with_auth (identify a) kt)) o ∨ is_flush o) cops) as HF
    by (eapply Forall_impl; [exact F1|]; by left).
  split; rewrite ?Ec, ?Es, ?Ed, ?Ex, ?C1, ?St, ?B1, ?X1; try done.
  - by apply cache_fine_run.
  - by eapply keyed_run.
  - by apply run_wf.
Qed.

Lemma admin_sound r now s s' : administered adapters r now s s' → server_sound s → server_sound s'.
Proof.
  intros [Ec _ _ Ed (ops & Es & Hf & _) (cops & Ex & HF) _ Hv] [S1 S2 S3 S4 S5 S6].
  split; rewrite ?Ec, ?Ed, ?Ex; auto.
  - rewrite Es. by apply run_mem_ok.
  - rewrite Es. by apply ids_clean_run.
  - by apply cache_fine_run.
  - apply (keyed_run ""); try done. eapply Forall_impl; [exact HF|]. by right.
Qed.

(** A usage row that reaches the store. *)
Lemma usage_sound s rec : server_sound s → server_sound (set_store s (RecordUsage (sv_Store s) rec)).
Proof.
  intros [S1 S2 [] S4 S5 S6]. split; cbn [sv_Store sv_Config sv_cache sv_Dispatcher set_store]; try done.
  by apply (apply_mop_ok _ (OpRecordUsage rec)).
Qed.

(** An event that is emitted. *)
Lemma announced_sound s s' : announced s s' → server_sound s → server_sound s'.
Proof.
  intros (evs & d & ->) [S1 S2 S3 S4 S5 S6]. split; cbn [sv_Store sv_Config sv_cache sv_Dispatcher set_store set_dispatch_events]; try done.
  - apply run_mem_ok; [done|apply event_ops_fresh].
  - by apply ids_clean_run.
  - by apply event_ops_valid.
Qed.

(** ** The permits *)

(** The permits out are those the open streams hold. *)
Record permits_sound (l : concurrencyLimiter) (held : list nat) : Prop := {
  ps_counted : LimitsFacts.counted l;
  ps_nodup : NoDup held;
  ps_held p : (∃ k, permits l !! p = Some (k, false)) ↔ p ∈ held
}.

Lemma permits_request permit l l' held :
  permit_trace permit l l' → permits_sound l held → permits_sound l' (held ++ option_list permit).
Proof.
  intros [Hc Ht] [P1 P2 P3]. split; [by apply Hc|..].
  - destruct permit as [p|]; simpl; [|by rewrite app_nil_r]. destruct Ht as [-> _].
    apply NoDup_app. split_and!; [done| |by apply NoDup_singleton]. intros q [k Hq]%P3 ->%list_elem_of_singleton.
    apply lookup_lt_Some in Hq. lia.
  - intros p. destruct permit as [q|]; simpl; rewrite ?app_nil_r.
    + destruct Ht as [-> (k & ->)]. rewrite elem_of_app, <-P3, list_elem_of_singleton. split.
      * intros [k' Hp]. apply lookup_app_Some in Hp as [?|[? Hp]]; [eauto|right].
        apply list_lookup_singleton_Some in Hp as [? _]. lia.
      * intros [[k' Hp]| ->]; [exists k'; by apply lookup_app_l_Some|]. exists k. by apply list_lookup_middle.
    + destruct Ht as [->|(k & ->)]; [done|]. rewrite <-P3. split; [|intros [k' ?]; exists k'; by apply lookup_app_l_Some].
      intros [k' Hp]. apply lookup_app_Some in Hp as [?|[_ Hp]]; [eauto|].
      by apply list_lookup_singleton_Some in Hp as [_ ?].
Qed.

Lemma permits_release p l held held' :
  permits_sound l held → held ≡ₚ p :: held' → permits_sound (release p l) held'.
Proof.
  intros [P1 P2 P3] Hp. rewrite Hp in P2. apply NoDup_cons in P2 as [Hn P2].
  split; [by apply LimitsFacts.counted_release|done|]. intros q.
  assert (p ∈ held) as [k Hk]%P3 by (rewrite Hp; by left).
  unfold release. rewrite Hk. cbn [permits]. destruct (decide (q = p)) as [->|Hne].
  - rewrite list_lookup_insert_eq by (by eapply lookup_lt_Some). split; [by intros [k' ?]|done].
  - rewrite list_lookup_insert_ne by done. rewrite P3, Hp, elem_of_cons. naive_solver.
Qed.

(** ** The books *)

Record books_sound (m : Memory) (t : Telemetry) (metered : list UsageRecord) : Prop := {
  bs_ledger : ∃ l, rtc ledger_step no_ledger l ∧ implements t l ∧ lg_offered l = metered;
  bs_counter : is_Some (tm_metrics t);
  bs_store ten u : u ∈ at_key (mem_usage m) ten → u ∈ tm_persisted t
}.

Lemma meter_rows_run now now' rows t :
  Telemetry.run t ((λ row, ERecord row now now') <$> rows) = Some (meter_rows now now' rows t) ∧
  offered ((λ row, ERecord row now now') <$> rows) = rows.
Proof.
  revert t. induction rows as [|row rows IH]; intros t; [done|]. destruct (IH (Record_ t row now now')) as [E1 E2].
  split; [exact E1|]. change (row :: offered ((λ row, ERecord row now now') <$> rows) = row :: rows). by rewrite E2.
Qed.

Lemma persisted_grows t e t' : Telemetry.step t e = Some t' → ∃ more, tm_persisted t' = tm_persisted t ++ more.
Proof.
  intros Hs. destruct e; simpl in Hs; repeat case_match; simplify_eq/=;
    unfold Record_, Telemetry.deliver, delivered, drain; repeat case_match; simpl;
    try (by exists []; rewrite app_nil_r); try (by eexists).
  all: match goal with
       | |- context [warn ?t ?a ?b] => destruct (TelemetryFacts.warn_books t a b) as (_ & _ & _ & _ & _ & ->)
       | |- context [warnStalled ?t ?r ?n ?a ?b] =>
           destruct (TelemetryFacts.warnStalled_books t r n a b) as (_ & _ & _ & _ & _ & ->)
       end; exists []; by rewrite app_nil_r.
Qed.

Lemma persisted_now t rec now now' t' : in_hand t = Some rec →
  Telemetry.step t (ESink None now now') = Some t' → rec ∈ tm_persisted t'.
Proof.
  unfold in_hand. simpl. destruct (tm_stage t); try done. intros [= ->] [= <-].
  unfold Telemetry.deliver, delivered. repeat case_match; simpl; rewrite elem_of_app; right; by left.
Qed.

Lemma books_step m m' t e t' metered :
  Telemetry.step t e = Some t' → offered [e] = [] →
  (∀ ten u, u ∈ at_key (mem_usage m') ten → u ∈ at_key (mem_usage m) ten ∨ u ∈ tm_persisted t') →
  books_sound m t metered → books_sound m' t' metered.
Proof.
  intros Hs He Hu [(l & Hl & Hi & Ho) Hm Hst]. split.
  - destruct (TelemetryFacts.step_refines _ _ _ _ Hs Hi) as (l' & Hl' & Ho' & Hi'). exists l'. split_and!; [|done|].
    + destruct Hl' as [->|?]; [done|]. by eapply rtc_r.
    + by rewrite Ho', Ho, He, app_nil_r.
  - by eapply TelemetryFacts.step_metrics.
  - intros ten u [Hin|Hin]%Hu; [|done]. destruct (persisted_grows _ _ _ Hs) as (more & ->).
    apply elem_of_app. left. by apply (Hst ten).
Qed.

Lemma books_move m t e t' m' metered :
  Telemetry.step t e = Some t' → sink_store t e m = Some m' → books_sound m t metered →
  books_sound m' t' metered.
Proof.
  intros Hs Hk. apply (books_step _ _ _ e); [done|by destruct e|]. intros ten u Hu.
  destruct e as [| | | |err n n'| |]; simpl in Hk; simplify_eq/=; try by left.
  destruct err, (in_hand t) as [rec|] eqn:Eh; simplify_eq.
  destruct (pushed_usage m rec ten u Hu) as [?| ->]; [by left|right; by apply (persisted_now t rec n n')].
Qed.

Lemma books_announced (s s' : Server A) t metered :
  announced s s' → books_sound (sv_Store s) t metered → books_sound (sv_Store s') t metered.
Proof.
  intros (evs & d & ->) [B1 B2 B3]. split; [done..|]. intros ten u Hu. apply (B3 ten).
  revert Hu. apply usage_run, event_ops_not_usage.
Qed.

Lemma sink_cases t e m m' : sink_store t e m = Some m' → m' = m ∨ ∃ rec, m' = RecordUsage m rec.
Proof.
  destruct e as [| | | |err n n'| |]; simpl; intros; simplify_eq; auto.
  destruct err, (in_hand t); simplify_eq/=; eauto.
Qed.

Lemma books_meter m m' t now now' rows metered :
  (∀ ten u, u ∈ at_key (mem_usage m') ten → u ∈ at_key (mem_usage m) ten) →
  books_sound m t metered → books_sound m' (meter_rows now now' rows t) (metered ++ rows).
Proof.
  intros Hsub [(l & Hl & Hi & Ho) Hm Hst]. destruct (meter_rows_run now now' rows t) as [Er Eo]. split.
  - destruct (TelemetryFacts.run_refines _ _ _ _ Er Hi) as (l' & Hl' & Ho' & Hi'). exists l'. rewrite Ho', Ho, Eo.
    split_and!; try done. by etrans.
  - by eapply TelemetryFacts.run_metrics.
  - intros ten u Hu%Hsub%Hst. clear -Hu Er. revert t Hu Er.
    induction rows as [|row rows IH]; intros t Hu Er; [done|]. cbn [meter_rows foldl]. apply (IH (Record_ t row now now')).
    + destruct (persisted_grows t (ERecord row now now') _ eq_refl) as (more & ->). apply elem_of_app. by left.
    + exact Er.
Qed.
End sound.

(** ** The machine *)

Module MachineFacts.

Section props.
Context `{Unicode} `{JsonStream} `{Crypto} `{HttpDates} `{JsonNumbers} `{NetUrl}.
Context {A : Type} (adapters : gmap string A).

Abbreviation limiter s := (ls_limiter (sv_limits s)).
Abbreviation step := (sys_step adapters).
Abbreviation run := (sys_run adapters).

(** The permits of the streams still open. *)
Definition held (s : system A) : list nat := omap os_permit (sy_streams s).

Record sound (s : system A) (metered : list UsageRecord) : Prop := {
  sn_server : server_sound (sy_server s);
  sn_permits : permits_sound (limiter (sy_server s)) (held s);
  sn_books : books_sound (sv_Store (sy_server s)) (sy_telemetry s) metered
}.

(** The draws of an admin request repeat neither a key id nor a credential. *)
Definition lucky_event (s : system A) (e : sys_event A) : Prop :=
  match e with
  | EvServe i _ _ _ =>
      match sy_inflight s !! i with
      | Some (a, AdminPlane _ _ _) => fresh_draws (ar_req a) (sv_Store (sy_server s))
      | _ => True
      end
  | _ => True
  end.

(** Something true of every event of a run, where it happens. *)
Fixpoint along (P : system A → sys_event A → Prop) (s : system A) (es : list (sys_event A)) : Prop :=
  match es with
  | [] => True
  | e :: es => P s e ∧ ∀ s' rows, step s e = Some (s', rows) → along P s' es
  end.
Abbreviation lucky := (along lucky_event).

(** What a request is to the server. *)
Lemma request_cases w a to s out permit c :
  serve_request adapters w a to s = (out, permit, c) →
  (to = DataPlane ∧ ∃ x, visit adapters a s (cx_srv c) x permit (cx_recorded c) ∧ out = (let! y := x in Ok (RData y))) ∨
  (to ≠ DataPlane ∧ permit = None ∧ cx_recorded c = [] ∧ stream_of out = None ∧
   (cx_srv c = s ∨ ∃ rt rnd at_, to = AdminPlane rt rnd at_ ∧
      cx_srv c = (serve_admin adapters (su_poll_now w) (su_answers w) (identify a) rt (ar_auth a) rnd at_ s).2)).
Proof.
  destruct (GatewayFacts.greeted_prepared a s) as (Es & (Er & _) & _).
  destruct to as [| | |rt rnd at_|]; cbn [serve_request]; unfold off_data; rewrite ?Es.
  - intros [= <- <- <-]. right. rewrite Es, Er. by auto 10.
  - destruct (negb _); [|destruct (metricsAuth _ _)]; intros [= <- <- <-]; right; rewrite Es, Er; by auto 10.
  - destruct (handle_v1 _ _ _ _ _ _ _ _ _ _ _) as [[x p] c0] eqn:E. intros [= <- <- <-].
    left. split; [done|]. apply handle_visits in E. eauto.
  - destruct (serve_admin _ _ _ _ _ _ _ _ _) as [o s'] eqn:E. intros [= <- <- <-]. right. cbn [cx_srv cx_recorded with_srv].
    rewrite Er. split_and!; try done; [by destruct o|]. right. exists rt, rnd, at_. by rewrite E.
  - intros [= <- <- <-]. right. rewrite Es, Er. by auto 10.
Qed.

(** A stream is left open exactly with the permit it holds. *)
Lemma request_held w a to s out permit c streams :
  serve_request adapters w a to s = (out, permit, c) →
  omap os_permit (streams ++ match stream_of out with Some st => [mkOpen st permit] | None => [] end)
  = omap os_permit streams ++ option_list permit.
Proof.
  intros Hr. rewrite omap_app. f_equal. destruct (request_cases _ _ _ _ _ _ _ Hr) as [(_ & x & Hv & ->)|(_ & -> & _ & -> & _)]; [|done].
  destruct permit as [p|]; [|by destruct x as [[[]| | | | | |]|]]. assert (is_stream x = true) as Hx.
  { destruct Hv as [(_ & ? & _)|(kt & s1 & _ & _ & _ & _ & Hst & _)]; [done|]. by apply Hst. }
  by destruct x as [[[]| | | | | |]|].
Qed.

(** What serving a request in flight makes of the system. *)
Lemma serve_step s i w now now' s' rows :
  step s (EvServe i w now now') = Some (s', rows) →
  ∃ a to out permit c, sy_inflight s !! i = Some (a, to) ∧
    serve_request adapters w a to (sy_server s) = (out, permit, c) ∧ rows = cx_recorded c ∧
    announced (cx_srv c) (sy_server s') ∧ sy_inflight s' = delete i (sy_inflight s) ∧
    sy_streams s' = sy_streams s ++ match stream_of out with Some st => [mkOpen st permit] | None => [] end ∧
    sy_telemetry s' = meter_rows now now' rows (sy_telemetry s) ∧ sy_crashed s' = false.
Proof.
  unfold sys_step. destruct (sy_crashed s); [done|]. destruct (sy_inflight s !! i) as [[a to]|]; [|done]. simpl.
  unfold serve_inflight. destruct (serve_request _ _ _ _ _) as [[out permit] c] eqn:Er. intros [= <- <-].
  exists a, to, out, permit, c. split_and!; try done. apply emit_all_announces.
Qed.

(** What a request does to the server, whichever plane it is for. *)
Lemma request_effect s i w now now' s' rows :
  lucky_event s (EvServe i w now now') → step s (EvServe i w now now') = Some (s', rows) →
  ∃ a to srv, sy_inflight s !! i = Some (a, to) ∧ announced srv (sy_server s') ∧
    (srv = sy_server s ∨
     (∃ kt s1, to = DataPlane ∧ GatewayFacts.credential a (sy_server s) = Ok kt ∧
        served adapters (TenantID (with_auth (identify a) kt)) (sy_server s) s1 ∧ alike s1 srv) ∨
     (∃ rt rnd at_, to = AdminPlane rt rnd at_ ∧ administered adapters (identify a) (ar_auth a) (sy_server s) srv)).
Proof.
  intros Hl Hs. destruct (serve_step _ _ _ _ _ _ _ Hs) as (a & to & out & permit & c & Hi & Er & _ & Ha & _).
  exists a, to, (cx_srv c). split_and!; [done..|]. simpl in Hl. rewrite Hi in Hl.
  destruct (request_cases _ _ _ _ _ _ _ Er) as [(-> & x & Hv & ->)|(Hto & -> & Hrow & _ & Hsrv)].
  - destruct Hv as [(-> & _)|(kt & s1 & ? & ? & ? & _)]; [by left|]. right; left. eauto 10.
  - destruct Hsrv as [->|(rt & rnd & at_ & -> & ->)]; [by left|]. right; right. exists rt, rnd, at_. split; [done|].
    by apply serve_administers.
Qed.

Lemma request_sound s i w now now' rows s' metered :
  lucky_event s (EvServe i w now now') → step s (EvServe i w now now') = Some (s', rows) →
  sound s metered → sound s' (metered ++ rows).
Proof.
  intros Hl Hs [S1 S2 S3]. destruct (request_effect _ _ _ _ _ _ _ Hl Hs) as (a & to & srv & Hi & _ & _).
  destruct (serve_step _ _ _ _ _ _ _ Hs) as (a' & to' & out & permit & c & Hi' & Er & -> & Ha & _ & Est & Et & _).
  simpl in Hl. rewrite Hi' in Hl. clear a to srv Hi.
  pose proof (request_held _ _ _ _ _ _ _ (sy_streams s) Er) as Hh. rewrite <-Est in Hh.
  assert (server_sound (cx_srv c) ∧ permit_trace permit (limiter (sy_server s)) (limiter (cx_srv c)) ∧
    ∀ ten u, u ∈ at_key (mem_usage (sv_Store (cx_srv c))) ten → u ∈ at_key (mem_usage (sv_Store (sy_server s))) ten)
    as (Q1 & Q2 & Q3).
  { destruct (request_cases _ _ _ _ _ _ _ Er) as [(-> & x & Hv & ->)|(Hto & -> & Hrow & _ & Hsrv)].
    - split; [by eapply visit_sound|]. destruct Hv as [(-> & -> & _)|(kt & s1 & _ & Hsv & Hal & Hp & _)].
      { split; [split; [done|by left]|done]. }
      split; [done|]. destruct Hal as (_ & -> & _). by rewrite (sd_store _ _ _ _ Hsv).
    - destruct Hsrv as [->|(rt & rnd & at_ & -> & Esrv)]; [split_and!; [done|split; [done|by left]|done]|].
      pose proof (serve_administers adapters (su_poll_now w) (su_answers w) (identify a') rt (ar_auth a') rnd at_
        (sy_server s) Hl) as Had. rewrite <-Esrv in Had. split; [by eapply admin_sound|].
      split; [split; [by rewrite (ad_limits _ _ _ _ _ Had)|left; by rewrite (ad_limits _ _ _ _ _ Had)]|].
      intros ten u. destruct (ad_store _ _ _ _ _ Had) as (ops & -> & _ & Hn & _). by apply usage_run. }
  split.
  - by eapply announced_sound.
  - unfold held. rewrite Hh. destruct Ha as (evs & d & ->). by apply (permits_request permit (limiter (sy_server s))).
  - rewrite Et. apply (books_announced (cx_srv c)); [done|]. by apply (books_meter (sv_Store (sy_server s))).
Qed.

Lemma stream_writer_srv st accepts now d1 d2 reads bytes (c c' : chatCtx A) :
  stream_writer true true st accepts now d1 d2 reads c = Some (bytes, Some c') → cx_srv c' = cx_srv c.
Proof.
  unfold stream_writer, Chat.record. destruct (relaySSE _ _ _ _) as [[[[o u] stalled] err]|]; [|done].
  destruct (true && _); [done|]. by intros [= _ <-].
Qed.

(** The end of a stream gives its permit back and changes nothing else of the
    server. *)
Lemma finish_srv st permit accepts now d1 d2 reads bytes (c c' : chatCtx A) :
  finish_stream true true st permit accepts now d1 d2 reads c = Some (bytes, Some c') →
  alike (cx_srv c) (cx_srv c') ∧
  limiter (cx_srv c') = match permit with Some p => release p (limiter (cx_srv c)) | None => limiter (cx_srv c) end.
Proof.
  unfold finish_stream. destruct (stream_writer _ _ _ _ _ _ _ _ c) as [[bs [c3|]]|] eqn:Ew; [|done..].
  apply stream_writer_srv in Ew. intros [= _ <-]. destruct permit as [p|]; simpl; by rewrite Ew.
Qed.

Lemma alike_sound s s' : alike s s' → server_sound s → server_sound (A := A) s'.
Proof.
  intros (Ec & Es & _ & _ & Ed & Ex & _) [? ? ? ? ? ?]. split; by rewrite ?Ec, ?Es, ?Ed, ?Ex.
Qed.

Lemma stream_sound s i accepts now d1 d2 reads now1 now2 s' rows metered :
  step s (EvStreamEnds i accepts now d1 d2 reads now1 now2) = Some (s', rows) →
  sound s metered → sound s' (metered ++ rows).
Proof.
  intros Hs [S1 S2 S3]. unfold sys_step in Hs. destruct (sy_crashed s); [done|].
  destruct (sy_streams s !! i) as [o|] eqn:Eo; [|done]. simpl in Hs.
  destruct (finish_stream _ _ _ _ _ _ _ _ _ _) as [[bytes [c|]]|] eqn:Ef; [| |done]; simpl in Hs; injection Hs as <- <-.
  2:{ rewrite app_nil_r. by split. }
  apply finish_srv in Ef as [Ha El]. cbn [cx_srv new_ctx] in Ha, El. split; cbn [sy_server sy_streams sy_telemetry].
  - by eapply alike_sound.
  - assert (held s ≡ₚ option_list (os_permit o) ++ omap os_permit (delete i (sy_streams s))) as Hp.
    { unfold held. rewrite (delete_Permutation _ _ _ Eo) at 1. simpl. by destruct (os_permit o). }
    rewrite El. unfold held. cbn [sy_streams]. destruct (os_permit o) as [p|]; [by eapply permits_release|].
    simpl in Hp. destruct S2 as [P1 P2 P3]. split; [done|by rewrite <-Hp|]. intros q. by rewrite <-Hp.
  - apply (books_meter (sv_Store (sy_server s))); [|done]. intros ten u. by destruct Ha as (_ & -> & _).
Qed.

Lemma step_sound s e s' rows metered :
  lucky_event s e → step s e = Some (s', rows) → sound s metered → sound s' (metered ++ rows).
Proof.
  intros Hl Hs Hok. destruct e as [a to|i w now now'|i acc now d1 d2 reads n1 n2|e|i rnd now|i m|now| | |];
    [|by eapply request_sound|by eapply stream_sound|..];
    unfold sys_step in Hs; destruct (sy_crashed s); try done; destruct Hok as [S1 S2 S3].
  - destruct (front_gates a _); injection Hs as <- <-; rewrite app_nil_r; by split.
  - destruct (Telemetry.step _ e) as [t|] eqn:Et; [|done]. simpl in Hs.
    destruct (sink_store _ _ _) as [m|] eqn:Em; [|done]. simpl in Hs. injection Hs as <- <-. rewrite app_nil_r.
    split; cbn [sy_server sy_streams sy_telemetry on_usage]; [|done|by eapply books_move].
    destruct (sink_cases _ _ _ _ Em) as [->|[rec ->]].
    + destruct S1. by split.
    + by apply usage_sound.
  - destruct (sy_pending s !! i) as [[|e es]|]; [done| |done]. injection Hs as <- <-. rewrite app_nil_r.
    pose proof (emit_one_announces (rnd, now) e (sy_server s)) as Ha.
    split; cbn [sy_server sy_streams sy_telemetry]; [by eapply announced_sound| |by eapply books_announced].
    unfold held. cbn [sy_streams]. by destruct Ha as (evs & d & ->).
  - destruct (sv_Events _) as [d|]; [|done]. simpl in Hs. destruct (wstep d i m) as [d'|]; [|done]. injection Hs as <- <-.
    rewrite app_nil_r. split; [destruct S1; by split|done|done].
  - injection Hs as <- <-. rewrite app_nil_r. split; [destruct S1; by split|done|done].
  - injection Hs as <- <-. rewrite app_nil_r. split; [destruct S1; by split|done|done].
  - destruct (negb _); [done|]. injection Hs as <- <-. rewrite app_nil_r. split; [destruct S1; by split|done|].
    by apply (books_step (sv_Store (sy_server s)) _ (sy_telemetry s) EClose); [..|auto|].
  - destruct (negb _); [done|]. injection Hs as <- <-. rewrite app_nil_r. split; [destruct S1; by split|done|done].
Qed.

Lemma run_sound s es s' rows metered :
  lucky s es → run s es = Some (s', rows) → sound s metered → sound s' (metered ++ rows).
Proof.
  revert s rows metered. induction es as [|e es IH]; intros s rows metered; [by intros _ [= <- <-]; rewrite app_nil_r|].
  intros [Hl Hls]. cbn [sys_run]. destruct (step s e) as [[s1 r1]|] eqn:E; [|done]. cbn [mbind option_bind fst snd].
  destruct (run s1 es) as [[s2 r2]|] eqn:Er; [|done]. intros [= <- <-] Hs. rewrite app_assoc.
  eapply IH; [by eapply Hls|done|by eapply step_sound].
Qed.

(** As many permits of a key are out as open streams hold. *)
Lemma permits_of_streams l held k :
  permits_sound l held →
  LimitsFacts.open l k = Z.of_nat (length (filter (λ p, permits l !! p = Some (k, false)) held)).
Proof.
  intros [_ Hn Hp]. unfold LimitsFacts.open. f_equal. rewrite (filter_positions (k, false)).
  apply Permutation_length, NoDup_Permutation; [apply NoDup_filter, NoDup_seq|by apply NoDup_filter|].
  intros p. rewrite !list_elem_of_filter, <-Hp, elem_of_seq. split; [naive_solver|]. intros [E _].
  split; [done|]. apply lookup_lt_Some in E. lia.
Qed.

(** *** Who was let in *)

(** The data-plane request an event admits. *)
Definition admitted (s : system A) (e : sys_event A) : option HttpReq :=
  match e with
  | EvServe i _ _ _ =>
      match sy_inflight s !! i with
      | Some (a, DataPlane) =>
          match GatewayFacts.credential a (sy_server s) with
          | Ok kt => Some (with_auth (identify a) kt)
          | Err _ => None
          end
      | _ => None
      end
  | _ => None
  end.

Fixpoint admissions (s : system A) (es : list (sys_event A)) : list HttpReq :=
  match es with
  | [] => []
  | e :: es => option_list (admitted s e) ++
      match step s e with Some (s', _) => admissions s' es | None => [] end
  end.

(** The open streams are those of requests that were let in. *)
Definition known (seen : list HttpReq) (s : system A) : Prop :=
  Forall (λ o, ∃ r, r ∈ seen ∧ st_identity (os_stream o) = identity_of r) (sy_streams s).
Definition attributed (seen : list HttpReq) (rows : list UsageRecord) : Prop :=
  Forall (λ row, ∃ r, r ∈ seen ∧ row_of_caller r row) rows.

Lemma known_more seen more s : known seen s → known (seen ++ more) s.
Proof.
  intros HF. eapply Forall_impl; [exact HF|]. intros x (r & ? & ?). exists r. rewrite elem_of_app. auto.
Qed.
Lemma attributed_more seen more rows : attributed seen rows → attributed (seen ++ more) rows.
Proof.
  intros HF. eapply Forall_impl; [exact HF|]. intros x (r & ? & ?). exists r. rewrite elem_of_app. auto.
Qed.

Lemma serve_attributed s i w now now' s' rows seen :
  let e := EvServe i w now now' in
  step s e = Some (s', rows) → known seen s →
  known (seen ++ option_list (admitted s e)) s' ∧ attributed (seen ++ option_list (admitted s e)) rows.
Proof.
  intros e Hs Hk. pose proof (known_more seen (option_list (admitted s e)) s Hk) as Hk'.
  destruct (serve_step _ _ _ _ _ _ _ Hs) as (a & to & out & permit & c & Hi & Er & -> & _ & _ & Est & _).
  unfold known. rewrite Est. subst e. simpl in *. rewrite Hi in *.
  destruct (request_cases _ _ _ _ _ _ _ Er) as [(-> & x & Hv & ->)|(Hto & -> & Hrow & Eno & _)].
  2:{ rewrite Eno, Hrow. rewrite app_nil_r. split; [exact Hk'|constructor]. }
  destruct Hv as [(_ & _ & -> & e & Hg & ->)|(kt & s1 & Hg & _ & _ & _ & _ & Hrows & Hid & _)]; rewrite Hg in Hk' |- *.
  { simpl. rewrite !app_nil_r. split; [exact Hk|constructor]. }
  assert (with_auth (identify a) kt ∈ seen ++ [with_auth (identify a) kt]) as Hin
    by (apply elem_of_app; right; by left).
  split; [|eapply Forall_impl; [exact Hrows|]; eauto]. apply Forall_app. split; [done|].
  destruct x as [[[|st]| | | | | |]|]; simpl; repeat constructor. eauto.
Qed.

Lemma step_attributed s e s' rows seen :
  step s e = Some (s', rows) → known seen s →
  known (seen ++ option_list (admitted s e)) s' ∧ attributed (seen ++ option_list (admitted s e)) rows.
Proof.
  intros Hs Hk. destruct e as [a to|i w now now'|i acc now d1 d2 reads n1 n2|e|i rnd now|i m|now| | |];
    [|by eapply serve_attributed|..]; cbn [admitted option_list]; rewrite app_nil_r;
    unfold sys_step in Hs; destruct (sy_crashed s); try done.
  - destruct (front_gates a _); injection Hs as <- <-; (split; [exact Hk|constructor]).
  - destruct (sy_streams s !! i) as [o|] eqn:Eo; [|done]. simpl in Hs.
    destruct (finish_stream _ _ _ _ _ _ _ _ _ _) as [[bytes [c|]]|] eqn:Ef; [| |done]; simpl in Hs; injection Hs as <- <-;
      [|split; [exact Hk|constructor]].
    split; [by apply Forall_delete|].
    destruct (Forall_lookup_1 _ _ _ _ Hk Eo) as (r & Hr & Hi). unfold finish_stream in Ef.
    destruct (stream_writer _ _ _ _ _ _ _ _ _) as [[bs [c3|]]|] eqn:Ew; [|done..].
    apply (stream_writer_rows _ _ _ _ _ _ _ _ _ r) in Ew; [|done|constructor]. injection Ef as _ <-.
    eapply Forall_impl; [|intros row Hrow; exists r; split; [exact Hr|exact Hrow]]. by destruct (os_permit o).
  - destruct (Telemetry.step _ e) as [t|]; [|done]. simpl in Hs.
    destruct (sink_store _ _ _) as [m|]; [|done]. injection Hs as <- <-. split; [exact Hk|constructor].
  - destruct (sy_pending s !! i) as [[|e es]|]; [done| |done]. injection Hs as <- <-. split; [exact Hk|constructor].
  - destruct (sv_Events _) as [d|]; [|done]. simpl in Hs. destruct (wstep d i m) as [d'|]; [|done].
    injection Hs as <- <-. split; [exact Hk|constructor].
  - injection Hs as <- <-. split; [exact Hk|constructor].
  - injection Hs as <- <-. split; [exact Hk|constructor].
  - destruct (negb _); [done|]. injection Hs as <- <-. split; [exact Hk|constructor].
  - destruct (negb _); [done|]. injection Hs as <- <-. split; [exact Hk|constructor].
Qed.

Lemma run_attributed s es s' rows seen :
  run s es = Some (s', rows) → known seen s → attributed (seen ++ admissions s es) rows.
Proof.
  revert s rows seen. induction es as [|e es IH]; intros s rows seen; [by intros [= <- <-]; constructor|].
  cbn [sys_run admissions]. destruct (step s e) as [[s1 r1]|] eqn:E; [|done]. cbn [mbind option_bind fst snd].
  destruct (run s1 es) as [[s2 r2]|] eqn:Er; [|done]. intros [= <- <-] Hk.
  destruct (step_attributed _ _ _ _ _ E Hk) as [Hk1 Hr1]. rewrite app_assoc. apply Forall_app. split.
  - by apply attributed_more.
  - by apply (IH s1 r2).
Qed.

(** *** What is sent upstream *)

Abbreviation sent s := (d_calls (sv_Dispatcher (sy_server s))).
Abbreviation asked s := (cat_polls (sv_Catalog (sy_server s))).

(** The store gained usage rows and event records and nothing else. *)
Definition log_op (o : mop) : Prop := match o with OpRecordUsage _ | OpRecordEvent _ => True | _ => False end.
Definition logs_only (s s' : system A) : Prop :=
  ∃ ops, sv_Store (sy_server s') = run_mem (sv_Store (sy_server s)) ops ∧ Forall log_op ops.

Lemma logs_nothing s s' : sv_Store (sy_server s') = sv_Store (sy_server s) → logs_only s s'.
Proof. intros E. by exists []. Qed.

Lemma logs_trans s1 s2 s3 : logs_only s1 s2 → logs_only s2 s3 → logs_only s1 s3.
Proof.
  intros (o1 & E1 & F1) (o2 & E2 & F2). exists (o1 ++ o2). unfold run_mem in *. rewrite E2, E1, foldl_app.
  split; [done|]. by apply Forall_app.
Qed.

Lemma event_ops_log evs : Forall log_op (OpRecordEvent <$> evs).
Proof. induction evs; by constructor. Qed.

(** What an event that serves no request leaves alone: nothing is sent or listed
    and the drain is not undone; the store is only logged to; at most one stream
    ends. *)
Record aside (s s' : system A) (rows : list UsageRecord) : Prop := {
  as_sent : sent s' = sent s;
  as_asked : asked s' = asked s;
  as_draining : sv_draining (sy_server s) = true → sv_draining (sy_server s') = true;
  as_config : sv_Config (sy_server s') = sv_Config (sy_server s);
  as_store : logs_only s s';
  as_streams : sy_streams s' `sublist_of` sy_streams s;
  as_rows : (length rows + length (sy_streams s') = length (sy_streams s))%nat
}.

Lemma stream_aside s i acc now d1 d2 reads n1 n2 s' rows :
  step s (EvStreamEnds i acc now d1 d2 reads n1 n2) = Some (s', rows) →
  aside s s' rows ∧ sy_inflight s' = sy_inflight s.
Proof.
  intros Hs. unfold sys_step in Hs. destruct (sy_crashed s); [done|].
  destruct (sy_streams s !! i) as [o|] eqn:Eo; [|done]. simpl in Hs.
  destruct (finish_stream _ _ _ _ _ _ _ _ _ _) as [[bytes [c|]]|] eqn:Ef; [| |done]; simpl in Hs; injection Hs as <- <-;
    [|split; [split; try done; by apply logs_nothing|done]].
  assert (length (cx_recorded c) = 1%nat) as Hl.
  { unfold finish_stream in Ef. destruct (stream_writer _ _ _ _ _ _ _ _ _) as [[bs [c3|]]|] eqn:Ew; [|done..].
    injection Ef as _ <-. unfold stream_writer, Chat.record in Ew.
    destruct (relaySSE _ _ _ _) as [[[[o' u] stalled] err]|]; [|done]. destruct (true && _); [done|].
    injection Ew as _ <-. by destruct (os_permit o). }
  apply finish_srv in Ef as ((Ec & Es & Ed & _ & Ei & _ & Ek) & _). split; [|done].
  split; cbn [sy_server sy_streams]; rewrite ?Ec, ?Ed, ?Ei, ?Ek, ?Hl; try done.
  - apply logs_nothing. exact Es.
  - by apply sublist_delete.
  - rewrite length_delete by by eexists. apply lookup_lt_Some in Eo. lia.
Qed.

Lemma step_aside s e s' rows :
  step s e = Some (s', rows) → (∀ i w now now', e ≠ EvServe i w now now') →
  aside s s' rows ∧ (sy_inflight s' = sy_inflight s ∨
    ∃ a to, e = EvArrive a to ∧ front_gates a (sy_server s) = Ok () ∧ sy_inflight s' = sy_inflight s ++ [(a, to)]).
Proof.
  intros Hs Hne.
  assert (∀ srv t p, sv_Dispatcher srv = sv_Dispatcher (sy_server s) → sv_Catalog srv = sv_Catalog (sy_server s) →
    (sv_draining (sy_server s) = true → sv_draining srv = true) → sv_Config srv = sv_Config (sy_server s) →
    logs_only s (on_server s srv) → aside s (mkSystem srv (sy_inflight s) (sy_streams s) t p false) []) as Hone.
  { intros srv t p E1 E2 E3 E4 E5. split; cbn [sy_server sy_streams]; rewrite ?E1, ?E2; done. }
  destruct e as [a to|i w now now'|i acc now d1 d2 reads n1 n2|e|i rnd now|i m|now| | |];
    [|by destruct (Hne i w now now')|apply stream_aside in Hs as [? ?]; auto|..];
    unfold sys_step in Hs; destruct (sy_crashed s) eqn:Ecr; try done.
  - destruct (front_gates a _) as [[]|] eqn:Ef; injection Hs as <- <-.
    + split; [split; try done; by apply logs_nothing|]. right. eauto.
    + split; [split; try done; by apply logs_nothing|by left].
  - destruct (Telemetry.step _ e) as [t|]; [|done]. simpl in Hs.
    destruct (sink_store _ _ _) as [m|] eqn:Em; [|done]. injection Hs as <- <-. unfold on_usage. rewrite Ecr.
    split; [apply Hone; try done|by left].
    destruct (sink_cases _ _ _ _ Em) as [->|[rec ->]]; [by apply logs_nothing|]. exists [OpRecordUsage rec].
    by repeat constructor.
  - destruct (sy_pending s !! i) as [[|e es]|]; [done| |done]. injection Hs as <- <-.
    destruct (emit_one_announces (rnd, now) e (sy_server s)) as (evs & d & ->).
    split; [apply Hone; try done|by left]. eexists. split; [done|apply event_ops_log].
  - destruct (sv_Events _) as [d|]; [|done]. simpl in Hs. destruct (wstep d i m) as [d'|]; [|done]. injection Hs as <- <-.
    unfold on_server. rewrite Ecr. split; [apply Hone; try done; by apply logs_nothing|by left].
  - injection Hs as <- <-. unfold on_server. rewrite Ecr. split; [apply Hone; try done; by apply logs_nothing|by left].
  - injection Hs as <- <-. unfold on_server. rewrite Ecr. split; [apply Hone; try done; by apply logs_nothing|by left].
  - destruct (negb _); [done|]. injection Hs as <- <-. unfold on_usage. rewrite Ecr.
    split; [apply Hone; try done; by apply logs_nothing|by left].
  - destruct (negb _); [done|]. injection Hs as <- <-. unfold on_server. rewrite Ecr.
    split; [apply Hone; try done; by apply logs_nothing|by left].
Qed.

(** The calls and listings of one event, and whose they are. *)
Definition lists_for (s : system A) (e : sys_event A) (l : listing_call) : Prop :=
  own_listing adapters (ListProviders (sv_Store (sy_server s)) (lc_Tenant l)) l ∧
  ((∃ r, admitted s e = Some r ∧ lc_Tenant l = TenantID r) ∨
   ∃ i w now now' a rt rnd at_ kt, e = EvServe i w now now' ∧ sy_inflight s !! i = Some (a, AdminPlane rt rnd at_) ∧
     auth (sv_Config (sy_server s)) (sv_Store (sy_server s)) (ar_auth a) PlaneAdmin (hr_header (ar_req a) "Authorization")
       = Ok kt ∧ may_touch (with_auth (identify a) kt) (lc_Tenant l)).

Lemma step_calls s e s' rows :
  lucky_event s e → step s e = Some (s', rows) →
  (∃ cs, sent s' = sent s ++ cs ∧ Forall (λ c, ∃ r streaming, admitted s e = Some r ∧
     own_call adapters (TenantID r) streaming (sv_Store (sy_server s)) c) cs) ∧
  ∃ ps, asked s' = asked s ++ ps ∧ Forall (lists_for s e) ps.
Proof.
  assert (∀ P : call A → Prop, sent s' = sent s → ∃ cs, sent s' = sent s ++ cs ∧ Forall P cs) as Hnone.
  { intros P ->. exists []. by rewrite app_nil_r. }
  assert (∀ P : listing_call → Prop, asked s' = asked s → ∃ ps, asked s' = asked s ++ ps ∧ Forall P ps) as Hnone'.
  { intros P ->. exists []. by rewrite app_nil_r. }
  intros Hl Hs. destruct e as [|i w now now'| | | | | | | |];
    [destruct (step_aside _ _ _ _ Hs ltac:(done)) as [[] _]; split; [by apply Hnone|by apply Hnone']| |
     destruct (step_aside _ _ _ _ Hs ltac:(done)) as [[] _]; split; [by apply Hnone|by apply Hnone']..].
  destruct (request_effect _ _ _ _ _ _ _ Hl Hs) as (a & to & srv & Hi & (evs & d & Es') & Hcase).
  assert (sent s' = d_calls (sv_Dispatcher srv) ∧ asked s' = cat_polls (sv_Catalog srv)) as [E1 E2] by (by rewrite Es').
  destruct Hcase as [->|[(kt & s1 & -> & Hg & Hsv & Hal)|(rt & rnd & at_ & -> & Ha)]].
  - split; [by apply Hnone|by apply Hnone'].
  - assert (admitted s (EvServe i w now now') = Some (with_auth (identify a) kt)) as Hadm by (simpl; by rewrite Hi, Hg).
    destruct Hal as (_ & _ & _ & _ & Ed & _ & Ek). rewrite E1, E2, Ed, Ek. split.
    + destruct (sd_calls _ _ _ _ Hsv) as (cs & E & HF). exists cs. split; [done|].
      eapply Forall_impl; [exact HF|]. intros c [streaming Hc]. eauto.
    + destruct (sd_polls _ _ _ _ Hsv) as (ps & E & HF). exists ps. split; [done|].
      eapply Forall_impl; [exact HF|]. intros l [Et Ho]. split; [by rewrite Et|]. left. eauto.
  - split; [apply Hnone; by rewrite E1, (ad_dispatcher _ _ _ _ _ Ha)|].
    destruct (ad_polls _ _ _ _ _ Ha) as [E|(kt & Hkt & ps & E & HF)]; [apply Hnone'; by rewrite E2|].
    exists ps. rewrite E2. split; [done|]. eapply Forall_impl; [exact HF|]. intros l [Ht Ho]. split; [done|].
    right. exists i, w, now, now', a, rt, rnd, at_, kt. by split_and!.
Qed.

(** *** A revoked credential *)

(** No admin request mints this hash again. *)
Definition draws_elsewhere (h : string) (s : system A) (e : sys_event A) : Prop :=
  match e with
  | EvServe i _ _ _ =>
      match sy_inflight s !! i with
      | Some (a, AdminPlane _ _ _) => draws_other (ar_req a) (sv_Store (sy_server s)) h
      | _ => True
      end
  | _ => True
  end.

Lemma dead_logs h m ops : Forall log_op ops → mem_ok m → dead m h → dead (run_mem m ops) h.
Proof.
  intros HF Hm. apply dead_run; [done|..]; clear Hm; revert m; induction HF as [|o ops Ho HF IH]; intros m; try done;
    (split; [by destruct o|apply IH]).
Qed.

Lemma step_dead h s e s' rows :
  lucky_event s e → draws_elsewhere h s e → step s e = Some (s', rows) → mem_ok (sv_Store (sy_server s)) →
  dead (sv_Store (sy_server s)) h → dead (sv_Store (sy_server s')) h.
Proof.
  intros Hl Ho Hs Hm Hd.
  assert (logs_only s s' → dead (sv_Store (sy_server s')) h) as Hlog.
  { intros (ops & -> & HF). by apply dead_logs. }
  destruct e as [|i w now now'| | | | | | | |];
    [destruct (step_aside _ _ _ _ Hs ltac:(done)) as [[] _]; by apply Hlog| |
     destruct (step_aside _ _ _ _ Hs ltac:(done)) as [[] _]; by apply Hlog..].
  destruct (request_effect _ _ _ _ _ _ _ Hl Hs) as (a & to & srv & Hi & (evs & d & ->) & Hcase).
  cbn [sv_Store set_dispatch_events set_store]. simpl in Ho. rewrite Hi in Ho.
  enough (mem_ok (sv_Store srv) ∧ dead (sv_Store srv) h) as [? ?] by (by apply dead_logs; [apply event_ops_log|..]).
  destruct Hcase as [->|[(kt & s1 & -> & Hg & Hsv & Hal)|(rt & rnd & at_ & -> & Ha)]]; [done|..].
  - destruct Hal as (_ & -> & _). by rewrite (sd_store _ _ _ _ Hsv).
  - destruct (ad_store _ _ _ _ _ Ha) as (ops & -> & Hf & _ & Hn). split; [by apply run_mem_ok|].
    apply dead_run; [done..|by apply Hn|done].
Qed.

Lemma dead_gate h a (s : Server A) kt :
  mem_ok (sv_Store s) → dead (sv_Store s) h → GatewayFacts.credential a s = Ok kt → k_Hash kt.1 ≠ h.
Proof.
  intros Hm Hd Hg <-. destruct (GatewayFacts.credential_key _ _ _ Hm Hg) as (_ & (ptr & Hh & _ & Hb & _) & Ha & _).
  apply (Hd ptr kt.1 Hb Hh). unfold Active in Ha. by destruct (k_RevokedAt kt.1).
Qed.

Lemma run_dead h s es s' rows metered :
  along (λ s e, lucky_event s e ∧ draws_elsewhere h s e) s es → run s es = Some (s', rows) → sound s metered →
  dead (sv_Store (sy_server s)) h →
  Forall (λ r, ∀ k, hr_key r = Some k → k_Hash k ≠ h) (admissions s es) ∧ mem_ok (sv_Store (sy_server s')) ∧
  dead (sv_Store (sy_server s')) h.
Proof.
  revert s rows metered. induction es as [|e es IH]; intros s rows metered.
  { intros _ [= <- <-] Hs Hd. split; [constructor|]. split; [apply Hs|done]. }
  intros [[Hl Ho] Hal]. cbn [sys_run admissions]. destruct (step s e) as [[s1 r1]|] eqn:E; [|done].
  cbn [mbind option_bind fst snd]. destruct (run s1 es) as [[s2 r2]|] eqn:Er; [|done]. intros [= <- <-] Hs Hd.
  pose proof (ss_store _ (sn_server _ _ Hs)) as Hm.
  destruct (IH s1 r2 (metered ++ r1)) as (H1' & H2' & H3'); [by eapply Hal|done|by eapply step_sound|by eapply step_dead|].
  split; [|done]. apply Forall_app. split; [|done]. destruct e as [|i w now now'| | | | | | | |]; simpl; try constructor.
  destruct (sy_inflight s !! i) as [[a []]|]; simpl; try constructor.
  destruct (GatewayFacts.credential a _) as [kt|] eqn:Eg; repeat constructor. intros k [= <-]. exact (dead_gate _ _ _ _ Hm Hd Eg).
Qed.

(** *** Draining *)

(** A request the router could have sent here. *)
Definition routed_event (s : system A) (e : sys_event A) : Prop :=
  match e with
  | EvArrive a to => addressed (sv_Config (sy_server s)) to (hr_path (ar_req a))
  | _ => True
  end.

(** The metrics page is outside both planes. *)
Definition metrics_apart (cfg : Config) : Prop :=
  HasPrefix (metricsPath (me_Path (cf_Metrics cfg))) "/v1/" = false ∧
  HasPrefix (metricsPath (me_Path (cf_Metrics cfg))) "/admin/v1/" = false.

(** Requests of the two planes, and those of each. *)
Definition of_data (x : arrival * target) : bool := match x.2 with DataPlane => true | _ => false end.
Definition of_admin (x : arrival * target) : bool := match x.2 with AdminPlane _ _ _ => true | _ => false end.
Definition working (x : arrival * target) : bool := of_data x || of_admin x.
Abbreviation at_work l := (List.filter working l).

(** The request of a plane an event serves, and those a run serves. *)
Definition taken (s : system A) (e : sys_event A) : list (arrival * target) :=
  match e with
  | EvServe i _ _ _ => at_work (option_list (sy_inflight s !! i))
  | _ => []
  end.
Fixpoint served_in (s : system A) (es : list (sys_event A)) : list (arrival * target) :=
  match es with
  | [] => []
  | e :: es => taken s e ++ match step s e with Some (s', _) => served_in s' es | None => [] end
  end.

Lemma drain_gate cfg to path :
  metrics_apart cfg → addressed cfg to path → (to = DataPlane ∨ ∃ rt rnd at_, to = AdminPlane rt rnd at_) →
  is_ok (refuseWhenDraining cfg true path) = false.
Proof.
  intros [M1 M2] Ha Hto. unfold refuseWhenDraining. cbn [negb].
  case_bool_decide as E1; [subst path; by destruct Hto as [->|(? & ? & ? & ->)]|].
  case_bool_decide as E2; [|done]. subst path. destruct Hto as [->|(? & ? & ? & ->)]; simpl in Ha; congruence.
Qed.

(** While the server drains nothing of either plane passes the front gates. *)
Lemma drain_arrival a to (s : Server A) :
  metrics_apart (sv_Config s) → addressed (sv_Config s) to (hr_path (ar_req a)) → sv_draining s = true →
  front_gates a s = Ok () → working (a, to) = false.
Proof.
  intros Hm Ha Hd. unfold front_gates. rewrite Hd. change (hr_path (identify a)) with (hr_path (ar_req a)).
  destruct to as [| | |rt rnd at_|]; try done.
  - pose proof (drain_gate _ DataPlane _ Hm Ha ltac:(by left)) as Hg. by destruct (refuseWhenDraining _ _ _).
  - pose proof (drain_gate _ (AdminPlane rt rnd at_) _ Hm Ha ltac:(eauto)) as Hg. by destruct (refuseWhenDraining _ _ _).
Qed.

(** What a draining server still does: it serves what was in flight, each request
    for a row or a stream at most, and what it does not serve it does not do. *)
Record winds_down (s : system A) (taken : list (arrival * target)) (s' : system A) (rows : list UsageRecord) : Prop := {
  wd_draining : sv_draining (sy_server s') = true;
  wd_config : sv_Config (sy_server s') = sv_Config (sy_server s);
  wd_inflight : at_work (sy_inflight s) ≡ₚ taken ++ at_work (sy_inflight s');
  wd_rows : (length rows + length (sy_streams s') ≤ length (sy_streams s) + length (List.filter of_data taken))%nat;
  wd_quiet : taken = [] → asked s' = asked s;
  wd_data : List.filter of_data taken = [] → sent s' = sent s ∧ sy_streams s' `sublist_of` sy_streams s ∧
    (length rows + length (sy_streams s') = length (sy_streams s))%nat;
  wd_admin : List.filter of_admin taken = [] → logs_only s s'
}.

Lemma winds_nothing s : sv_draining (sy_server s) = true → winds_down s [] s [].
Proof. intros Hd. split; try done; simpl; try lia. intros _. by apply logs_nothing. Qed.

Lemma winds_trans s1 t1 s2 r1 t2 s3 r2 :
  winds_down s1 t1 s2 r1 → winds_down s2 t2 s3 r2 → winds_down s1 (t1 ++ t2) s3 (r1 ++ r2).
Proof.
  intros [A1 A2 A3 A4 A5 A6 A7] [B1 B2 B3 B4 B5 B6 B7]. split; rewrite ?length_app, ?List.filter_app, ?length_app.
  - done.
  - congruence.
  - by rewrite A3, B3, app_assoc.
  - lia.
  - intros [-> ->]%app_nil. by rewrite B5, A5.
  - intros [E1 E2]%app_nil. destruct (A6 E1) as (X1 & ? & ?), (B6 E2) as (X2 & ? & ?).
    split_and!; [congruence|by etrans|lia].
  - intros [E1 E2]%app_nil. eapply logs_trans; eauto.
Qed.

Lemma at_work_delete l i (x : arrival * target) : l !! i = Some x →
  at_work l ≡ₚ at_work [x] ++ at_work (delete i l).
Proof.
  intros Hi. rewrite delete_take_drop. rewrite <-(take_drop_middle _ _ _ Hi) at 1. rewrite !List.filter_app. simpl.
  destruct (working x); [|done]. simpl. by rewrite Permutation_middle.
Qed.

Lemma drain_serve s i w now now' s' rows :
  lucky_event s (EvServe i w now now') → sv_draining (sy_server s) = true →
  step s (EvServe i w now now') = Some (s', rows) → winds_down s (taken s (EvServe i w now now')) s' rows.
Proof.
  intros Hl Hd Hs. destruct (request_effect _ _ _ _ _ _ _ Hl Hs) as (a & to & srv & Hi & (evs & d & Esrv) & Hcase).
  destruct (serve_step _ _ _ _ _ _ _ Hs) as (a' & to' & out & permit & c & Hi' & Er & -> & _ & Ein & Est & _).
  rewrite Hi in Hi'. injection Hi' as <- <-. simpl. rewrite Hi. cbn [option_list].
  assert (logs_only s s' ∨ of_admin (a, to) = true) as Hlog.
  { destruct Hcase as [->|[(kt & s1 & -> & _ & Hsv & _ & Est' & _)|(rt & rnd & at_ & -> & _)]]; [left..|by right].
    - eexists. split; [by rewrite Esrv|apply event_ops_log].
    - exists (OpRecordEvent <$> evs). rewrite Esrv. cbn. rewrite Est', (sd_store _ _ _ _ Hsv). split; [done|apply event_ops_log]. }
  assert (sv_draining srv = true ∧ sv_Config srv = sv_Config (sy_server s)) as [Ed Ec].
  { destruct Hcase as [->|[(kt & s1 & -> & _ & Hsv & Ec & _ & Ed & _)|(rt & rnd & at_ & -> & Ha)]]; [done|..].
    - by rewrite Ec, Ed, (sd_config _ _ _ _ Hsv), (sd_draining _ _ _ _ Hsv).
    - by rewrite (ad_config _ _ _ _ _ Ha), (ad_draining _ _ _ _ _ Ha). }
  assert (of_data (a, to) = false → cx_recorded c = [] ∧ stream_of out = None ∧ sent s' = sent s) as Hoff.
  { intros Hof. destruct (request_cases _ _ _ _ _ _ _ Er) as [(-> & _)|(_ & _ & Hrow & Hst & _)]; [done|].
    split_and!; [done..|]. rewrite Esrv. destruct Hcase as [->|[(kt & s1 & -> & _)|(rt & rnd & at_ & -> & Ha)]]; try done.
    apply (f_equal d_calls (ad_dispatcher _ _ _ _ _ Ha)). }
  assert (length (cx_recorded c) + length (match stream_of out with Some st => [mkOpen st permit] | None => [] end) ≤ 1)%nat as Hone.
  { destruct (request_cases _ _ _ _ _ _ _ Er) as [(_ & x & Hv & ->)|(_ & _ & -> & -> & _)]; [|simpl; lia].
    destruct Hv as [(_ & _ & -> & e & _ & ->)|(kt & s1 & _ & _ & _ & _ & _ & _ & _ & Hv)]; [simpl; lia|].
    destruct x as [[[]| | | | | |]|]; simpl in *; lia. }
  split; rewrite ?Est, ?Ein, ?length_app.
  - by rewrite Esrv.
  - by rewrite Esrv.
  - by apply at_work_delete.
  - simpl. unfold working. destruct (of_data (a, to)) eqn:Eo; simpl; [rewrite Eo; simpl; lia|].
    destruct (Hoff eq_refl) as (-> & -> & _). simpl. lia.
  - simpl. destruct (working (a, to)) eqn:Ew; [done|]. intros _. rewrite Esrv.
    destruct Hcase as [->|[(kt & s1 & -> & _)|(rt & rnd & at_ & -> & _)]]; done.
  - intros Hf. destruct (of_data (a, to)) eqn:Eo.
    { simpl in Hf. unfold working in Hf. rewrite Eo in Hf. simpl in Hf. by rewrite Eo in Hf. }
    destruct (Hoff eq_refl) as (-> & -> & Hsent). rewrite app_nil_r. simpl. split_and!; [exact Hsent|done|lia].
  - intros Hf. destruct Hlog as [?|Eo]; [done|]. simpl in Hf. unfold working in Hf. rewrite Eo, orb_true_r in Hf.
    simpl in Hf. by rewrite Eo in Hf.
Qed.

Lemma drain_step s e s' rows :
  metrics_apart (sv_Config (sy_server s)) → routed_event s e → lucky_event s e → sv_draining (sy_server s) = true →
  step s e = Some (s', rows) → winds_down s (taken s e) s' rows.
Proof.
  intros Hm Hr Hl Hd Hs.
  destruct (match e with EvServe _ _ _ _ => true | _ => false end) eqn:Ee.
  { destruct e as [|i w now now'| | | | | | | |]; try done. by apply drain_serve. }
  assert (taken s e = []) as -> by (by destruct e).
  destruct (step_aside _ _ _ _ Hs ltac:(intros ? ? ? ? ->; done)) as [[A1 A2 A3 A4 A5 A6 A7] Hin].
  split; try done; [by apply A3| |simpl; lia].
  destruct Hin as [->|(a & to & -> & Hf & ->)]; [done|]. simpl in Hr. rewrite List.filter_app. simpl.
  by rewrite (drain_arrival a to _ Hm Hr Hd Hf), app_nil_r.
Qed.

Lemma drain_run s es s' rows :
  metrics_apart (sv_Config (sy_server s)) → along (λ s e, routed_event s e ∧ lucky_event s e) s es →
  sv_draining (sy_server s) = true → run s es = Some (s', rows) → winds_down s (served_in s es) s' rows.
Proof.
  revert s rows. induction es as [|e es IH]; intros s rows Hm; [intros _ ? [= <- <-]; by apply winds_nothing|].
  intros [[Hr Hl] Hal] Hd. cbn [sys_run served_in]. destruct (step s e) as [[s1 r1]|] eqn:E; [|done]. cbn [mbind option_bind fst snd].
  destruct (run s1 es) as [[s2 r2]|] eqn:Er; [|done]. intros [= <- <-].
  pose proof (drain_step _ _ _ _ Hm Hr Hl Hd E) as Hw. eapply winds_trans; [exact Hw|].
  apply IH; [by rewrite (wd_config _ _ _ _ Hw)|by eapply Hal|apply Hw|done].
Qed.

(** Whoever a run admits is among those it serves. *)
Lemma admissions_served s es :
  Forall (λ r, ∃ a kt, (a, DataPlane) ∈ served_in s es ∧ r = with_auth (identify a) kt) (admissions s es).
Proof.
  revert s. induction es as [|e es IH]; intros s; [constructor|]. cbn [admissions served_in]. apply Forall_app. split.
  - destruct e as [|i w now now'| | | | | | | |]; simpl; try constructor.
    destruct (sy_inflight s !! i) as [[a []]|]; simpl; try constructor.
    destruct (GatewayFacts.credential _ _) as [kt|]; simpl; repeat constructor. exists a, kt. split; [by left|done].
  - destruct (step s e) as [[s1 r1]|]; [|constructor]. eapply Forall_impl; [apply IH|].
    intros r (a & kt & Ha & ->). exists a, kt. split; [apply elem_of_app; by right|done].
Qed.

(** *** Winding down *)

Definition not_arrival (e : sys_event A) : Prop := match e with EvArrive _ _ => False | _ => True end.
Definition not_request (e : sys_event A) : Prop := match e with EvArrive _ _ | EvServe _ _ _ _ => False | _ => True end.

Lemma not_requests_arrive es : Forall not_request es → Forall not_arrival es.
Proof. intros HF. eapply Forall_impl; [exact HF|]. by intros []. Qed.

Lemma not_requests_draw s es : Forall not_request es → lucky s es.
Proof.
  intros HF. revert s. induction HF as [|e es He HF IH]; intros s; [done|]. split; [by destruct e|]. eauto.
Qed.

Lemma run_cons s e es s1 r1 s2 r2 :
  step s e = Some (s1, r1) → run s1 es = Some (s2, r2) → run s (e :: es) = Some (s2, r1 ++ r2).
Proof. intros E1 E2. cbn [sys_run]. rewrite E1. cbn [mbind option_bind fst snd]. by rewrite E2. Qed.

Lemma run_trans s es es' s1 r1 s2 r2 :
  run s es = Some (s1, r1) → run s1 es' = Some (s2, r2) → run s (es ++ es') = Some (s2, r1 ++ r2).
Proof.
  revert s r1. induction es as [|e es IH]; intros s r1; [by intros [= <- <-]|]. cbn [sys_run Datatypes.app].
  destruct (step s e) as [[s0 r0]|]; [|done]. cbn [mbind option_bind fst snd].
  destruct (run s0 es) as [[s3 r3]|] eqn:E; [|done]. intros [= <- <-] E2. rewrite (IH s0 r3 E E2). simpl. by rewrite app_assoc.
Qed.

Lemma along_app P s es es' :
  along P s es → (∀ s' rows, run s es = Some (s', rows) → along P s' es') → along P s (es ++ es').
Proof.
  revert s. induction es as [|e es IH]; intros s; [by intros _ Hk; eapply Hk|].
  intros [He Hal] Hk. split; [done|]. intros s1 r1 E1. apply IH; [by eapply Hal|]. intros s2 r2 E2.
  eapply Hk. by eapply run_cons.
Qed.

Definition hang_up : sys_event A :=
  EvStreamEnds 0 (λ _, true) 0 0 0 [{| rd_at := 0; rd_line := ""; rd_err := Some REOF |}] 0 0.

Lemma meter_rows_stage now now' rows t :
  tm_stage (meter_rows now now' rows t) = tm_stage t.
Proof.
  revert t. induction rows as [|row rows IH]; intros t; [done|]. cbn [meter_rows foldl].
  fold (meter_rows now now' rows (Record_ t row now now')). rewrite IH. unfold Record_.
  destruct (_ <? _)%nat; [done|]. by destruct (TelemetryFacts.warn_books (lost t 1) now now') as (_ & _ & _ & -> & _).
Qed.

(** An upstream that hangs up ends its stream. *)
Lemma hang_up_step s o os :
  sy_crashed s = false → sy_streams s = o :: os → ∃ s' rows, step s hang_up = Some (s', rows) ∧
    sy_crashed s' = false ∧ sy_streams s' = os ∧ sy_inflight s' = sy_inflight s ∧
    sv_draining (sy_server s') = sv_draining (sy_server s) ∧
    tm_stage (sy_telemetry s') = tm_stage (sy_telemetry s).
Proof.
  intros Hc Hs. unfold sys_step, hang_up. rewrite Hc, Hs. cbn [lookup list_lookup mbind option_bind].
  destruct (finish_stream _ _ _ _ _ _ _ _ _ _) as [[bytes [c|]]|] eqn:Ef.
  - cbn [mbind option_bind fst snd]. eexists _, _. split; [reflexivity|]. cbn.
    apply finish_srv in Ef as ((_ & _ & -> & _) & _). by rewrite meter_rows_stage.
  - unfold finish_stream, stream_writer, relaySSE, Chat.record in Ef. by destruct (os_permit o).
  - unfold finish_stream, stream_writer, relaySSE, Chat.record in Ef. by destruct (os_permit o).
Qed.

Lemma streams_end s :
  sy_crashed s = false → ∃ es s' rows, Forall not_request es ∧ run s es = Some (s', rows) ∧
    sy_crashed s' = false ∧ sy_streams s' = [] ∧ sy_inflight s' = sy_inflight s ∧
    sv_draining (sy_server s') = sv_draining (sy_server s) ∧
    tm_stage (sy_telemetry s') = tm_stage (sy_telemetry s).
Proof.
  remember (sy_streams s) as l eqn:El. symmetry in El. revert s El. induction l as [|o os IH]; intros s El Hc.
  { exists [], s, []. by split_and!. }
  destruct (hang_up_step s o os Hc El) as (s1 & r1 & E1 & C1 & S1 & I1 & D1 & T1).
  destruct (IH s1 S1 C1) as (es & s2 & r2 & F2 & E2 & C2 & S2 & I2 & D2 & T2).
  exists (hang_up :: es), s2, (r1 ++ r2). split_and!; try congruence; [by constructor|by eapply run_cons].
Qed.

(** Requests in flight run to completion whatever they meet: here every poll lists
    nothing and every upstream is silent. *)
Definition silence : surroundings A :=
  mkSurroundings (λ _, (0, 0)) (λ _ _ _ _, Ok []) (λ _ _, (None, None)) (λ _, 0) false (λ _, "") (λ _, ("", 0)).

Lemma serve_completes s i x :
  sy_crashed s = false → sy_inflight s !! i = Some x → of_admin x = false →
  ∃ s' rows, step s (EvServe i silence 0 0) = Some (s', rows) ∧ lucky_event s (EvServe i silence 0 0) ∧
    sy_crashed s' = false ∧ sy_inflight s' = delete i (sy_inflight s) ∧
    sv_draining (sy_server s') = sv_draining (sy_server s) ∧
    tm_stage (sy_telemetry s') = tm_stage (sy_telemetry s).
Proof.
  intros Hc Hi Ho. destruct x as [a to].
  assert (lucky_event s (EvServe i silence 0 0)) as Hl by (simpl; rewrite Hi; by destruct to).
  destruct (step s (EvServe i silence 0 0)) as [[s' rows]|] eqn:E; [|unfold sys_step in E; by rewrite Hc, Hi in E].
  exists s', rows. split; [done|]. split; [done|].
  destruct (serve_step _ _ _ _ _ _ _ E) as (a' & to' & out & permit & c & _ & _ & _ & _ & Ein & _ & Et & Ecr).
  destruct (request_effect _ _ _ _ _ _ _ Hl E) as (a0 & to0 & srv & Hi' & (evs & d & Es) & Hcase).
  rewrite Hi in Hi'. injection Hi' as <- <-. split_and!; [done..| |by rewrite Et, meter_rows_stage].
  rewrite Es. cbn. destruct Hcase as [->|[(kt & s1 & _ & _ & Hsv & _ & _ & Ed & _)|(rt & rnd & at_ & -> & _)]]; [done| |done].
  by rewrite Ed, (sd_draining _ _ _ _ Hsv).
Qed.

Lemma requests_end s :
  sy_crashed s = false → ∃ es s' rows, Forall not_arrival es ∧ lucky s es ∧ run s es = Some (s', rows) ∧
    sy_crashed s' = false ∧ sy_inflight s' = List.filter of_admin (sy_inflight s) ∧
    sv_draining (sy_server s') = sv_draining (sy_server s) ∧
    tm_stage (sy_telemetry s') = tm_stage (sy_telemetry s).
Proof.
  remember (length (sy_inflight s)) as n eqn:En. revert s En. induction n as [n IH] using lt_wf_ind. intros s En Hc.
  destruct (forallb of_admin (sy_inflight s)) eqn:Ef.
  { exists [], s, []. split_and!; try done. symmetry. by apply forallb_filter_id. }
  assert (∃ i x, sy_inflight s !! i = Some x ∧ of_admin x = false) as (i & x & Hi & Hx).
  { apply not_true_iff_false in Ef. rewrite forallb_forall in Ef.
    destruct (decide (Exists (λ x, of_admin x = false) (sy_inflight s))) as [Hex|Hn].
    - apply Exists_exists in Hex as (x & [i Hi]%list_elem_of_lookup & Hx). eauto.
    - destruct Ef. intros x Hx. apply not_false_is_true. intros Hf. apply Hn, Exists_exists. exists x.
      by rewrite list_elem_of_In. }
  destruct (serve_completes s i x Hc Hi Hx) as (s1 & r1 & E1 & L1 & C1 & I1 & D1 & T1).
  destruct (IH (length (sy_inflight s1))) with (s := s1) as (es & s2 & r2 & F2 & L2 & E2 & C2 & I2 & D2 & T2); try done.
  { rewrite I1, length_delete by (by eexists). apply lookup_lt_Some in Hi. lia. }
  exists (EvServe i silence 0 0 :: es), s2, (r1 ++ r2). split_and!; try congruence; [by constructor| |by eapply run_cons|].
  2:{ rewrite I2, I1, delete_take_drop. rewrite <-(take_drop_middle _ _ _ Hi) at 3. rewrite !List.filter_app. simpl.
      by rewrite Hx. }
  split; [done|]. intros s' rows E. rewrite E1 in E. by injection E as <- <-.
Qed.

(** A stopped worker has a move, and it brings its exit closer. *)
Lemma worker_moves t m : tm_stop t = true → tm_stage t ≠ Exited →
  ∃ e t' m', TelemetryFacts.prompt e ∧ Telemetry.step t e = Some t' ∧ sink_store t e m = Some m'.
Proof.
  intros Hstop Hne. destruct (tm_stage t) as [|r by_ a b|r a b|n|] eqn:Est; [| | | |done].
  - exists Telemetry.EStop. simpl. rewrite Hstop, Est. simpl. eauto.
  - exists (ESink None 0 0). unfold sink_store, in_hand. simpl. rewrite Est. eauto.
  - exists Telemetry.EStop. simpl. rewrite Hstop, Est. simpl. eauto.
  - exists EDrain. simpl. rewrite Est. eauto.
Qed.

Lemma worker_ends s :
  sy_crashed s = false → tm_stop (sy_telemetry s) = true → tm_stage (sy_telemetry s) ≠ Exited →
  ∃ es s', Forall not_request es ∧ run s es = Some (s', []) ∧ sy_streams s' = sy_streams s ∧
    sy_inflight s' = sy_inflight s ∧ sv_draining (sy_server s') = sv_draining (sy_server s) ∧
    tm_stage (sy_telemetry s') = Exited ∧ tm_ch (sy_telemetry s') = [].
Proof.
  remember (TelemetryFacts.work_left (sy_telemetry s)) as n eqn:En. revert s En.
  induction n as [n IH] using lt_wf_ind. intros s En Hc Hstop Hne.
  destruct (worker_moves _ (sv_Store (sy_server s)) Hstop Hne) as (e & t' & m' & Hp & Et & Em).
  destruct (TelemetryFacts.prompt_step _ _ _ Hp Et) as [Es Hw].
  set (s1 := on_usage s (set_store (sy_server s) m') t').
  assert (step s (EvUsage e) = Some (s1, [])) as E1.
  { unfold sys_step. rewrite Hc, Et. cbn [mbind option_bind]. by rewrite Em. }
  assert (tm_stage t' = Exited ∨ tm_stage t' ≠ Exited) as [Hx|Hx] by (destruct (tm_stage t'); auto).
  - exists [EvUsage e], s1. split_and!; try done; [by repeat constructor|by rewrite (run_cons _ _ [] _ _ _ _ E1 eq_refl)|].
    by eapply TelemetryFacts.exit_step.
  - destruct (IH _ ltac:(rewrite En; exact Hw) s1 eq_refl Hc) as (es & s2 & F & Er & S2 & I2 & D2 & X2 & C2);
      [by rewrite <-Hstop|done|].
    exists (EvUsage e :: es), s2. split_and!; try done; [by constructor|by rewrite (run_cons _ _ _ _ _ _ _ E1 Er)].
Qed.

Lemma wind_down s :
  sy_crashed s = false → tm_stage (sy_telemetry s) ≠ Exited →
  ∃ es s' rows, Forall not_arrival es ∧ lucky s es ∧ run s es = Some (s', rows) ∧ sy_streams s' = [] ∧
    sy_inflight s' = List.filter of_admin (sy_inflight s) ∧
    sv_draining (sy_server s') = true ∧ tm_stage (sy_telemetry s') = Exited ∧ tm_ch (sy_telemetry s') = [].
Proof.
  intros Hc Hne. set (s1 := on_server s (set_draining (sy_server s) true)).
  assert (step s EvSignal = Some (s1, [])) as E1 by (unfold sys_step; by rewrite Hc).
  destruct (requests_end s1 Hc) as (es2 & s2 & r2 & F2 & L2 & E2 & C2 & I2 & D2 & T2).
  destruct (streams_end s2 C2) as (es3 & s3 & r3 & F3 & E3 & C3 & S3 & I3 & D3 & T3).
  set (s4 := on_usage s3 (sy_server s3) (Close (sy_telemetry s3))).
  assert (step s3 EvStop = Some (s4, [])) as E4 by (unfold sys_step; rewrite C3, D3, D2; done).
  destruct (worker_ends s4 C3 eq_refl) as (es5 & s5 & F5 & E5 & S5 & I5 & D5 & X5 & C5); [cbn; by rewrite T3, T2|].
  assert (Forall not_request (es3 ++ EvStop :: es5)) as Fq by (apply Forall_app; by split; [|constructor]).
  exists (EvSignal :: es2 ++ es3 ++ EvStop :: es5), s5, (r2 ++ r3).
  split_and!; try done; [..|by rewrite S5|by rewrite I5; cbn; rewrite I3, I2|by rewrite D5; cbn; rewrite D3, D2].
  - constructor; [done|]. apply Forall_app. split; [done|by apply not_requests_arrive].
  - split; [done|]. intros s' rows E. rewrite E1 in E. injection E as <- <-. apply along_app; [done|].
    intros s' rows _. by apply not_requests_draw.
  - rewrite <-(app_nil_r r3). change (r2 ++ r3 ++ []) with ([] ++ (r2 ++ (r3 ++ ([] ++ [])))).
    eapply run_cons; [exact E1|]. eapply run_trans; [exact E2|]. eapply run_trans; [exact E3|]. by eapply run_cons.
Qed.

(** The configuration is fixed at the start. *)
Lemma step_config s e s' rows :
  lucky_event s e → step s e = Some (s', rows) → sv_Config (sy_server s') = sv_Config (sy_server s).
Proof.
  intros Hl E. destruct e as [|i w now now'| | | | | | | |];
    [by destruct (step_aside _ _ _ _ E ltac:(done)) as [[] _]| |
     by destruct (step_aside _ _ _ _ E ltac:(done)) as [[] _]..].
  destruct (request_effect _ _ _ _ _ _ _ Hl E) as (a & to & srv & _ & (evs & d & ->) & Hcase). cbn.
  destruct Hcase as [->|[(kt & s1 & _ & _ & Hsv & -> & _)|(rt & rnd & at_ & _ & Ha)]]; [done|apply Hsv|apply Ha].
Qed.

Lemma config_fixed s es s' rows :
  lucky s es → run s es = Some (s', rows) → sv_Config (sy_server s') = sv_Config (sy_server s).
Proof.
  revert s rows. induction es as [|e es IH]; intros s rows; [by intros _ [= <- <-]|].
  intros [Hl Hal]. cbn [sys_run]. destruct (step s e) as [[s1 r1]|] eqn:E; [|done]. cbn [mbind option_bind fst snd].
  destruct (run s1 es) as [[s2 r2]|] eqn:Er; [|done]. intros [= <- <-].
  rewrite (IH s1 r2 (Hal _ _ eq_refl) Er). by eapply step_config.
Qed.

(** A run that serves no admin request draws nothing. *)
Fixpoint no_admin_served (s : system A) (es : list (sys_event A)) : bool :=
  match es with
  | [] => true
  | e :: es =>
      match e with
      | EvServe i _ _ _ => match sy_inflight s !! i with Some x => negb (of_admin x) | None => true end
      | _ => true
      end && match step s e with Some (s', _) => no_admin_served s' es | None => true end
  end.

Lemma quiet_along (P : system A → sys_event A → Prop) s es :
  (∀ s e, no_admin_served s [e] = true → P s e) → no_admin_served s es = true → along P s es.
Proof.
  intros HP. revert s. induction es as [|e es IH]; intros s; [done|]. intros [H1' H2']%andb_prop. split.
  - apply HP. simpl. rewrite H1'. by destruct (step s e) as [[]|].
  - intros s' rows E. rewrite E in H2'. by apply IH.
Qed.

Lemma quiet_event s e : no_admin_served s [e] = true → lucky_event s e ∧ ∀ h, draws_elsewhere h s e.
Proof.
  intros [H1' _]%andb_prop. destruct e as [|i w now now'| | | | | | | |]; try done. simpl in *.
  by destruct (sy_inflight s !! i) as [[a []]|].
Qed.

Lemma along_and (P Q : system A → sys_event A → Prop) s es :
  along P s es → along Q s es → along (λ s e, P s e ∧ Q s e) s es.
Proof.
  revert s. induction es as [|e es IH]; intros s; [done|]. intros [P1 P2] [Q1 Q2]. split; [done|].
  intros s' rows E. eapply IH; eauto.
Qed.

(** *** Theorems *)

(** The bearer token of a request is this stored, active data-plane key. *)
Definition presents (a : arrival) (s : Server A) (key : APIKey) : Prop :=
  k_Hash key = HashAPIKey (bearer (hr_header (ar_req a) "Authorization")) ∧
  (∃ ptr, live (sv_Store s) ptr key) ∧ Active key (ar_auth a) = true ∧ k_Plane key = PlaneData.

Lemma admitted_key s e r metered :
  sound s metered → admitted s e = Some r →
  ∃ i w now now' a key, e = EvServe i w now now' ∧ sy_inflight s !! i = Some (a, DataPlane) ∧
    presents a (sy_server s) key ∧ TenantID r = k_TenantID key.
Proof.
  intros Hsn Ha. destruct e as [|i w now now'| | | | | | | |]; try done. simpl in Ha.
  destruct (sy_inflight s !! i) as [[a []]|] eqn:Hi; try done.
  destruct (GatewayFacts.credential a _) as [kt|] eqn:Eg; [|done]. injection Ha as <-.
  destruct (GatewayFacts.credential_key _ _ _ (ss_store _ (sn_server _ _ Hsn)) Eg) as (K1 & K2 & K3 & K4 & K5).
  exists i, w, now, now', a, kt.1. by split_and!.
Qed.

(** C3: What leaves the gateway for an upstream is its own tenant's: in any sound
    state the completions an event sends are those of a data-plane request whose
    bearer token is a stored, active data-plane key, each to an enabled provider
    of that key's tenant, at its address, with one of its credentials. The model
    listings it asks for go to an enabled provider of one tenant, at its address,
    with its first credential; that tenant is the one of such a request, or one
    an authenticated admin request may act on. Providers are sent nothing else. *)
Theorem calls_stay_at_home s e s' rows metered :
  sound s metered → lucky_event s e → step s e = Some (s', rows) →
  ∃ cs ps, sent s' = sent s ++ cs ∧ asked s' = asked s ++ ps ∧
    Forall (λ c, ∃ i w now now' a key streaming, e = EvServe i w now now' ∧
      sy_inflight s !! i = Some (a, DataPlane) ∧ presents a (sy_server s) key ∧
      own_call adapters (k_TenantID key) streaming (sv_Store (sy_server s)) c) cs ∧
    Forall (λ l, own_listing adapters (ListProviders (sv_Store (sy_server s)) (lc_Tenant l)) l ∧
      ∃ i w now now' a to, e = EvServe i w now now' ∧ sy_inflight s !! i = Some (a, to) ∧
        ((to = DataPlane ∧ ∃ key, presents a (sy_server s) key ∧ lc_Tenant l = k_TenantID key) ∨
         (∃ rt rnd at_ kt, to = AdminPlane rt rnd at_ ∧
            auth (sv_Config (sy_server s)) (sv_Store (sy_server s)) (ar_auth a) PlaneAdmin
              (hr_header (ar_req a) "Authorization") = Ok kt ∧
            may_touch (with_auth (identify a) kt) (lc_Tenant l)))) ps.
Proof.
  intros Hsn Hl Hs. destruct (step_calls _ _ _ _ Hl Hs) as ((cs & Ec & HC) & ps & Ep & HP).
  exists cs, ps. split_and!; [done..| |]; (eapply Forall_impl; [first [exact HC|exact HP]|]).
  - intros c (r & streaming & Ha & Hc).
    destruct (admitted_key _ _ _ _ Hsn Ha) as (i & w & now & now' & a & key & -> & Hi & Hk & Ht).
    rewrite Ht in Hc. by exists i, w, now, now', a, key, streaming.
  - intros l [Ho [(r & Ha & Ht)|(i & w & now & now' & a & rt & rnd & at_ & kt & -> & Hi & Hau & Hm)]]; (split; [done|]).
    + destruct (admitted_key _ _ _ _ Hsn Ha) as (i & w & now & now' & a & key & -> & Hi & Hk & Ht').
      exists i, w, now, now', a, DataPlane. split_and!; [done..|]. left. split; [done|]. exists key. by rewrite Ht.
    + exists i, w, now, now', a, (AdminPlane rt rnd at_). split_and!; [done..|]. right. by exists rt, rnd, at_, kt.
Qed.

(** C9: A drain only winds down. Once the server is draining, whatever arrives and
    however requests, streams, emitters and workers interleave: the drain is not
    undone; the requests of the two planes that are served are requests that were
    in flight, each once, and whoever is admitted is one of them; each of them
    accounts for at most one usage row or open stream. While none of them is
    served nothing is asked of any provider; while none of the data plane is,
    nothing is sent upstream, no stream opens and one row is metered for each
    stream that ends; and while none of the admin plane is, the store takes usage
    rows and event records and no other change. *)
Theorem drain_only_winds_down s es s' rows :
  metrics_apart (sv_Config (sy_server s)) → along (λ s e, routed_event s e ∧ lucky_event s e) s es →
  sv_draining (sy_server s) = true → run s es = Some (s', rows) →
  let taken := served_in s es in
  sv_draining (sy_server s') = true ∧
  at_work (sy_inflight s) ≡ₚ taken ++ at_work (sy_inflight s') ∧
  Forall (λ r, ∃ a kt, (a, DataPlane) ∈ taken ∧ r = with_auth (identify a) kt) (admissions s es) ∧
  (length rows + length (sy_streams s') ≤ length (sy_streams s) + length (List.filter of_data taken))%nat ∧
  (taken = [] → asked s' = asked s) ∧
  (List.filter of_data taken = [] → sent s' = sent s ∧ sy_streams s' `sublist_of` sy_streams s ∧
     (length rows + length (sy_streams s') = length (sy_streams s))%nat) ∧
  (List.filter of_admin taken = [] → logs_only s s').
Proof.
  intros Hm Hal Hd Hr. destruct (drain_run _ _ _ _ Hm Hal Hd Hr) as [? _ ? ? ? ? ?].
  cbv zeta. by split_and!; [..|apply admissions_served| | | |].
Qed.

(** C10: Shutting down closes the books: from every sound state whose process runs and
    whose usage worker has not left, the gateway can be brought to rest without
    letting another request in, the requests in flight off the admin plane served
    to their end (those of the admin plane are left to the drain's deadline). At rest no stream is open, every permit of every key is back,
    the worker has exited with nothing queued, and every row ever metered is in
    the sink or counted as lost. *)
Theorem shutdown_closes_the_books s metered :
  sound s metered → sy_crashed s = false → tm_stage (sy_telemetry s) ≠ Exited →
  ∃ es s' rows settled refused, Forall not_arrival es ∧ run s es = Some (s', rows) ∧ sy_streams s' = [] ∧
    sy_inflight s' = List.filter of_admin (sy_inflight s) ∧
    sv_draining (sy_server s') = true ∧ (∀ k, LimitsFacts.open (limiter (sy_server s')) k = 0) ∧
    tm_stage (sy_telemetry s') = Exited ∧ metered ++ rows ≡ₚ settled.*1 ++ refused ∧
    tm_persisted (sy_telemetry s') = kept settled ∧
    tm_metrics (sy_telemetry s') = Some (Z.of_nat (length refused) + losses settled).
Proof.
  intros Hs Hc Hne. destruct (wind_down s Hc Hne) as (es & s' & rows & F & L & Er & S1 & I1' & D1 & X1 & C1).
  pose proof (run_sound _ _ _ _ _ L Er Hs) as [_ Hp Hb].
  destruct Hb as [(l & Hl & [I1 I2 I3 _ _] & Ho) [n Hn] _]. destruct (TelemetryFacts.ledger_reachable l Hl) as [Hperm _].
  exists es, s', rows, (lg_settled l), (lg_refused l). rewrite <-Ho. split_and!; try done.
  - intros k. rewrite (permits_of_streams _ _ k Hp). unfold held. by rewrite S1.
  - rewrite Hperm, I1. unfold in_flight. by rewrite X1, C1.
  - rewrite Hn. specialize (I3 n Hn). unfold pending in I3. rewrite X1 in I3. f_equal. lia.
Qed.

(** C11: A revoked credential is shut out for good: once the store has it as revoked no
    later event, in any order, lets a request in under it, and at the end it still
    authenticates on neither plane. Only an admin request that happened to draw
    the same secret again could change that. *)
Theorem revoked_credential_is_shut_out h ptr k s es s' rows metered :
  mem_keysByHash (sv_Store (sy_server s)) !! h = Some ptr → mem_heap (sv_Store (sy_server s)) !! ptr = Some k →
  k_RevokedAt k ≠ None →
  sound s metered → along (λ s e, lucky_event s e ∧ draws_elsewhere h s e) s es →
  run s es = Some (s', rows) →
  Forall (λ r, ∀ key, hr_key r = Some key → k_Hash key ≠ h) (admissions s es) ∧
  ∀ at_ plane header, HashAPIKey (bearer header) = h →
    bootstrapMatches (sv_Config (sy_server s')) (bearer header) = false →
    is_ok (auth (sv_Config (sy_server s')) (sv_Store (sy_server s')) at_ plane header) = false.
Proof.
  intros Hb Hk Hrev Hs Hal Hrun.
  assert (dead (sv_Store (sy_server s)) h) as Hd by (intros ptr' k' Hb' Hk'; by simplify_eq).
  destruct (run_dead _ _ _ _ _ _ Hal Hrun Hs Hd) as (Had & Hm' & Hd'). split; [done|].
  intros at_ plane header Hh Hboot. unfold auth. case_bool_decide; [done|]. rewrite Hboot.
  destruct (PlaneOf _); [|done]. destruct (negb _); [done|]. cbn [ks_ResolveKey memory_key_store].
  by rewrite (dead_refused _ _ at_ _ Hd' Hh).
Qed.
End props.

(** ** From the start of the process *)

Section process.
Context `{Unicode} `{Crypto} `{JsonStream} `{HttpDates} `{JsonNumbers} `{NetUrl} (url_error : string → error).
Context (load_keypair : string → string → option error).

Abbreviation process_run a := (sys_run (ap_registry a) (boot a)).

Lemma boot_ids cfg dev version rnd now a :
  build url_error load_keypair cfg dev version rnd now = Some (Ok a) →
  (dev = true → fresh_ops (NewMemory true) (seed_ops rnd now)) →
  ids_clean (sv_Store (ap_server a)) ∧ (∀ t, at_key (mem_usage (sv_Store (ap_server a))) t = []) ∧
  sv_limits (ap_server a) = sv_limits (ap_server (assemble cfg dev version (ap_client a) (now 3%nat))) ∧
  ap_telemetry a = NewTelemetry (cf_TelemetryBuffer cfg) true true.
Proof.
  intros (client & _ & Hb)%ProcessFacts.build_cases Hf. cbv zeta in Hb.
  assert (∀ d, ids_clean (NewMemory d) ∧ ∀ t, at_key (mem_usage (NewMemory d)) t = []) as Hnew.
  { intros d. split; [|done]. intros id. simpl. rewrite lookup_empty. by intros [? ?]. }
  destruct dev; [|by subst a; destruct (Hnew false)]. destruct Hb as (creds & m & Es & ->).
  destruct (seedDev_spec true rnd now) as (kd & data & m2 & ka & admin & m3 & E2 & E3 & E).
  rewrite E in Es. injection Es as <- <-. cbn [ap_server ap_client ap_telemetry set_store sv_Store].
  destruct (seeded_ok _ _ _ _ _ _ _ _ _ E2 E3 (Hf eq_refl)) as (_ & _ & _ & _ & _ & Er & _). rewrite <-Er.
  destruct (Hnew true) as [Hi Hu]. split_and!; try done; [by apply ids_clean_run|]. intros t.
  destruct (at_key _ t) as [|u l] eqn:El; [done|]. exfalso.
  assert (u ∈ at_key (mem_usage (NewMemory true)) t) as Hin; [|rewrite Hu in Hin; by apply elem_of_nil in Hin].
  apply (usage_run _ (seed_ops rnd now)); [by repeat constructor|]. rewrite El. by left.
Qed.

Lemma boot_sound cfg dev version rnd now a :
  Validate cfg = None → 0 ≤ cc_MaxEntryBytes (cf_Cache cfg) → 2 * cc_MaxBytes (cf_Cache cfg) ≤ maxInt64 →
  build url_error load_keypair cfg dev version rnd now = Some (Ok a) →
  (dev = true → fresh_ops (NewMemory true) (seed_ops rnd now)) →
  sound (boot a) [].
Proof.
  intros Hv Hc1 Hc2 Hb Hf.
  destruct (ProcessFacts.built_process_is_sound _ _ _ _ _ _ _ _ Hv Hc1 Hc2 Hb Hf) as (Hs & Hk & Hw & _ & Hi & _ & _ & Hst).
  destruct (ProcessFacts.built_config _ _ _ _ _ _ _ _ Hb) as [Ec _].
  destruct (boot_ids _ _ _ _ _ _ Hb Hf) as (Hid & Hu & Hl & Ht). destruct Hs as [S1 S2].
  split; cbn [boot sy_server sy_telemetry sy_streams].
  - split; try done. rewrite Ec. exact (Hst (λ _, (0, 0)) (λ _ _ _ _, Ok []) []).
  - rewrite Hl. split; [done|constructor|]. intros p. simpl. split; [by intros [? ?]|by intros ?%elem_of_nil].
  - rewrite Ht in *. split; [|by eexists|intros t u; rewrite Hu; by intros ?%elem_of_nil].
    exists no_ledger. by split_and!.
Qed.


(** C2: Usage is conserved from the request to the books: of the rows metered since
    the start each is settled, in the worker's hands, queued or refused, those
    accepted in the order they were metered; the sink has exactly those settled
    well, the counter with what a drain has still to report counts the others; the
    store, which is the sink where no analytics service is configured, holds only
    those; and every row is of a request that was let in, under its id, tenant and
    key. *)
Theorem usage_is_conserved cfg dev version rnd now a es s metered :
  Validate cfg = None → 0 ≤ cc_MaxEntryBytes (cf_Cache cfg) → 2 * cc_MaxBytes (cf_Cache cfg) ≤ maxInt64 →
  build url_error load_keypair cfg dev version rnd now = Some (Ok a) →
  (dev = true → fresh_ops (NewMemory true) (seed_ops rnd now)) →
  ap_client a = None → along (ap_registry a) lucky_event (boot a) es → process_run a es = Some (s, metered) →
  let t := sy_telemetry s in
  (∃ settled refused n,
     metered ≡ₚ settled.*1 ++ in_flight t ++ tm_ch t ++ refused ∧
     settled.*1 ++ in_flight t ++ tm_ch t `sublist_of` metered ∧
     tm_persisted t = kept settled ∧ tm_metrics t = Some n ∧
     n + pending t = Z.of_nat (length refused) + losses settled ∧
     (∀ ten u, u ∈ at_key (mem_usage (sv_Store (sy_server s))) ten → u ∈ kept settled)) ∧
  Forall (λ row, ∃ r, r ∈ admissions (ap_registry a) (boot a) es ∧ row_of_caller r row) metered.
Proof.
  intros Hv Hc1 Hc2 Hb Hf _ Hl Hr. cbv zeta. pose proof (boot_sound _ _ _ _ _ _ Hv Hc1 Hc2 Hb Hf) as H0'.
  pose proof (run_sound _ _ _ _ _ _ Hl Hr H0') as [_ _ [(l & Hl' & [I1 I2 I3 _ _] & Ho) [n Hn] Hst]].
  split; [|exact (run_attributed _ _ _ _ _ [] Hr (Forall_nil_2 _))]. simpl in Ho.
  destruct (TelemetryFacts.ledger_reachable l Hl') as [Hperm Hsub]. rewrite I1, Ho in *.
  exists (lg_settled l), (lg_refused l), n. rewrite <-app_assoc in Hperm. rewrite <-I2. split_and!; try done. by apply I3.
Qed.
End process.

(** *** Witnesses *)

#[local] Existing Instance ascii_only.
#[local] Existing Instance binary_codec.
#[local] Existing Instance DispatchProps.no_dates.
#[local] Existing Instance CacheFacts.one_document.
#[local] Existing Instance CacheFacts.identity_hash.
#[local] Existing Instance ProcessFacts.any_url.
#[local] Existing Instance ProcessFacts.plain_numbers.

Definition dev_key (f : devCredentials → string) : string :=
  match ProcessFacts.dev_keys with Some c => f c | None => "" end.

Definition knock (verb path token body rnd : string) : arrival :=
  {| ar_req := {| hr_key := None; hr_tenant := None; hr_id := ""; hr_clientID := ""; hr_method := verb;
                  hr_path := path;
                  hr_param p := if bool_decide (p = "tenant") then dev_key dc_TenantID else NewID IDKey "cccccc";
                  hr_query _ := "";
                  hr_header h := if bool_decide (h = "Authorization") then "Bearer " +:+ token else "";
                  hr_now n := 50 + Z.of_nat n; hr_rnd n := rnd +:+ String (ascii_of_nat (48 + n)) EmptyString |};
     ar_body := body; ar_length := Z.of_nat (String.length body); ar_route := PostChat;
     ar_rnd := rnd; ar_auth := 50; ar_limit := 51; ar_capture := 60; ar_draw := fzero; ar_capture_rnd := "" |}.

Definition good_reply : DoResult :=
  (Some {| rs_StatusCode := 200; rs_Header := None; Provider.rs_Body := "answer";
           rs_Usage := Some {| us_PromptTokens := 10; us_CompletionTokens := 20; us_TotalTokens := 30 |};
           rs_Failure := FailNone; rs_Latency := 7 * Millisecond |}, None).

Definition outside : surroundings Adapter :=
  mkSurroundings (λ _, (0, 0)) (λ _ _ _ _, Ok [CatalogFacts.demo_model "m" 1]) (λ _ _, good_reply)
    DispatchProps.demo_clock false (λ _, "") (λ _, ("event", 60)).

(** Requests, each arriving and, in [ask] and [manage], served at once. *)
Definition ring (stream : bool) (rnd : string) : sys_event Adapter :=
  EvArrive (knock "POST" "/v1/chat/completions" (dev_key dc_DataKey) (ChatFacts.chat_text stream) rnd) DataPlane.
Definition serve : sys_event Adapter := EvServe 0 outside 60 60.
Definition ask (stream : bool) (rnd : string) : list (sys_event Adapter) := [ring stream rnd; serve].
Definition manage (verb path : string) (rt : route) : list (sys_event Adapter) :=
  [EvArrive (knock verb path (dev_key dc_AdminKey) "" "xx") (AdminPlane rt "yy" 60); serve].
Definition set_up : list (sys_event Adapter) :=
  manage "POST" "/admin/v1/tenants/t/providers"
    (RCreateProvider (Ok {| cp_Name := "one"; cp_Kind := "openai"; cp_BaseURL := "http://u"; cp_Keys := ["k"];
                            cp_Enabled := Some true; cp_KeyStrategy := "" |})).
Definition revoke : list (sys_event Adapter) := manage "DELETE" "/admin/v1/tenants/t/keys/k" RRevokeKey.

(** A completion and a stream are asked for, the first row is written while the
    stream is open. *)
Definition morning : list (sys_event Adapter) :=
  ask false "r1" ++ ask true "r2" ++ [EvUsage ETake; EvUsage (ESink None 70 70)].

Definition the_app : option app := ProcessFacts.booted ProcessFacts.dev_config true.
Abbreviation app_run a := (sys_run (ap_registry a) (boot a)).
Definition day (es : list (sys_event Adapter)) : option (system Adapter * list UsageRecord) :=
  a ← the_app; app_run a es.

(** The first event of a day may draw what it draws. *)
Definition lucky_start (a : app) : Prop := fresh_draws (ar_req (knock "" "" "" "" "xx")) (sv_Store (ap_server a)).

Lemma start_is_lucky a : the_app = Some a → lucky_start a.
Proof.
  intros E. split.
  - assert ((λ a, mem_keys (sv_Store (ap_server a)) !! NewID IDKey "xx1") <$> the_app = Some None) as Hc
      by (vm_compute; reflexivity). rewrite E in Hc. injection Hc as Hc. exact Hc.
  - intros p x Hx. assert ((λ a, x ← GenerateAPIKey p (mem_dev (sv_Store (ap_server a))) "xx0";
      mem_keysByHash (sv_Store (ap_server a)) !! x.2) <$> the_app = Some None) as Hc by (destruct p; vm_compute; reflexivity).
    rewrite E in Hc. injection Hc as Hc. change (hr_rnd _ 0%nat) with "xx0" in Hx. rewrite Hx in Hc. exact Hc.
Qed.

Lemma no_service a : the_app = Some a → ap_client a = None.
Proof.
  intros E. assert (ap_client <$> the_app = Some None) as Hc by (vm_compute; reflexivity). rewrite E in Hc.
  injection Hc as Hc. exact Hc.
Qed.

(** After these events the others serve no admin request. *)
Definition quiet_after (es es' : list (sys_event Adapter)) : bool :=
  match the_app with
  | Some a => match app_run a es with Some (s, _) => no_admin_served (ap_registry a) s es' | None => true end
  | None => true
  end.

Lemma managed_lucky a verb path rt :
  the_app = Some a → along (ap_registry a) lucky_event (boot a) (manage verb path rt).
Proof.
  intros Ha. split; [done|]. intros s1 r1 E1. split; [|done]. unfold sys_step in E1. cbn [boot sy_crashed sy_server] in E1.
  destruct (front_gates _ _); injection E1 as <- <-; [by apply start_is_lucky|done].
Qed.

Lemma day_splits verb path rt es x :
  day (manage verb path rt ++ es) = Some x → quiet_after (manage verb path rt) es = true →
  ∃ a, the_app = Some a ∧ app_run a (manage verb path rt ++ es) = Some x ∧
    build AdapterFacts.bad_address ProcessFacts.no_file ProcessFacts.dev_config true "v" ProcessFacts.draws
      ProcessFacts.at_boot = Some (Ok a) ∧
    along (ap_registry a) lucky_event (boot a) (manage verb path rt ++ es).
Proof.
  unfold day, quiet_after. destruct the_app as [a|] eqn:E; [|done]. simpl mbind. intros Hr Hq. exists a. split_and!; try done.
  - by apply ProcessFacts.booted_build.
  - apply along_app; [by apply managed_lucky|]. intros s' rows Er. rewrite Er in Hq.
    eapply quiet_along; [|exact Hq]. intros s0 e He. by apply (quiet_event _ _ _ He).
Qed.

Lemma day_sound verb path rt es s rows :
  day (manage verb path rt ++ es) = Some (s, rows) → quiet_after (manage verb path rt) es = true →
  ∃ a, the_app = Some a ∧ sound s rows.
Proof.
  intros Hd HF. destruct (day_splits _ _ _ _ _ Hd HF) as (a & Ha & Hr & Hb & Hl). exists a. split; [done|].
  apply (run_sound _ _ _ _ _ [] Hl Hr).
  apply (boot_sound AdapterFacts.bad_address ProcessFacts.no_file ProcessFacts.dev_config true "v" ProcessFacts.draws
    ProcessFacts.at_boot a); [by vm_compute..|exact Hb|intros _; exact ProcessFacts.draws_fresh].
Qed.

(** What is left of a day: rows metered, streams open, calls made, rows in the
    store, permits out. *)
Definition report (x : system Adapter * list UsageRecord) : nat * nat * nat * nat * nat :=
  (length x.2, length (sy_streams x.1), length (d_calls (sv_Dispatcher (sy_server x.1))),
   length (at_key (mem_usage (sv_Store (sy_server x.1))) (dev_key dc_TenantID)), length (held x.1)).

Lemma morning_report : report <$> day (set_up ++ morning) = Some (1, 1, 2, 1, 1)%nat.
Proof. vm_compute. reflexivity. Qed.

Lemma morning_draws : quiet_after set_up morning = true.
Proof. vm_compute. reflexivity. Qed.


Lemma usage_is_conserved_witness :
  ∃ a s row settled, the_app = Some a ∧ app_run a (set_up ++ morning) = Some (s, [row]) ∧
    settled.*1 ++ in_flight (sy_telemetry s) ++ tm_ch (sy_telemetry s) `sublist_of` [row] ∧
    tm_persisted (sy_telemetry s) = kept settled ∧
    ∃ r, r ∈ admissions (ap_registry a) (boot a) (set_up ++ morning) ∧ row_of_caller r row.
Proof.
  pose proof morning_report as Hrep. destruct (day (set_up ++ morning)) as [[s rows]|] eqn:Ed; [|discriminate Hrep].
  injection Hrep as Hrows _ _ _ _. destruct (day_splits _ _ _ _ _ Ed morning_draws) as (a & Ha & Hr & Hb & Hl).
  destruct (usage_is_conserved AdapterFacts.bad_address ProcessFacts.no_file ProcessFacts.dev_config true "v"
    ProcessFacts.draws ProcessFacts.at_boot a _ s rows ltac:(by vm_compute) ltac:(by vm_compute) ltac:(by vm_compute) Hb
    (λ _, ProcessFacts.draws_fresh) (no_service a Ha) Hl Hr) as ((settled & _ & _ & _ & Hsub & Hper & _) & Hat).
  destruct rows as [|row [|]]; [discriminate Hrows| |discriminate Hrows]. exists a, s, row, settled.
  split; [exact Ha|]. split; [exact Hr|]. split; [exact Hsub|]. split; [exact Hper|]. exact (Forall_inv Hat).
Defined.

(** The state a day ends in. *)
Definition after (es : list (sys_event Adapter)) : system Adapter * list UsageRecord :=
  default (mkSystem (NewServer Default "" false (NewMemory false) (app_catalog Default) (NewResolver 0)
    (NewDispatcher (app_breaker Default)) None 0) [] [] (NewTelemetry 0 true true) [] false, []) (day es).

Lemma after_sound verb path rt es :
  is_Some (day (manage verb path rt ++ es)) → quiet_after (manage verb path rt) es = true →
  ∃ a, the_app = Some a ∧ let x := after (manage verb path rt ++ es) in sound x.1 x.2.
Proof. intros [[s rows] Hd] HF. unfold after. rewrite Hd. by eapply day_sound. Qed.

Lemma day_goes es : is_None_b (day es) = false → is_Some (day es).
Proof. destruct (day es); [by eexists|done]. Qed.

Definition providers : gmap string Adapter := default ∅ (ap_registry <$> the_app).

Lemma set_up_sound es : is_Some (day (set_up ++ es)) → quiet_after set_up es = true →
  sound (after (set_up ++ es)).1 (after (set_up ++ es)).2.
Proof. intros Hd HF. by destruct (after_sound _ _ _ es Hd HF) as (a & Ha & Hs). Qed.

(** A completion waits to be served: the first, for which the models are listed. *)
Definition waiting : system Adapter := (after (set_up ++ [ring false "r1"])).1.

Lemma calls_stay_at_home_witness :
  ∃ s' rows cs ps, sys_step providers waiting serve = Some (s', rows) ∧
    length cs = 1%nat ∧ length ps = 1%nat ∧
    Forall (λ c, ∃ key streaming,
      own_call providers (k_TenantID key) streaming (sv_Store (sy_server waiting)) c) cs ∧
    Forall (λ l, own_listing providers (ListProviders (sv_Store (sy_server waiting)) (lc_Tenant l)) l) ps.
Proof.
  assert ((λ x, (length (d_calls (sv_Dispatcher (sy_server x.1))), length (cat_polls (sv_Catalog (sy_server x.1))))) <$>
    sys_step providers waiting serve = Some (1, 1)%nat) as Hc by (vm_compute; reflexivity).
  assert (length (d_calls (sv_Dispatcher (sy_server waiting))) = 0%nat) as H0' by (vm_compute; reflexivity).
  assert (length (cat_polls (sv_Catalog (sy_server waiting))) = 0%nat) as H1' by (vm_compute; reflexivity).
  assert (no_admin_served providers waiting [serve] = true) as Hq by (vm_compute; reflexivity).
  assert (sound waiting (after (set_up ++ [ring false "r1"])).2) as Hsn
    by (apply set_up_sound; [apply day_goes; vm_compute; reflexivity|vm_compute; reflexivity]).
  destruct (sys_step providers waiting serve) as [[s' rows]|] eqn:E; [|discriminate Hc].
  injection Hc as Hc Hc'.
  destruct (calls_stay_at_home providers waiting serve s' rows _ Hsn (proj1 (quiet_event _ _ _ Hq)) E)
    as (cs & ps & Es & Ep & HC & HP).
  exists s', rows, cs, ps. split; [reflexivity|]. cbn [fst] in Hc, Hc'. rewrite Es, length_app in Hc.
  rewrite Ep, length_app in Hc'. split; [lia|]. split; [lia|].
  split; (eapply Forall_impl; [first [exact HC|exact HP]|]).
  - intros c (i & w & n & n' & a & key & streaming & _ & _ & _ & Ho). eauto.
  - intros l [Ho _]. exact Ho.
Defined.

(** The drain begins with a stream open and a completion in flight. *)
Definition evening : system Adapter := (after (set_up ++ morning ++ [ring false "r3"; EvSignal])).1.

Lemma drain_only_winds_down_witness :
  let es := [ring false "r4"; serve; hang_up] in
  ∃ s' rows, sys_run providers evening es = Some (s', rows) ∧
    length (sy_streams evening) = 1%nat ∧ length (sy_inflight evening) = 1%nat ∧
    List.filter working (sy_inflight evening) ≡ₚ served_in providers evening es ++ List.filter working (sy_inflight s') ∧
    length rows = 2%nat ∧ length (served_in providers evening es) = 1%nat ∧ logs_only evening s'.
Proof.
  cbv zeta. set (es := [ring false "r4"; serve; hang_up]).
  assert (length (sy_streams evening) = 1%nat) as Hl by (vm_compute; reflexivity).
  assert (length (sy_inflight evening) = 1%nat) as Hi by (vm_compute; reflexivity).
  assert (sv_draining (sy_server evening) = true) as Hd by (vm_compute; reflexivity).
  assert (metrics_apart (sv_Config (sy_server evening))) as Hm by (split; vm_compute; reflexivity).
  assert ((λ x, length x.2) <$> sys_run providers evening es = Some 2%nat) as Hr by (vm_compute; reflexivity).
  assert (length (served_in providers evening es) = 1%nat) as Ht by (vm_compute; reflexivity).
  assert (length (List.filter of_admin (served_in providers evening es)) = 0%nat) as Hn by (vm_compute; reflexivity).
  assert (no_admin_served providers evening es = true) as Hq by (vm_compute; reflexivity).
  destruct (sys_run providers evening es) as [[s' rows]|] eqn:E; [|discriminate Hr]. injection Hr as Hr.
  assert (along providers routed_event evening es) as Hro
    by (split; [reflexivity|intros; split; [exact I|intros; split; [exact I|intros; exact I]]]).
  destruct (drain_only_winds_down providers evening es s' rows Hm) as (_ & Hin & _ & _ & _ & _ & Hlog);
    [apply along_and; [exact Hro|]; eapply quiet_along; [|exact Hq]; intros s0 e He; apply (quiet_event _ _ _ He)
    |exact Hd|exact E|].
  exists s', rows. split; [reflexivity|]. split; [exact Hl|]. split; [exact Hi|]. split; [exact Hin|].
  split; [exact Hr|]. split; [exact Ht|]. apply Hlog. apply length_zero_iff_nil. exact Hn.
Defined.

Lemma shutdown_closes_the_books_witness :
  let x := after (set_up ++ morning ++ [ring false "r3"]) in
  ∃ es s' rows (settled : list (UsageRecord * bool)) refused,
    sys_run providers x.1 es = Some (s', rows) ∧ sy_streams s' = [] ∧ sy_inflight s' = [] ∧
    x.2 ++ rows ≡ₚ settled.*1 ++ refused.
Proof.
  cbv zeta. set (es0 := morning ++ [ring false "r3"]).
  assert (sound (after (set_up ++ es0)).1 (after (set_up ++ es0)).2) as Hsn
    by (apply set_up_sound; [apply day_goes; vm_compute; reflexivity|vm_compute; reflexivity]).
  assert (length (List.filter of_admin (sy_inflight (after (set_up ++ es0)).1)) = 0%nat) as Hi by (vm_compute; reflexivity).
  destruct (shutdown_closes_the_books providers (after (set_up ++ es0)).1 _ Hsn)
    as (es & s' & rows & settled & refused & _ & Hr & Hs & Hin & _ & _ & _ & Hp & _);
    [vm_compute; reflexivity|intros Hx; vm_compute in Hx; discriminate Hx|].
  apply length_zero_iff_nil in Hi. exists es, s', rows, settled, refused.
  split; [exact Hr|]. split; [exact Hs|]. split; [by rewrite Hin|exact Hp].
Defined.

Lemma revoked_credential_is_shut_out_witness :
  let x := after revoke in
  let h := HashAPIKey (dev_key dc_DataKey) in
  ∃ s' rows, sys_run providers x.1 (ask false "r1") = Some (s', rows) ∧
    Forall (λ r, ∀ key, hr_key r = Some key → k_Hash key ≠ h) (admissions providers x.1 (ask false "r1")) ∧
    is_ok (auth (sv_Config (sy_server s')) (sv_Store (sy_server s')) 99 PlaneData ("Bearer " +:+ dev_key dc_DataKey)) = false.
Proof.
  cbv zeta. assert (is_Some (day revoke)) as Hd by (apply day_goes; vm_compute; reflexivity).
  destruct (after_sound "DELETE" "/admin/v1/tenants/t/keys/k" RRevokeKey [] Hd ltac:(vm_compute; reflexivity)) as (a & Ha & Hs).
  rewrite app_nil_r in Hs. fold revoke in Hs. cbv zeta in Hs.
  assert (∃ ptr k, mem_keysByHash (sv_Store (sy_server (after revoke).1)) !! HashAPIKey (dev_key dc_DataKey) = Some ptr ∧
    mem_heap (sv_Store (sy_server (after revoke).1)) !! ptr = Some k ∧ k_RevokedAt k ≠ None) as (ptr & k & H1' & H2' & H3').
  { eexists _, _. split; [vm_compute; reflexivity|]. split; [vm_compute; reflexivity|discriminate]. }
  assert (no_admin_served providers (after revoke).1 (ask false "r1") = true) as Hq by (vm_compute; reflexivity).
  assert ((λ x, bootstrapMatches (sv_Config (sy_server x.1)) (bearer ("Bearer " +:+ dev_key dc_DataKey))) <$>
    sys_run providers (after revoke).1 (ask false "r1") = Some false) as Hbm by (vm_compute; reflexivity).
  destruct (sys_run providers (after revoke).1 (ask false "r1")) as [[s' rows]|] eqn:E; [|discriminate Hbm].
  injection Hbm as Hbm.
  destruct (revoked_credential_is_shut_out providers _ ptr k (after revoke).1 (ask false "r1") s' rows _
    H1' H2' H3' Hs ltac:(eapply quiet_along; [|exact Hq]; intros s0 e He; destruct (quiet_event _ _ _ He); auto) E)
    as [Had Hau]. exists s', rows. split; [reflexivity|]. split; [exact Had|].
  apply Hau; [vm_compute; reflexivity|exact Hbm].
Defined.
End MachineFacts.
